(* ===== verification/_CoqProject ===== *)
-Q . S2P
Prelude.v
RustStr.v
Names.v
SharedTypes.v
F64.v
CollectorTypes.v
Observations.v
Samples.v
ReadModels.v
Store.v
Incidents.v
Kinds.v
Engine.v
Hysteresis.v
BitcoinRules.v
LndRules.v
Notifications.v
Storage.v
Senders.v
Worker.v
Consumer.v
Dispatches.v
SqliteRows.v
Sqlite.v
SqliteRefinement.v
SqliteStores.v
Schema.v
Api.v
Notifier.v
Delivery.v
Watch.v
Pairing.v
Collectors.v
BitcoinPoller.v
LndPoller.v
Supervisor.v
BTreeMap.v
Config.v
Bootstrap.v
Runtime.v
Assembly.v
EndToEnd.v
