(* ===== verification/Prelude.v ===== *)
(** * Bithound: a verification library of the sidecar's core

    Bithound is a sidecar that watches Bitcoin Core and LND nodes. Collectors
    poll the nodes and send batches of observations to one consumer task. The
    consumer appends them to a store, folds them into in-memory read models,
    runs the diagnostic rules on the read models and hands the rules' drafts
    to the incident engine, whose events it persists and turns into
    notification dispatches. A second task, the notification worker, delivers
    the dispatches and closes their audit rows. This library models that core
    from the observation to the delivered message, and proves what each part
    promises to the next. Around that core it models what feeds and keeps it:
    the pollers, the supervisor of their tasks, the SQLite storage, the
    configuration, the start-up and the shutdown. Paths below are relative to
    [src/src].

    ** The files, in dependency order

    - [Prelude]: this file. [Result] with Rust's [?], machine integers as [Z]
      with their saturating and wrapping operations, instants and durations in
      nanoseconds, stable sorting, list lemmas, hints and tactics.
    - [RustStr]: the [str] methods the code calls, on byte strings.
    - [Names]: [shared/parse.rs] and the ten dotted-name newtypes with their
      conversions, as instances of one class.
    - [SharedTypes]: [shared/types.rs], identifiers and [EntityRef].
    - [F64]: [f64] as IEEE 754 binary64, on the Standard Library's
      [spec_float].
    - [CollectorTypes], [Observations]: [collectors/types.rs],
      [observations/types.rs], [observations/types/*.rs].
    - [Samples]: a concrete UUID library and sample observations, the inputs
      at which theorems with hypotheses are applied.
    - [ReadModels], [Store]: [read_models/projections/*.rs],
      [read_models/store.rs], [read_models/traits/*.rs].
    - [Incidents], [Kinds], [Engine]: [incidents/*.rs] and
      [diagnostics/types.rs], [diagnostics/traits.rs].
    - [Hysteresis], [BitcoinRules], [LndRules]: [diagnostics/rules/*], the
      five stateful rules over a shared theory of debounced tables.
    - [Notifications]: [notifications/types.rs], [targets/*/types.rs].
    - [Storage]: the three storage traits as type classes with laws, and
      [storage/memory/*].
    - [Senders]: [notifications/targets/*/sender.rs], [payload.rs].
    - [Worker]: [runtime/notification_worker.rs].
    - [Consumer]: [runtime/consumer.rs], where the parts meet.
    - [Dispatches], [Delivery]: what a run of the consumer sends, against the
      engine's events; the consumer and the worker interleaved over one channel
      and one audit log.
    - [SqliteRows], [Sqlite], [SqliteRefinement]: [storage/sqlite/*.rs],
      [storage/retention.rs] over the tables of [migrations/0001_initial.sql]:
      the column codecs, the statements, and what they implement.
    - [SqliteStores]: the SQLite backend as instances of the storage classes,
      and the restart of a consumer over it.
    - [Schema]: the tables of [src/migrations/0001_initial.sql] as data, and
      the rows the storage layer writes checked against them.
    - [Api]: [api/server.rs], [api/handlers/*.rs], [api/dto.rs],
      [api/error.rs], the operator's read-only endpoints.
    - [Notifier]: [notifications/orchestrator.rs] and the renderers
      [notifications/targets/*/render.rs].
    - [Pairing]: the pairing codes and subscriptions of
      [notifications/targets/telegram/types.rs].
    - [Collectors], [BitcoinPoller], [LndPoller]: [collectors/helpers.rs],
      [collectors/registry.rs], [collectors/traits.rs], the JSON-RPC and gRPC
      clients and one pass of each poller.
    - [Supervisor]: [runtime/supervisor.rs], a task per collector.
    - [BTreeMap], [Config]: toml's ordered tables and [config/*.rs].
    - [Bootstrap]: [runtime/bootstrap.rs] and [main.rs].
    - [Runtime]: [runtime/mod.rs], the tasks with their channel, the shutdown
      broadcast and the bounded join.
    - [Assembly]: the supervised collector tasks inside that runtime, each
      with its own receiver of the broadcast and its sender of the channel.
    - [Watch], [EndToEnd]: one rule followed through the consumer; start-up,
      pollers, consumer, rules and engine composed, turn by turn.

    ** How the code is represented

    A Rust struct [S] is the record [S.t] of a Module [S], an enum the
    inductive type [S.t] with the source's variants, a method [S::f] the
    definition [S.f]. Methods that take [&mut self] return the new state. A
    [Result] is [Result], a panic is [None]. Traits are classes over the
    implementing type ([DiagnosticRule], [ObservationStore],
    [IncidentRepository], [NotificationAttemptRepository]), with a second
    class of laws where callers rely on more than the signature; trait objects
    handed to rules are records of their methods. Hash maps are [gmap]s, and
    where the code observes a map's iteration order it is a parameter
    ([HashOrder]) or the statement is up to permutation. Integers are [Z] with
    the bounds the code relies on written out. The [n]-th UUID a process draws
    is [now_v7 n]; operations that draw take and return the count.

    Code outside the repository is a parameter: [UuidLib], [TomlLib],
    [HttpLib], [JsonLib], [ChronoLib], [Net] (the network and the wall clock)
    and [DebugLib] (the escaping of [Debug for str]), with [UuidLaws] and
    [TomlLaws] as the documented behaviour relied on; [SerdeJson] with
    [SerdeLaws] (the derived codecs and the values they keep), [SqlEngine]
    (which statement fails, and the order of a table scan), [StoreText] and
    [FloatText] (texts of errors and floats), [RpcJson], [CookieFs], [UrlLib]
    and [GrpcLib] (the pollers' decoders and transports), [Ticker] with
    [TickerLaws] (tokio's interval) and the file system and deserializers of
    the loader; [PayloadValue] and [ChronoSerde] (serde's renderings of a
    payload and a date), [UuidBytes] with [UuidBytesLaws] (the sixteen bytes
    of a UUID column), [CharLib] with [CharLaws] (Unicode case and white
    space) and [HmacLib]. Those that theorems rely on are instantiated
    concretely in the library.

    Concurrent tasks are step relations: a task's own steps are the branches
    of its [select!]s and its awaits, everything else is a step of the
    outside, and a theorem about a task holds for every interleaving.

    ** Specifications and what is shown

    - [Lifecycle] (in [Engine]) is the contract of the engine: one severity
      per fingerprint and the legal words of opened, escalated and resolved
      events. [handle] refines it, never panics, only extends the history of
      an incident, and leaves no trace of a refused command; an engine is
      rebuilt from its open incidents.
    - [History] (in [Store]) is the contract of the read models: every query
      is a function of the applied observations. The store refines it; the
      order of observations with distinct times does not matter to the
      four models that answer with the latest value.
    - [Debounce] (in [Hysteresis]) is the machine behind four of the five
      rules. The theorems named [*_debounced] state, for each rule and
      subject, that signals alternate, that an alarm is raised only after the
      condition held for the whole debounce and is raised when it has, that a
      subject not seen for the retention is forgotten (so that its alarm can be
      raised anew), and that other subjects do not interfere. The fifth rule counts evaluations
      and has its own two theorems.
    - [validate_draft_spec], [registry_load_spec] and their neighbours show
      which drafts and catalogs are accepted and what each error means.
    - Storage keys are injective under stated provisos and collide without
      them; names are parsed exactly when the grammar derives them, with the
      first error reported. [DottedNameLaws] says that displaying, parsing and
      the other conversions of a newtype agree, for each of the ten.
    - The storage laws are discharged by the in-memory implementations, whose
      [load_open], [complete], [list_retryable] and [iter_since] have
      functional theorems.
    - Senders classify every answer; deliveries are recorded on evidence only;
      the one panic a server can cause is characterised.
    - [Worker.step] is the worker's loop as a step relation. Over every run
      the audit rows are never lost and only closed for dispatches that were
      taken, in order.
    - [Consumer.run] never panics. As long as no save is given up on, the
      repository mirrors the engine, so a restart rebuilds it; as long as no
      signal fails to be stored, the read models are the projection of the
      log; every dispatch is backed by Pending rows inserted before it.
    - [every_event_dispatched]: a run hands the engine definite drafts at
      definite clocks ([run_handings] computes them); the dispatches are the
      lifecycle events among the engine's answers to these that a rule
      matches, in order, each once. [notifications_audited] follows
      them through [dstep], where consumer and worker share the repository: a
      row is Pending until its dispatch is taken and then closed with the
      receipt of a delivery of that message.

    - The SQLite repositories simulate the in-memory ones: [incidents_sim],
      [attempts_sim] and [log_sim] relate a pool to the content it represents,
      a write either does what the in-memory operation does or fails and
      changes nothing represented, queries answer from the content. A sweep
      deletes no open incident and no Pending attempt. Through the laws
      ([keeps_incidents], [keeps_log]) the consumer's theorems hold over
      SQLite: [sqlite_restart] rebuilds the engine from the reopened database.
    - [TableRowLaws] (in [Schema]) relates a table's codec to its STRICT
      declaration. [reachable_rows_conform]: whatever the storage layer does,
      every row has the declared types, no NOT NULL column is null and the
      table of suppression rules stays empty.
    - [PollingCollectorLaws] is what the supervisor relies on: a poll returns
      a batch of the collector with an ordered window and does not panic. Both
      pollers discharge it, and [bitcoin_poll_spec] and [lnd_poll_spec] say
      what a pass contains. The supervisor keeps to its interval and its
      backoff, and honours a shutdown that reaches its receiver.
      A task's next poll finds the collector as its last one left it, the
      request counter of a Bitcoin client advanced.
    - [loaded_from] (in [Config]) is what a successful load has checked, with
      [names_secret] for the keys that may not hold a secret in the open. On
      it rest [boot_collectors_spec] and [boot_resolves_secrets]: after a
      load, the only ways the start-up fails are the ones listed.
    - [Runtime.step] composes the channel, [process_batch] and the shutdown:
      a clean shutdown has processed every accepted batch once, in order, and
      once the collectors have ended it terminates.
    - [assembly_step] (in [Assembly]) adds the supervised tasks. It refines
      [Runtime.step] and, for every task, the supervisor's own machine; what
      a task's polls returned is what it sent and the batch it holds, the
      batches processed are an interleaving of what the tasks sent, each in
      its order, and after a clean end that is all they polled; a shutdown that every task can hear can be completed without
      the deadline from wherever it finds them; a signal that comes before a
      task has subscribed never reaches it.

    - [incident_endpoints_spec] and [operator_sees_engine] say what the
      operator reads: the stored incident, its surviving evidence, and, after
      any run of the consumer without a given-up save, exactly the incidents
      the engine has open.
    - [notifier_dispatch_spec]: the orchestrator answers for every matching
      rule and no other. A pairing code survives being shown and typed back.
    - [pipeline] (in [EndToEnd]) runs the pollers' batches through the
      consumer of a start-up that succeeded; [runtime_pipeline] says that this
      is where any execution of the runtime over these batches is, and
      [execution_is_pipeline] that every execution of the assembly is such a
      pipeline of turns, a [thread] of successive polls for each collector, so
      what is shown of pipelines holds of processes.
      [watch_run]
      (in [Watch]) follows one rule through it: as long as the batches over
      its node keep the rule's condition, those over other nodes being
      anything, the rule moves as an automaton and its alarm is open once the
      automaton has fired. So a node that answers it has no peers is reported
      within the debounce, and resolved when it finds them again; one stuck in
      its initial download is reported at its second pass, which is the
      repository's end-to-end test for every node, and the test itself is
      evaluated; once it has caught up, its incident is resolved at the second
      healthy pass. Reported and resolved mean the incident and its
      notifications: every configured rule that matches the opening, or the
      resolution, of that incident has been sent it, unless a notification
      failed. A node that does not answer at all is never reported, and
      an incident of an earlier process whose condition has ended is never
      resolved, for a missing peer as for a stuck download.

    Some theorems state what the code does where a comment promises more: the
    collisions of [as_key], the length of derived signal names, the query kept
    by the redacted summary, the NaN sample of [unchanged_for], the panic of
    the Telegram sender, the failed probes that leave no mark, the incident
    that a restart strands, the subject of a node whose name holds a slash, the
    shutdown a respawned collector misses, the environment variable that cannot
    switch a boolean, the inline secret under a name like [rpcpassword], the
    pairing code whose display panics, the Telegram text
    that is not escaped.

    ** Bounds

    The only fuel is the attempt counter of [save_attempts], which is the
    source's own bound (three); every other recursion is structural. The
    consumer and the worker are total on every input. Timestamps outside the
    range of signed nanoseconds panic the SQLite writers, as in the source:
    [storable_*] names the values that do not.

    ** Not modelled

    The listener of the operator API and the matching of paths, which are
    axum's: the handlers are applied to a matched pattern and its capture.
    The sink trait with its event type that nothing implements. The SQL engine's own
    semantics beyond the statements of the source (locking, durability), the
    pragmas and the migrations runner: [Schema] is what the one migration
    declares. The domain events nothing emits, the types nothing constructs
    (Discord subscriptions, notification sources and kinds, the suppression
    service), the set-up of the logger and the wait for a signal of the
    operating system, which is a step any state of the runtime may take. Debug-only variants are left out: the model is the
    release build. The backpressure of the notification channel delays the
    consumer and is otherwise not observable in it, so it is not modelled; the
    observation channel's bound is, in [Runtime]. The repositories of a
    running consumer are any implementation of the storage classes, and each
    counts its own statements. Logging
    is kept where it marks an error path, as the consumer's trace.
*)

From stdpp Require Export base tactics option list sorting strings gmap fin_maps.
From Stdlib Require Export ZArith Lia.

#[export] Set Default Goal Selector "!".

Declare Scope bithound_scope.
Delimit Scope bithound_scope with bh.
Open Scope bithound_scope.

(** ** [Result], with Rust's [?] operator *)

Inductive Result (T E : Type) : Type :=
  | Ok (v : T)
  | Err (e : E).
Arguments Ok {T E} v.
Arguments Err {T E} e.

Definition res_bind {T U E} (r : Result T E) (k : T → Result U E) : Result U E :=
  match r with
  | Ok v => k v
  | Err e => Err e
  end.

Notation "'let?' x := r 'in' k" := (res_bind r (λ x, k))
  (at level 10, x name, r at level 100, k at level 200) : bithound_scope.
Notation "'let?' ' p := r 'in' k" := (res_bind r (λ y, match y with p => k end))
  (at level 10, p pattern, r at level 100, k at level 200) : bithound_scope.

(** [Result::map_err] and [Option::ok_or]. *)
Definition map_err {T E F} (f : E → F) (r : Result T E) : Result T F :=
  match r with
  | Ok v => Ok v
  | Err e => Err (f e)
  end.

Definition ok_or {T E} (o : option T) (e : E) : Result T E :=
  match o with
  | Some v => Ok v
  | None => Err e
  end.

Definition is_some {T} (o : option T) : bool :=
  match o with
  | Some _ => true
  | None => false
  end.

Definition is_ok {T E} (r : Result T E) : bool :=
  match r with
  | Ok _ => true
  | Err _ => false
  end.

#[global] Instance result_eq_dec {T E} `{EqDecision T, EqDecision E} :
  EqDecision (Result T E).
Proof. solve_decision. Defined.

(** Iterating a fallible step, as a Rust [for] loop with a [?] in its body. *)
Fixpoint try_fold {A S E} (f : S → A → Result S E) (s : S) (l : list A) : Result S E :=
  match l with
  | [] => Ok s
  | a :: l' => let? s' := f s a in try_fold f s' l'
  end.

(** From a computed test to the value it announces. *)
Lemma is_some_ex {T} (o : option T) : is_some o = true → ∃ x, o = Some x.
Proof. destruct o; [eauto|done]. Qed.

Lemma is_some_with {T} (P : T → bool) (o : option T) :
  match o with Some x => P x | None => false end = true → ∃ x, o = Some x ∧ P x = true.
Proof. destruct o; [eauto|done]. Qed.

Lemma is_ok_ex {T E} (r : Result T E) : is_ok r = true → ∃ x, r = Ok x.
Proof. destruct r; [eauto|done]. Qed.

(** ** Machine integers: Rust integers as [Z], with the operations the code uses *)

Abbreviation u8_max := 255%Z.
Abbreviation u32_max := 4294967295%Z.
Abbreviation u64_max := 18446744073709551615%Z.
Abbreviation i32_min := (-2147483648)%Z.
Abbreviation i32_max := 2147483647%Z.
Abbreviation i64_min := (-9223372036854775808)%Z.
Abbreviation i64_max := 9223372036854775807%Z.

Definition is_u32 (n : Z) : Prop := (0 ≤ n ≤ u32_max)%Z.
Definition is_u64 (n : Z) : Prop := (0 ≤ n ≤ u64_max)%Z.
Definition is_i64 (n : Z) : Prop := (i64_min ≤ n ≤ i64_max)%Z.

(** [u64::saturating_sub]. *)
Definition u64_saturating_sub (a b : Z) : Z := Z.max 0 (a - b).

(** [u32::saturating_add]. *)
Definition u32_saturating_add (a b : Z) : Z := Z.min u32_max (a + b).

(** The [as u64] cast of a signed integer: reduction modulo 2^64. *)
Definition as_u64 (n : Z) : Z := n mod 2 ^ 64.

(** ** Time. [DateTime<Utc>] is nanoseconds since the Unix epoch, [Instant] is
    nanoseconds on the monotonic clock, and both duration types are
    nanoseconds ([std::time::Duration] is never negative). *)

Abbreviation DateTime := Z (only parsing).
Abbreviation Instant := Z (only parsing).
Abbreviation Duration := Z (only parsing).

Definition from_millis (ms : Z) : Duration := (ms * 1000000)%Z.
Definition from_secs (s : Z) : Duration := (s * 1000000000)%Z.

(** [Instant::saturating_duration_since]: zero when the argument is later. *)
Definition saturating_duration_since (now earlier : Instant) : Duration :=
  Z.max 0 (now - earlier).

(** [TimeDelta::num_milliseconds]: whole milliseconds, truncated toward zero. *)
Definition num_milliseconds (d : Duration) : Z := Z.quot d 1000000.

Lemma saturating_duration_since_nonneg now t : (0 ≤ saturating_duration_since now t)%Z.
Proof. unfold saturating_duration_since. lia. Qed.

Lemma saturating_duration_since_self t : saturating_duration_since t t = 0%Z.
Proof. unfold saturating_duration_since. lia. Qed.

(** On a clock that has not gone backwards the saturation is not reached. *)
Lemma saturating_duration_since_monotone now t :
  (t ≤ now)%Z → saturating_duration_since now t = (now - t)%Z.
Proof. unfold saturating_duration_since. lia. Qed.

(** ** Automation *)

Create HintDb bithound discriminated.
Create Rewrite HintDb bithound.
#[export] Hint Resolve saturating_duration_since_nonneg : bithound.
#[export] Hint Rewrite saturating_duration_since_self : bithound.

(** Take apart every [match] of the goal and the hypotheses, keeping equations. *)
Ltac split_matches := repeat (case_match; simplify_eq/=).

(** ** Lists *)

(** The last [n] elements: what a ring of capacity [n] keeps. *)
Definition last_n {A} (n : nat) (l : list A) : list A := drop (length l - n) l.

Section lists.
Context {A : Type}.
Implicit Types (l : list A) (x : A).

Lemma last_n_length n l : length (last_n n l) = n `min` length l.
Proof. unfold last_n. rewrite length_drop. lia. Qed.

Lemma last_n_short n l : length l ≤ n → last_n n l = l.
Proof. intros H. unfold last_n. by replace (length l - n) with 0 by lia. Qed.

(** One more element pushed at the back of a full ring. *)
Lemma last_n_snoc n l x : last_n n (last_n n l ++ [x]) = last_n n (l ++ [x]).
Proof.
  unfold last_n. rewrite !length_app, length_drop; simpl.
  destruct (decide (length l ≤ n)) as [Hle|Hgt].
  - replace (length l - n) with 0 by lia. by rewrite Nat.sub_0_r, drop_0.
  - rewrite !drop_app, length_drop, drop_drop.
    f_equal; f_equal; lia.
Qed.

Lemma last_last_n n l : 0 < n → last (last_n n l) = last l.
Proof.
  intros Hn. destruct l as [|y l _] using rev_ind; [done|].
  unfold last_n. rewrite length_app; simpl.
  rewrite drop_app_le by lia. by rewrite !last_snoc.
Qed.
End lists.

(** A projection through [filter] and [fmap] that keeps at most one element. *)
Lemma filter_none {A} (P : A → Prop) `{∀ x, Decision (P x)} (l : list A) :
  Forall (λ x, ¬ P x) l → filter P l = [].
Proof. induction 1 as [|x l Hx _ IH]; [done|]. by rewrite filter_cons_False. Qed.

(** ** Stable sorting: [slice::sort_by_key] by insertion, equal keys in place *)

Section sort_by.
Context {A : Type} (le : A → A → bool).

Fixpoint insert_sorted (x : A) (l : list A) : list A :=
  match l with
  | [] => [x]
  | y :: l' => if le x y then x :: l else y :: insert_sorted x l'
  end.

Definition sort_by (l : list A) : list A := foldr insert_sorted [] l.

Lemma insert_sorted_perm x l : insert_sorted x l ≡ₚ x :: l.
Proof.
  induction l as [|y l IH]; cbn; [done|]. destruct (le x y); [done|].
  rewrite IH. apply Permutation_swap.
Qed.

Lemma sort_by_perm l : sort_by l ≡ₚ l.
Proof. induction l as [|x l IH]; cbn; [done|]. by rewrite insert_sorted_perm, IH. Qed.

Hypothesis le_total : ∀ x y, le x y = false → le y x = true.
Hypothesis le_trans : ∀ x y z, le x y = true → le y z = true → le x z = true.

Lemma insert_sorted_sorted x l :
  StronglySorted (λ a b, le a b = true) l → StronglySorted (λ a b, le a b = true) (insert_sorted x l).
Proof.
  induction 1 as [|y l Hl IH Hy]; cbn; [by repeat constructor|].
  destruct (le x y) eqn:Hxy.
  - constructor; [by constructor|]. constructor; [done|].
    eapply Forall_impl; [exact Hy|]. eauto.
  - constructor; [done|]. rewrite insert_sorted_perm. constructor; [auto|done].
Qed.

Lemma sort_by_sorted l : StronglySorted (λ a b, le a b = true) (sort_by l).
Proof. induction l as [|x l IH]; cbn; [constructor|by apply insert_sorted_sorted]. Qed.
End sort_by.

Lemma sorted_weaken {A} (R1 R2 : A → A → Prop) (l : list A) :
  (∀ a b, R1 a b → R2 a b) → StronglySorted R1 l → StronglySorted R2 l.
Proof.
  intros HR. induction 1 as [|x l _ IH Hx]; constructor; [done|].
  eapply Forall_impl; [exact Hx|]. apply HR.
Qed.

Lemma sorted_take {A} (R : A → A → Prop) n (l : list A) :
  StronglySorted R l → StronglySorted R (take n l).
Proof. rewrite <-(take_drop n l) at 1. apply StronglySorted_app_1_l. Qed.
