(* ===== verification/RustStr.v ===== *)
(** * Byte strings: the [str] and [u8] methods the code calls

    A Rust [String] is its UTF-8 bytes, so [String.length] is [str::len]. *)

From S2P Require Import Prelude.
From Stdlib Require Export Ascii.

(** ** Bytes *)

Definition byte_in (lo hi b : ascii) : bool :=
  (N_of_ascii lo <=? N_of_ascii b)%N && (N_of_ascii b <=? N_of_ascii hi)%N.

Definition is_ascii_lowercase (b : ascii) : bool := byte_in "a" "z" b.
Definition is_ascii_uppercase (b : ascii) : bool := byte_in "A" "Z" b.
Definition is_ascii_digit (b : ascii) : bool := byte_in "0" "9" b.

Definition to_ascii_lowercase_byte (b : ascii) : ascii :=
  if is_ascii_uppercase b then ascii_of_N (N_of_ascii b + 32) else b.

Fixpoint to_ascii_lowercase (s : string) : string :=
  match s with
  | EmptyString => EmptyString
  | String b s' => String (to_ascii_lowercase_byte b) (to_ascii_lowercase s')
  end.

(** ** Searching and splitting *)

Fixpoint contains_byte (c : ascii) (s : string) : bool :=
  match s with
  | EmptyString => false
  | String b s' => Ascii.eqb b c || contains_byte c s'
  end.

(** [str::split_once] on a one-byte separator: the first occurrence. *)
Fixpoint split_once (c : ascii) (s : string) : option (string * string) :=
  match s with
  | EmptyString => None
  | String b s' =>
      if Ascii.eqb b c then Some (EmptyString, s')
      else match split_once c s' with
           | Some (l, r) => Some (String b l, r)
           | None => None
           end
  end.

(** [str::split] on a one-byte separator; never the empty list. *)
Fixpoint split (c : ascii) (s : string) : list string :=
  match s with
  | EmptyString => [EmptyString]
  | String b s' =>
      if Ascii.eqb b c then EmptyString :: split c s'
      else match split c s' with
           | [] => [String b EmptyString]
           | seg :: segs => String b seg :: segs
           end
  end.

Fixpoint starts_with (p s : string) : bool :=
  match p, s with
  | EmptyString, _ => true
  | String a p', String b s' => Ascii.eqb a b && starts_with p' s'
  | String _ _, EmptyString => false
  end.

(** [str::strip_prefix]. *)
Fixpoint strip_prefix (p s : string) : option string :=
  match p, s with
  | EmptyString, _ => Some s
  | String a p', String b s' => if Ascii.eqb a b then strip_prefix p' s' else None
  | String _ _, EmptyString => None
  end.

(** [str::split_once] on a string pattern. *)
Fixpoint split_once_str (p s : string) : option (string * string) :=
  match strip_prefix p s with
  | Some r => Some (EmptyString, r)
  | None =>
      match s with
      | EmptyString => None
      | String b s' =>
          match split_once_str p s' with
          | Some (l, r) => Some (String b l, r)
          | None => None
          end
      end
  end.

(** [str::contains] on a string pattern. *)
Fixpoint contains_str (p s : string) : bool :=
  starts_with p s ||
  match s with
  | EmptyString => false
  | String _ s' => contains_str p s'
  end.

Fixpoint ends_with (p s : string) : bool :=
  String.eqb p s ||
  match s with
  | EmptyString => false
  | String _ s' => ends_with p s'
  end.

Fixpoint all_bytes (P : ascii → bool) (s : string) : bool :=
  match s with
  | EmptyString => true
  | String b s' => P b && all_bytes P s'
  end.

(** [slice::join] on strings. *)
Fixpoint join (sep : string) (l : list string) : string :=
  match l with
  | [] => ""
  | [s] => s
  | s :: l' => s +:+ sep +:+ join sep l'
  end.

(** [str::trim] on an ASCII string. *)
Definition is_ascii_whitespace (b : ascii) : bool :=
  byte_in "009" "013" b || Ascii.eqb b " ".

Fixpoint trim_start (s : string) : string :=
  match s with
  | EmptyString => EmptyString
  | String b s' => if is_ascii_whitespace b then trim_start s' else s
  end.

Fixpoint trim_end (s : string) : string :=
  match s with
  | EmptyString => EmptyString
  | String b s' =>
      match trim_end s' with
      | EmptyString => if is_ascii_whitespace b then EmptyString else String b EmptyString
      | t => String b t
      end
  end.

Definition trim (s : string) : string := trim_end (trim_start s).

(** [str::parse] into an integer type with the given bounds: a sign, [-] only
    for a signed type, then at least one digit and nothing else. *)
Fixpoint digits_value (acc : Z) (s : string) : option Z :=
  match s with
  | EmptyString => Some acc
  | String b s' =>
      if is_ascii_digit b then digits_value (acc * 10 + (Z.of_N (N_of_ascii b) - 48)) s'
      else None
  end.

Definition parse_int (lo hi : Z) (s : string) : option Z :=
  n ← match s with
      | EmptyString => None
      | String b ((String _ _) as rest) =>
          if Ascii.eqb b "-" && (lo <? 0)%Z then Z.opp <$> digits_value 0 rest
          else if Ascii.eqb b "+" then digits_value 0 rest
          else digits_value 0 s
      | _ => digits_value 0 s
      end;
  if (lo <=? n)%Z && (n <=? hi)%Z then Some n else None.

(** [impl Debug for str]: quotes and escapes, with Unicode's tables. *)
Class DebugLib : Type := { debug_str : string → string }.

(** ** Lemmas *)

Lemma string_app_cons b s1 s2 : String b s1 +:+ s2 = String b (s1 +:+ s2).
Proof. done. Qed.

Lemma string_app_nil_l s : "" +:+ s = s.
Proof. done. Qed.

(** Push [+:+] through constructors; [String.append] is opaque to [simpl]. *)
Ltac str_simpl := repeat (progress (cbn in *; rewrite ?string_app_cons, ?string_app_nil_l in * )).

Lemma string_app_nil_r s : s +:+ "" = s.
Proof. induction s as [|b s IH]; [done|]. by rewrite string_app_cons, IH. Qed.

Lemma string_app_assoc s1 s2 s3 : (s1 +:+ s2) +:+ s3 = s1 +:+ s2 +:+ s3.
Proof. induction s1 as [|b s IH]; [done|]. by rewrite !string_app_cons, IH. Qed.

Lemma string_app_length s1 s2 :
  String.length (s1 +:+ s2) = String.length s1 + String.length s2.
Proof. induction s1 as [|b s IH]; [done|]. rewrite string_app_cons. cbn. by rewrite IH. Qed.

Lemma contains_byte_app c s1 s2 :
  contains_byte c (s1 +:+ s2) = contains_byte c s1 || contains_byte c s2.
Proof. induction s1 as [|b s IH]; [done|]. str_simpl. rewrite IH. by rewrite orb_assoc. Qed.

Lemma all_bytes_app P s1 s2 : all_bytes P (s1 +:+ s2) = all_bytes P s1 && all_bytes P s2.
Proof. induction s1 as [|b s IH]; [done|]. str_simpl. rewrite IH. by rewrite andb_assoc. Qed.

(** A byte the class excludes does not occur in a string of the class. *)
Lemma all_bytes_contains P c s : all_bytes P s = true → P c = false → contains_byte c s = false.
Proof.
  intros Hs Hc. induction s as [|b s IH]; cbn in *; [done|].
  apply andb_prop in Hs as [Hb Hs]. rewrite (IH Hs), orb_false_r.
  apply Ascii.eqb_neq. intros ->. congruence.
Qed.

Lemma split_not_nil c s : split c s ≠ [].
Proof. destruct s as [|b s]; cbn; [done|]. by repeat case_match. Qed.

Lemma split_app c a b : split c (a +:+ String c b) = split c a ++ split c b.
Proof.
  induction a as [|d a IH]; rewrite ?string_app_cons, ?string_app_nil_l; cbn.
  { by rewrite Ascii.eqb_refl. }
  rewrite IH. destruct (Ascii.eqb d c); [done|].
  by destruct (split c a) eqn:Ha; [destruct (split_not_nil c a)|].
Qed.

(** The separator is found at the first cut of a string without it. *)
Lemma split_once_app c l r :
  contains_byte c l = false → split_once c (l +:+ String c r) = Some (l, r).
Proof.
  induction l as [|b l IH]; rewrite ?string_app_cons, ?string_app_nil_l; cbn;
    [by rewrite Ascii.eqb_refl|].
  intros [Hb Hl]%orb_false_iff. by rewrite Hb, IH.
Qed.

Lemma split_once_Some c s l r :
  split_once c s = Some (l, r) ↔ s = l +:+ String c r ∧ contains_byte c l = false.
Proof.
  split; [|intros [-> ?]; by apply split_once_app].
  revert l. induction s as [|b s IH]; intros l; cbn; [done|].
  destruct (Ascii.eqb_spec b c) as [->|Hne].
  { by intros [= <- <-]. }
  destruct (split_once c s) as [[l' r']|]; [|done]. intros [= <- <-].
  destruct (IH l') as [-> Hl]; [done|]. cbn. rewrite Hl, orb_false_r.
  split; [done|]. by apply Ascii.eqb_neq.
Qed.

Lemma split_once_None c s : split_once c s = None ↔ contains_byte c s = false.
Proof.
  induction s as [|b s IH]; cbn; [done|].
  destruct (Ascii.eqb b c); cbn; [done|].
  destruct (split_once c s) as [[??]|]; naive_solver.
Qed.

(** Unique parsing of [l c r] when the left part is free of [c]. *)
Lemma string_sep_inj c l1 r1 l2 r2 :
  contains_byte c l1 = false → contains_byte c l2 = false →
  l1 +:+ String c r1 = l2 +:+ String c r2 → l1 = l2 ∧ r1 = r2.
Proof.
  intros H1 H2 Heq.
  pose proof (split_once_app c l1 r1 H1) as E. rewrite Heq, split_once_app in E by done.
  by simplify_eq.
Qed.

Lemma ends_with_app p s : ends_with p (s +:+ p) = true.
Proof.
  induction s as [|b s IH]; rewrite ?string_app_cons, ?string_app_nil_l.
  - destruct p; cbn; by rewrite ?Ascii.eqb_refl, ?String.eqb_refl.
  - cbn. rewrite IH. by rewrite orb_true_r.
Qed.

Lemma ends_with_true p s : ends_with p s = true ↔ ∃ pre, s = pre +:+ p.
Proof.
  split; [|intros [pre ->]; apply ends_with_app]. induction s as [|b s IH]; cbn.
  - rewrite orb_false_r. intros ->%String.eqb_eq. by exists "".
  - intros [->%String.eqb_eq|(pre & ->)%IH]%orb_prop; [by exists ""|by exists (String b pre)].
Qed.

(** The last byte of a string. *)
Fixpoint last_byte (s : string) : option ascii :=
  match s with
  | EmptyString => None
  | String b EmptyString => Some b
  | String _ s' => last_byte s'
  end.

Lemma last_byte_app p b s : last_byte (p +:+ String b s) = last_byte (String b s).
Proof.
  induction p as [|c p IH]; [done|]. rewrite string_app_cons, <-IH.
  by destruct p; rewrite ?string_app_nil_l, ?string_app_cons.
Qed.

#[export] Hint Rewrite string_app_nil_r string_app_cons string_app_length : bithound.
