(* ===== verification/Names.v ===== *)
(** * Dotted names: [shared/parse.rs] and the name newtypes built on it

    [parse_dotted_name] is the one-pass byte scan of the source, with its
    positional errors; [dotted_name] is the grammar of the module's comment.
    Each newtype is a Module whose [t] is the Rust struct. *)

From S2P Require Import Prelude RustStr.

Module ParseDottedNameError.
Inductive t : Type :=
  | Empty
  | TooLong (got : nat)
  | BadCharacter (at_ : nat) (found : ascii)
  | EmptySegment (at_ : nat)
  | BadSegmentStart (at_ : nat)
  | NoDot.

#[global] Instance eq_dec : EqDecision t.
Proof. solve_decision. Defined.
End ParseDottedNameError.

Definition MAX_NAME_LEN : nat := 128.

Definition is_segment_body_byte (b : ascii) : bool :=
  is_ascii_lowercase b || is_ascii_digit b || Ascii.eqb b "_".

(** The [for] loop over [bytes.iter().enumerate()]: position [i], the loop's
    two variables, and the variables' values when it falls through. *)
Fixpoint scan_bytes (bytes : string) (i segment_start : nat) (saw_dot : bool) :
    Result (nat * bool) ParseDottedNameError.t :=
  match bytes with
  | EmptyString => Ok (segment_start, saw_dot)
  | String b rest =>
      if Ascii.eqb b "." then
        if i =? segment_start then Err (ParseDottedNameError.EmptySegment i)
        else scan_bytes rest (S i) (S i) true
      else if i =? segment_start then
        if negb (is_ascii_lowercase b) then
          if Ascii.eqb b "." then Err (ParseDottedNameError.EmptySegment i)
          else if is_segment_body_byte b then Err (ParseDottedNameError.BadSegmentStart i)
          else Err (ParseDottedNameError.BadCharacter i b)
        else scan_bytes rest (S i) segment_start saw_dot
      else if negb (is_segment_body_byte b) then
        Err (ParseDottedNameError.BadCharacter i b)
      else scan_bytes rest (S i) segment_start saw_dot
  end.

Definition parse_dotted_name (s : string) : Result string ParseDottedNameError.t :=
  if String.length s =? 0 then Err ParseDottedNameError.Empty
  else if MAX_NAME_LEN <? String.length s then
    Err (ParseDottedNameError.TooLong (String.length s))
  else
    let? '(segment_start, saw_dot) := scan_bytes s 0 0 false in
    if segment_start =? String.length s then
      Err (ParseDottedNameError.EmptySegment (String.length s - 1))
    else if negb saw_dot then Err ParseDottedNameError.NoDot
    else Ok s.

(** [Self::parse] of every newtype: [parse_dotted_name(s).map(Self)]. *)
Definition parse_name {N} (wrap : string → N) (s : string) :
    Result N ParseDottedNameError.t :=
  let? v := parse_dotted_name s in Ok (wrap v).

Module IncidentKind.
Record t : Type := mk { as_str : string }.

Definition parse (s : string) : Result t ParseDottedNameError.t := parse_name mk s.
Definition from_well_known (name : string) : t := mk name.

#[global] Instance eq_dec : EqDecision t.
Proof. solve_decision. Defined.
#[global] Instance countable : Countable t.
Proof. by apply (inj_countable' as_str mk); intros []. Defined.
End IncidentKind.

Module MetricName.
Record t : Type := mk { as_str : string }.

Definition parse (s : string) : Result t ParseDottedNameError.t := parse_name mk s.
Definition from_well_known (name : string) : t := mk name.

#[global] Instance eq_dec : EqDecision t.
Proof. solve_decision. Defined.
#[global] Instance countable : Countable t.
Proof. by apply (inj_countable' as_str mk); intros []. Defined.
End MetricName.

Module SignalName.
Record t : Type := mk { as_str : string }.

Definition parse (s : string) : Result t ParseDottedNameError.t := parse_name mk s.
Definition from_well_known (name : string) : t := mk name.

#[global] Instance eq_dec : EqDecision t.
Proof. solve_decision. Defined.
#[global] Instance countable : Countable t.
Proof. by apply (inj_countable' as_str mk); intros []. Defined.

Definition for_incident_kind (kind : IncidentKind.t) : t :=
  mk (IncidentKind.as_str kind +:+ ".signal").
End SignalName.

Module StateName.
Record t : Type := mk { as_str : string }.

Definition parse (s : string) : Result t ParseDottedNameError.t := parse_name mk s.
Definition from_well_known (name : string) : t := mk name.

#[global] Instance eq_dec : EqDecision t.
Proof. solve_decision. Defined.
#[global] Instance countable : Countable t.
Proof. by apply (inj_countable' as_str mk); intros []. Defined.
End StateName.

Module HealthTargetId.
Record t : Type := mk { as_str : string }.

Definition parse (s : string) : Result t ParseDottedNameError.t := parse_name mk s.
Definition from_well_known (name : string) : t := mk name.

#[global] Instance eq_dec : EqDecision t.
Proof. solve_decision. Defined.
#[global] Instance countable : Countable t.
Proof. by apply (inj_countable' as_str mk); intros []. Defined.
End HealthTargetId.

Module CapabilityName.
Record t : Type := mk { as_str : string }.

Definition parse (s : string) : Result t ParseDottedNameError.t := parse_name mk s.
Definition from_well_known (name : string) : t := mk name.

#[global] Instance eq_dec : EqDecision t.
Proof. solve_decision. Defined.
#[global] Instance countable : Countable t.
Proof. by apply (inj_countable' as_str mk); intros []. Defined.
End CapabilityName.

Module EventName.
Record t : Type := mk { as_str : string }.

Definition parse (s : string) : Result t ParseDottedNameError.t := parse_name mk s.
Definition from_well_known (name : string) : t := mk name.

#[global] Instance eq_dec : EqDecision t.
Proof. solve_decision. Defined.
#[global] Instance countable : Countable t.
Proof. by apply (inj_countable' as_str mk); intros []. Defined.
End EventName.

Module TransitionName.
Record t : Type := mk { as_str : string }.

Definition parse (s : string) : Result t ParseDottedNameError.t := parse_name mk s.
Definition from_well_known (name : string) : t := mk name.

#[global] Instance eq_dec : EqDecision t.
Proof. solve_decision. Defined.
#[global] Instance countable : Countable t.
Proof. by apply (inj_countable' as_str mk); intros []. Defined.
End TransitionName.

Module InventoryName.
Record t : Type := mk { as_str : string }.

Definition parse (s : string) : Result t ParseDottedNameError.t := parse_name mk s.
Definition from_well_known (name : string) : t := mk name.

#[global] Instance eq_dec : EqDecision t.
Proof. solve_decision. Defined.
#[global] Instance countable : Countable t.
Proof. by apply (inj_countable' as_str mk); intros []. Defined.
End InventoryName.

Module DiagnosisName.
Record t : Type := mk { as_str : string }.

Definition parse (s : string) : Result t ParseDottedNameError.t := parse_name mk s.
Definition from_well_known (name : string) : t := mk name.

#[global] Instance eq_dec : EqDecision t.
Proof. solve_decision. Defined.
#[global] Instance countable : Countable t.
Proof. by apply (inj_countable' as_str mk); intros []. Defined.
End DiagnosisName.

(** ** The conversions of a newtype

    [AsRef<str>], [Display], [TryFrom<String>] and [From<_> for String]; the
    last two are what [#[serde(try_from, into)]] reads and writes. *)

Class DottedName (N : Type) : Type := {
  as_ref : N → string;
  display : N → string;
  try_from : string → Result N ParseDottedNameError.t;
  into_string : N → string;
}.

#[global] Instance incident_kind_conversions : DottedName IncidentKind.t := {|
  as_ref := IncidentKind.as_str;
  display := IncidentKind.as_str;
  try_from := IncidentKind.parse;
  into_string := IncidentKind.as_str;
|}.

#[global] Instance metric_name_conversions : DottedName MetricName.t := {|
  as_ref := MetricName.as_str;
  display := MetricName.as_str;
  try_from := MetricName.parse;
  into_string := MetricName.as_str;
|}.

#[global] Instance signal_name_conversions : DottedName SignalName.t := {|
  as_ref := SignalName.as_str;
  display := SignalName.as_str;
  try_from := SignalName.parse;
  into_string := SignalName.as_str;
|}.

#[global] Instance state_name_conversions : DottedName StateName.t := {|
  as_ref := StateName.as_str;
  display := StateName.as_str;
  try_from := StateName.parse;
  into_string := StateName.as_str;
|}.

#[global] Instance health_target_id_conversions : DottedName HealthTargetId.t := {|
  as_ref := HealthTargetId.as_str;
  display := HealthTargetId.as_str;
  try_from := HealthTargetId.parse;
  into_string := HealthTargetId.as_str;
|}.

#[global] Instance capability_name_conversions : DottedName CapabilityName.t := {|
  as_ref := CapabilityName.as_str;
  display := CapabilityName.as_str;
  try_from := CapabilityName.parse;
  into_string := CapabilityName.as_str;
|}.

#[global] Instance event_name_conversions : DottedName EventName.t := {|
  as_ref := EventName.as_str;
  display := EventName.as_str;
  try_from := EventName.parse;
  into_string := EventName.as_str;
|}.

#[global] Instance transition_name_conversions : DottedName TransitionName.t := {|
  as_ref := TransitionName.as_str;
  display := TransitionName.as_str;
  try_from := TransitionName.parse;
  into_string := TransitionName.as_str;
|}.

#[global] Instance inventory_name_conversions : DottedName InventoryName.t := {|
  as_ref := InventoryName.as_str;
  display := InventoryName.as_str;
  try_from := InventoryName.parse;
  into_string := InventoryName.as_str;
|}.

#[global] Instance diagnosis_name_conversions : DottedName DiagnosisName.t := {|
  as_ref := DiagnosisName.as_str;
  display := DiagnosisName.as_str;
  try_from := DiagnosisName.parse;
  into_string := DiagnosisName.as_str;
|}.

(** What the newtypes share: one string inside, validated by the one parser. *)
Class DottedNameLaws (N : Type) `{DottedName N} : Type := {
  wrap : string → N;
  as_ref_wrap s : as_ref (wrap s) = s;
  wrap_as_ref n : wrap (as_ref n) = n;
  display_as_ref n : display n = as_ref n;
  into_as_ref n : into_string n = as_ref n;
  try_from_parses s : try_from s = parse_name wrap s;
}.

Ltac newtype_laws mk := refine {| wrap := mk |}; solve [done | by intros []].

#[global] Instance incident_kind_laws : DottedNameLaws IncidentKind.t.
Proof. newtype_laws IncidentKind.mk. Defined.
#[global] Instance metric_name_laws : DottedNameLaws MetricName.t.
Proof. newtype_laws MetricName.mk. Defined.
#[global] Instance signal_name_laws : DottedNameLaws SignalName.t.
Proof. newtype_laws SignalName.mk. Defined.
#[global] Instance state_name_laws : DottedNameLaws StateName.t.
Proof. newtype_laws StateName.mk. Defined.
#[global] Instance health_target_id_laws : DottedNameLaws HealthTargetId.t.
Proof. newtype_laws HealthTargetId.mk. Defined.
#[global] Instance capability_name_laws : DottedNameLaws CapabilityName.t.
Proof. newtype_laws CapabilityName.mk. Defined.
#[global] Instance event_name_laws : DottedNameLaws EventName.t.
Proof. newtype_laws EventName.mk. Defined.
#[global] Instance transition_name_laws : DottedNameLaws TransitionName.t.
Proof. newtype_laws TransitionName.mk. Defined.
#[global] Instance inventory_name_laws : DottedNameLaws InventoryName.t.
Proof. newtype_laws InventoryName.mk. Defined.
#[global] Instance diagnosis_name_laws : DottedNameLaws DiagnosisName.t.
Proof. newtype_laws DiagnosisName.mk. Defined.

(** ** The grammar of the module comment

    [name = segment ("." segment)+] and [segment = [a-z][a-z0-9_]*]. *)

Definition segment (s : string) : bool :=
  match s with
  | EmptyString => false
  | String b rest => is_ascii_lowercase b && all_bytes is_segment_body_byte rest
  end.

Definition dotted_name (s : string) : bool :=
  (2 <=? length (split "." s)) && forallb segment (split "." s).

(** What each error says of the input. *)
Definition error_explains (s : string) (e : ParseDottedNameError.t) : Prop :=
  match e with
  | ParseDottedNameError.Empty => s = ""
  | ParseDottedNameError.TooLong got => got = String.length s ∧ MAX_NAME_LEN < got
  | ParseDottedNameError.BadCharacter at_ found =>
      String.get at_ s = Some found ∧ is_segment_body_byte found = false ∧ found ≠ "."%char
  | ParseDottedNameError.EmptySegment at_ =>
      String.get at_ s = Some "."%char ∧
      (at_ = 0 ∨ String.get (at_ - 1) s = Some "."%char ∨ S at_ = String.length s)
  | ParseDottedNameError.BadSegmentStart at_ =>
      (at_ = 0 ∨ String.get (at_ - 1) s = Some "."%char) ∧
      ∃ b, String.get at_ s = Some b ∧ is_segment_body_byte b = true ∧
           is_ascii_lowercase b = false
  | ParseDottedNameError.NoDot => contains_byte "." s = false ∧ segment s = true
  end.

(** ** The scan as an acceptor *)

(** [fresh]: no byte of the current segment has been read. *)
Fixpoint accepts (bytes : string) (fresh saw_dot : bool) : bool :=
  match bytes with
  | EmptyString => negb fresh && saw_dot
  | String b rest =>
      if Ascii.eqb b "." then negb fresh && accepts rest true true
      else (if fresh then is_ascii_lowercase b else is_segment_body_byte b)
           && accepts rest false saw_dot
  end.

Lemma lowercase_is_body b : is_ascii_lowercase b = true → is_segment_body_byte b = true.
Proof. unfold is_segment_body_byte. by intros ->. Qed.

Lemma dot_is_not_body : is_segment_body_byte "." = false.
Proof. done. Qed.

Lemma scan_bytes_accepts bytes i start saw :
  start ≤ i →
  match scan_bytes bytes i start saw with
  | Ok (st, saw') => negb (st =? i + String.length bytes) && saw'
  | Err _ => false
  end = accepts bytes (i =? start) saw.
Proof.
  revert i start saw. induction bytes as [|b rest IH]; intros i start saw Hi; cbn.
  { rewrite Nat.add_0_r. by rewrite (Nat.eqb_sym start i). }
  rewrite Nat.add_succ_r, <-Nat.add_succ_l.
  destruct (Ascii.eqb b ".") eqn:Hdot.
  { destruct (i =? start); [done|]. rewrite IH by lia. by rewrite Nat.eqb_refl. }
  destruct (Nat.eqb_spec i start) as [->|Hne]; cbn.
  - destruct (is_ascii_lowercase b); cbn; [|by destruct (is_segment_body_byte b)].
    rewrite IH by lia. by replace (S start =? start) with false
      by (symmetry; apply Nat.eqb_neq; lia).
  - destruct (is_segment_body_byte b); cbn; [|done].
    rewrite IH by lia. by replace (S i =? start) with false
      by (symmetry; apply Nat.eqb_neq; lia).
Qed.

Lemma accepts_split bytes fresh saw :
  accepts bytes fresh saw =
  match split "." bytes with
  | [] => false
  | seg :: segs =>
      (if fresh then segment seg else all_bytes is_segment_body_byte seg)
      && forallb segment segs && (saw || negb (length segs =? 0))
  end.
Proof.
  revert fresh saw. induction bytes as [|b rest IH]; intros fresh saw; cbn.
  { destruct fresh, saw; done. }
  destruct (Ascii.eqb b "."); cbn.
  - rewrite IH. destruct (split "." rest) as [|seg segs] eqn:Hs; cbn.
    { by destruct (split_not_nil "." rest). }
    destruct fresh, saw; cbn; rewrite ?andb_true_r; done.
  - rewrite IH. destruct (split "." rest) as [|seg segs] eqn:Hs; cbn.
    { by destruct (split_not_nil "." rest). }
    destruct fresh; cbn; by rewrite !andb_assoc.
Qed.

Lemma accepts_dotted_name s : accepts s true false = dotted_name s.
Proof.
  rewrite accepts_split. unfold dotted_name.
  destruct (split "." s) as [|seg [|seg' segs]]; cbn; [done| |];
    rewrite ?andb_false_r, ?andb_true_r; done.
Qed.

Lemma dotted_name_nonempty s : dotted_name s = true → (String.length s =? 0) = false.
Proof. by destruct s. Qed.

(** The acceptor decides [parse_dotted_name] on inputs of legal length. *)
Lemma parse_dotted_name_cases s :
  parse_dotted_name s = Ok s ∧ (String.length s ≤ MAX_NAME_LEN ∧ dotted_name s = true) ∨
  (∃ e, parse_dotted_name s = Err e) ∧
    ¬ (String.length s ≤ MAX_NAME_LEN ∧ dotted_name s = true).
Proof.
  unfold parse_dotted_name.
  destruct (String.length s =? 0) eqn:H0.
  { right. split; [by eexists|]. intros [_ Hd%dotted_name_nonempty]. congruence. }
  destruct (Nat.ltb_spec MAX_NAME_LEN (String.length s)) as [Hlt|Hle].
  { right. split; [by eexists|]. lia. }
  pose proof (scan_bytes_accepts s 0 0 false (le_n 0)) as Hscan.
  rewrite Nat.eqb_refl, accepts_dotted_name in Hscan.
  destruct (scan_bytes s 0 0 false) as [[st saw']|e]; cbn in *.
  - destruct (st =? String.length s); cbn in *.
    { right. split; [by eexists|]. intuition congruence. }
    destruct saw'; cbn in *; [left; by split_and!|].
    right. split; [by eexists|]. intuition congruence.
  - right. split; [by eexists|]. intuition congruence.
Qed.

(** A scan that falls through has read the dots it reports. *)
Lemma scan_bytes_Ok bytes i start saw st saw' :
  start ≤ i → scan_bytes bytes i start saw = Ok (st, saw') →
  saw' = saw || contains_byte "." bytes ∧
  (contains_byte "." bytes = false →
     st = start ∧
     if i =? start then bytes = "" ∨ segment bytes = true
     else all_bytes is_segment_body_byte bytes = true).
Proof.
  revert i start saw. induction bytes as [|b rest IH]; intros i start saw Hi; cbn.
  { intros [= <- <-]. rewrite orb_false_r. split; [done|]. intros _.
    split; [done|]. case_match; auto. }
  destruct (Ascii.eqb b "."); cbn.
  { destruct (i =? start); [done|]. intros H. apply IH in H as [-> _]; [|lia].
    by rewrite orb_true_r. }
  destruct (Nat.eqb_spec i start) as [->|Hne]; cbn.
  - destruct (is_ascii_lowercase b); cbn; [|by destruct (is_segment_body_byte b)].
    intros H. apply IH in H as [-> Hbody]; [|lia]. split; [done|]. intros Hc.
    replace (S start =? start) with false in Hbody by (symmetry; apply Nat.eqb_neq; lia).
    destruct (Hbody Hc) as [-> ->]. by auto.
  - destruct (is_segment_body_byte b); cbn; [|done].
    intros H. apply IH in H as [-> Hbody]; [|lia]. split; [done|]. intros Hc.
    replace (S i =? start) with false in Hbody by (symmetry; apply Nat.eqb_neq; lia).
    by destruct (Hbody Hc) as [-> ->].
Qed.

Lemma get_app_length p b rest : String.get (String.length p) (p +:+ String b rest) = Some b.
Proof. induction p as [|c p IH]; [done|]. by rewrite string_app_cons. Qed.

Lemma string_snoc_app p b rest : p +:+ String b rest = (p +:+ String b "") +:+ rest.
Proof. by rewrite string_app_assoc. Qed.

(** The scan's invariant after the prefix [p]: a segment starts here exactly
    when nothing was read or the last byte read is a dot. *)
Definition at_segment_start (p : string) (fresh : bool) : Prop :=
  fresh = true →
  String.length p = 0 ∨ ∀ rest, String.get (String.length p - 1) (p +:+ rest) = Some "."%char.

Lemma at_segment_start_dot p : at_segment_start (p +:+ ".") true.
Proof.
  intros _. right. intros rest.
  rewrite string_app_length; cbn. rewrite Nat.add_sub, string_app_assoc. apply get_app_length.
Qed.

Lemma scan_bytes_error p bytes start saw e :
  start ≤ String.length p → at_segment_start p (String.length p =? start) →
  scan_bytes bytes (String.length p) start saw = Err e → error_explains (p +:+ bytes) e.
Proof.
  revert p start saw. induction bytes as [|b rest IH]; intros p start saw Hle Hat; cbn; [done|].
  assert (Hlen : String.length (p +:+ String b "") = S (String.length p)).
  { rewrite string_app_length; cbn. lia. }
  destruct (Ascii.eqb_spec b ".") as [->|Hdot].
  { destruct (String.length p =? start) eqn:Hstart.
    - intros [= <-]. cbn. split; [apply get_app_length|].
      destruct (Hat eq_refl) as [H|H]; [by left|]. right; left. apply H.
    - rewrite string_snoc_app, <-Hlen. apply IH; [done|].
      intros _. by apply at_segment_start_dot. }
  destruct (Nat.eqb_spec (String.length p) start) as [<-|Hne]; cbn.
  - destruct (is_ascii_lowercase b) eqn:Hlow; cbn.
    + rewrite string_snoc_app, <-Hlen. apply IH; [lia|].
      rewrite Hlen. intros H%Nat.eqb_eq. lia.
    + destruct (is_segment_body_byte b) eqn:Hbody; intros [= <-]; cbn.
      * split; [|exists b; by rewrite get_app_length].
        destruct (Hat eq_refl) as [H|H]; [by left|]. right. apply H.
      * by rewrite get_app_length.
  - destruct (is_segment_body_byte b) eqn:Hbody; cbn.
    + rewrite string_snoc_app, <-Hlen. apply IH; [lia|].
      rewrite Hlen. intros H%Nat.eqb_eq. lia.
    + intros [= <-]; cbn. by rewrite get_app_length.
Qed.

(** The loop variable [segment_start] at the end of input means a trailing dot. *)
Lemma scan_bytes_trailing p bytes start saw saw' :
  start ≤ String.length p → at_segment_start p (String.length p =? start) →
  scan_bytes bytes (String.length p) start saw = Ok (String.length (p +:+ bytes), saw') →
  p +:+ bytes = "" ∨
  String.get (String.length (p +:+ bytes) - 1) (p +:+ bytes) = Some "."%char.
Proof.
  revert p start saw. induction bytes as [|b rest IH]; intros p start saw Hle Hat; cbn.
  { rewrite string_app_nil_r. intros [= -> _].
    destruct (Hat (Nat.eqb_refl _)) as [H|H]; [left; by destruct p|right].
    specialize (H ""). by rewrite string_app_nil_r in H. }
  assert (Hlen : String.length (p +:+ String b "") = S (String.length p)).
  { rewrite string_app_length; cbn. lia. }
  rewrite string_snoc_app, <-Hlen.
  destruct (Ascii.eqb_spec b ".") as [->|Hdot].
  { destruct (String.length p =? start); [done|]. apply IH; [done|].
    intros _. by apply at_segment_start_dot. }
  assert (Hfresh : ∀ st, st ≤ String.length p →
    at_segment_start (p +:+ String b "") (String.length (p +:+ String b "") =? st)).
  { intros st Hst. rewrite Hlen. intros H%Nat.eqb_eq. lia. }
  repeat case_match; try done; apply IH; auto with lia.
Qed.

Lemma dotted_name_signal k :
  dotted_name k = true → dotted_name (k +:+ ".signal") = true.
Proof.
  unfold dotted_name. change ".signal" with (String "." "signal"). rewrite split_app.
  intros [Hlen Hseg]%andb_prop. rewrite forallb_app, length_app, Hseg. cbn.
  apply Nat.leb_le in Hlen. by destruct (split "." k) as [|? [|? ?]]; cbn in *; try lia.
Qed.

(** A name is well formed when it could have come out of [parse]: the field of
    every newtype is private, so only [from_well_known] and
    [for_incident_kind] can build others. *)
Definition well_formed_name (s : string) : Prop := parse_dotted_name s = Ok s.

Lemma well_formed_name_iff s :
  well_formed_name s ↔ String.length s ≤ MAX_NAME_LEN ∧ dotted_name s = true.
Proof. unfold well_formed_name. destruct (parse_dotted_name_cases s) as [[-> ?]|[[e ->] ?]]; naive_solver. Qed.

(** Every byte of a well-formed name is a segment byte or a dot. *)
Definition is_name_byte (b : ascii) : bool := is_segment_body_byte b || Ascii.eqb b ".".

Lemma accepts_bytes s fresh saw : accepts s fresh saw = true → all_bytes is_name_byte s = true.
Proof.
  revert fresh saw. induction s as [|b s IH]; intros fresh saw; cbn; [done|].
  unfold is_name_byte at 1. destruct (Ascii.eqb b "."); cbn.
  - intros [_ H]%andb_prop. rewrite orb_true_r. eauto.
  - intros [Hb H]%andb_prop. rewrite orb_false_r. apply andb_true_intro. split; [|eauto].
    destruct fresh; auto using lowercase_is_body.
Qed.

Lemma well_formed_name_bytes s : well_formed_name s → all_bytes is_name_byte s = true.
Proof.
  intros [_ Hd]%well_formed_name_iff. rewrite <-accepts_dotted_name in Hd.
  by eapply accepts_bytes.
Qed.

(** ** Properties *)

(** The one-pass byte scan accepts exactly the grammar of the module
    comment: [parse] returns its input unchanged when the input is at most 128
    bytes and made of at least two [[a-z][a-z0-9_]*] segments joined by dots,
    and is an error on every other input. *)
Theorem parse_dotted_name_grammar s v :
  parse_dotted_name s = Ok v ↔
  v = s ∧ String.length s ≤ MAX_NAME_LEN ∧ dotted_name s = true.
Proof.
  destruct (parse_dotted_name_cases s) as [[-> ?]|[[e ->] ?]]; naive_solver.
Qed.

(** C39: The names on the wire. For every one of the ten newtypes, [TryFrom]
    accepts a string exactly when it is at most 128 bytes of at least two
    [[a-z][a-z0-9_]*] segments joined by dots, and the name it makes prints,
    converts and serialises as that string; a name survives the trip through
    its serialised form exactly when its string is one the parser accepts. *)
Theorem newtype_conversions {N} `{DottedNameLaws N} :
  (∀ s n, try_from s = Ok n ↔
     into_string n = s ∧ String.length s ≤ MAX_NAME_LEN ∧ dotted_name s = true) ∧
  (∀ n : N, display n = into_string n ∧ as_ref n = into_string n) ∧
  (∀ n : N, try_from (into_string n) = Ok n ↔ well_formed_name (into_string n)).
Proof.
  assert (∀ s (n : N), try_from s = Ok n ↔ into_string n = s ∧ well_formed_name s) as Hiff.
  { intros s n. rewrite try_from_parses, into_as_ref. unfold well_formed_name, parse_name.
    destruct (parse_dotted_name_cases s) as [[-> _]|[[e ->] _]]; cbn; [|naive_solver].
    split; [intros [= <-]; by rewrite as_ref_wrap|].
    intros [<- _]. by rewrite wrap_as_ref. }
  split_and!.
  - intros s n. by rewrite Hiff, well_formed_name_iff.
  - intros n. by rewrite display_as_ref, into_as_ref.
  - intros n. rewrite Hiff. naive_solver.
Qed.

(** Every error of the parser describes the input: the reported length is
    the length, the reported byte is the byte at the reported position and is
    illegal there, an empty segment is at a leading, doubled or trailing dot, a
    bad segment start is a digit or underscore right after a dot or at the
    front, and [NoDot] is a single legal segment. *)
Theorem parse_dotted_name_error s e : parse_dotted_name s = Err e → error_explains s e.
Proof.
  unfold parse_dotted_name.
  destruct (String.length s =? 0) eqn:H0.
  { intros [= <-]. by destruct s. }
  destruct (Nat.ltb_spec MAX_NAME_LEN (String.length s)) as [Hlt|Hle].
  { by intros [= <-]. }
  destruct (scan_bytes s 0 0 false) as [[st saw']|e'] eqn:Hscan; cbn.
  2:{ intros [= <-]. apply (scan_bytes_error "" s 0 false); [done| |done]. intros _. by left. }
  destruct (Nat.eqb_spec st (String.length s)) as [->|Hst].
  { intros [= <-]. apply Nat.eqb_neq in H0.
    destruct (scan_bytes_trailing "" s 0 false saw') as [Hs|H];
      [done|intros _; by left|exact Hscan|by destruct s|].
    split; [exact H|]. right; right. lia. }
  apply scan_bytes_Ok in Hscan as [-> Hsegs]; [|done].
  destruct (contains_byte "." s) eqn:Hdots; cbn in *; [by intros [=]|].
  intros [= <-]. cbn. destruct (Hsegs eq_refl) as [_ [->|?]]; done.
Qed.

(** The signal name derived from a well-formed incident kind is itself well
    formed exactly when the kind leaves room for the suffix under the 128-byte
    limit: for kinds of 122 to 128 bytes the name cannot be parsed back. *)
Theorem for_incident_kind_well_formed (kind : IncidentKind.t) :
  well_formed_name (IncidentKind.as_str kind) →
  well_formed_name (SignalName.as_str (SignalName.for_incident_kind kind)) ↔
  String.length (IncidentKind.as_str kind) ≤ MAX_NAME_LEN - String.length ".signal".
Proof.
  rewrite !well_formed_name_iff. cbn [SignalName.for_incident_kind SignalName.as_str].
  intros [_ Hd]. rewrite string_app_length. pose proof (dotted_name_signal _ Hd) as Hs.
  unfold MAX_NAME_LEN. cbn. split; [intros [? _]; lia|]. intros ?. split; [lia|done].
Qed.

Lemma parse_dotted_name_error_witness :
  parse_dotted_name "btc..lag" = Err (ParseDottedNameError.EmptySegment 4) ∧
  error_explains "btc..lag" (ParseDottedNameError.EmptySegment 4).
Proof. split; [reflexivity|]. apply parse_dotted_name_error. reflexivity. Defined.

Lemma for_incident_kind_well_formed_witness :
  well_formed_name "bitcoin.no_peers" ∧
  well_formed_name (SignalName.as_str
    (SignalName.for_incident_kind (IncidentKind.from_well_known "bitcoin.no_peers"))).
Proof.
  split; [reflexivity|]. apply for_incident_kind_well_formed; [reflexivity|].
  apply Nat.leb_le. reflexivity.
Defined.
