(* ===== verification/SharedTypes.v ===== *)
(** * Identifiers and entity references: [shared/types.rs]

    Every newtype is a Module whose [t] is the Rust struct and whose [get] is
    its field [0]. [Uuid] is the uuid crate's 128-bit value; the crate's
    operations are the class [UuidLib] and what the code relies on is
    [UuidLaws]. *)

From S2P Require Import Prelude RustStr.

Module Uuid.
Record t : Type := mk { bits : N }.

#[global] Instance eq_dec : EqDecision t.
Proof. solve_decision. Defined.
#[global] Instance countable : Countable t.
Proof. by apply (inj_countable' bits mk); intros []. Defined.
End Uuid.

(** The uuid crate: the [n]-th value a process draws from [Uuid::now_v7], and
    the textual form with its parser. *)
Class UuidLib : Type := {
  now_v7 : nat → Uuid.t;
  uuid_to_string : Uuid.t → string;
  uuid_parse_str : string → option Uuid.t;
}.

(** Documented behaviour: v7 values are unique, and the hyphenated form parses
    back, is not empty and is made of hexadecimal digits and hyphens. *)
Definition is_uuid_byte (b : ascii) : bool :=
  is_ascii_digit b || byte_in "a" "f" b || Ascii.eqb b "-".

Class UuidLaws `{UuidLib} : Prop := {
  now_v7_inj :: Inj (=) (=) now_v7;
  uuid_parse_to_string u : uuid_parse_str (uuid_to_string u) = Some u;
  uuid_to_string_bytes u : all_bytes is_uuid_byte (uuid_to_string u) = true;
  uuid_to_string_nonempty u : uuid_to_string u ≠ EmptyString;
}.

Module CollectorId.
Record t : Type := mk { get : string }.

#[global] Instance eq_dec : EqDecision t.
Proof. solve_decision. Defined.
#[global] Instance countable : Countable t.
Proof. by apply (inj_countable' get mk); intros []. Defined.
End CollectorId.

Module IncidentId.
Record t : Type := mk { get : Uuid.t }.

(** [Self::new()], the [n]-th draw. *)
Definition new `{UuidLib} (n : nat) : t := mk (now_v7 n).

#[global] Instance eq_dec : EqDecision t.
Proof. solve_decision. Defined.
#[global] Instance countable : Countable t.
Proof. by apply (inj_countable' get mk); intros []. Defined.
End IncidentId.

Module ObservationId.
Record t : Type := mk { get : Uuid.t }.

(** [Self::new()], the [n]-th draw. *)
Definition new `{UuidLib} (n : nat) : t := mk (now_v7 n).

#[global] Instance eq_dec : EqDecision t.
Proof. solve_decision. Defined.
#[global] Instance countable : Countable t.
Proof. by apply (inj_countable' get mk); intros []. Defined.
End ObservationId.

Module ObservationBatchId.
Record t : Type := mk { get : Uuid.t }.

(** [Self::new()], the [n]-th draw. *)
Definition new `{UuidLib} (n : nat) : t := mk (now_v7 n).

#[global] Instance eq_dec : EqDecision t.
Proof. solve_decision. Defined.
#[global] Instance countable : Countable t.
Proof. by apply (inj_countable' get mk); intros []. Defined.
End ObservationBatchId.

Module ActorId.
Record t : Type := mk { get : string }.

Definition system : t := mk "system".
Definition operator (name : string) : t := mk name.

#[global] Instance eq_dec : EqDecision t.
Proof. solve_decision. Defined.
#[global] Instance countable : Countable t.
Proof. by apply (inj_countable' get mk); intros []. Defined.
End ActorId.

Module SidecarId.
Record t : Type := mk { get : Uuid.t }.

#[global] Instance eq_dec : EqDecision t.
Proof. solve_decision. Defined.
#[global] Instance countable : Countable t.
Proof. by apply (inj_countable' get mk); intros []. Defined.
End SidecarId.

Module EvidenceRef.
Record t : Type := mk { get : ObservationId.t }.

#[global] Instance eq_dec : EqDecision t.
Proof. solve_decision. Defined.
#[global] Instance countable : Countable t.
Proof. by apply (inj_countable' get mk); intros []. Defined.
End EvidenceRef.

Module HostId.
Record t : Type := mk { get : string }.

#[global] Instance eq_dec : EqDecision t.
Proof. solve_decision. Defined.
#[global] Instance countable : Countable t.
Proof. by apply (inj_countable' get mk); intros []. Defined.
End HostId.

Module BitcoinNodeId.
Record t : Type := mk { get : string }.

#[global] Instance eq_dec : EqDecision t.
Proof. solve_decision. Defined.
#[global] Instance countable : Countable t.
Proof. by apply (inj_countable' get mk); intros []. Defined.
End BitcoinNodeId.

Module BitcoinPeerId.
Record t : Type := mk { get : string }.

#[global] Instance eq_dec : EqDecision t.
Proof. solve_decision. Defined.
#[global] Instance countable : Countable t.
Proof. by apply (inj_countable' get mk); intros []. Defined.
End BitcoinPeerId.

Module LndNodeId.
Record t : Type := mk { get : string }.

#[global] Instance eq_dec : EqDecision t.
Proof. solve_decision. Defined.
#[global] Instance countable : Countable t.
Proof. by apply (inj_countable' get mk); intros []. Defined.
End LndNodeId.

Module LndPeerId.
Record t : Type := mk { get : string }.

#[global] Instance eq_dec : EqDecision t.
Proof. solve_decision. Defined.
#[global] Instance countable : Countable t.
Proof. by apply (inj_countable' get mk); intros []. Defined.
End LndPeerId.

Module LndChannelId.
Record t : Type := mk { get : string }.

#[global] Instance eq_dec : EqDecision t.
Proof. solve_decision. Defined.
#[global] Instance countable : Countable t.
Proof. by apply (inj_countable' get mk); intros []. Defined.
End LndChannelId.

Module LndInvoiceId.
Record t : Type := mk { get : string }.

#[global] Instance eq_dec : EqDecision t.
Proof. solve_decision. Defined.
#[global] Instance countable : Countable t.
Proof. by apply (inj_countable' get mk); intros []. Defined.
End LndInvoiceId.

Module EntitySubjectKind.
Inductive t : Type :=
  | Sidecar
  | Host
  | BitcoinNode
  | BitcoinPeer
  | LndNode
  | LndPeer
  | LndChannel
  | LndInvoice.

#[global] Instance eq_dec : EqDecision t.
Proof. solve_decision. Defined.
End EntitySubjectKind.

Module EntityRef.
Inductive t : Type :=
  | Sidecar (id : SidecarId.t)
  | Host (id : HostId.t)
  | BitcoinNode (id : BitcoinNodeId.t)
  | BitcoinPeer (node_id : BitcoinNodeId.t) (peer_id : BitcoinPeerId.t)
  | LndNode (id : LndNodeId.t)
  | LndPeer (node_id : LndNodeId.t) (peer_id : LndPeerId.t)
  | LndChannel (node_id : LndNodeId.t) (channel_id : LndChannelId.t)
  | LndInvoice (node_id : LndNodeId.t) (invoice_id : LndInvoiceId.t).

#[global] Instance eq_dec : EqDecision t.
Proof. solve_decision. Defined.

(** The coding that makes entity references keys of finite maps. *)
Definition code (e : t) : (SidecarId.t + HostId.t) + (BitcoinNodeId.t +
    (BitcoinNodeId.t * BitcoinPeerId.t)) + ((LndNodeId.t + (LndNodeId.t * LndPeerId.t)) +
    ((LndNodeId.t * LndChannelId.t) + (LndNodeId.t * LndInvoiceId.t))) :=
  match e with
  | Sidecar i => inl (inl (inl i))
  | Host i => inl (inl (inr i))
  | BitcoinNode i => inl (inr (inl i))
  | BitcoinPeer n p => inl (inr (inr (n, p)))
  | LndNode i => inr (inl (inl i))
  | LndPeer n p => inr (inl (inr (n, p)))
  | LndChannel n c => inr (inr (inl (n, c)))
  | LndInvoice n i => inr (inr (inr (n, i)))
  end.

#[global] Instance countable : Countable t.
Proof.
  apply (inj_countable' code (λ c, match c with
    | inl (inl (inl i)) => Sidecar i
    | inl (inl (inr i)) => Host i
    | inl (inr (inl i)) => BitcoinNode i
    | inl (inr (inr (n, p))) => BitcoinPeer n p
    | inr (inl (inl i)) => LndNode i
    | inr (inl (inr (n, p))) => LndPeer n p
    | inr (inr (inl (n, c))) => LndChannel n c
    | inr (inr (inr (n, i))) => LndInvoice n i
    end)).
  by intros [].
Defined.

Definition subject_kind (e : t) : EntitySubjectKind.t :=
  match e with
  | Sidecar _ => EntitySubjectKind.Sidecar
  | Host _ => EntitySubjectKind.Host
  | BitcoinNode _ => EntitySubjectKind.BitcoinNode
  | BitcoinPeer _ _ => EntitySubjectKind.BitcoinPeer
  | LndNode _ => EntitySubjectKind.LndNode
  | LndPeer _ _ => EntitySubjectKind.LndPeer
  | LndChannel _ _ => EntitySubjectKind.LndChannel
  | LndInvoice _ _ => EntitySubjectKind.LndInvoice
  end.

Definition subject_kind_str (e : t) : string :=
  match e with
  | Sidecar _ => "sidecar"
  | Host _ => "host"
  | BitcoinNode _ => "bitcoin_node"
  | BitcoinPeer _ _ => "bitcoin_peer"
  | LndNode _ => "lnd_node"
  | LndPeer _ _ => "lnd_peer"
  | LndChannel _ _ => "lnd_channel"
  | LndInvoice _ _ => "lnd_invoice"
  end.

Definition subject_id_str `{UuidLib} (e : t) : string :=
  match e with
  | Sidecar id => uuid_to_string (SidecarId.get id)
  | Host id => HostId.get id
  | BitcoinNode id => BitcoinNodeId.get id
  | BitcoinPeer node_id peer_id => BitcoinNodeId.get node_id +:+ "/" +:+ BitcoinPeerId.get peer_id
  | LndNode id => LndNodeId.get id
  | LndPeer node_id peer_id => LndNodeId.get node_id +:+ "/" +:+ LndPeerId.get peer_id
  | LndChannel node_id channel_id =>
      LndNodeId.get node_id +:+ "/" +:+ LndChannelId.get channel_id
  | LndInvoice node_id invoice_id =>
      LndNodeId.get node_id +:+ "/" +:+ LndInvoiceId.get invoice_id
  end.
End EntityRef.

(** ** Facts about subjects *)

(** The node a scoped reference hangs under, as text. *)
Definition scope_str (e : EntityRef.t) : option string :=
  match e with
  | EntityRef.BitcoinPeer n _ => Some (BitcoinNodeId.get n)
  | EntityRef.LndPeer n _ | EntityRef.LndChannel n _ | EntityRef.LndInvoice n _ =>
      Some (LndNodeId.get n)
  | _ => None
  end.

(** No scoping node's identifier contains [c]. *)
Definition scope_free (c : ascii) (e : EntityRef.t) : Prop :=
  match scope_str e with
  | Some n => contains_byte c n = false
  | None => True
  end.

Lemma subject_kind_str_kind e1 e2 :
  EntityRef.subject_kind_str e1 = EntityRef.subject_kind_str e2 ↔
  EntityRef.subject_kind e1 = EntityRef.subject_kind e2.
Proof. by destruct e1, e2. Qed.

Lemma uuid_to_string_inj `{UuidLaws} : Inj (=) (=) uuid_to_string.
Proof.
  intros u1 u2 Heq. apply (inj Some). by rewrite <-!uuid_parse_to_string, Heq.
Qed.

(** Open the newtypes in the context. *)
Ltac destruct_ids :=
  repeat match goal with
  | x : SidecarId.t |- _ => destruct x
  | x : HostId.t |- _ => destruct x
  | x : BitcoinNodeId.t |- _ => destruct x
  | x : BitcoinPeerId.t |- _ => destruct x
  | x : LndNodeId.t |- _ => destruct x
  | x : LndPeerId.t |- _ => destruct x
  | x : LndChannelId.t |- _ => destruct x
  | x : LndInvoiceId.t |- _ => destruct x
  end.

(** The two columns a subject is stored under identify it, as long as the
    scoping node's identifier has no slash of its own. *)
Lemma subject_strs_inj `{UuidLaws} e1 e2 :
  scope_free "/" e1 → scope_free "/" e2 →
  EntityRef.subject_kind_str e1 = EntityRef.subject_kind_str e2 →
  EntityRef.subject_id_str e1 = EntityRef.subject_id_str e2 → e1 = e2.
Proof.
  intros H1 H2 Hk Hid. destruct e1, e2; try discriminate Hk; clear Hk; revert H1 H2 Hid;
    unfold scope_free; destruct_ids; cbn; intros H1 H2 Hid;
    try (apply string_sep_inj in Hid as [??]; [|done..]);
    try (apply uuid_to_string_inj in Hid); by simplify_eq.
Qed.
