(* ===== verification/F64.v ===== *)
(** * [f64] as IEEE 754 binary64

    [spec_float] with 53 bits of precision and exponents up to 1024 is the
    value of a Rust [f64], infinities, NaN and the two zeros included. *)

From S2P Require Import Prelude.
From Corelib Require Export SpecFloat.

Abbreviation f64 := spec_float.

Definition f64_sub : f64 → f64 → f64 := SFsub 53 1024.
Definition f64_mul : f64 → f64 → f64 := SFmul 53 1024.
Definition f64_abs : f64 → f64 := SFabs.

(** [PartialOrd] and [PartialEq]: false as soon as one side is NaN. *)
Definition f64_gt (a b : f64) : bool := SFltb b a.
Definition f64_lt (a b : f64) : bool := SFltb a b.
Definition f64_eq (a b : f64) : bool := SFeqb a b.

Definition is_finite (x : f64) : bool :=
  match x with
  | S754_zero _ | S754_finite _ _ _ => true
  | S754_infinity _ | S754_nan => false
  end.

(** The literals of the source, as the nearest binary64 values. *)
Definition f64_0_999 : f64 := S754_finite false 8998192055486251 (-53).
Definition f64_1e_9 : f64 := S754_finite false 4835703278458517 (-82).

#[global] Instance f64_eq_dec : EqDecision f64.
Proof. solve_decision. Defined.

(** [==] is reflexive on every value but NaN. *)
Lemma f64_eq_refl x : f64_eq x x = true ↔ x ≠ S754_nan.
Proof.
  unfold f64_eq, SFeqb, SFcompare.
  destruct x as [[]|[]| |[] m e]; try done; cbn;
    rewrite Z.compare_refl, Pcompare_refl; done.
Qed.
