(* ===== verification/CollectorTypes.v ===== *)
(** * Collector vocabulary: [collectors/types.rs] *)

From S2P Require Import Prelude SharedTypes.

Module CollectionRunId.
Record t : Type := mk { get : Uuid.t }.
End CollectionRunId.

Module CollectorMode.
Inductive t : Type := Polling | Subscription.

#[global] Instance eq_dec : EqDecision t.
Proof. solve_decision. Defined.
End CollectorMode.

Module IntegrationKind.
Inductive t : Type :=
  | BitcoinCoreRpc (interval : Duration)
  | BitcoinCoreZmq
  | LndGrpcPoll (interval : Duration)
  | LndGrpcStream
  | LndRest (interval : Duration)
  | Host (interval : Duration).

#[global] Instance eq_dec : EqDecision t.
Proof. solve_decision. Defined.

Definition mode (k : t) : CollectorMode.t :=
  match k with
  | BitcoinCoreRpc _ | LndGrpcPoll _ | LndRest _ | Host _ => CollectorMode.Polling
  | BitcoinCoreZmq | LndGrpcStream => CollectorMode.Subscription
  end.

Definition interval (k : t) : option Duration :=
  match k with
  | BitcoinCoreRpc i | LndGrpcPoll i | LndRest i | Host i => Some i
  | BitcoinCoreZmq | LndGrpcStream => None
  end.
End IntegrationKind.

Module CollectorTarget.
Inductive t : Type :=
  | BitcoinNode (id : BitcoinNodeId.t)
  | LndNode (id : LndNodeId.t)
  | Host (id : HostId.t).

#[global] Instance eq_dec : EqDecision t.
Proof. solve_decision. Defined.
End CollectorTarget.

Module CollectorRef.
Record t : Type := mk {
  id : CollectorId.t;
  integration : IntegrationKind.t;
  instance_label : string;
}.

#[global] Instance eq_dec : EqDecision t.
Proof. solve_decision. Defined.
End CollectorRef.

Module CollectorDescriptor.
Record t : Type := mk {
  id : CollectorId.t;
  integration : IntegrationKind.t;
  target : CollectorTarget.t;
  instance_label : string;
  description : option string;
}.

Definition as_ref (d : t) : CollectorRef.t := {|
  CollectorRef.id := id d;
  CollectorRef.integration := integration d;
  CollectorRef.instance_label := instance_label d;
|}.
End CollectorDescriptor.

Module CollectorSetup.
Inductive t : Type := Disabled | Enabled (d : CollectorDescriptor.t).
End CollectorSetup.

Module CollectionContext.
Record t : Type := mk {
  sidecar_id : SidecarId.t;
  collector_id : CollectorId.t;
  target : CollectorTarget.t;
  now : DateTime;
  run_id : CollectionRunId.t;
}.
End CollectionContext.

Module CollectionErrorKind.
Inductive t : Type :=
  | Unreachable
  | Timeout
  | AuthenticationFailed
  | PermissionDenied
  | ProtocolError
  | DecodeError
  | InvalidResponse
  | RateLimited
  | Misconfigured
  | UnsupportedVersion
  | Internal.

#[global] Instance eq_dec : EqDecision t.
Proof. solve_decision. Defined.

Definition is_retryable (k : t) : bool :=
  match k with
  | Unreachable | Timeout | RateLimited | Internal => true
  | _ => false
  end.
End CollectionErrorKind.

Module CollectionError.
Record t : Type := mk {
  kind : CollectionErrorKind.t;
  message : string;
}.
End CollectionError.

(** A collector is driven by ticks exactly when its integration has one. *)
Lemma mode_polling_interval k :
  IntegrationKind.mode k = CollectorMode.Polling ↔ is_Some (IntegrationKind.interval k).
Proof. destruct k; cbn; split; intros; try done; by eapply is_Some_None. Qed.

(** The health targets of [collectors/bitcoin_core/rpc.rs]. *)
Module bitcoin_rpc_health.
Definition HEALTH_BLOCKCHAIN : string := "bitcoin.rpc.getblockchaininfo".
Definition HEALTH_MEMPOOL : string := "bitcoin.rpc.getmempoolinfo".
Definition HEALTH_NETWORK : string := "bitcoin.rpc.getnetworkinfo".
Definition HEALTH_PEERS : string := "bitcoin.rpc.getpeerinfo".

Definition HEALTH_TARGETS : list string :=
  [HEALTH_BLOCKCHAIN; HEALTH_MEMPOOL; HEALTH_NETWORK; HEALTH_PEERS].
End bitcoin_rpc_health.
