(* ===== verification/Observations.v ===== *)
(** * Observations: [observations/types.rs] and [observations/types/*.rs]

    The payload structs and enums with the source's fields and constructors,
    the constructors of [Observation], probe windows and batches. A struct is
    the record [t] of a Module named after it. *)

From S2P Require Import Prelude RustStr Names SharedTypes F64 CollectorTypes.

(** ** Severities, statuses, confidence *)

Module SignalSeverity.
Inductive t : Type := Info | Warning | Critical.
#[global] Instance eq_dec : EqDecision t.
Proof. solve_decision. Defined.
End SignalSeverity.

Module SignalStatus.
Inductive t : Type := Active | Cleared.
#[global] Instance eq_dec : EqDecision t.
Proof. solve_decision. Defined.
End SignalStatus.

Module Confidence.
Inductive t : Type := Low | Medium | High.
#[global] Instance eq_dec : EqDecision t.
Proof. solve_decision. Defined.
End Confidence.

Module EventSeverity.
Inductive t : Type := Debug | Info | Notice | Warning | Error | Critical.
End EventSeverity.

Module CapabilityStatus.
Inductive t : Type := Available | Unavailable | Degraded | Unknown.
#[global] Instance eq_dec : EqDecision t.
Proof. solve_decision. Defined.
End CapabilityStatus.

Module HealthStatus.
Inductive t : Type := Ok | Warning | Critical | Unknown.
#[global] Instance eq_dec : EqDecision t.
Proof. solve_decision. Defined.
End HealthStatus.

Module HeartbeatStatus.
Inductive t : Type := Alive | Degraded.
End HeartbeatStatus.

(** ** Health, capability, event, inventory, transition, diagnosis *)

Module HealthError.
Record t : Type := mk { code : string; message : string; retryable : option bool }.
End HealthError.

Module HealthCheckObservation.
Record t : Type := mk {
  target : HealthTargetId.t;
  status : HealthStatus.t;
  latency_ms : option Z;
  message : option string;
  error : option HealthError.t;
}.
End HealthCheckObservation.

Module CollectorStatus.
Record t : Type := mk {
  collector : string;
  status : HealthStatus.t;
  last_success_at : option DateTime;
  last_error_at : option DateTime;
  last_error_code : option string;
}.
End CollectorStatus.

Module HeartbeatObservation.
Record t : Type := mk {
  sequence : Z;
  sidecar_time : DateTime;
  monotonic_uptime_ms : option Z;
  sidecar_version : string;
  status : HeartbeatStatus.t;
  collector_statuses : list CollectorStatus.t;
}.
End HeartbeatObservation.

Module CapabilityObservation.
Record t : Type := mk {
  capability : CapabilityName.t;
  status : CapabilityStatus.t;
  reason : option string;
}.
End CapabilityObservation.

Module EventObservation.
Record t : Type := mk {
  name : EventName.t;
  severity : EventSeverity.t;
  body : option string;
}.
End EventObservation.

Module InventoryValue.
Inductive t : Type :=
  | String (s : string)
  | Bool (b : bool)
  | U64 (n : Z)
  | I64 (n : Z)
  | F64 (x : f64)
  | StringList (l : list string).
End InventoryValue.

Module InventoryObservation.
Record t : Type := mk {
  name : InventoryName.t;
  facts : gmap string InventoryValue.t;
}.
End InventoryObservation.

Module StateAtom.
Inductive t : Type :=
  | String (s : string)
  | Bool (b : bool)
  | U64 (n : Z)
  | I64 (n : Z)
  | F64 (x : f64).
End StateAtom.

Module TransitionObservation.
Record t : Type := mk {
  name : TransitionName.t;
  from : StateAtom.t;
  to : StateAtom.t;
  reason : option string;
}.

Definition validate (o : t) : Result unit string :=
  match from o, to o with
  | StateAtom.String _, StateAtom.String _ => Ok tt
  | StateAtom.Bool _, StateAtom.Bool _ => Ok tt
  | StateAtom.U64 _, StateAtom.U64 _ => Ok tt
  | StateAtom.I64 _, StateAtom.I64 _ => Ok tt
  | StateAtom.F64 _, StateAtom.F64 _ => Ok tt
  | _, _ => Err "state atoms must be of the same type"
  end.
End TransitionObservation.

Module DiagnosisObservation.
Record t : Type := mk {
  diagnosis : DiagnosisName.t;
  summary : string;
  confidence : Confidence.t;
  likely_causes : list string;
  recommended_actions : list string;
  evidence : list EvidenceRef.t;
}.
End DiagnosisObservation.

Module IncidentSignalObservation.
Record t : Type := mk {
  signal : SignalName.t;
  incident_kind : IncidentKind.t;
  severity : SignalSeverity.t;
  status : SignalStatus.t;
  confidence : Confidence.t;
  evidence : list EvidenceRef.t;
}.
End IncidentSignalObservation.

(** ** Metrics *)

Module NumericValue.
Inductive t : Type := U64 (n : Z) | I64 (n : Z) | F64 (x : f64).

(** Derived [PartialEq]: values of different variants differ, and the
    floating variant compares as [f64] does. *)
Definition eqb (a b : t) : bool :=
  match a, b with
  | U64 m, U64 n => (m =? n)%Z
  | I64 m, I64 n => (m =? n)%Z
  | F64 x, F64 y => f64_eq x y
  | _, _ => false
  end.
End NumericValue.

Module HistogramBucket.
Record t : Type := mk { le : f64; count : Z }.
Definition eqb (a b : t) : bool := f64_eq (le a) (le b) && (count a =? count b)%Z.
End HistogramBucket.

(** [Vec::eq]: same length, element by element. *)
Fixpoint list_eqb {A} (eqb : A → A → bool) (l1 l2 : list A) : bool :=
  match l1, l2 with
  | [], [] => true
  | x :: l1', y :: l2' => eqb x y && list_eqb eqb l1' l2'
  | _, _ => false
  end.

Definition option_eqb {A} (eqb : A → A → bool) (o1 o2 : option A) : bool :=
  match o1, o2 with
  | None, None => true
  | Some x, Some y => eqb x y
  | _, _ => false
  end.

Module HistogramValue.
Record t : Type := mk { buckets : list HistogramBucket.t; count : Z; sum : f64 }.
Definition eqb (a b : t) : bool :=
  list_eqb HistogramBucket.eqb (buckets a) (buckets b)
  && (count a =? count b)%Z && f64_eq (sum a) (sum b).
End HistogramValue.

Module Quantile.
Record t : Type := mk { quantile : f64; value : f64 }.
Definition eqb (a b : t) : bool :=
  f64_eq (quantile a) (quantile b) && f64_eq (value a) (value b).
End Quantile.

Module SummaryValue.
Record t : Type := mk { quantiles : list Quantile.t; count : option Z; sum : option f64 }.
Definition eqb (a b : t) : bool :=
  list_eqb Quantile.eqb (quantiles a) (quantiles b)
  && option_eqb Z.eqb (count a) (count b) && option_eqb f64_eq (sum a) (sum b).
End SummaryValue.

Module MetricValue.
Inductive t : Type :=
  | Numeric (v : NumericValue.t)
  | Histogram (v : HistogramValue.t)
  | Summary (v : SummaryValue.t).

Definition eqb (a b : t) : bool :=
  match a, b with
  | Numeric v, Numeric w => NumericValue.eqb v w
  | Histogram v, Histogram w => HistogramValue.eqb v w
  | Summary v, Summary w => SummaryValue.eqb v w
  | _, _ => false
  end.
End MetricValue.

Module MetricKind.
Inductive t : Type := Gauge | Counter | Delta | Histogram | Summary.
End MetricKind.

Module Unit.
Inductive t : Type :=
  | Dimensionless | Count | Bytes | VirtualBytes | WeightUnits | Seconds | Milliseconds
  | Satoshis | MilliSatoshis | Ratio | Custom (s : string).
End Unit.

Module MetricObservation.
Record t : Type := mk {
  name : MetricName.t;
  kind : MetricKind.t;
  value : MetricValue.t;
  unit_ : Unit.t;
}.

Definition validate (o : t) : Result unit string :=
  match kind o, value o with
  | MetricKind.Gauge, MetricValue.Numeric _ => Ok tt
  | MetricKind.Delta, MetricValue.Numeric _ => Ok tt
  | MetricKind.Counter, MetricValue.Numeric (NumericValue.U64 _) => Ok tt
  | MetricKind.Histogram, MetricValue.Histogram _ => Ok tt
  | MetricKind.Summary, MetricValue.Summary _ => Ok tt
  | _, _ => Err "invalid metric value"
  end.
End MetricObservation.

(** ** States *)

Module BitcoinBlockchainState.
Record t : Type := mk {
  chain : string;
  blocks : Z;
  headers : Z;
  best_block_hash : option string;
  verification_progress : f64;
  initial_block_download : bool;
  pruned : bool;
  size_on_disk_bytes : Z;
}.
End BitcoinBlockchainState.

Module BitcoinMempoolState.
Record t : Type := mk {
  loaded : bool;
  tx_count : Z;
  bytes : Z;
  usage_bytes : Z;
  max_mempool_bytes : Z;
}.
End BitcoinMempoolState.

Module BitcoinNetworkState.
Record t : Type := mk {
  version : Z;
  subversion : string;
  protocol_version : Z;
  connections : Z;
  connections_in : option Z;
  connections_out : option Z;
  network_active : option bool;
}.
End BitcoinNetworkState.

Module BitcoinPeerSummaryState.
Record t : Type := mk {
  peer_count : Z;
  inbound_count : option Z;
  outbound_count : option Z;
  block_relay_only_count : option Z;
}.
End BitcoinPeerSummaryState.

Module LndNodeState.
Record t : Type := mk {
  identity_pubkey : string;
  alias : option string;
  version : option string;
  num_active_channels : Z;
  num_inactive_channels : option Z;
  num_pending_channels : Z;
  num_peers : Z;
  block_height : Z;
  synced_to_chain : bool;
  synced_to_graph : option bool;
}.
End LndNodeState.

Module LndWalletState.
Record t : Type := mk {
  total_balance_sat : Z;
  confirmed_balance_sat : Z;
  unconfirmed_balance_sat : Z;
}.
End LndWalletState.

Module LndChannelSummaryState.
Record t : Type := mk {
  active_channels : Z;
  inactive_channels : Z;
  pending_channels : Z;
  total_capacity_sat : option Z;
  local_balance_sat : Z;
  remote_balance_sat : Z;
  unsettled_balance_sat : option Z;
}.
End LndChannelSummaryState.

Module LndChannelState.
Record t : Type := mk {
  remote_pubkey : string;
  capacity_sat : Z;
  local_balance_sat : Z;
  remote_balance_sat : Z;
  active : bool;
  private : bool;
  initiator : bool;
  csv_delay : Z;
  commit_fee_sat : Z;
  lifetime_seconds : Z;
  last_update_height : option Z;
  short_channel_id : option string;
  peer_online : option bool;
}.
End LndChannelState.

Module HostState.
Record t : Type := mk {
  hostname : option string;
  os : option string;
  kernel : option string;
  uptime_seconds : option Z;
  cpu_count : option Z;
  memory_total_bytes : option Z;
  disk_total_bytes : option Z;
  disk_available_bytes : option Z;
}.
End HostState.

(** [state/well_known.rs]. *)
Module well_known_state.
Definition BITCOIN_BLOCKCHAIN : string := "bitcoin.blockchain".
Definition BITCOIN_MEMPOOL : string := "bitcoin.mempool".
Definition BITCOIN_NETWORK : string := "bitcoin.network".
Definition BITCOIN_PEER_SUMMARY : string := "bitcoin.peer_summary".
Definition LND_NODE : string := "lnd.node".
Definition LND_WALLET : string := "lnd.wallet".
Definition LND_CHANNEL_SUMMARY : string := "lnd.channel_summary".
Definition LND_CHANNEL_DETAIL : string := "lnd.channel_detail".
Definition HOST_SYSTEM : string := "host.system".

Definition ALL : list string :=
  [BITCOIN_BLOCKCHAIN; BITCOIN_MEMPOOL; BITCOIN_NETWORK; BITCOIN_PEER_SUMMARY; LND_NODE;
   LND_WALLET; LND_CHANNEL_SUMMARY; LND_CHANNEL_DETAIL; HOST_SYSTEM].
End well_known_state.

Module StateObservation.
Inductive t : Type :=
  | BitcoinBlockchain (s : BitcoinBlockchainState.t)
  | BitcoinMempool (s : BitcoinMempoolState.t)
  | BitcoinNetwork (s : BitcoinNetworkState.t)
  | BitcoinPeerSummary (s : BitcoinPeerSummaryState.t)
  | LndNode (s : LndNodeState.t)
  | LndWallet (s : LndWalletState.t)
  | LndChannelSummary (s : LndChannelSummaryState.t)
  | LndChannel (s : LndChannelState.t)
  | Host (s : HostState.t).

Definition name (s : t) : StateName.t :=
  StateName.from_well_known
    match s with
    | BitcoinBlockchain _ => well_known_state.BITCOIN_BLOCKCHAIN
    | BitcoinMempool _ => well_known_state.BITCOIN_MEMPOOL
    | BitcoinNetwork _ => well_known_state.BITCOIN_NETWORK
    | BitcoinPeerSummary _ => well_known_state.BITCOIN_PEER_SUMMARY
    | LndNode _ => well_known_state.LND_NODE
    | LndWallet _ => well_known_state.LND_WALLET
    | LndChannelSummary _ => well_known_state.LND_CHANNEL_SUMMARY
    | LndChannel _ => well_known_state.LND_CHANNEL_DETAIL
    | Host _ => well_known_state.HOST_SYSTEM
    end.
End StateObservation.

(** ** The observation envelope *)

Module ObservationPayload.
Inductive t : Type :=
  | Capability (o : CapabilityObservation.t)
  | Diagnosis (o : DiagnosisObservation.t)
  | Event (o : EventObservation.t)
  | Heartbeat (o : HeartbeatObservation.t)
  | Health (o : HealthCheckObservation.t)
  | IncidentSignal (o : IncidentSignalObservation.t)
  | Inventory (o : InventoryObservation.t)
  | Metric (o : MetricObservation.t)
  | State (o : StateObservation.t)
  | Transition (o : TransitionObservation.t).
End ObservationPayload.

Module ObservationOrigin.
Inductive t : Type := Collected | Computed | Imported | UserReported.

#[global] Instance eq_dec : EqDecision t.
Proof. solve_decision. Defined.

Definition as_str (o : t) : string :=
  match o with
  | Collected => "Collected"
  | Computed => "Computed"
  | Imported => "Imported"
  | UserReported => "UserReported"
  end.
End ObservationOrigin.

Module ObservationSource.
Record t : Type := mk { sidecar_id : SidecarId.t; collector : CollectorRef.t }.

#[global] Instance eq_dec : EqDecision t.
Proof. solve_decision. Defined.
End ObservationSource.

Module ObservationContext.
Record t : Type := mk {
  source : ObservationSource.t;
  subject : EntityRef.t;
  observed_at : DateTime;
  origin : ObservationOrigin.t;
}.
End ObservationContext.

Module AttributeValue.
Inductive t : Type :=
  | String (s : string)
  | Bool (b : bool)
  | I64 (n : Z)
  | U64 (n : Z)
  | F64 (x : f64).
End AttributeValue.

Module Attributes.
Record t : Type := mk { get : gmap string AttributeValue.t }.
End Attributes.

Module Observation.
Record t : Type := mk {
  id : ObservationId.t;
  observed_at : DateTime;
  received_at : option DateTime;
  source : ObservationSource.t;
  subject : EntityRef.t;
  origin : ObservationOrigin.t;
  attributes : Attributes.t;
  payload : ObservationPayload.t;
}.

(** Every constructor fills the envelope the same way; [n] is the draw its
    [ObservationId::new()] makes. *)
Section constructors.
Context `{UuidLib}.
Implicit Types (ctx : ObservationContext.t) (attributes : Attributes.t) (n : nat).

Definition of_payload ctx attributes n (payload : ObservationPayload.t) : t := {|
  id := ObservationId.new n;
  observed_at := ObservationContext.observed_at ctx;
  received_at := None;
  source := ObservationContext.source ctx;
  subject := ObservationContext.subject ctx;
  origin := ObservationContext.origin ctx;
  attributes := attributes;
  payload := payload;
|}.

Definition metric ctx (name : MetricName.t) (kind : MetricKind.t) (value : MetricValue.t)
    (unit_ : Unit.t) attributes n : t :=
  of_payload ctx attributes n (ObservationPayload.Metric {|
    MetricObservation.name := name;
    MetricObservation.kind := kind;
    MetricObservation.value := value;
    MetricObservation.unit_ := unit_;
  |}).

Definition capability ctx (name : CapabilityName.t) (status : CapabilityStatus.t)
    (reason : option string) attributes n : t :=
  of_payload ctx attributes n (ObservationPayload.Capability {|
    CapabilityObservation.capability := name;
    CapabilityObservation.status := status;
    CapabilityObservation.reason := reason;
  |}).

Definition event ctx (name : EventName.t) (severity : EventSeverity.t)
    (body : option string) attributes n : t :=
  of_payload ctx attributes n (ObservationPayload.Event {|
    EventObservation.name := name;
    EventObservation.severity := severity;
    EventObservation.body := body;
  |}).

Definition heartbeat ctx (sequence : Z) (sidecar_time : DateTime)
    (monotonic_uptime_ms : option Z) (sidecar_version : string)
    (status : HeartbeatStatus.t) (collector_statuses : list CollectorStatus.t)
    attributes n : t :=
  of_payload ctx attributes n (ObservationPayload.Heartbeat {|
    HeartbeatObservation.sequence := sequence;
    HeartbeatObservation.sidecar_time := sidecar_time;
    HeartbeatObservation.monotonic_uptime_ms := monotonic_uptime_ms;
    HeartbeatObservation.sidecar_version := sidecar_version;
    HeartbeatObservation.status := status;
    HeartbeatObservation.collector_statuses := collector_statuses;
  |}).

Definition health ctx (target : HealthTargetId.t) (status : HealthStatus.t)
    (latency_ms : option Z) (message : option string) (error : option HealthError.t)
    attributes n : t :=
  of_payload ctx attributes n (ObservationPayload.Health {|
    HealthCheckObservation.target := target;
    HealthCheckObservation.status := status;
    HealthCheckObservation.latency_ms := latency_ms;
    HealthCheckObservation.message := message;
    HealthCheckObservation.error := error;
  |}).

Definition inventory ctx (name : InventoryName.t) (facts : gmap string InventoryValue.t)
    attributes n : t :=
  of_payload ctx attributes n (ObservationPayload.Inventory {|
    InventoryObservation.name := name;
    InventoryObservation.facts := facts;
  |}).

Definition state ctx (st : StateObservation.t) attributes n : t :=
  of_payload ctx attributes n (ObservationPayload.State st).

Definition transition ctx (name : TransitionName.t) (from to : StateAtom.t)
    (reason : option string) attributes n : t :=
  of_payload ctx attributes n (ObservationPayload.Transition {|
    TransitionObservation.name := name;
    TransitionObservation.from := from;
    TransitionObservation.to := to;
    TransitionObservation.reason := reason;
  |}).

Definition incident_signal ctx (signal : IncidentSignalObservation.t) attributes n : t :=
  of_payload ctx attributes n (ObservationPayload.IncidentSignal signal).

Definition diagnosis ctx (d : DiagnosisObservation.t) attributes n : t :=
  of_payload ctx attributes n (ObservationPayload.Diagnosis d).
End constructors.
End Observation.

(** ** Probe windows, results and batches *)

Module ProbeWindowError.
Inductive t : Type := Inverted.
End ProbeWindowError.

Module ProbeWindow.
Record t : Type := mk { started_at : DateTime; completed_at : DateTime }.

Definition new (started_at completed_at : DateTime) : Result t ProbeWindowError.t :=
  if (completed_at <? started_at)%Z then Err ProbeWindowError.Inverted
  else Ok {| started_at := started_at; completed_at := completed_at |}.

Definition duration (w : t) : Duration := (completed_at w - started_at w)%Z.
End ProbeWindow.

Module ProbeResult.
Inductive t : Type :=
  | Ok (observations : list Observation.t)
  | Failed (health : HealthCheckObservation.t)
      (partial_observations : list Observation.t) (error : CollectionError.t).
End ProbeResult.

Module ObservationBatch.
Record t : Type := mk {
  id : ObservationBatchId.t;
  collector : CollectorRef.t;
  sidecar_id : SidecarId.t;
  window : ProbeWindow.t;
  result : ProbeResult.t;
}.
End ObservationBatch.

(** ** Facts *)

(** The state names are distinct and follow the dotted-name grammar. *)
Lemma state_names_well_formed : Forall well_formed_name well_known_state.ALL.
Proof. repeat constructor. Qed.

Lemma state_name_in_all s :
  StateName.as_str (StateObservation.name s) ∈ well_known_state.ALL.
Proof. destruct s; repeat constructor. Qed.

(** The variant of a state observation, by its constructor. *)
Definition same_variant (s1 s2 : StateObservation.t) : bool :=
  match s1, s2 with
  | StateObservation.BitcoinBlockchain _, StateObservation.BitcoinBlockchain _
  | StateObservation.BitcoinMempool _, StateObservation.BitcoinMempool _
  | StateObservation.BitcoinNetwork _, StateObservation.BitcoinNetwork _
  | StateObservation.BitcoinPeerSummary _, StateObservation.BitcoinPeerSummary _
  | StateObservation.LndNode _, StateObservation.LndNode _
  | StateObservation.LndWallet _, StateObservation.LndWallet _
  | StateObservation.LndChannelSummary _, StateObservation.LndChannelSummary _
  | StateObservation.LndChannel _, StateObservation.LndChannel _
  | StateObservation.Host _, StateObservation.Host _ => true
  | _, _ => false
  end.

Lemma state_name_variant s1 s2 :
  StateObservation.name s1 = StateObservation.name s2 ↔ same_variant s1 s2 = true.
Proof. by destruct s1, s2. Qed.

(** Windows built by [new] are never inverted. *)
Lemma probe_window_new_ordered s c w :
  ProbeWindow.new s c = Ok w →
  (ProbeWindow.started_at w ≤ ProbeWindow.completed_at w)%Z.
Proof. unfold ProbeWindow.new. destruct (Z.ltb_spec c s); intros [= <-]. done. Qed.
