(* ===== verification/Samples.v ===== *)
(** * Sample data

    A concrete [UuidLib] that meets [UuidLaws], and concrete identities and
    observations: the inputs at which theorems with hypotheses are applied. *)

From S2P Require Import Prelude RustStr Names SharedTypes F64 CollectorTypes Observations.

(** ** A model of the uuid crate *)

Fixpoint pos_digits (p : positive) : string :=
  match p with
  | xH => EmptyString
  | xO p' => String "0" (pos_digits p')
  | xI p' => String "1" (pos_digits p')
  end.

Fixpoint digits_pos (s : string) : option positive :=
  match s with
  | EmptyString => Some xH
  | String b s' =>
      p ← digits_pos s';
      if Ascii.eqb b "0" then Some (xO p) else if Ascii.eqb b "1" then Some (xI p) else None
  end.

Lemma digits_pos_digits p : digits_pos (pos_digits p) = Some p.
Proof. induction p as [p IH|p IH|]; cbn; by rewrite ?IH. Qed.

Lemma pos_digits_bytes p : all_bytes is_uuid_byte (pos_digits p) = true.
Proof. by induction p. Qed.

Definition sample_uuid_to_string (u : Uuid.t) : string :=
  String "0" (pos_digits (N.succ_pos (Uuid.bits u))).

Definition sample_uuid_parse (s : string) : option Uuid.t :=
  match s with
  | String "0" s => p ← digits_pos s; Some (Uuid.mk (Pos.pred_N p))
  | _ => None
  end.

#[global] Instance sample_uuid_lib : UuidLib := {
  now_v7 n := Uuid.mk (N.of_nat n);
  uuid_to_string := sample_uuid_to_string;
  uuid_parse_str := sample_uuid_parse;
}.

#[global] Instance sample_uuid_laws : UuidLaws.
Proof.
  split.
  - intros n m [= Heq%Nat2N.inj]. done.
  - intros [u]; cbn. unfold sample_uuid_parse, sample_uuid_to_string.
    rewrite digits_pos_digits; cbn. by rewrite N.pos_pred_succ.
  - intros u. apply pos_digits_bytes.
  - done.
Defined.

#[global] Instance sample_debug_lib : DebugLib :=
  {| debug_str s := String "034" (s +:+ String "034" EmptyString) |}.

(** ** Identities *)

Definition sample_sidecar : SidecarId.t := SidecarId.mk (now_v7 0).
Definition sample_node : BitcoinNodeId.t := BitcoinNodeId.mk "btc-main".
Definition sample_lnd : LndNodeId.t := LndNodeId.mk "lnd-main".
Definition sample_subject : EntityRef.t := EntityRef.BitcoinNode sample_node.

Definition sample_collector : CollectorRef.t := {|
  CollectorRef.id := CollectorId.mk "bitcoin-rpc";
  CollectorRef.integration := IntegrationKind.BitcoinCoreRpc (from_secs 30);
  CollectorRef.instance_label := "main";
|}.

Definition sample_context (at_ : DateTime) : ObservationContext.t := {|
  ObservationContext.source := {|
    ObservationSource.sidecar_id := sample_sidecar;
    ObservationSource.collector := sample_collector;
  |};
  ObservationContext.subject := sample_subject;
  ObservationContext.observed_at := at_;
  ObservationContext.origin := ObservationOrigin.Collected;
|}.

Definition no_attributes : Attributes.t := Attributes.mk ∅.

(** ** Observations *)

Definition sample_metric (n : nat) (at_ : DateTime) (v : NumericValue.t) : Observation.t :=
  Observation.metric (sample_context at_) (MetricName.from_well_known "bitcoin.connections")
    MetricKind.Gauge (MetricValue.Numeric v) Unit.Count no_attributes n.

Definition sample_health (n : nat) (at_ : DateTime) (status : HealthStatus.t) : Observation.t :=
  Observation.health (sample_context at_) (HealthTargetId.from_well_known "bitcoin.rpc")
    status None None None no_attributes n.

Definition sample_peer_summary (n : nat) (at_ : DateTime) (peers : Z) : Observation.t :=
  Observation.state (sample_context at_)
    (StateObservation.BitcoinPeerSummary (BitcoinPeerSummaryState.mk peers None None None))
    no_attributes n.
