(* ===== verification/ReadModels.v ===== *)
(** * Read models: [read_models/projections/*.rs] and
    [read_models/traits/*.rs]

    A projection folds observations into an in-memory shape. Four of them keep
    the latest value per key, the metric projection a bounded ring per series
    and the heartbeat projection one bounded ring. The six read-model traits
    are records of their methods: what a [&dyn Trait] is. *)

From S2P Require Import Prelude RustStr Names SharedTypes F64 CollectorTypes Observations.

Module Projected.
Record t {V : Type} : Type := mk {
  value : V;
  observation_id : ObservationId.t;
  observed_at : DateTime;
}.
Arguments t : clear implicits.
Arguments mk {V} value observation_id observed_at.

(** [Projected { value, observation_id: obs.id, observed_at: obs.observed_at }]. *)
Definition of_observation {V} (value : V) (obs : Observation.t) : t V :=
  mk value (Observation.id obs) (Observation.observed_at obs).
End Projected.

Module ProjectionError.
Inductive t : Type := InvalidPayload (s : string) | InternalConsistency (s : string).
End ProjectionError.

(** The [Projection] trait: an observation goes in, or is rejected. *)
Class Projection (P : Type) : Type :=
  apply_obs : P → Observation.t → Result P ProjectionError.t.

(** ** Latest-write-wins maps *)

Section latest.
Context {K V : Type} `{Countable K}.

(** Keep the existing entry when it is at least as recent. *)
Definition insert_latest (m : gmap K (Projected.t V)) (key : K) (p : Projected.t V) :
    gmap K (Projected.t V) :=
  match m !! key with
  | Some existing =>
      if (Projected.observed_at p <=? Projected.observed_at existing)%Z then m
      else <[key := p]> m
  | None => <[key := p]> m
  end.
End latest.

(** The values of the entries a predicate selects, in the map's order. *)
Definition values_where {K V} `{Countable K} (P : K → V → bool) (m : gmap K V) : list V :=
  (filter (λ kv, P kv.1 kv.2) (map_to_list m)).*2.

Module StateProjection.
Record t : Type := mk {
  by_key : gmap (EntityRef.t * StateName.t) (Projected.t StateObservation.t);
}.

Definition new : t := mk ∅.

Definition get_latest (p : t) (subject : EntityRef.t) (name : StateName.t) :
    option (Projected.t StateObservation.t) := by_key p !! (subject, name).

Definition for_subject (p : t) (subject : EntityRef.t) :
    list (Projected.t StateObservation.t) :=
  values_where (λ k _, bool_decide (k.1 = subject)) (by_key p).

Definition apply (p : t) (obs : Observation.t) : Result t ProjectionError.t :=
  match Observation.payload obs with
  | ObservationPayload.State s =>
      Ok (mk (insert_latest (by_key p) (Observation.subject obs, StateObservation.name s)
                (Projected.of_observation s obs)))
  | _ => Ok p
  end.

#[global] Instance projection : Projection t := apply.
End StateProjection.

Module HealthProjection.
Record t : Type := mk {
  by_key : gmap (EntityRef.t * HealthTargetId.t) (Projected.t HealthCheckObservation.t);
}.

Definition new : t := mk ∅.

Definition current_health (p : t) (subject : EntityRef.t) (target : HealthTargetId.t) :
    option (Projected.t HealthCheckObservation.t) := by_key p !! (subject, target).

Definition for_subject (p : t) (subject : EntityRef.t) :
    list (Projected.t HealthCheckObservation.t) :=
  values_where (λ k _, bool_decide (k.1 = subject)) (by_key p).

Definition apply (p : t) (obs : Observation.t) : Result t ProjectionError.t :=
  match Observation.payload obs with
  | ObservationPayload.Health h =>
      Ok (mk (insert_latest (by_key p)
                (Observation.subject obs, HealthCheckObservation.target h)
                (Projected.of_observation h obs)))
  | _ => Ok p
  end.

#[global] Instance projection : Projection t := apply.
End HealthProjection.

Module CapabilityProjection.
Record t : Type := mk {
  by_key : gmap (EntityRef.t * CapabilityName.t) (Projected.t CapabilityObservation.t);
}.

Definition new : t := mk ∅.

Definition current_capability (p : t) (subject : EntityRef.t)
    (capability : CapabilityName.t) : option (Projected.t CapabilityObservation.t) :=
  by_key p !! (subject, capability).

Definition for_subject (p : t) (subject : EntityRef.t) :
    list (Projected.t CapabilityObservation.t) :=
  values_where (λ k _, bool_decide (k.1 = subject)) (by_key p).

Definition apply (p : t) (obs : Observation.t) : Result t ProjectionError.t :=
  match Observation.payload obs with
  | ObservationPayload.Capability c =>
      Ok (mk (insert_latest (by_key p)
                (Observation.subject obs, CapabilityObservation.capability c)
                (Projected.of_observation c obs)))
  | _ => Ok p
  end.

#[global] Instance projection : Projection t := apply.
End CapabilityProjection.

Module IncidentSignalProjection.
Record t : Type := mk {
  by_key : gmap (EntityRef.t * SignalName.t) (Projected.t IncidentSignalObservation.t);
}.

Definition new : t := mk ∅.

Definition current_signal (p : t) (subject : EntityRef.t) (signal : SignalName.t) :
    option (Projected.t IncidentSignalObservation.t) := by_key p !! (subject, signal).

Definition is_active (v : Projected.t IncidentSignalObservation.t) : bool :=
  bool_decide (IncidentSignalObservation.status (Projected.value v) = SignalStatus.Active).

Definition active_signals_for (p : t) (subject : EntityRef.t) :
    list (Projected.t IncidentSignalObservation.t) :=
  values_where (λ k v, bool_decide (k.1 = subject) && is_active v) (by_key p).

Definition active_signals_for_incident_kind (p : t) (subject : EntityRef.t)
    (incident_kind : IncidentKind.t) : list (Projected.t IncidentSignalObservation.t) :=
  values_where (λ k v,
    bool_decide (k.1 = subject) && is_active v
    && bool_decide (IncidentSignalObservation.incident_kind (Projected.value v)
                    = incident_kind)) (by_key p).

Definition apply (p : t) (obs : Observation.t) : Result t ProjectionError.t :=
  match Observation.payload obs with
  | ObservationPayload.IncidentSignal s =>
      Ok (mk (insert_latest (by_key p)
                (Observation.subject obs, IncidentSignalObservation.signal s)
                (Projected.of_observation s obs)))
  | _ => Ok p
  end.

#[global] Instance projection : Projection t := apply.
End IncidentSignalProjection.

(** ** Bounded rings *)

(** [while q.len() > capacity { q.pop_front(); }]. *)
Fixpoint evict {A} (capacity : nat) (q : list A) : list A :=
  if capacity <? length q then
    match q with
    | [] => []
    | _ :: q' => evict capacity q'
    end
  else q.

(** [iter().take_while(P)]. *)
Fixpoint take_while {A} (P : A → bool) (l : list A) : list A :=
  match l with
  | [] => []
  | x :: l' => if P x then x :: take_while P l' else []
  end.

Module MetricProjection.
Record t : Type := mk {
  capacity : nat;
  by_key : gmap (EntityRef.t * MetricName.t) (list (Projected.t MetricObservation.t));
}.

Definition DEFAULT_METRIC_SERIES_CAPACITY : nat := 1000.

(** [None]: the [assert!] on a zero capacity panics. *)
Definition with_capacity (capacity : nat) : option t :=
  if 0 <? capacity then Some (mk capacity ∅) else None.

Definition latest_metric (p : t) (subject : EntityRef.t) (name : MetricName.t) :
    option (Projected.t MetricObservation.t) := by_key p !! (subject, name) ≫= last.

Definition metric_samples_since (p : t) (subject : EntityRef.t) (name : MetricName.t)
    (since : DateTime) : list (Projected.t MetricObservation.t) :=
  match by_key p !! (subject, name) with
  | None => []
  | Some q => filter (λ x, (since < Projected.observed_at x)%Z) q
  end.

Definition same_value (latest_value : MetricValue.t)
    (x : Projected.t MetricObservation.t) : bool :=
  MetricValue.eqb (MetricObservation.value (Projected.value x)) latest_value.

Definition unchanged_for (p : t) (subject : EntityRef.t) (name : MetricName.t) :
    option (list (Projected.t MetricObservation.t)) :=
  q ← by_key p !! (subject, name);
  latest ← last q;
  let latest_value := MetricObservation.value (Projected.value latest) in
  Some (reverse (take_while (same_value latest_value) (reverse q))).

Definition apply (p : t) (obs : Observation.t) : Result t ProjectionError.t :=
  match Observation.payload obs with
  | ObservationPayload.Metric m =>
      let key := (Observation.subject obs, MetricObservation.name m) in
      let q := default [] (by_key p !! key) ++ [Projected.of_observation m obs] in
      Ok (mk (capacity p) (<[key := evict (capacity p) q]> (by_key p)))
  | _ => Ok p
  end.

#[global] Instance projection : Projection t := apply.
End MetricProjection.

Module HeartbeatProjection.
Record t : Type := mk {
  capacity : nat;
  history : list (Projected.t HeartbeatObservation.t);
}.

Definition DEFAULT_HEARTBEAT_CAPACITY : nat := 256.

Definition with_capacity (capacity : nat) : option t :=
  if 0 <? capacity then Some (mk capacity []) else None.

Definition latest_heartbeat (p : t) : option (Projected.t HeartbeatObservation.t) :=
  last (history p).

Definition heartbeats_since (p : t) (since : DateTime) :
    list (Projected.t HeartbeatObservation.t) :=
  filter (λ x, (since < Projected.observed_at x)%Z) (history p).

Definition apply (p : t) (obs : Observation.t) : Result t ProjectionError.t :=
  match Observation.payload obs with
  | ObservationPayload.Heartbeat hb =>
      Ok (mk (capacity p)
            (evict (capacity p) (history p ++ [Projected.of_observation hb obs])))
  | _ => Ok p
  end.

#[global] Instance projection : Projection t := apply.
End HeartbeatProjection.

(** ** The traits *)

Module StateReadModel.
Record t : Type := mk {
  latest_state : EntityRef.t → StateName.t → option (Projected.t StateObservation.t);
  states_for : EntityRef.t → list (Projected.t StateObservation.t);
}.
End StateReadModel.

Module MetricReadModel.
Record t : Type := mk {
  latest_metric : EntityRef.t → MetricName.t → option (Projected.t MetricObservation.t);
  metric_samples_since :
    EntityRef.t → MetricName.t → DateTime → list (Projected.t MetricObservation.t);
  unchanged_for :
    EntityRef.t → MetricName.t → option (list (Projected.t MetricObservation.t));
}.
End MetricReadModel.

Module HealthReadModel.
Record t : Type := mk {
  current_health :
    EntityRef.t → HealthTargetId.t → option (Projected.t HealthCheckObservation.t);
}.
End HealthReadModel.

Module CapabilityReadModel.
Record t : Type := mk {
  current_capability :
    EntityRef.t → CapabilityName.t → option (Projected.t CapabilityObservation.t);
  capabilities_for : EntityRef.t → list (Projected.t CapabilityObservation.t);
}.
End CapabilityReadModel.

Module HeartbeatReadModel.
Record t : Type := mk {
  latest_heartbeat : option (Projected.t HeartbeatObservation.t);
  heartbeats_since : DateTime → list (Projected.t HeartbeatObservation.t);
}.
End HeartbeatReadModel.

Module IncidentSignalReadModel.
Record t : Type := mk {
  current_signal :
    EntityRef.t → SignalName.t → option (Projected.t IncidentSignalObservation.t);
  active_signals_for : EntityRef.t → list (Projected.t IncidentSignalObservation.t);
  active_signals_for_incident_kind :
    EntityRef.t → IncidentKind.t → list (Projected.t IncidentSignalObservation.t);
}.
End IncidentSignalReadModel.

(** ** Lemmas: latest-write-wins *)

Section latest_lemmas.
Context {K V : Type} `{Countable K}.
Implicit Types (m : gmap K (Projected.t V)) (p q : Projected.t V).

(** Which of two entries for a key survives: the newer, the first on a tie. *)
Definition newer (existing p : Projected.t V) : Projected.t V :=
  if (Projected.observed_at p <=? Projected.observed_at existing)%Z then existing else p.

Lemma lookup_insert_latest m k p j :
  insert_latest m k p !! j =
  if decide (k = j) then Some (from_option (λ e, newer e p) p (m !! k)) else m !! j.
Proof.
  unfold insert_latest, newer. case_decide as Hj; subst.
  - destruct (m !! j) eqn:E; cbn; [case_match|]; by rewrite ?lookup_insert_eq.
  - destruct (m !! k); cbn; [case_match|]; by rewrite ?lookup_insert_ne.
Qed.

(** The entry of [k] after feeding [l], the keyed values in order. *)
Definition insert_latest_all m (l : list (K * Projected.t V)) : gmap K (Projected.t V) :=
  foldl (λ m kp, insert_latest m kp.1 kp.2) m l.

Definition for_key (k : K) (l : list (K * Projected.t V)) : list (Projected.t V) :=
  (filter (λ kp, kp.1 = k) l).*2.

(** The first of the most recent entries of a list. *)
Definition latest_of (l : list (Projected.t V)) : option (Projected.t V) :=
  match l with
  | [] => None
  | p :: l' => Some (foldl newer p l')
  end.

Lemma insert_latest_all_lookup_from m l k :
  insert_latest_all m l !! k = latest_of (option_list (m !! k) ++ for_key k l).
Proof.
  unfold insert_latest_all. revert m. induction l as [|[k' p] l IH]; intros m; cbn.
  { rewrite app_nil_r. by destruct (m !! k). }
  rewrite IH, lookup_insert_latest. unfold for_key, filter; cbn.
  destruct (decide (k' = k)) as [->|]; [|done].
  by destruct (m !! k).
Qed.

Lemma insert_latest_all_lookup l k :
  insert_latest_all ∅ l !! k = latest_of (for_key k l).
Proof. by rewrite insert_latest_all_lookup_from, lookup_empty. Qed.

Lemma foldl_newer_spec p l :
  let r := foldl newer p l in
  r ∈ p :: l ∧ ∀ q, q ∈ p :: l → (Projected.observed_at q ≤ Projected.observed_at r)%Z.
Proof.
  revert p. induction l as [|x l IH]; intros p; cbn.
  { split; [left|]. by intros q [->|Hq%elem_of_nil]%elem_of_cons. }
  destruct (IH (newer p x)) as [Hin Hmax].
  assert (Hp : (Projected.observed_at p ≤ Projected.observed_at (newer p x))%Z
               ∧ (Projected.observed_at x ≤ Projected.observed_at (newer p x))%Z
               ∧ (newer p x = p ∨ newer p x = x)).
  { unfold newer. case_match eqn:E; [apply Z.leb_le in E|apply Z.leb_gt in E];
      split_and!; try lia; auto. }
  destruct Hp as (Hp & Hx & Hor). split.
  - apply elem_of_cons in Hin as [->|Hin]; [|by do 2 right].
    destruct Hor as [->| ->]; [by left|by right; left].
  - specialize (Hmax _ (list_elem_of_here _ _)) as Hself.
    intros q [->|[->|Hq]%elem_of_cons]%elem_of_cons; [lia|lia|].
    apply Hmax. by right.
Qed.

Lemma latest_of_None l : latest_of l = None ↔ l = [].
Proof. by destruct l. Qed.

Lemma latest_of_Some l r :
  latest_of l = Some r →
  r ∈ l ∧ ∀ q, q ∈ l → (Projected.observed_at q ≤ Projected.observed_at r)%Z.
Proof. destruct l as [|p l]; intros [= <-]. apply foldl_newer_spec. Qed.

(** With distinct timestamps the most recent entry does not depend on the
    order of arrival. *)
Lemma latest_of_Permutation l1 l2 :
  l1 ≡ₚ l2 → NoDup (Projected.observed_at <$> l1) → latest_of l1 = latest_of l2.
Proof.
  intros Hp Hnd.
  destruct (latest_of l1) as [r1|] eqn:E1, (latest_of l2) as [r2|] eqn:E2.
  - apply latest_of_Some in E1 as [Hin1 Hmax1], E2 as [Hin2 Hmax2]. f_equal.
    rewrite <-Hp in Hin2. setoid_rewrite <-Hp in Hmax2.
    apply list_elem_of_lookup in Hin1 as [i Hi], Hin2 as [j Hj].
    assert (i = j) as ->; [|congruence].
    apply (NoDup_lookup _ i j (Projected.observed_at r1) Hnd);
      rewrite list_lookup_fmap, ?Hi, ?Hj; [done|]. cbn. f_equal.
    apply Z.le_antisymm; [apply Hmax1|apply Hmax2]; by eapply list_elem_of_lookup_2.
  - apply latest_of_None in E2 as ->. apply Permutation_nil_r in Hp as ->. done.
  - apply latest_of_None in E1 as ->. apply Permutation_nil in Hp as ->. done.
  - done.
Qed.
End latest_lemmas.

(** ** Lemmas: rings *)

Lemma evict_last_n {A} capacity (q : list A) : evict capacity q = last_n capacity q.
Proof.
  unfold last_n. induction q as [|x q IH]; cbn [evict length].
  { by destruct (capacity <? 0). }
  destruct (Nat.ltb_spec capacity (S (length q))) as [Hlt|Hge].
  - rewrite IH. by rewrite Nat.sub_succ_l by lia.
  - by replace (S (length q) - capacity) with 0 by lia.
Qed.

Lemma evict_push {A} capacity (l : list A) x :
  evict capacity (last_n capacity l ++ [x]) = last_n capacity (l ++ [x]).
Proof. by rewrite evict_last_n, last_n_snoc. Qed.

Lemma take_while_all {A} (P : A → bool) l : Forall (λ x, P x = true) (take_while P l).
Proof. induction l as [|x l IH]; cbn; [done|]. destruct (P x) eqn:E; by constructor. Qed.

Lemma take_while_prefix {A} (P : A → bool) l :
  ∃ rest, l = take_while P l ++ rest ∧
          match rest with [] => True | x :: _ => P x = false end.
Proof.
  induction l as [|x l (rest & Heq & Hr)]; [by exists []|]. cbn.
  destruct (P x) eqn:E; [|by exists (x :: l)].
  exists rest. by rewrite <-app_comm_cons, <-Heq.
Qed.
