(* ===== verification/Store.v ===== *)
(** * The read-model store: [read_models/store.rs], [read_models/traits/state_ext.rs]

    [ReadModelStore] holds the six projections, routes an observation to the
    projection of its payload and answers the six read-model traits. The
    specification of the whole component is a history: [History] states what
    each query must answer from the observations applied so far, and
    [represents] is the refinement relation between a history and a store. *)

From S2P Require Import Prelude RustStr Names SharedTypes F64 CollectorTypes Observations Samples ReadModels.

Module ReadModelStoreConfig.
Record t : Type := mk { metric_series_capacity : nat; heartbeat_capacity : nat }.

Definition default : t := {|
  metric_series_capacity := MetricProjection.DEFAULT_METRIC_SERIES_CAPACITY;
  heartbeat_capacity := HeartbeatProjection.DEFAULT_HEARTBEAT_CAPACITY;
|}.
End ReadModelStoreConfig.

Module ApplyError.
Inductive t : Type := Projection (e : ProjectionError.t).
End ApplyError.

Module ReadModelStore.
Record t : Type := mk {
  state : StateProjection.t;
  metric : MetricProjection.t;
  health : HealthProjection.t;
  capability : CapabilityProjection.t;
  heartbeat : HeartbeatProjection.t;
  incident_signal : IncidentSignalProjection.t;
}.

(** [None] when a capacity is zero: the constructors panic. *)
Definition new (config : ReadModelStoreConfig.t) : option t :=
  metric ← MetricProjection.with_capacity (ReadModelStoreConfig.metric_series_capacity config);
  heartbeat ← HeartbeatProjection.with_capacity (ReadModelStoreConfig.heartbeat_capacity config);
  Some {|
    state := StateProjection.new;
    metric := metric;
    health := HealthProjection.new;
    capability := CapabilityProjection.new;
    heartbeat := heartbeat;
    incident_signal := IncidentSignalProjection.new;
  |}.

Definition default : option t := new ReadModelStoreConfig.default.

Definition apply (s : t) (obs : Observation.t) : Result t ApplyError.t :=
  match Observation.payload obs with
  | ObservationPayload.State _ =>
      let? p := map_err ApplyError.Projection (apply_obs (state s) obs) in
      Ok (mk p (metric s) (health s) (capability s) (heartbeat s) (incident_signal s))
  | ObservationPayload.Metric _ =>
      let? p := map_err ApplyError.Projection (apply_obs (metric s) obs) in
      Ok (mk (state s) p (health s) (capability s) (heartbeat s) (incident_signal s))
  | ObservationPayload.Health _ =>
      let? p := map_err ApplyError.Projection (apply_obs (health s) obs) in
      Ok (mk (state s) (metric s) p (capability s) (heartbeat s) (incident_signal s))
  | ObservationPayload.Capability _ =>
      let? p := map_err ApplyError.Projection (apply_obs (capability s) obs) in
      Ok (mk (state s) (metric s) (health s) p (heartbeat s) (incident_signal s))
  | ObservationPayload.Heartbeat _ =>
      let? p := map_err ApplyError.Projection (apply_obs (heartbeat s) obs) in
      Ok (mk (state s) (metric s) (health s) (capability s) p (incident_signal s))
  | ObservationPayload.IncidentSignal _ =>
      let? p := map_err ApplyError.Projection (apply_obs (incident_signal s) obs) in
      Ok (mk (state s) (metric s) (health s) (capability s) (heartbeat s) p)
  | ObservationPayload.Event _
  | ObservationPayload.Inventory _
  | ObservationPayload.Transition _
  | ObservationPayload.Diagnosis _ => Ok s
  end.

(** The store behind each of the six trait objects. *)
Definition state_read_model (s : t) : StateReadModel.t := {|
  StateReadModel.latest_state subject name :=
    StateProjection.get_latest (state s) subject name;
  StateReadModel.states_for subject := StateProjection.for_subject (state s) subject;
|}.

Definition metric_read_model (s : t) : MetricReadModel.t := {|
  MetricReadModel.latest_metric subject name :=
    MetricProjection.latest_metric (metric s) subject name;
  MetricReadModel.metric_samples_since subject name since :=
    MetricProjection.metric_samples_since (metric s) subject name since;
  MetricReadModel.unchanged_for subject name :=
    MetricProjection.unchanged_for (metric s) subject name;
|}.

Definition health_read_model (s : t) : HealthReadModel.t := {|
  HealthReadModel.current_health subject target :=
    HealthProjection.current_health (health s) subject target;
|}.

Definition capability_read_model (s : t) : CapabilityReadModel.t := {|
  CapabilityReadModel.current_capability subject capability_ :=
    CapabilityProjection.current_capability (capability s) subject capability_;
  CapabilityReadModel.capabilities_for subject :=
    CapabilityProjection.for_subject (capability s) subject;
|}.

Definition heartbeat_read_model (s : t) : HeartbeatReadModel.t := {|
  HeartbeatReadModel.latest_heartbeat := HeartbeatProjection.latest_heartbeat (heartbeat s);
  HeartbeatReadModel.heartbeats_since since :=
    HeartbeatProjection.heartbeats_since (heartbeat s) since;
|}.

Definition incident_signal_read_model (s : t) : IncidentSignalReadModel.t := {|
  IncidentSignalReadModel.current_signal subject signal :=
    IncidentSignalProjection.current_signal (incident_signal s) subject signal;
  IncidentSignalReadModel.active_signals_for subject :=
    IncidentSignalProjection.active_signals_for (incident_signal s) subject;
  IncidentSignalReadModel.active_signals_for_incident_kind subject kind :=
    IncidentSignalProjection.active_signals_for_incident_kind (incident_signal s) subject kind;
|}.
End ReadModelStore.

(** ** [StateReadModelExt] *)

Class UnwrapStateVariant (T : Type) : Type :=
  from_state : StateObservation.t → option T.

#[global] Instance unwrap_bitcoin_blockchain : UnwrapStateVariant BitcoinBlockchainState.t :=
  λ s, match s with StateObservation.BitcoinBlockchain s => Some s | _ => None end.
#[global] Instance unwrap_bitcoin_mempool : UnwrapStateVariant BitcoinMempoolState.t :=
  λ s, match s with StateObservation.BitcoinMempool s => Some s | _ => None end.
#[global] Instance unwrap_bitcoin_network : UnwrapStateVariant BitcoinNetworkState.t :=
  λ s, match s with StateObservation.BitcoinNetwork s => Some s | _ => None end.
#[global] Instance unwrap_bitcoin_peer_summary : UnwrapStateVariant BitcoinPeerSummaryState.t :=
  λ s, match s with StateObservation.BitcoinPeerSummary s => Some s | _ => None end.
#[global] Instance unwrap_lnd_node : UnwrapStateVariant LndNodeState.t :=
  λ s, match s with StateObservation.LndNode s => Some s | _ => None end.
#[global] Instance unwrap_lnd_wallet : UnwrapStateVariant LndWalletState.t :=
  λ s, match s with StateObservation.LndWallet s => Some s | _ => None end.
#[global] Instance unwrap_lnd_channel_summary : UnwrapStateVariant LndChannelSummaryState.t :=
  λ s, match s with StateObservation.LndChannelSummary s => Some s | _ => None end.
#[global] Instance unwrap_host : UnwrapStateVariant HostState.t :=
  λ s, match s with StateObservation.Host s => Some s | _ => None end.

Definition unwrap_state {T} `{UnwrapStateVariant T}
    (projected : option (Projected.t StateObservation.t)) : option (Projected.t T) :=
  projected ← projected;
  value ← from_state (Projected.value projected);
  Some {|
    Projected.value := value;
    Projected.observation_id := Projected.observation_id projected;
    Projected.observed_at := Projected.observed_at projected;
  |}.

Module StateReadModelExt.
Section ext.
Context (self : StateReadModel.t).

Definition bitcoin_blockchain (node : BitcoinNodeId.t) :
    option (Projected.t BitcoinBlockchainState.t) :=
  unwrap_state (StateReadModel.latest_state self (EntityRef.BitcoinNode node)
    (StateName.from_well_known well_known_state.BITCOIN_BLOCKCHAIN)).

Definition bitcoin_mempool (node : BitcoinNodeId.t) :
    option (Projected.t BitcoinMempoolState.t) :=
  unwrap_state (StateReadModel.latest_state self (EntityRef.BitcoinNode node)
    (StateName.from_well_known well_known_state.BITCOIN_MEMPOOL)).

Definition bitcoin_network (node : BitcoinNodeId.t) :
    option (Projected.t BitcoinNetworkState.t) :=
  unwrap_state (StateReadModel.latest_state self (EntityRef.BitcoinNode node)
    (StateName.from_well_known well_known_state.BITCOIN_NETWORK)).

Definition bitcoin_peer_summary (node : BitcoinNodeId.t) :
    option (Projected.t BitcoinPeerSummaryState.t) :=
  unwrap_state (StateReadModel.latest_state self (EntityRef.BitcoinNode node)
    (StateName.from_well_known well_known_state.BITCOIN_PEER_SUMMARY)).

Definition lnd_node (node : LndNodeId.t) : option (Projected.t LndNodeState.t) :=
  unwrap_state (StateReadModel.latest_state self (EntityRef.LndNode node)
    (StateName.from_well_known well_known_state.LND_NODE)).

Definition lnd_wallet (node : LndNodeId.t) : option (Projected.t LndWalletState.t) :=
  unwrap_state (StateReadModel.latest_state self (EntityRef.LndNode node)
    (StateName.from_well_known well_known_state.LND_WALLET)).

Definition lnd_channel_summary (node : LndNodeId.t) :
    option (Projected.t LndChannelSummaryState.t) :=
  unwrap_state (StateReadModel.latest_state self (EntityRef.LndNode node)
    (StateName.from_well_known well_known_state.LND_CHANNEL_SUMMARY)).

Definition host_system (host : HostId.t) : option (Projected.t HostState.t) :=
  unwrap_state (StateReadModel.latest_state self (EntityRef.Host host)
    (StateName.from_well_known well_known_state.HOST_SYSTEM)).
End ext.
End StateReadModelExt.

(** ** The specification: queries on the history of applied observations *)

Module History.
(** What one observation contributes, by its payload. *)
Definition state_entry (o : Observation.t) :
    option ((EntityRef.t * StateName.t) * Projected.t StateObservation.t) :=
  match Observation.payload o with
  | ObservationPayload.State s =>
      Some ((Observation.subject o, StateObservation.name s), Projected.of_observation s o)
  | _ => None
  end.

Definition health_entry (o : Observation.t) :
    option ((EntityRef.t * HealthTargetId.t) * Projected.t HealthCheckObservation.t) :=
  match Observation.payload o with
  | ObservationPayload.Health h =>
      Some ((Observation.subject o, HealthCheckObservation.target h),
            Projected.of_observation h o)
  | _ => None
  end.

Definition capability_entry (o : Observation.t) :
    option ((EntityRef.t * CapabilityName.t) * Projected.t CapabilityObservation.t) :=
  match Observation.payload o with
  | ObservationPayload.Capability c =>
      Some ((Observation.subject o, CapabilityObservation.capability c),
            Projected.of_observation c o)
  | _ => None
  end.

Definition signal_entry (o : Observation.t) :
    option ((EntityRef.t * SignalName.t) * Projected.t IncidentSignalObservation.t) :=
  match Observation.payload o with
  | ObservationPayload.IncidentSignal s =>
      Some ((Observation.subject o, IncidentSignalObservation.signal s),
            Projected.of_observation s o)
  | _ => None
  end.

Definition metric_entry (o : Observation.t) :
    option ((EntityRef.t * MetricName.t) * Projected.t MetricObservation.t) :=
  match Observation.payload o with
  | ObservationPayload.Metric m =>
      Some ((Observation.subject o, MetricObservation.name m), Projected.of_observation m o)
  | _ => None
  end.

Definition heartbeat_entry (o : Observation.t) : option (Projected.t HeartbeatObservation.t) :=
  match Observation.payload o with
  | ObservationPayload.Heartbeat hb => Some (Projected.of_observation hb o)
  | _ => None
  end.

(** The most recent entry for a key, the first of those with its timestamp. *)
Definition latest {K V} `{Countable K} (entry : Observation.t → option (K * Projected.t V))
    (h : list Observation.t) (k : K) : option (Projected.t V) :=
  latest_of (for_key k (omap entry h)).

(** The samples of a series, oldest first, and the part of them a ring keeps. *)
Definition series (h : list Observation.t) (k : EntityRef.t * MetricName.t) :
    list (Projected.t MetricObservation.t) := for_key k (omap metric_entry h).

Definition ring (config : ReadModelStoreConfig.t) (h : list Observation.t)
    (k : EntityRef.t * MetricName.t) : list (Projected.t MetricObservation.t) :=
  last_n (ReadModelStoreConfig.metric_series_capacity config) (series h k).

Definition heartbeats (config : ReadModelStoreConfig.t) (h : list Observation.t) :
    list (Projected.t HeartbeatObservation.t) :=
  last_n (ReadModelStoreConfig.heartbeat_capacity config) (omap heartbeat_entry h).
End History.

(** A store fed a whole history. *)
Definition apply_all (s : ReadModelStore.t) (h : list Observation.t) :
    Result ReadModelStore.t ApplyError.t := try_fold ReadModelStore.apply s h.

Record represents (config : ReadModelStoreConfig.t) (h : list Observation.t)
    (s : ReadModelStore.t) : Prop := {
  rep_state k : StateProjection.by_key (ReadModelStore.state s) !! k
                = History.latest History.state_entry h k;
  rep_health k : HealthProjection.by_key (ReadModelStore.health s) !! k
                 = History.latest History.health_entry h k;
  rep_capability k : CapabilityProjection.by_key (ReadModelStore.capability s) !! k
                     = History.latest History.capability_entry h k;
  rep_signal k : IncidentSignalProjection.by_key (ReadModelStore.incident_signal s) !! k
                 = History.latest History.signal_entry h k;
  rep_metric_capacity : MetricProjection.capacity (ReadModelStore.metric s)
                        = ReadModelStoreConfig.metric_series_capacity config;
  rep_metric k : MetricProjection.by_key (ReadModelStore.metric s) !! k
                 = match History.series h k with
                   | [] => None
                   | _ => Some (History.ring config h k)
                   end;
  rep_heartbeat_capacity : HeartbeatProjection.capacity (ReadModelStore.heartbeat s)
                           = ReadModelStoreConfig.heartbeat_capacity config;
  rep_heartbeat : HeartbeatProjection.history (ReadModelStore.heartbeat s)
                  = History.heartbeats config h;
}.

(** ** Lemmas *)

Lemma for_key_snoc {K V} `{Countable K} k (l : list (K * Projected.t V)) kp :
  for_key k (l ++ [kp]) = for_key k l ++ (if decide (kp.1 = k) then [kp.2] else []).
Proof. unfold for_key. rewrite filter_app, fmap_app. by unfold filter; cbn; case_decide. Qed.

Lemma latest_of_snoc {V} (l : list (Projected.t V)) p :
  latest_of (l ++ [p]) = Some (from_option (λ e, newer e p) p (latest_of l)).
Proof. destruct l as [|x l]; [done|]. cbn. by rewrite foldl_app. Qed.

Section latest_step.
Context {K V : Type} `{Countable K}.
Variable entry : Observation.t → option (K * Projected.t V).

(** One more observation updates a latest-wins map as the projection does. *)
Lemma latest_step (m : gmap K (Projected.t V)) h o k p :
  (∀ j, m !! j = History.latest entry h j) → entry o = Some (k, p) →
  ∀ j, insert_latest m k p !! j = History.latest entry (h ++ [o]) j.
Proof.
  intros Hm He j. unfold History.latest in *.
  rewrite omap_app; cbn; rewrite He, for_key_snoc; cbn.
  rewrite lookup_insert_latest. case_decide as Hj; subst.
  - by rewrite latest_of_snoc, Hm.
  - by rewrite app_nil_r, Hm.
Qed.

Lemma latest_skip (m : gmap K (Projected.t V)) h o :
  (∀ j, m !! j = History.latest entry h j) → entry o = None →
  ∀ j, m !! j = History.latest entry (h ++ [o]) j.
Proof.
  intros Hm He j. unfold History.latest in *.
  by rewrite omap_app; cbn; rewrite He, app_nil_r.
Qed.

Lemma latest_permutation h1 h2 k :
  h1 ≡ₚ h2 → NoDup (Projected.observed_at <$> for_key k (omap entry h1)) →
  History.latest entry h1 k = History.latest entry h2 k.
Proof.
  intros Hp Hnd. apply latest_of_Permutation; [|done].
  unfold for_key. by rewrite Hp.
Qed.
End latest_step.

Lemma new_Some config s :
  ReadModelStore.new config = Some s ↔
  0 < ReadModelStoreConfig.metric_series_capacity config ∧
  0 < ReadModelStoreConfig.heartbeat_capacity config ∧
  s = {|
    ReadModelStore.state := StateProjection.new;
    ReadModelStore.metric :=
      MetricProjection.mk (ReadModelStoreConfig.metric_series_capacity config) ∅;
    ReadModelStore.health := HealthProjection.new;
    ReadModelStore.capability := CapabilityProjection.new;
    ReadModelStore.heartbeat :=
      HeartbeatProjection.mk (ReadModelStoreConfig.heartbeat_capacity config) [];
    ReadModelStore.incident_signal := IncidentSignalProjection.new;
  |}.
Proof.
  unfold ReadModelStore.new, MetricProjection.with_capacity, HeartbeatProjection.with_capacity.
  destruct config as [[|m] [|h]]; cbn; split; try done; try (intros (? & ? & _); lia).
  - intros [= <-]. split_and!; [lia|lia|done].
  - by intros (_ & _ & ->).
Qed.

Lemma new_represents config s :
  ReadModelStore.new config = Some s → represents config [] s.
Proof. intros (_ & _ & ->)%new_Some. by split. Qed.

(** Series and rings under one more observation. *)
Lemma series_step h o k m :
  Observation.payload o = ObservationPayload.Metric m →
  History.series (h ++ [o]) k
  = History.series h k ++
    (if decide ((Observation.subject o, MetricObservation.name m) = k)
     then [Projected.of_observation m o] else []).
Proof.
  intros He. unfold History.series. rewrite omap_app; cbn.
  unfold History.metric_entry at 2. by rewrite He, for_key_snoc.
Qed.

Lemma series_skip h o k :
  History.metric_entry o = None → History.series (h ++ [o]) k = History.series h k.
Proof.
  intros He. unfold History.series. by rewrite omap_app; cbn; rewrite He, app_nil_r.
Qed.

Lemma heartbeats_skip config h o :
  History.heartbeat_entry o = None →
  History.heartbeats config (h ++ [o]) = History.heartbeats config h.
Proof.
  intros He. unfold History.heartbeats. by rewrite omap_app; cbn; rewrite He, app_nil_r.
Qed.

(** The ring a metric projection holds after one more sample of the series. *)
Lemma metric_push_ring config h o m (ms : MetricProjection.t) k :
  MetricProjection.capacity ms = ReadModelStoreConfig.metric_series_capacity config →
  (∀ k, MetricProjection.by_key ms !! k
        = match History.series h k with [] => None | _ => Some (History.ring config h k) end) →
  Observation.payload o = ObservationPayload.Metric m →
  let key := (Observation.subject o, MetricObservation.name m) in
  let q := default [] (MetricProjection.by_key ms !! key) ++ [Projected.of_observation m o] in
  <[key := evict (MetricProjection.capacity ms) q]> (MetricProjection.by_key ms) !! k
  = match History.series (h ++ [o]) k with
    | [] => None
    | _ => Some (History.ring config (h ++ [o]) k)
    end.
Proof.
  intros Hc Hm He key q. unfold History.ring. rewrite (series_step _ _ _ _ He).
  fold key. case_decide as Hk; subst.
  - rewrite lookup_insert_eq. subst q. rewrite Hm, Hc. clear Hm.
    unfold History.ring. destruct (History.series h key) as [|x l]; cbn -[evict last_n app].
    + by rewrite evict_last_n.
    + by rewrite evict_push.
  - by rewrite lookup_insert_ne, app_nil_r, Hm.
Qed.

(** Applying an observation is total and keeps the refinement. *)
Lemma apply_represents config h s o :
  represents config h s →
  ∃ s', ReadModelStore.apply s o = Ok s' ∧ represents config (h ++ [o]) s'.
Proof.
  intros []. unfold ReadModelStore.apply, apply_obs.
  destruct (Observation.payload o) eqn:He; cbn;
    unfold StateProjection.projection, StateProjection.apply,
      MetricProjection.projection, MetricProjection.apply,
      HealthProjection.projection, HealthProjection.apply,
      CapabilityProjection.projection, CapabilityProjection.apply,
      HeartbeatProjection.projection, HeartbeatProjection.apply,
      IncidentSignalProjection.projection, IncidentSignalProjection.apply;
    rewrite ?He; cbn; eexists; split; try reflexivity; split; cbn; try done;
    try (apply latest_skip; [done|];
         unfold History.state_entry, History.health_entry, History.capability_entry,
           History.signal_entry; by rewrite He);
    try (rewrite heartbeats_skip; [done|]; unfold History.heartbeat_entry; by rewrite He);
    try (intros k; unfold History.ring; rewrite series_skip; [apply rep_metric0|];
         unfold History.metric_entry; by rewrite He);
    try (apply latest_step; [done|];
         unfold History.state_entry, History.health_entry, History.capability_entry,
           History.signal_entry; by rewrite He).
  - rewrite rep_heartbeat0, rep_heartbeat_capacity0. unfold History.heartbeats.
    rewrite evict_push, omap_app; cbn. unfold History.heartbeat_entry at 3. by rewrite He.
  - intros k. by apply metric_push_ring.
Qed.

Lemma apply_all_represents_from config h0 h s :
  represents config h0 s →
  ∃ s', apply_all s h = Ok s' ∧ represents config (h0 ++ h) s'.
Proof.
  revert h0 s. induction h as [|o h IH]; intros h0 s Hr.
  { exists s. by rewrite app_nil_r. }
  destruct (apply_represents _ _ _ o Hr) as (s1 & Hs1 & Hr1).
  destruct (IH _ _ Hr1) as (s' & Hs' & Hr'). exists s'.
  unfold apply_all in *; cbn. rewrite Hs1; cbn. split; [done|].
  by rewrite <-app_assoc in Hr'.
Qed.

Lemma apply_all_represents config h s :
  ReadModelStore.new config = Some s →
  ∃ s', apply_all s h = Ok s' ∧ represents config h s'.
Proof. intros Hn. apply (apply_all_represents_from _ []). by apply new_represents. Qed.

(** ** Properties *)

(** C27: The read-model store is exactly the history of what was applied: from a
    fresh store every observation is accepted, and afterwards each of the six
    read models answers from the history alone. State, health, capability and
    signal queries give the most recent observation for the key (the first
    applied on equal timestamps), metric and heartbeat queries the last
    [capacity] samples. *)
Theorem store_refines_history config h s :
  ReadModelStore.new config = Some s →
  ∃ s', apply_all s h = Ok s' ∧
    (∀ e n, StateReadModel.latest_state (ReadModelStore.state_read_model s') e n
            = History.latest History.state_entry h (e, n)) ∧
    (∀ e t, HealthReadModel.current_health (ReadModelStore.health_read_model s') e t
            = History.latest History.health_entry h (e, t)) ∧
    (∀ e c, CapabilityReadModel.current_capability (ReadModelStore.capability_read_model s') e c
            = History.latest History.capability_entry h (e, c)) ∧
    (∀ e n, IncidentSignalReadModel.current_signal (ReadModelStore.incident_signal_read_model s') e n
            = History.latest History.signal_entry h (e, n)) ∧
    (∀ e n, MetricReadModel.latest_metric (ReadModelStore.metric_read_model s') e n
            = last (History.series h (e, n))) ∧
    (∀ e n since,
       MetricReadModel.metric_samples_since (ReadModelStore.metric_read_model s') e n since
       = filter (λ x, (since < Projected.observed_at x)%Z) (History.ring config h (e, n))) ∧
    HeartbeatReadModel.latest_heartbeat (ReadModelStore.heartbeat_read_model s')
    = last (omap History.heartbeat_entry h) ∧
    (∀ since, HeartbeatReadModel.heartbeats_since (ReadModelStore.heartbeat_read_model s') since
       = filter (λ x, (since < Projected.observed_at x)%Z) (History.heartbeats config h)).
Proof.
  intros Hn. pose proof Hn as (Hm & Hh & _)%new_Some.
  destruct (apply_all_represents config h s Hn) as (s' & Hs' & []).
  exists s'. split; [done|].
  split_and!; intros;
    try first [apply rep_state0|apply rep_health0|apply rep_capability0|apply rep_signal0]; cbn;
    unfold MetricProjection.latest_metric, MetricProjection.metric_samples_since,
      HeartbeatProjection.latest_heartbeat, HeartbeatProjection.heartbeats_since;
    rewrite ?rep_metric0, ?rep_heartbeat0; unfold History.ring, History.heartbeats.
  - destruct (History.series h (e, n)) as [|x l] eqn:E; [done|]. by apply last_last_n.
  - by destruct (History.series h (e, n)).
  - by apply last_last_n.
  - done.
Qed.

Lemma store_refines_history_witness :
  ∃ st s', ReadModelStore.new ReadModelStoreConfig.default = Some st ∧
    apply_all st [sample_peer_summary 1 20 8; sample_peer_summary 2 10 0] = Ok s' ∧
    StateReadModel.latest_state (ReadModelStore.state_read_model s') sample_subject
      (StateName.from_well_known well_known_state.BITCOIN_PEER_SUMMARY)
    = Some {|
        Projected.value :=
          StateObservation.BitcoinPeerSummary (BitcoinPeerSummaryState.mk 8 None None None);
        Projected.observation_id := ObservationId.new 1;
        Projected.observed_at := 20%Z;
      |}.
Proof.
  eexists. destruct (store_refines_history ReadModelStoreConfig.default
    [sample_peer_summary 1 20 8; sample_peer_summary 2 10 0] _ eq_refl)
    as (s' & Hs' & Hstate & _).
  exists s'. split; [reflexivity|]. split; [exact Hs'|]. rewrite Hstate. vm_compute. reflexivity.
Defined.

(** Two stores that represent histories with the same observations, in different orders. *)
Lemma represents_permutation {K V} `{Countable K} (entry : Observation.t → option (K * Projected.t V))
    (look : ReadModelStore.t → K → option (Projected.t V)) h1 h2 s1 s2 k :
  (∀ k, look s1 k = History.latest entry h1 k) → (∀ k, look s2 k = History.latest entry h2 k) →
  h1 ≡ₚ h2 → NoDup (Projected.observed_at <$> for_key k (omap entry h1)) →
  look s1 k = look s2 k.
Proof. intros H1 H2 Hp Hnd. rewrite H1, H2. by apply latest_permutation. Qed.

(** C38: The answers of the latest-wins read models do not depend on the order
    in which observations arrive. Two stores fed the same observations in
    different orders answer alike for a state, a health target, a capability
    or an incident signal of a subject, whenever the observations for that key
    carry distinct timestamps. *)
Theorem store_order_independent config s h1 h2 s1 s2 :
  ReadModelStore.new config = Some s → h1 ≡ₚ h2 →
  apply_all s h1 = Ok s1 → apply_all s h2 = Ok s2 →
  (∀ e n, NoDup (Projected.observed_at <$> for_key (e, n) (omap History.state_entry h1)) →
     StateReadModel.latest_state (ReadModelStore.state_read_model s1) e n
     = StateReadModel.latest_state (ReadModelStore.state_read_model s2) e n) ∧
  (∀ e t, NoDup (Projected.observed_at <$> for_key (e, t) (omap History.health_entry h1)) →
     HealthReadModel.current_health (ReadModelStore.health_read_model s1) e t
     = HealthReadModel.current_health (ReadModelStore.health_read_model s2) e t) ∧
  (∀ e c, NoDup (Projected.observed_at <$> for_key (e, c) (omap History.capability_entry h1)) →
     CapabilityReadModel.current_capability (ReadModelStore.capability_read_model s1) e c
     = CapabilityReadModel.current_capability (ReadModelStore.capability_read_model s2) e c) ∧
  (∀ e n, NoDup (Projected.observed_at <$> for_key (e, n) (omap History.signal_entry h1)) →
     IncidentSignalReadModel.current_signal (ReadModelStore.incident_signal_read_model s1) e n
     = IncidentSignalReadModel.current_signal (ReadModelStore.incident_signal_read_model s2) e n).
Proof.
  intros Hn Hp E1 E2.
  destruct (apply_all_represents config h1 s Hn) as (s1' & E1' & R1).
  destruct (apply_all_represents config h2 s Hn) as (s2' & E2' & R2).
  assert (s1' = s1) as -> by congruence. assert (s2' = s2) as -> by congruence.
  split_and!; intros e k Hnd.
  - exact (represents_permutation History.state_entry
      (λ s k, StateProjection.by_key (ReadModelStore.state s) !! k) h1 h2 s1 s2 (e, k)
      (rep_state _ _ _ R1) (rep_state _ _ _ R2) Hp Hnd).
  - exact (represents_permutation History.health_entry
      (λ s k, HealthProjection.by_key (ReadModelStore.health s) !! k) h1 h2 s1 s2 (e, k)
      (rep_health _ _ _ R1) (rep_health _ _ _ R2) Hp Hnd).
  - exact (represents_permutation History.capability_entry
      (λ s k, CapabilityProjection.by_key (ReadModelStore.capability s) !! k) h1 h2 s1 s2 (e, k)
      (rep_capability _ _ _ R1) (rep_capability _ _ _ R2) Hp Hnd).
  - exact (represents_permutation History.signal_entry
      (λ s k, IncidentSignalProjection.by_key (ReadModelStore.incident_signal s) !! k) h1 h2 s1 s2 (e, k)
      (rep_signal _ _ _ R1) (rep_signal _ _ _ R2) Hp Hnd).
Qed.

Definition sample_history : list Observation.t :=
  [sample_peer_summary 1 20 8; sample_peer_summary 2 10 0;
   sample_health 3 20 HealthStatus.Ok; sample_health 4 10 HealthStatus.Critical].

Lemma store_order_independent_witness :
  ∃ st s1 s2, ReadModelStore.new ReadModelStoreConfig.default = Some st ∧
    apply_all st sample_history = Ok s1 ∧ apply_all st (reverse sample_history) = Ok s2 ∧
    StateReadModel.latest_state (ReadModelStore.state_read_model s1) sample_subject
      (StateName.from_well_known well_known_state.BITCOIN_PEER_SUMMARY)
    = StateReadModel.latest_state (ReadModelStore.state_read_model s2) sample_subject
      (StateName.from_well_known well_known_state.BITCOIN_PEER_SUMMARY) ∧
    HealthReadModel.current_health (ReadModelStore.health_read_model s1) sample_subject
      (HealthTargetId.from_well_known "bitcoin.rpc")
    = HealthReadModel.current_health (ReadModelStore.health_read_model s2) sample_subject
      (HealthTargetId.from_well_known "bitcoin.rpc").
Proof.
  do 3 eexists. split; [reflexivity|]. split; [reflexivity|]. split; [reflexivity|].
  split; [eapply (store_order_independent ReadModelStoreConfig.default _ sample_history
      (reverse sample_history))
    |eapply (store_order_independent ReadModelStoreConfig.default _ sample_history
      (reverse sample_history))];
    first [reflexivity|symmetry; apply reverse_Permutation
      |apply (bool_decide_unpack _); vm_compute; exact I].
Defined.

(** ** [unchanged_for] *)

Lemma unchanged_run_spec (P : Projected.t MetricObservation.t → bool) q :
  let run := reverse (take_while P (reverse q)) in
  ∃ before, q = before ++ run ∧ Forall (λ x, P x = true) run ∧
    match last before with None => True | Some x => P x = false end.
Proof.
  destruct (take_while_prefix P (reverse q)) as (rest & Hq & Hr).
  exists (reverse rest). split_and!.
  - apply (f_equal reverse) in Hq. by rewrite reverse_involutive, reverse_app in Hq.
  - apply Forall_reverse, take_while_all.
  - rewrite last_reverse. by destruct rest.
Qed.

(** [unchanged_for] returns the longest run of samples at the end of the
    ring whose values equal the latest one: the ring is some older samples
    followed by the run, every sample of the run equals the latest value, and
    the sample just before the run, if any, differs. The run contains the
    latest sample itself exactly when that value equals itself, so a NaN
    reading gives an empty run. *)
Theorem unchanged_for_longest_suffix p e n run :
  MetricProjection.unchanged_for p e n = Some run →
  ∃ before latest, MetricProjection.by_key p !! (e, n) = Some (before ++ run) ∧
    MetricProjection.latest_metric p e n = Some latest ∧
    let v := MetricObservation.value (Projected.value latest) in
    Forall (λ x, MetricProjection.same_value v x = true) run ∧
    match last before with None => True | Some x => MetricProjection.same_value v x = false end ∧
    (last run = Some latest ∨ (run = [] ∧ MetricValue.eqb v v = false)).
Proof.
  unfold MetricProjection.unchanged_for, MetricProjection.latest_metric.
  destruct (_ !! _) as [q|] eqn:Hq; cbn; [|done].
  destruct (last q) as [latest|] eqn:Hl; cbn; [|done]. intros [= <-].
  set (P := MetricProjection.same_value _).
  destruct (unchanged_run_spec P q) as (before & Hb & Hall & Hlast).
  exists before, latest. split; [by rewrite Hb at 1|]. split; [done|]. split_and!; [done..|].
  destruct q as [|x q _] using rev_ind; [done|].
  rewrite last_snoc in Hl. injection Hl as ->. rewrite reverse_snoc; cbn [take_while].
  change (P latest) with (MetricValue.eqb (MetricObservation.value (Projected.value latest))
                                          (MetricObservation.value (Projected.value latest))).
  destruct (MetricValue.eqb _ _); [left|right; split; done].
  by rewrite reverse_cons, last_snoc.
Qed.

Lemma unchanged_for_longest_suffix_witness :
  ∃ p run, MetricProjection.unchanged_for p sample_subject
      (MetricName.from_well_known "bitcoin.connections") = Some run ∧ length run = 2 ∧
    ∃ before, MetricProjection.by_key p
      !! (sample_subject, MetricName.from_well_known "bitcoin.connections")
      = Some (before ++ run).
Proof.
  pose (mo v := MetricObservation.mk (MetricName.from_well_known "bitcoin.connections")
                  MetricKind.Gauge (MetricValue.Numeric (NumericValue.U64 v)) Unit.Count).
  pose (pr n t v := Projected.mk (mo v) (ObservationId.new n) t).
  exists (MetricProjection.mk 5 {[(sample_subject, MetricName.from_well_known "bitcoin.connections")
                   := [pr 1 1%Z 7%Z; pr 2 2%Z 9%Z; pr 3 3%Z 9%Z]]}).
  eexists. split; [reflexivity|]. split; [reflexivity|].
  edestruct (unchanged_for_longest_suffix) as (before & latest & H & _);
    [|exists before; exact H]. reflexivity.
Defined.

(** ** The typed helpers *)

(** What a state read model promises its clients: an answer to a query for a
    name is an observation of that name. *)
Class StateReadModelLaws (m : StateReadModel.t) : Prop :=
  latest_state_name e n p :
    StateReadModel.latest_state m e n = Some p → StateObservation.name (Projected.value p) = n.

(** Every store reached from a fresh one keeps the promise. *)
Lemma store_state_laws config h s s' :
  ReadModelStore.new config = Some s → apply_all s h = Ok s' →
  StateReadModelLaws (ReadModelStore.state_read_model s').
Proof.
  intros Hn E e n p Hp.
  destruct (apply_all_represents config h s Hn) as (? & E' & R). rewrite E in E'. simplify_eq.
  pose proof (eq_trans (eq_sym (rep_state _ _ _ R (e, n))) Hp) as [Hin _]%latest_of_Some.
  unfold for_key in Hin. apply list_elem_of_fmap in Hin as ([k p'] & -> & Hin).
  apply list_elem_of_filter in Hin as [Hk Hin]. cbn in *. subst k.
  apply list_elem_of_omap in Hin as (o & _ & Ho). unfold History.state_entry in Ho.
  destruct (Observation.payload o); simplify_eq. done.
Qed.

(** An unwrapping class that accepts exactly the states of one name. *)
Definition unwraps_name (T : Type) `{UnwrapStateVariant T} (name : string) : Prop :=
  ∀ s, is_Some (from_state s) ↔ StateObservation.name s = StateName.from_well_known name.

Section ext_laws.
Context (m : StateReadModel.t) `{!StateReadModelLaws m}.

Lemma unwrap_state_exact {T} `{UnwrapStateVariant T} e name :
  unwraps_name T name →
  fmap Projected.observation_id (unwrap_state (T := T)
    (StateReadModel.latest_state m e (StateName.from_well_known name)))
  = fmap Projected.observation_id
      (StateReadModel.latest_state m e (StateName.from_well_known name)).
Proof.
  intros Hu. destruct (StateReadModel.latest_state m e _) as [p|] eqn:E; [|done]. cbn.
  apply latest_state_name in E. apply Hu in E as [v Hv]. by rewrite Hv.
Qed.
End ext_laws.

Ltac solve_unwraps :=
  intros []; unfold from_state; cbn; (split; [by intros [??]|intros [=]; eauto]).

(** Each typed accessor of [StateReadModelExt] loses nothing: over a read
    model that answers a name with a state of that name, it returns the very
    observation [latest_state] has for the well-known name, and [None] only
    when there is none. *)
Lemma state_ext_exact m `{!StateReadModelLaws m} node lnd host :
  let id {T} := @fmap option _ (Projected.t T) _ Projected.observation_id in
  let latest e name := id (StateReadModel.latest_state m e (StateName.from_well_known name)) in
  id (StateReadModelExt.bitcoin_blockchain m node)
    = latest (EntityRef.BitcoinNode node) well_known_state.BITCOIN_BLOCKCHAIN ∧
  id (StateReadModelExt.bitcoin_mempool m node)
    = latest (EntityRef.BitcoinNode node) well_known_state.BITCOIN_MEMPOOL ∧
  id (StateReadModelExt.bitcoin_network m node)
    = latest (EntityRef.BitcoinNode node) well_known_state.BITCOIN_NETWORK ∧
  id (StateReadModelExt.bitcoin_peer_summary m node)
    = latest (EntityRef.BitcoinNode node) well_known_state.BITCOIN_PEER_SUMMARY ∧
  id (StateReadModelExt.lnd_node m lnd)
    = latest (EntityRef.LndNode lnd) well_known_state.LND_NODE ∧
  id (StateReadModelExt.lnd_wallet m lnd)
    = latest (EntityRef.LndNode lnd) well_known_state.LND_WALLET ∧
  id (StateReadModelExt.lnd_channel_summary m lnd)
    = latest (EntityRef.LndNode lnd) well_known_state.LND_CHANNEL_SUMMARY ∧
  id (StateReadModelExt.host_system m host)
    = latest (EntityRef.Host host) well_known_state.HOST_SYSTEM.
Proof. cbv zeta. split_and!; apply unwrap_state_exact; try done; solve_unwraps. Qed.

Lemma state_ext_exact_witness :
  ∃ s', StateReadModelLaws (ReadModelStore.state_read_model s') ∧
    fmap Projected.observation_id
      (StateReadModelExt.bitcoin_peer_summary (ReadModelStore.state_read_model s') sample_node)
    = Some (ObservationId.new 1).
Proof.
  assert (∃ st s', ReadModelStore.new ReadModelStoreConfig.default = Some st ∧
    apply_all st [sample_peer_summary 1 20 8] = Ok s') as (st & s' & Hn & Hs').
  { do 2 eexists. split; reflexivity. }
  exists s'. pose proof (store_state_laws _ _ _ _ Hn Hs') as Hl. split; [exact Hl|].
  destruct (state_ext_exact _ sample_node sample_lnd (HostId.mk "h")) as (_ & _ & _ & H & _).
  rewrite H. clear H Hl. injection Hn as <-. vm_compute in Hs'. injection Hs' as <-.
  vm_compute. reflexivity.
Defined.
