(* ===== verification/Incidents.v ===== *)
(** * Incident data and drafts: [incidents/types.rs], [incidents/events.rs],
    [incidents/suppression.rs], [incidents/well_known.rs], [diagnostics/types.rs]

    The incident record, its structured fingerprint, the engine's events and
    the drafts that rules hand to the engine. *)

From S2P Require Import Prelude RustStr Names SharedTypes F64 CollectorTypes Observations Samples ReadModels.

(** ** Incidents *)

Module IncidentSeverity.
Inductive t : Type := Info | Warning | Critical.
#[global] Instance eq_dec : EqDecision t.
Proof. solve_decision. Defined.
End IncidentSeverity.

Module IncidentStatus.
Inductive t : Type := Open | Acknowledged | Resolved | Suppressed.
#[global] Instance eq_dec : EqDecision t.
Proof. solve_decision. Defined.
End IncidentStatus.

Module IncidentNotificationEventKind.
Inductive t : Type := Opened | Escalated | Resolved.
#[global] Instance eq_dec : EqDecision t.
Proof. solve_decision. Defined.
End IncidentNotificationEventKind.

Module IncidentFingerprint.
Record t : Type := mk {
  subject : EntityRef.t;
  kind : IncidentKind.t;
  dimension : option string;
}.

#[global] Instance eq_dec : EqDecision t.
Proof. solve_decision. Defined.
#[global] Instance countable : Countable t.
Proof.
  apply (inj_countable' (λ f, (subject f, kind f, dimension f)) (λ '(s, k, d), mk s k d)).
  by intros [].
Defined.

Definition as_key `{UuidLib} (f : t) : string :=
  let dim := default "-" (dimension f) in
  EntityRef.subject_kind_str (subject f) +:+ "|" +:+ EntityRef.subject_id_str (subject f)
    +:+ "|" +:+ IncidentKind.as_str (kind f) +:+ "|" +:+ dim.
End IncidentFingerprint.

Module Incident.
Record t : Type := mk {
  id : IncidentId.t;
  fingerprint : IncidentFingerprint.t;
  kind : IncidentKind.t;
  subject : EntityRef.t;
  severity : IncidentSeverity.t;
  status : IncidentStatus.t;
  opened_at : DateTime;
  updated_at : DateTime;
  resolved_at : option DateTime;
  signal_observation_ids : list ObservationId.t;
  evidence : list EvidenceRef.t;
  summary : string;
  evidence_summary : list string;
}.

#[global] Instance eq_dec : EqDecision t.
Proof. solve_decision. Defined.
End Incident.

Module IncidentLifecycleEvent.
Inductive t : Type :=
  | Opened (incident : Incident.t)
  | Escalated (incident : Incident.t) (previous_severity new_severity : IncidentSeverity.t)
  | Resolved (incident : Incident.t).

Definition notification_kind (e : t) : IncidentNotificationEventKind.t :=
  match e with
  | Opened _ => IncidentNotificationEventKind.Opened
  | Escalated _ _ _ => IncidentNotificationEventKind.Escalated
  | Resolved _ => IncidentNotificationEventKind.Resolved
  end.

Definition incident (e : t) : Incident.t :=
  match e with
  | Opened i => i
  | Escalated i _ _ => i
  | Resolved i => i
  end.
End IncidentLifecycleEvent.

Module IncidentEvent.
Inductive t : Type :=
  | SignalRecorded (o : Observation.t)
  | IncidentTouched (i : Incident.t)
  | Lifecycle (e : IncidentLifecycleEvent.t)
  | DraftBelowConfidenceFloor (kind : IncidentKind.t) (confidence floor : Confidence.t).
End IncidentEvent.

(** [incidents/well_known.rs]. *)
Module well_known_incident.
Definition BITCOIN_RPC_UNREACHABLE : string := "bitcoin.rpc_unreachable".
Definition BITCOIN_NO_PEERS : string := "bitcoin.no_peers".
Definition BITCOIN_TIP_LAG_OR_IBD_STALLED : string := "bitcoin.tip_lag_or_ibd_stalled".
Definition LND_CHANNEL_INACTIVE : string := "lnd.channel_inactive".
Definition LND_CHAIN_BACKEND_LAG : string := "lnd.chain_backend_lag".
Definition BITHOUND_LND_UNREACHABLE : string := "bithound.lnd_unreachable".
Definition BITHOUND_LND_AUTH_FAILED : string := "bithound.lnd_auth_failed".
Definition BITHOUND_LND_TLS_INVALID : string := "bithound.lnd_tls_invalid".

Definition ALL : list string :=
  [BITCOIN_RPC_UNREACHABLE; BITCOIN_NO_PEERS; BITCOIN_TIP_LAG_OR_IBD_STALLED;
   LND_CHANNEL_INACTIVE; LND_CHAIN_BACKEND_LAG; BITHOUND_LND_UNREACHABLE;
   BITHOUND_LND_AUTH_FAILED; BITHOUND_LND_TLS_INVALID].
End well_known_incident.

(** ** Suppression commands *)

Module SuppressionCommand.
Inductive t : Type :=
  | Suppress (fingerprint : IncidentFingerprint.t) (until : option DateTime)
      (by_ : ActorId.t) (reason : string)
  | Unsuppress (fingerprint : IncidentFingerprint.t) (by_ : ActorId.t).
End SuppressionCommand.

(** ** Drafts *)

Module IncidentSignalDraft.
Record t : Type := mk {
  subject : EntityRef.t;
  signal : SignalName.t;
  kind : IncidentKind.t;
  dimension : option string;
  severity : SignalSeverity.t;
  status : SignalStatus.t;
  confidence : Confidence.t;
  evidence : list EvidenceRef.t;
}.
End IncidentSignalDraft.

Definition compute_fingerprint (draft : IncidentSignalDraft.t) : IncidentFingerprint.t := {|
  IncidentFingerprint.subject := IncidentSignalDraft.subject draft;
  IncidentFingerprint.kind := IncidentSignalDraft.kind draft;
  IncidentFingerprint.dimension := IncidentSignalDraft.dimension draft;
|}.

(** What a rule's [evaluate] is handed. *)
Module DiagnosticContext.
Record t : Type := mk {
  now : DateTime;
  monotonic_now : Instant;
  subject : EntityRef.t;
  state : StateReadModel.t;
  metrics : MetricReadModel.t;
  health : HealthReadModel.t;
  capabilities : CapabilityReadModel.t;
  heartbeats : HeartbeatReadModel.t;
  signals : IncidentSignalReadModel.t;
}.
End DiagnosticContext.

(** The trait [DiagnosticRule], as an interface over the rule's own state. *)
Class DiagnosticRule (R : Type) : Type := {
  rule_id : R → string;
  evaluate : R → DiagnosticContext.t → Result (list IncidentSignalDraft.t) string * R;
}.

(** ** The storage key of a fingerprint *)

(** No [|] in the rendered subject: the identifiers come from configuration
    and collectors as free strings. *)
Definition key_safe `{UuidLib} (f : IncidentFingerprint.t) : Prop :=
  contains_byte "|" (EntityRef.subject_id_str (IncidentFingerprint.subject f)) = false ∧
  scope_free "/" (IncidentFingerprint.subject f) ∧
  well_formed_name (IncidentKind.as_str (IncidentFingerprint.kind f)) ∧
  IncidentFingerprint.dimension f ≠ Some "-".

Lemma subject_kind_str_no_bar e : contains_byte "|" (EntityRef.subject_kind_str e) = false.
Proof. by destruct e. Qed.

Lemma well_formed_name_no_bar s : well_formed_name s → contains_byte "|" s = false.
Proof. intros H%well_formed_name_bytes. by eapply all_bytes_contains. Qed.

(** The storage key of a fingerprint identifies it: two fingerprints with
    the same [as_key] are equal, provided their rendered subjects contain no
    bar, their scoping nodes' identifiers contain no slash, their kinds are
    well-formed names, and neither dimension is the placeholder dash. *)
Theorem as_key_injective `{UuidLaws} f1 f2 :
  key_safe f1 → key_safe f2 →
  IncidentFingerprint.as_key f1 = IncidentFingerprint.as_key f2 → f1 = f2.
Proof.
  destruct f1 as [s1 k1 d1], f2 as [s2 k2 d2].
  intros (Hs1 & Hf1 & Hk1 & Hd1) (Hs2 & Hf2 & Hk2 & Hd2); cbn in *.
  unfold IncidentFingerprint.as_key; cbn. rewrite !string_app_cons, !string_app_nil_l.
  intros [Hkind Hkey]%string_sep_inj; [|apply subject_kind_str_no_bar..].
  apply string_sep_inj in Hkey as [Hid Hkey]; [|done..].
  apply string_sep_inj in Hkey as [Hk Hd]; [|by apply well_formed_name_no_bar..].
  rewrite (subject_strs_inj s1 s2) by done.
  destruct k1, k2; cbn in *; subst. f_equal.
  destruct d1, d2; cbn in *; congruence.
Qed.

Definition sample_fingerprint : IncidentFingerprint.t := {|
  IncidentFingerprint.subject := sample_subject;
  IncidentFingerprint.kind :=
    IncidentKind.from_well_known well_known_incident.BITCOIN_NO_PEERS;
  IncidentFingerprint.dimension := None;
|}.

Lemma as_key_injective_witness :
  key_safe sample_fingerprint ∧ sample_fingerprint = sample_fingerprint.
Proof.
  assert (key_safe sample_fingerprint) as Hsafe by by repeat split.
  split; [exact Hsafe|]. by apply as_key_injective.
Defined.

(** Without those provisos distinct incidents share a key: peers of two
    different nodes collide as soon as a node identifier contains a slash,
    which nothing forbids, and a missing dimension collides with the
    dimension ["-"]. *)
Theorem as_key_collisions `{UuidLib} a b c kind :
  let fp subject dimension := {|
    IncidentFingerprint.subject := subject;
    IncidentFingerprint.kind := kind;
    IncidentFingerprint.dimension := dimension;
  |} in
  let peer n p := EntityRef.BitcoinPeer (BitcoinNodeId.mk n) (BitcoinPeerId.mk p) in
  IncidentFingerprint.as_key (fp (peer (a +:+ "/" +:+ b) c) None)
  = IncidentFingerprint.as_key (fp (peer a (b +:+ "/" +:+ c)) None) ∧
  fp (peer (a +:+ "/" +:+ b) c) None ≠ fp (peer a (b +:+ "/" +:+ c)) None ∧
  IncidentFingerprint.as_key (fp (peer a b) (Some "-"))
  = IncidentFingerprint.as_key (fp (peer a b) None).
Proof.
  cbv zeta. split_and!; [|intros [= Heq _]|done].
  - unfold IncidentFingerprint.as_key; cbn. by rewrite !string_app_assoc.
  - apply (f_equal String.length) in Heq. rewrite string_app_length, string_app_cons in Heq. cbn in Heq. lia.
Qed.
