(* ===== verification/Kinds.v ===== *)
(** * The incident-kind registry: [incidents/kinds.rs], [config/default_kinds.toml]

    TOML parsing is the toml and serde crates': [TomlLib] is the parser
    specialised to [KindsToml], and [TomlLaws] is what the code relies on,
    namely that [IncidentKind]'s [try_from] validated every name and that the
    embedded catalog parses to the entries of [config/default_kinds.toml]. *)

From S2P Require Import Prelude RustStr Names SharedTypes Observations Samples Incidents.

Module KindSource.
Inductive t : Type := Builtin | UserConfig.
#[global] Instance eq_dec : EqDecision t.
Proof. solve_decision. Defined.
End KindSource.

Module IncidentKindSpec.
Record t : Type := mk {
  name : IncidentKind.t;
  allowed_subjects : list EntitySubjectKind.t;
  allows_dimension : bool;
  dimension_label : option string;
  min_open_confidence : Confidence.t;
  source : KindSource.t;
}.
End IncidentKindSpec.

Module RegistryError.
Inductive t : Type :=
  | InvalidToml (e : string)
  | DuplicateKind (k : IncidentKind.t)
  | CannotOverrideBuiltin (k : IncidentKind.t)
  | UnknownSubjectKind (name : string).
End RegistryError.

Module DraftError.
Inductive t : Type :=
  | UnknownKind (k : IncidentKind.t)
  | DisallowedSubject (kind : IncidentKind.t) (subject : EntitySubjectKind.t)
      (allowed : list EntitySubjectKind.t)
  | DimensionRequired (k : IncidentKind.t)
  | DimensionForbidden (k : IncidentKind.t).
End DraftError.

(** ** The catalog as deserialized *)

Module KindEntryToml.
Record t : Type := mk {
  name : IncidentKind.t;
  allowed_subjects : list string;
  allows_dimension : bool;
  dimension_label : option string;
  min_open_confidence : option Confidence.t;
}.
End KindEntryToml.

Module KindsToml.
Record t : Type := mk { kinds : list KindEntryToml.t }.
End KindsToml.

Class TomlLib : Type := {
  BUILTIN_KINDS_TOML : string;
  toml_from_str : string → Result KindsToml.t string;
}.

(** [config/default_kinds.toml]. *)
Definition default_kinds : KindsToml.t :=
  let simple name subject floor := {|
    KindEntryToml.name := IncidentKind.mk name;
    KindEntryToml.allowed_subjects := [subject];
    KindEntryToml.allows_dimension := false;
    KindEntryToml.dimension_label := None;
    KindEntryToml.min_open_confidence := Some floor;
  |} in
  let self_observed name := {|
    KindEntryToml.name := IncidentKind.mk name;
    KindEntryToml.allowed_subjects := ["Sidecar"];
    KindEntryToml.allows_dimension := true;
    KindEntryToml.dimension_label := Some "collector_id";
    KindEntryToml.min_open_confidence := Some Confidence.High;
  |} in
  KindsToml.mk [
    simple "bitcoin.rpc_unreachable" "BitcoinNode" Confidence.High;
    simple "bitcoin.no_peers" "BitcoinNode" Confidence.High;
    simple "bitcoin.tip_lag_or_ibd_stalled" "BitcoinNode" Confidence.High;
    simple "lnd.channel_inactive" "LndChannel" Confidence.Medium;
    simple "lnd.chain_backend_lag" "LndNode" Confidence.High;
    self_observed "bithound.lnd_unreachable";
    self_observed "bithound.lnd_auth_failed";
    self_observed "bithound.lnd_tls_invalid"
  ].

Class TomlLaws `{TomlLib} : Prop := {
  toml_names_validated s k e :
    toml_from_str s = Ok k → e ∈ KindsToml.kinds k →
    well_formed_name (IncidentKind.as_str (KindEntryToml.name e));
  toml_builtin : toml_from_str BUILTIN_KINDS_TOML = Ok default_kinds;
}.

(** ** Loading *)

Definition parse_subject_kind (name : string) : Result EntitySubjectKind.t RegistryError.t :=
  match name with
  | "Sidecar" => Ok EntitySubjectKind.Sidecar
  | "Host" => Ok EntitySubjectKind.Host
  | "BitcoinNode" => Ok EntitySubjectKind.BitcoinNode
  | "BitcoinPeer" => Ok EntitySubjectKind.BitcoinPeer
  | "LndNode" => Ok EntitySubjectKind.LndNode
  | "LndPeer" => Ok EntitySubjectKind.LndPeer
  | "LndChannel" => Ok EntitySubjectKind.LndChannel
  | "LndInvoice" => Ok EntitySubjectKind.LndInvoice
  | other => Err (RegistryError.UnknownSubjectKind other)
  end%string.

Definition parse_entry (entry : KindEntryToml.t) (source : KindSource.t) :
    Result IncidentKindSpec.t RegistryError.t :=
  let? allowed_subjects :=
    try_fold (λ acc name, let? k := parse_subject_kind name in Ok (acc ++ [k]))
      [] (KindEntryToml.allowed_subjects entry) in
  Ok {|
    IncidentKindSpec.name := KindEntryToml.name entry;
    IncidentKindSpec.allowed_subjects := allowed_subjects;
    IncidentKindSpec.allows_dimension := KindEntryToml.allows_dimension entry;
    IncidentKindSpec.dimension_label := KindEntryToml.dimension_label entry;
    IncidentKindSpec.min_open_confidence :=
      default Confidence.Medium (KindEntryToml.min_open_confidence entry);
    IncidentKindSpec.source := source;
  |}.

Abbreviation kind_map := (gmap IncidentKind.t IncidentKindSpec.t).

(** The body of the [for] loop over the parsed entries. *)
Definition insert_entry (source : KindSource.t) (kinds : kind_map) (entry : KindEntryToml.t) :
    Result kind_map RegistryError.t :=
  let? spec := parse_entry entry source in
  let key := IncidentKindSpec.name spec in
  match kinds !! key with
  | Some existing =>
      match IncidentKindSpec.source existing, source with
      | KindSource.Builtin, KindSource.UserConfig =>
          Err (RegistryError.CannotOverrideBuiltin key)
      | _, _ => Err (RegistryError.DuplicateKind key)
      end
  | None => Ok (<[key := spec]> kinds)
  end.

Definition insert_from_toml `{TomlLib} (kinds : kind_map) (toml_str : string)
    (source : KindSource.t) : Result kind_map RegistryError.t :=
  let? parsed := map_err RegistryError.InvalidToml (toml_from_str toml_str) in
  try_fold (insert_entry source) kinds (KindsToml.kinds parsed).

Module KindRegistry.
Record t : Type := mk { kinds : kind_map }.

Definition load_from_toml_strs `{TomlLib} (builtin_toml : string)
    (user_toml : option string) : Result t RegistryError.t :=
  let? kinds := insert_from_toml ∅ builtin_toml KindSource.Builtin in
  let? kinds := match user_toml with
                | Some user_toml => insert_from_toml kinds user_toml KindSource.UserConfig
                | None => Ok kinds
                end in
  Ok (mk kinds).

(** [read_to_string] is the file system's. *)
Definition load `{TomlLib} (read_to_string : string → Result string string)
    (user_config : option string) : Result t RegistryError.t :=
  let? user_toml := match user_config with
                    | Some path =>
                        let? s := map_err RegistryError.InvalidToml (read_to_string path) in
                        Ok (Some s)
                    | None => Ok None
                    end in
  load_from_toml_strs BUILTIN_KINDS_TOML user_toml.

Definition lookup (r : t) (kind : IncidentKind.t) : option IncidentKindSpec.t :=
  kinds r !! kind.

Definition validate_draft (r : t) (draft : IncidentSignalDraft.t) : Result unit DraftError.t :=
  let? spec := ok_or (kinds r !! IncidentSignalDraft.kind draft)
                 (DraftError.UnknownKind (IncidentSignalDraft.kind draft)) in
  let subject_kind := EntityRef.subject_kind (IncidentSignalDraft.subject draft) in
  if negb (bool_decide (subject_kind ∈ IncidentKindSpec.allowed_subjects spec)) then
    Err (DraftError.DisallowedSubject (IncidentSignalDraft.kind draft) subject_kind
           (IncidentKindSpec.allowed_subjects spec))
  else
    match IncidentKindSpec.allows_dimension spec,
          is_some (IncidentSignalDraft.dimension draft) with
    | true, false => Err (DraftError.DimensionRequired (IncidentSignalDraft.kind draft))
    | false, true => Err (DraftError.DimensionForbidden (IncidentSignalDraft.kind draft))
    | _, _ => Ok tt
    end.
End KindRegistry.

(** ** Validation *)

(** What the registry asks of a draft. *)
Definition draft_conforms (r : KindRegistry.t) (d : IncidentSignalDraft.t) : Prop :=
  ∃ spec, KindRegistry.lookup r (IncidentSignalDraft.kind d) = Some spec ∧
    EntityRef.subject_kind (IncidentSignalDraft.subject d)
      ∈ IncidentKindSpec.allowed_subjects spec ∧
    (is_Some (IncidentSignalDraft.dimension d) ↔ IncidentKindSpec.allows_dimension spec = true).

Definition draft_error_explains (r : KindRegistry.t) (d : IncidentSignalDraft.t)
    (e : DraftError.t) : Prop :=
  let kind := IncidentSignalDraft.kind d in
  let subject := EntityRef.subject_kind (IncidentSignalDraft.subject d) in
  match e with
  | DraftError.UnknownKind k => (k = kind) ∧ KindRegistry.lookup r kind = None
  | DraftError.DisallowedSubject k s allowed =>
      k = kind ∧ s = subject ∧ (s ∉ allowed) ∧
      ∃ spec, KindRegistry.lookup r kind = Some spec ∧
              IncidentKindSpec.allowed_subjects spec = allowed
  | DraftError.DimensionRequired k =>
      k = kind ∧ IncidentSignalDraft.dimension d = None ∧
      ∃ spec, KindRegistry.lookup r kind = Some spec ∧
              IncidentKindSpec.allows_dimension spec = true
  | DraftError.DimensionForbidden k =>
      k = kind ∧ is_Some (IncidentSignalDraft.dimension d) ∧
      ∃ spec, KindRegistry.lookup r kind = Some spec ∧
              IncidentKindSpec.allows_dimension spec = false
  end.

Lemma validate_draft_cases r d :
  match KindRegistry.validate_draft r d with
  | Ok _ => draft_conforms r d
  | Err e => ¬ draft_conforms r d ∧ draft_error_explains r d e
  end.
Proof.
  unfold KindRegistry.validate_draft, draft_conforms, KindRegistry.lookup.
  destruct (KindRegistry.kinds r !! _) as [spec|] eqn:Hk; cbn.
  2:{ split; [naive_solver|done]. }
  case_bool_decide as Hs; cbn.
  2:{ split; [naive_solver|]. split_and!; eauto. }
  destruct (IncidentKindSpec.allows_dimension spec) eqn:Ha;
    destruct (IncidentSignalDraft.dimension d) as [x|] eqn:Hd; cbn.
  - exists spec. rewrite Ha. split_and!; eauto. split; eauto.
  - split; [|by eauto 6]. intros (spec' & ? & _ & Hiff). simplify_eq.
    rewrite Ha in Hiff. by eapply is_Some_None, Hiff.
  - split; [|by eauto 6]. intros (spec' & ? & _ & Hiff). simplify_eq.
    rewrite Ha in Hiff. discriminate (proj1 Hiff (ltac:(eauto))).
  - exists spec. rewrite Ha. split_and!; [done..|]. split; [by intros [??]|done].
Qed.

Lemma validate_draft_ok_lookup r d u :
  KindRegistry.validate_draft r d = Ok u →
  is_Some (KindRegistry.lookup r (IncidentSignalDraft.kind d)).
Proof.
  pose proof (validate_draft_cases r d) as H. intros E. rewrite E in H.
  destruct H as (spec & ? & _). by eexists.
Qed.

(** C31: A draft is accepted exactly when its kind is registered, its subject's
    kind is among the allowed ones, and it carries a dimension if and only if
    the kind asks for one; every rejection names the condition that failed. *)
Theorem validate_draft_spec r d :
  (KindRegistry.validate_draft r d = Ok tt ↔ draft_conforms r d) ∧
  (∀ e, KindRegistry.validate_draft r d = Err e → draft_error_explains r d e).
Proof.
  pose proof (validate_draft_cases r d) as H.
  destruct (KindRegistry.validate_draft r d) as [[]|e]; naive_solver.
Qed.

(** ** Loading *)

Lemma parse_entry_spec e src spec :
  parse_entry e src = Ok spec →
  IncidentKindSpec.name spec = KindEntryToml.name e ∧ IncidentKindSpec.source spec = src.
Proof.
  unfold parse_entry. destruct (try_fold _ _ _); cbn; [|done]. by intros [= <-].
Qed.

Lemma insert_entry_Ok src m e m' :
  insert_entry src m e = Ok m' ↔
  ∃ spec, parse_entry e src = Ok spec ∧ m !! IncidentKindSpec.name spec = None ∧
          m' = <[IncidentKindSpec.name spec := spec]> m.
Proof.
  unfold insert_entry. destruct (parse_entry e src) as [spec|]; cbn; [|naive_solver].
  destruct (m !! _) as [ex|] eqn:Hm.
  - split; [|naive_solver]. by destruct (IncidentKindSpec.source ex), src.
  - naive_solver.
Qed.

(** The specs of a catalog's entries, by name. *)
Definition specs_map (specs : list IncidentKindSpec.t) : kind_map :=
  list_to_map ((λ s, (IncidentKindSpec.name s, s)) <$> specs).

Lemma specs_map_nil : specs_map [] = ∅.
Proof. done. Qed.

Lemma specs_map_cons s specs :
  specs_map (s :: specs) = <[IncidentKindSpec.name s := s]> (specs_map specs).
Proof. done. Qed.

Lemma specs_map_None specs k :
  k ∉ IncidentKindSpec.name <$> specs → specs_map specs !! k = None.
Proof.
  intros Hk. apply not_elem_of_list_to_map_1. by rewrite <-list_fmap_compose.
Qed.

(** What a successful pass over a catalog means: every entry parses, no name
    is taken or repeated, and the entries' specs are what was added. *)
Record catalog_added (src : KindSource.t) (m : kind_map) (es : list KindEntryToml.t)
    (specs : list IncidentKindSpec.t) (m' : kind_map) : Prop := {
  added_parse : Forall2 (λ e s, parse_entry e src = Ok s) es specs;
  added_nodup : NoDup (IncidentKindSpec.name <$> specs);
  added_fresh : Forall (λ s, m !! IncidentKindSpec.name s = None) specs;
  added_map : m' = specs_map specs ∪ m;
}.

Lemma insert_entries_Ok src m es m' :
  try_fold (insert_entry src) m es = Ok m' ↔ ∃ specs, catalog_added src m es specs m'.
Proof.
  revert m. induction es as [|e es IH]; intros m; cbn.
  { split.
    - intros [= <-]. exists []. split; [constructor..|].
      by rewrite specs_map_nil, map_empty_union.
    - intros (specs & [->%Forall2_nil_inv_l _ _ ->]).
      by rewrite specs_map_nil, map_empty_union. }
  destruct (insert_entry src m e) as [m1|err] eqn:E; cbn.
  - apply insert_entry_Ok in E as (spec & Hp & Hf & ->). rewrite IH. split.
    + intros (specs & [Hps Hnd Hfr ->]). exists (spec :: specs).
      assert (IncidentKindSpec.name spec ∉ IncidentKindSpec.name <$> specs) as Hnin.
      { intros (s & Heq & Hs)%list_elem_of_fmap. rewrite Forall_forall in Hfr.
        specialize (Hfr s Hs). by rewrite <-Heq, lookup_insert_eq in Hfr. }
      split; [by constructor|by constructor| |].
      * constructor; [done|]. eapply Forall_impl; [exact Hfr|].
        by intros s [? _]%lookup_insert_None.
      * rewrite specs_map_cons, <-insert_union_l, insert_union_r; [done|].
        by apply specs_map_None.
    + intros (specs' & [Hps Hnd Hfr ->]).
      apply Forall2_cons_inv_l in Hps as (s & specs & Hs & Hps & ->).
      rewrite Hp in Hs. injection Hs as <-.
      apply NoDup_cons in Hnd as [Hnin Hnd]. apply Forall_cons in Hfr as [_ Hfr].
      exists specs. split; [done|done| |].
      * rewrite Forall_forall in *. intros s' Hin. rewrite lookup_insert_ne; [auto|].
        intros Heq. apply Hnin. apply list_elem_of_fmap. by exists s'.
      * rewrite specs_map_cons, <-insert_union_l, insert_union_r; [done|].
        by apply specs_map_None.
  - split; [done|]. intros (specs' & [Hps _ Hfr _]).
    apply Forall2_cons_inv_l in Hps as (s & specs & Hs & Hps & ->).
    apply Forall_cons in Hfr as [Hf _].
    assert (insert_entry src m e = Ok (<[IncidentKindSpec.name s := s]> m)) as E'.
    { apply insert_entry_Ok. eauto. }
    congruence.
Qed.

Lemma insert_from_toml_Ok `{TomlLib} m s src m' :
  insert_from_toml m s src = Ok m' ↔
  ∃ k specs, toml_from_str s = Ok k ∧ catalog_added src m (KindsToml.kinds k) specs m'.
Proof.
  unfold insert_from_toml. destruct (toml_from_str s) as [k|e]; cbn; [|naive_solver].
  rewrite insert_entries_Ok. naive_solver.
Qed.

Lemma specs_map_Some specs k s :
  NoDup (IncidentKindSpec.name <$> specs) →
  specs_map specs !! k = Some s ↔ s ∈ specs ∧ IncidentKindSpec.name s = k.
Proof.
  intros Hnd. unfold specs_map. rewrite <-elem_of_list_to_map.
  - rewrite list_elem_of_fmap. split; [by intros (x & [= -> ->] & ?)|].
    intros [? <-]. by exists s.
  - by rewrite <-list_fmap_compose.
Qed.

Lemma specs_map_app l1 l2 : specs_map (l1 ++ l2) = specs_map l1 ∪ specs_map l2.
Proof. unfold specs_map. by rewrite fmap_app, list_to_map_app. Qed.

(** Names absent from one catalog's map, seen as disjointness of names. *)
Lemma fresh_NoDup l1 l2 :
  NoDup (IncidentKindSpec.name <$> l2) →
  (NoDup (IncidentKindSpec.name <$> l1) ∧
   Forall (λ s, specs_map l2 !! IncidentKindSpec.name s = None) l1) ↔
  NoDup (IncidentKindSpec.name <$> l1 ++ l2).
Proof.
  intros H2. rewrite fmap_app, NoDup_app, Forall_forall. split.
  - intros [H1 Hf]. split_and!; [done| |done].
    intros n (s & -> & Hs)%list_elem_of_fmap (s' & Heq & Hs')%list_elem_of_fmap.
    specialize (Hf s Hs). rewrite Heq in Hf.
    by rewrite (proj2 (specs_map_Some _ _ s' H2)) in Hf.
  - intros (H1 & Hd & _). split; [done|]. intros s Hs. apply specs_map_None, Hd.
    by apply list_elem_of_fmap_2.
Qed.

(** The two catalogs of a registry, as parsed and converted. *)
Record catalogs `{TomlLib} (builtin user : string) (sb su : list IncidentKindSpec.t) : Prop := {
  cat_builtin : ∃ kb, toml_from_str builtin = Ok kb ∧
    Forall2 (λ e s, parse_entry e KindSource.Builtin = Ok s) (KindsToml.kinds kb) sb;
  cat_user : ∃ ku, toml_from_str user = Ok ku ∧
    Forall2 (λ e s, parse_entry e KindSource.UserConfig = Ok s) (KindsToml.kinds ku) su;
  cat_names : NoDup (IncidentKindSpec.name <$> su ++ sb);
}.

Lemma load_catalogs `{TomlLib} builtin user r :
  KindRegistry.load_from_toml_strs builtin (Some user) = Ok r ↔
  ∃ sb su, catalogs builtin user sb su ∧ KindRegistry.kinds r = specs_map (su ++ sb).
Proof.
  unfold KindRegistry.load_from_toml_strs. split.
  - destruct (insert_from_toml ∅ _ _) as [m0|] eqn:E0; cbn; [|done].
    destruct (insert_from_toml m0 _ _) as [m1|] eqn:E1; cbn; [|done]. intros [= <-].
    apply insert_from_toml_Ok in E0 as (kb & sb & Hkb & [P0 N0 _ ->]).
    apply insert_from_toml_Ok in E1 as (ku & su & Hku & [P1 N1 F1 ->]).
    rewrite map_union_empty in *. exists sb, su. split; [|by rewrite specs_map_app].
    split; [by eauto..|]. by apply fresh_NoDup.
  - intros (sb & su & [(kb & Hkb & P0) (ku & Hku & P1) Hn] & Hr).
    assert (NoDup (IncidentKindSpec.name <$> sb)) as N0.
    { rewrite fmap_app in Hn. by apply NoDup_app in Hn as (_ & _ & ?). }
    apply fresh_NoDup in Hn as [N1 F1]; [|done].
    rewrite (proj2 (insert_from_toml_Ok ∅ builtin KindSource.Builtin (specs_map sb))); cbn.
    + rewrite (proj2 (insert_from_toml_Ok (specs_map sb) user KindSource.UserConfig
        (specs_map su ∪ specs_map sb))); cbn; [destruct r; cbn in *; by rewrite Hr, specs_map_app|].
      exists ku, su. by split.
    + exists kb, sb. split; [done|]. split; [done..| |by rewrite map_union_empty].
      apply Forall_true. intros. apply lookup_empty.
Qed.

(** A registry that loads holds the embedded catalog, whatever the user's
    adds to it. *)
Lemma load_builtin `{TomlLaws} read_to_string user_config r e s :
  KindRegistry.load read_to_string user_config = Ok r →
  e ∈ KindsToml.kinds default_kinds → parse_entry e KindSource.Builtin = Ok s →
  KindRegistry.lookup r (IncidentKindSpec.name s) = Some s.
Proof.
  intros Hload He Hs.
  assert (∃ user, KindRegistry.load_from_toml_strs BUILTIN_KINDS_TOML user = Ok r) as [user Hr].
  { revert Hload. unfold KindRegistry.load. destruct user_config as [path|]; cbn; [|by eauto].
    destruct (map_err _ _); cbn; [by eauto|done]. }
  unfold KindRegistry.load_from_toml_strs in Hr.
  destruct (insert_from_toml ∅ _ _) as [m0|] eqn:E0; cbn in Hr; [|done].
  apply insert_from_toml_Ok in E0 as (k & sb & Hk & [P N _ ->]). rewrite map_union_empty in Hr.
  rewrite toml_builtin in Hk. injection Hk as <-.
  assert (specs_map sb !! IncidentKindSpec.name s = Some s) as Hin.
  { apply specs_map_Some; [done|]. split; [|done].
    apply list_elem_of_lookup in He as [j Hj].
    destruct (Forall2_lookup_l _ _ _ _ _ P Hj) as (s' & Hj' & Hs').
    rewrite Hs in Hs'. injection Hs' as <-. by apply list_elem_of_lookup_2 in Hj'. }
  unfold KindRegistry.lookup. destruct user as [toml|]; [|by injection Hr as <-].
  destruct (insert_from_toml (specs_map sb) _ _) as [m1|] eqn:E1; cbn in Hr; [|done].
  injection Hr as <-. apply insert_from_toml_Ok in E1 as (ku & su & _ & [_ _ Hf ->]); cbn.
  apply lookup_union_Some_raw. right. split; [|done]. apply specs_map_None.
  intros (s' & Heq & Hs')%list_elem_of_fmap. rewrite Forall_forall in Hf.
  specialize (Hf s' Hs'). by rewrite <-Heq, Hin in Hf.
Qed.

(** Loading the built-in catalog with a user catalog succeeds exactly when
    both parse, every subject name is known and no kind is named twice within
    or across them; the registry then holds one spec per entry, under its own
    name and marked with the catalog it came from, and nothing else. *)
Theorem registry_load_spec `{TomlLib} builtin user r :
  KindRegistry.load_from_toml_strs builtin (Some user) = Ok r ↔
  ∃ sb su, catalogs builtin user sb su ∧
    ∀ k s, KindRegistry.lookup r k = Some s ↔ s ∈ su ++ sb ∧ IncidentKindSpec.name s = k.
Proof.
  rewrite load_catalogs. split; intros (sb & su & Hc & Hr); exists sb, su; (split; [done|]).
  - intros k s. unfold KindRegistry.lookup. rewrite Hr. apply specs_map_Some, Hc.
  - apply map_eq. intros k. apply option_eq. intros s.
    rewrite specs_map_Some by apply Hc. apply Hr.
Qed.

(** A user catalog cannot change a built-in kind: whenever a registry with
    one is loaded, every kind of the built-in catalog is looked up exactly as
    without it, and every other registered kind is marked as user
    configuration. *)
Theorem registry_user_additive `{TomlLib} builtin user r :
  KindRegistry.load_from_toml_strs builtin (Some user) = Ok r →
  ∃ r0, KindRegistry.load_from_toml_strs builtin None = Ok r0 ∧
    ∀ k, match KindRegistry.lookup r0 k with
         | Some s => KindRegistry.lookup r k = Some s ∧
                     IncidentKindSpec.source s = KindSource.Builtin
         | None => ∀ s, KindRegistry.lookup r k = Some s →
                     IncidentKindSpec.source s = KindSource.UserConfig
         end.
Proof.
  intros (sb & su & [(kb & Hkb & P0) (ku & Hku & P1) Hn] & Hr)%load_catalogs.
  assert (NoDup (IncidentKindSpec.name <$> sb)) as N0.
  { rewrite fmap_app in Hn. by apply NoDup_app in Hn as (_ & _ & ?). }
  exists (KindRegistry.mk (specs_map sb)). split.
  - unfold KindRegistry.load_from_toml_strs.
    rewrite (proj2 (insert_from_toml_Ok ∅ builtin KindSource.Builtin (specs_map sb))); [done|].
    exists kb, sb. split; [done|]. split; [done..| |by rewrite map_union_empty].
    apply Forall_true. intros. apply lookup_empty.
  - intros k. unfold KindRegistry.lookup; cbn. rewrite Hr.
    destruct (specs_map sb !! k) as [s|] eqn:E.
    + apply specs_map_Some in E as [Hin <-]; [|done]. split.
      * apply specs_map_Some; [done|]. rewrite elem_of_app. auto.
      * apply list_elem_of_lookup in Hin as [i Hi].
        destruct (Forall2_lookup_r _ _ _ _ _ P0 Hi) as (e & _ & He). by apply parse_entry_spec in He as [_ ?].
    + intros s. rewrite specs_map_app, lookup_union_l by done.
      intros [Hin _]%specs_map_Some; [|by apply fresh_NoDup in Hn as [? _]].
      apply list_elem_of_lookup in Hin as [i Hi].
      destruct (Forall2_lookup_r _ _ _ _ _ P1 Hi) as (e & _ & He). by apply parse_entry_spec in He as [_ ?].
Qed.

(** ** The embedded catalog *)

(** The embedded catalog loads, and the well-known constants and the
    catalog agree in both directions: the registered kinds are exactly the
    names of [ALL]; every name is well formed and its derived signal name is
    within the grammar too; a kind asks for a dimension exactly when the
    sidecar is its only subject. *)
Theorem builtin_catalog_parity `{TomlLaws} read_to_string :
  ∃ r, KindRegistry.load read_to_string None = Ok r ∧
    (∀ k, is_Some (KindRegistry.lookup r k) ↔
          IncidentKind.as_str k ∈ well_known_incident.ALL) ∧
    Forall well_formed_name well_known_incident.ALL ∧
    Forall (λ n, well_formed_name (SignalName.as_str
              (SignalName.for_incident_kind (IncidentKind.from_well_known n))))
      well_known_incident.ALL ∧
    (∀ k s, KindRegistry.lookup r k = Some s →
      IncidentKindSpec.allowed_subjects s = [EntitySubjectKind.Sidecar] ↔
      IncidentKindSpec.allows_dimension s = true).
Proof.
  destruct (is_ok_ex (try_fold (insert_entry KindSource.Builtin) ∅ (KindsToml.kinds default_kinds)))
    as [m E]; [vm_compute; reflexivity|].
  exists (KindRegistry.mk m). split.
  { unfold KindRegistry.load, KindRegistry.load_from_toml_strs, insert_from_toml; cbn.
    rewrite toml_builtin; cbn [map_err res_bind]. by rewrite E. }
  apply insert_entries_Ok in E as (specs & [P N _ ->]). rewrite map_union_empty.
  apply Forall2_cons_inv_l in P as (s1 & ? & [= <-] & P & ->).
  repeat (apply Forall2_cons_inv_l in P as (? & ? & [= <-] & P & ->)).
  apply Forall2_nil_inv_l in P as ->.
  split; [|split; [by repeat constructor|split; [by repeat constructor|]]].
  - intros k. unfold KindRegistry.lookup; cbn [KindRegistry.kinds]. split.
    + intros [s [Hs <-]%specs_map_Some]; [|done].
      repeat (apply elem_of_cons in Hs as [->|Hs]; [by repeat constructor|]).
      by apply elem_of_nil in Hs.
    + destruct k as [n]; cbn. intros Hn.
      repeat (apply elem_of_cons in Hn as [->|Hn]; [eexists; vm_compute; reflexivity|]).
      by apply elem_of_nil in Hn.
  - intros k s. unfold KindRegistry.lookup; cbn [KindRegistry.kinds].
    intros [Hs <-]%specs_map_Some; [|done].
    repeat (apply elem_of_cons in Hs as [->|Hs]; [by cbn|]).
    by apply elem_of_nil in Hs.
Qed.

(** ** Sample registries *)

(** A parser that knows the embedded catalog and a one-entry user catalog. *)
Definition sample_user_kinds : KindsToml.t := KindsToml.mk [{|
  KindEntryToml.name := IncidentKind.mk "custom.disk_full";
  KindEntryToml.allowed_subjects := ["Host"; "Sidecar"];
  KindEntryToml.allows_dimension := true;
  KindEntryToml.dimension_label := None;
  KindEntryToml.min_open_confidence := None;
|}].

#[global] Instance sample_toml_lib : TomlLib := {
  BUILTIN_KINDS_TOML := "builtin";
  toml_from_str s :=
    if String.eqb s "builtin" then Ok default_kinds
    else if String.eqb s "user" then Ok sample_user_kinds
    else Err "expected a table";
}.

#[global] Instance sample_toml_laws : TomlLaws.
Proof.
  split; [|reflexivity]. intros s k e; cbn.
  destruct (String.eqb s "builtin"); [|destruct (String.eqb s "user"); [|done]];
    intros [= <-]; revert e; apply Forall_forall; repeat constructor.
Defined.

Lemma builtin_catalog_parity_witness :
  ∃ r, KindRegistry.load (λ _, Err "no file") None = Ok r ∧
    is_Some (KindRegistry.lookup r (IncidentKind.mk "bitcoin.no_peers")).
Proof.
  destruct (builtin_catalog_parity (λ _, Err "no file")) as (r & Hr & Hk & _).
  exists r. split; [exact Hr|]. apply Hk. apply (bool_decide_unpack _). reflexivity.
Defined.

Lemma registry_user_additive_witness :
  ∃ r r0, KindRegistry.load_from_toml_strs "builtin" (Some "user") = Ok r ∧
    KindRegistry.load_from_toml_strs "builtin" None = Ok r0.
Proof.
  destruct (is_ok_ex (KindRegistry.load_from_toml_strs "builtin" (Some "user"))) as [r E];
    [vm_compute; reflexivity|].
  destruct (registry_user_additive "builtin" "user" r E) as (r0 & Hr0 & _). eauto.
Defined.
