(* ===== verification/Engine.v ===== *)
(** * The incident engine: [incidents/engine.rs]

    [handle] takes the engine, a command, the wall clock and the number of
    UUIDs drawn so far, and returns the result, the engine after the call and
    the new number of draws; [None] is a panic. The specification of the
    engine is [Lifecycle]: a map from fingerprints to the severity of their
    open incident, with one abstract step per accepted draft. *)

From S2P Require Import Prelude RustStr Names SharedTypes F64 CollectorTypes Observations Samples Incidents Kinds.

#[local] Arguments Nat.ltb : simpl never.

Module IncidentCommand.
Inductive t : Type :=
  | RecordSignal (draft : IncidentSignalDraft.t)
  | Acknowledge (id : IncidentId.t) (by_ : ActorId.t) (at_ : DateTime)
  | Resolve (id : IncidentId.t) (by_ : ActorId.t) (at_ : DateTime) (reason : string).
End IncidentCommand.

Module EngineError.
Inductive t : Type :=
  | Draft (e : DraftError.t)
  | NotYetImplemented (what : string).
End EngineError.

Definition severity_from_signal (s : SignalSeverity.t) : IncidentSeverity.t :=
  match s with
  | SignalSeverity.Info => IncidentSeverity.Info
  | SignalSeverity.Warning => IncidentSeverity.Warning
  | SignalSeverity.Critical => IncidentSeverity.Critical
  end.

Definition severity_rank (s : IncidentSeverity.t) : nat :=
  match s with
  | IncidentSeverity.Info => 0
  | IncidentSeverity.Warning => 1
  | IncidentSeverity.Critical => 2
  end.

Definition max_severity (a b : IncidentSeverity.t) : IncidentSeverity.t :=
  if severity_rank b <=? severity_rank a then a else b.

Definition confidence_rank (c : Confidence.t) : nat :=
  match c with
  | Confidence.Low => 0
  | Confidence.Medium => 1
  | Confidence.High => 2
  end.

Abbreviation incident_map := (gmap IncidentFingerprint.t Incident.t).

Module IncidentEngine.
Record t : Type := mk {
  kinds : KindRegistry.t;
  sidecar_id : SidecarId.t;
  signal_source : ObservationSource.t;
  open_incidents : incident_map;
}.

(** The loop of [new]: a fingerprint seen twice panics. *)
Fixpoint insert_open (map : incident_map) (l : list Incident.t) : option incident_map :=
  match l with
  | [] => Some map
  | incident :: l' =>
      let fp := Incident.fingerprint incident in
      match map !! fp with
      | Some _ => None
      | None => insert_open (<[fp := incident]> map) l'
      end
  end.

Definition new (kinds : KindRegistry.t) (sidecar_id : SidecarId.t)
    (signal_source : ObservationSource.t) (open_incidents : list Incident.t) : option t :=
  map ← insert_open ∅ open_incidents;
  Some (mk kinds sidecar_id signal_source map).

Definition with_open (e : t) (m : incident_map) : t :=
  mk (kinds e) (sidecar_id e) (signal_source e) m.

Section handle.
Context `{UuidLib}.

Definition build_signal_observation (e : t) (draft : IncidentSignalDraft.t)
    (now : DateTime) (n : nat) : Observation.t :=
  let ctx := {|
    ObservationContext.source := signal_source e;
    ObservationContext.subject := IncidentSignalDraft.subject draft;
    ObservationContext.observed_at := now;
    ObservationContext.origin := ObservationOrigin.Computed;
  |} in
  let signal := {|
    IncidentSignalObservation.signal := IncidentSignalDraft.signal draft;
    IncidentSignalObservation.incident_kind := IncidentSignalDraft.kind draft;
    IncidentSignalObservation.severity := IncidentSignalDraft.severity draft;
    IncidentSignalObservation.status := IncidentSignalDraft.status draft;
    IncidentSignalObservation.confidence := IncidentSignalDraft.confidence draft;
    IncidentSignalObservation.evidence := IncidentSignalDraft.evidence draft;
  |} in
  Observation.incident_signal ctx signal (Attributes.mk ∅) n.

(** The assignments to [existing] when the signal is active. *)
Definition touch (existing : Incident.t) (new_severity : IncidentSeverity.t)
    (now : DateTime) (observation_id : ObservationId.t)
    (evidence : list EvidenceRef.t) : Incident.t := {|
  Incident.id := Incident.id existing;
  Incident.fingerprint := Incident.fingerprint existing;
  Incident.kind := Incident.kind existing;
  Incident.subject := Incident.subject existing;
  Incident.severity := new_severity;
  Incident.status := Incident.status existing;
  Incident.opened_at := Incident.opened_at existing;
  Incident.updated_at := now;
  Incident.resolved_at := Incident.resolved_at existing;
  Incident.signal_observation_ids :=
    Incident.signal_observation_ids existing ++ [observation_id];
  Incident.evidence := Incident.evidence existing ++ evidence;
  Incident.summary := Incident.summary existing;
  Incident.evidence_summary := Incident.evidence_summary existing;
|}.

(** The assignments to [existing] when the signal is cleared. *)
Definition resolve (existing : Incident.t) (now : DateTime)
    (observation_id : ObservationId.t) : Incident.t := {|
  Incident.id := Incident.id existing;
  Incident.fingerprint := Incident.fingerprint existing;
  Incident.kind := Incident.kind existing;
  Incident.subject := Incident.subject existing;
  Incident.severity := Incident.severity existing;
  Incident.status := IncidentStatus.Resolved;
  Incident.opened_at := Incident.opened_at existing;
  Incident.updated_at := now;
  Incident.resolved_at := Some now;
  Incident.signal_observation_ids :=
    Incident.signal_observation_ids existing ++ [observation_id];
  Incident.evidence := Incident.evidence existing;
  Incident.summary := Incident.summary existing;
  Incident.evidence_summary := Incident.evidence_summary existing;
|}.

Definition new_incident (draft : IncidentSignalDraft.t)
    (fingerprint : IncidentFingerprint.t) (severity : IncidentSeverity.t)
    (now : DateTime) (observation_id : ObservationId.t) (n : nat) : Incident.t := {|
  Incident.id := IncidentId.new n;
  Incident.fingerprint := fingerprint;
  Incident.kind := IncidentSignalDraft.kind draft;
  Incident.subject := IncidentSignalDraft.subject draft;
  Incident.severity := severity;
  Incident.status := IncidentStatus.Open;
  Incident.opened_at := now;
  Incident.updated_at := now;
  Incident.resolved_at := None;
  Incident.signal_observation_ids := [observation_id];
  Incident.evidence := IncidentSignalDraft.evidence draft;
  Incident.summary := SignalName.as_str (IncidentSignalDraft.signal draft);
  Incident.evidence_summary := [];
|}.

Definition handle_record_signal (e : t) (draft : IncidentSignalDraft.t) (now : DateTime)
    (n : nat) : option (Result (list IncidentEvent.t) EngineError.t * t * nat) :=
  match map_err EngineError.Draft (KindRegistry.validate_draft (kinds e) draft) with
  | Err err => Some (Err err, e, n)
  | Ok _ =>
      spec ← KindRegistry.lookup (kinds e) (IncidentSignalDraft.kind draft);
      let floor := IncidentKindSpec.min_open_confidence spec in
      let fingerprint := compute_fingerprint draft in
      let observation := build_signal_observation e draft now n in
      let observation_id := Observation.id observation in
      let events := [IncidentEvent.SignalRecorded observation] in
      match IncidentSignalDraft.status draft with
      | SignalStatus.Active =>
          if confidence_rank (IncidentSignalDraft.confidence draft)
               <? confidence_rank floor then
            Some (Ok (events ++ [IncidentEvent.DraftBelowConfidenceFloor
                    (IncidentSignalDraft.kind draft)
                    (IncidentSignalDraft.confidence draft) floor]), e, S n)
          else
            let draft_severity :=
              severity_from_signal (IncidentSignalDraft.severity draft) in
            match open_incidents e !! fingerprint with
            | Some existing =>
                let prev_severity := Incident.severity existing in
                let new_severity := max_severity prev_severity draft_severity in
                let touched := touch existing new_severity now observation_id
                                 (IncidentSignalDraft.evidence draft) in
                let e' := with_open e (<[fingerprint := touched]> (open_incidents e)) in
                let events := events ++ [IncidentEvent.IncidentTouched touched] in
                if severity_rank prev_severity <? severity_rank new_severity then
                  Some (Ok (events ++ [IncidentEvent.Lifecycle
                          (IncidentLifecycleEvent.Escalated touched prev_severity
                             new_severity)]), e', S n)
                else Some (Ok events, e', S n)
            | None =>
                let incident := new_incident draft fingerprint draft_severity now
                                  observation_id (S n) in
                Some (Ok (events ++ [IncidentEvent.IncidentTouched incident;
                          IncidentEvent.Lifecycle (IncidentLifecycleEvent.Opened incident)]),
                      with_open e (<[fingerprint := incident]> (open_incidents e)),
                      S (S n))
            end
      | SignalStatus.Cleared =>
          match open_incidents e !! fingerprint with
          | Some existing =>
              let existing := resolve existing now observation_id in
              Some (Ok (events ++ [IncidentEvent.IncidentTouched existing;
                        IncidentEvent.Lifecycle (IncidentLifecycleEvent.Resolved existing)]),
                    with_open e (delete fingerprint (open_incidents e)), S n)
          | None => Some (Ok events, e, S n)
          end
      end
  end.

Definition handle (e : t) (cmd : IncidentCommand.t) (now : DateTime) (n : nat) :
    option (Result (list IncidentEvent.t) EngineError.t * t * nat) :=
  match cmd with
  | IncidentCommand.RecordSignal draft => handle_record_signal e draft now n
  | IncidentCommand.Acknowledge _ _ _ =>
      Some (Err (EngineError.NotYetImplemented "Acknowledge"), e, n)
  | IncidentCommand.Resolve _ _ _ _ =>
      Some (Err (EngineError.NotYetImplemented "Resolve"), e, n)
  end.
End handle.
End IncidentEngine.

(** ** The specification: the lifecycle of a fingerprint *)

Module Lifecycle.
(** What an accepted command asks for. *)
Inductive signal : Type := Raise (s : IncidentSeverity.t) | Clear.

Inductive event : Type :=
  | Opened (s : IncidentSeverity.t)
  | Escalated (previous new : IncidentSeverity.t)
  | Resolved (s : IncidentSeverity.t).

(** The severity of the open incident, if there is one. *)
Definition step (cur : option IncidentSeverity.t) (s : signal) :
    option IncidentSeverity.t * list event :=
  match cur, s with
  | None, Raise sev => (Some sev, [Opened sev])
  | Some prev, Raise sev =>
      let new := max_severity prev sev in
      (Some new, if severity_rank prev <? severity_rank new then [Escalated prev new] else [])
  | Some prev, Clear => (None, [Resolved prev])
  | None, Clear => (None, [])
  end.

(** Whether a sequence of events can follow [cur], and where it leads: an
    incident is opened when none is, escalates to strictly higher
    severities from the one it has, and is resolved at the one it has. *)
Fixpoint word (cur : option IncidentSeverity.t) (l : list event) :
    option (option IncidentSeverity.t) :=
  match l with
  | [] => Some cur
  | Opened s :: l' => match cur with None => word (Some s) l' | Some _ => None end
  | Escalated p s :: l' =>
      if bool_decide (cur = Some p) && (severity_rank p <? severity_rank s)
      then word (Some s) l' else None
  | Resolved s :: l' => if bool_decide (cur = Some s) then word None l' else None
  end.

(** A command's effect under a registry: the fingerprint it concerns and the
    signal, or nothing when it is refused or held below the floor. *)
Definition effect (r : KindRegistry.t) (cmd : IncidentCommand.t) :
    option (IncidentFingerprint.t * signal) :=
  match cmd with
  | IncidentCommand.RecordSignal d =>
      if is_ok (KindRegistry.validate_draft r d) then
        spec ← KindRegistry.lookup r (IncidentSignalDraft.kind d);
        match IncidentSignalDraft.status d with
        | SignalStatus.Active =>
            if confidence_rank (IncidentSignalDraft.confidence d)
                 <? confidence_rank (IncidentKindSpec.min_open_confidence spec) then None
            else Some (compute_fingerprint d,
                       Raise (severity_from_signal (IncidentSignalDraft.severity d)))
        | SignalStatus.Cleared => Some (compute_fingerprint d, Clear)
        end
      else None
  | _ => None
  end.

(** The abstract event of a concrete one. *)
Definition view (e : IncidentLifecycleEvent.t) : event :=
  match e with
  | IncidentLifecycleEvent.Opened i => Opened (Incident.severity i)
  | IncidentLifecycleEvent.Escalated _ p s => Escalated p s
  | IncidentLifecycleEvent.Resolved i => Resolved (Incident.severity i)
  end.
End Lifecycle.

(** The lifecycle events of a handled command, and those of one fingerprint. *)
Definition lifecycle_of (e : IncidentEvent.t) : option IncidentLifecycleEvent.t :=
  match e with
  | IncidentEvent.Lifecycle l => Some l
  | _ => None
  end.

Definition events_of (r : Result (list IncidentEvent.t) EngineError.t) : list IncidentEvent.t :=
  match r with
  | Ok evs => evs
  | Err _ => []
  end.

Definition lifecycle_for (fp : IncidentFingerprint.t) (evs : list IncidentEvent.t) :
    list Lifecycle.event :=
  Lifecycle.view <$>
    filter (λ l, Incident.fingerprint (IncidentLifecycleEvent.incident l) = fp)
      (omap lifecycle_of evs).

(** The severity the engine holds for a fingerprint. *)
Definition open_severity (e : IncidentEngine.t) (fp : IncidentFingerprint.t) :
    option IncidentSeverity.t :=
  Incident.severity <$> IncidentEngine.open_incidents e !! fp.

(** ** Runs *)

(** The commands of a run with the clock at each of them; refused commands
    contribute no events. *)
Fixpoint run `{UuidLib} (e : IncidentEngine.t) (cmds : list (IncidentCommand.t * DateTime))
    (n : nat) : option (list IncidentEvent.t * IncidentEngine.t * nat) :=
  match cmds with
  | [] => Some ([], e, n)
  | (cmd, now) :: cmds' =>
      '(r, e', n') ← IncidentEngine.handle e cmd now n;
      '(evs, e'', n'') ← run e' cmds' n';
      Some (events_of r ++ evs, e'', n'')
  end.

(** ** The engine's invariant *)

(** An incident the engine may hold under a fingerprint. *)
Record live (fp : IncidentFingerprint.t) (i : Incident.t) : Prop := {
  live_fingerprint : Incident.fingerprint i = fp;
  live_kind : Incident.kind i = IncidentFingerprint.kind fp;
  live_subject : Incident.subject i = IncidentFingerprint.subject fp;
  live_status : Incident.status i ≠ IncidentStatus.Resolved;
  live_resolved_at : Incident.resolved_at i = None;
  live_signals : Incident.signal_observation_ids i ≠ [];
}.

Definition engine_ok (e : IncidentEngine.t) : Prop :=
  map_Forall live (IncidentEngine.open_incidents e).

(** ** One command, by cases *)

Section cases.
Context `{UuidLib}.
Variables (e : IncidentEngine.t) (d : IncidentSignalDraft.t) (now : DateTime) (n : nat).

Let fp := compute_fingerprint d.
Let obs := IncidentEngine.build_signal_observation e d now n.
Let sev := severity_from_signal (IncidentSignalDraft.severity d).

(** The branches of [handle_record_signal], each with its events, the
    incident map after it and the number of draws it makes. *)
Inductive outcome :
    Result (list IncidentEvent.t) EngineError.t → incident_map → nat → Prop :=
  | outcome_refused err :
      KindRegistry.validate_draft (IncidentEngine.kinds e) d = Err err →
      outcome (Err (EngineError.Draft err)) (IncidentEngine.open_incidents e) n
  | outcome_below floor :
      Lifecycle.effect (IncidentEngine.kinds e) (IncidentCommand.RecordSignal d) = None →
      confidence_rank (IncidentSignalDraft.confidence d) < confidence_rank floor →
      outcome (Ok [IncidentEvent.SignalRecorded obs;
                   IncidentEvent.DraftBelowConfidenceFloor (IncidentSignalDraft.kind d)
                     (IncidentSignalDraft.confidence d) floor])
        (IncidentEngine.open_incidents e) (S n)
  | outcome_opened :
      Lifecycle.effect (IncidentEngine.kinds e) (IncidentCommand.RecordSignal d)
      = Some (fp, Lifecycle.Raise sev) →
      IncidentEngine.open_incidents e !! fp = None →
      let i := IncidentEngine.new_incident d fp sev now (Observation.id obs) (S n) in
      outcome (Ok [IncidentEvent.SignalRecorded obs; IncidentEvent.IncidentTouched i;
                   IncidentEvent.Lifecycle (IncidentLifecycleEvent.Opened i)])
        (<[fp := i]> (IncidentEngine.open_incidents e)) (S (S n))
  | outcome_touched i :
      Lifecycle.effect (IncidentEngine.kinds e) (IncidentCommand.RecordSignal d)
      = Some (fp, Lifecycle.Raise sev) →
      IncidentEngine.open_incidents e !! fp = Some i →
      let new := max_severity (Incident.severity i) sev in
      let i' := IncidentEngine.touch i new now (Observation.id obs)
                  (IncidentSignalDraft.evidence d) in
      outcome
        (Ok ([IncidentEvent.SignalRecorded obs; IncidentEvent.IncidentTouched i'] ++
             (if severity_rank (Incident.severity i) <? severity_rank new
              then [IncidentEvent.Lifecycle
                      (IncidentLifecycleEvent.Escalated i' (Incident.severity i) new)]
              else [])))
        (<[fp := i']> (IncidentEngine.open_incidents e)) (S n)
  | outcome_resolved i :
      Lifecycle.effect (IncidentEngine.kinds e) (IncidentCommand.RecordSignal d)
      = Some (fp, Lifecycle.Clear) →
      IncidentEngine.open_incidents e !! fp = Some i →
      let i' := IncidentEngine.resolve i now (Observation.id obs) in
      outcome (Ok [IncidentEvent.SignalRecorded obs; IncidentEvent.IncidentTouched i';
                   IncidentEvent.Lifecycle (IncidentLifecycleEvent.Resolved i')])
        (delete fp (IncidentEngine.open_incidents e)) (S n)
  | outcome_nothing_open :
      Lifecycle.effect (IncidentEngine.kinds e) (IncidentCommand.RecordSignal d)
      = Some (fp, Lifecycle.Clear) →
      IncidentEngine.open_incidents e !! fp = None →
      outcome (Ok [IncidentEvent.SignalRecorded obs]) (IncidentEngine.open_incidents e) (S n).

Lemma handle_record_signal_outcome :
  ∃ r m n', IncidentEngine.handle_record_signal e d now n
            = Some (r, IncidentEngine.with_open e m, n') ∧ outcome r m n'.
Proof.
  unfold IncidentEngine.handle_record_signal.
  assert (IncidentEngine.with_open e (IncidentEngine.open_incidents e) = e) as He
    by by destruct e.
  pose proof (outcome_below) as Ob. pose proof outcome_opened as Oo.
  pose proof outcome_touched as Ot. pose proof outcome_resolved as Or.
  pose proof outcome_nothing_open as On. unfold Lifecycle.effect in *.
  destruct (KindRegistry.validate_draft _ d) as [u|err] eqn:Hv; cbn.
  2:{ do 3 eexists. rewrite He. split; [done|]. by apply outcome_refused. }
  apply validate_draft_ok_lookup in Hv as [spec Hs]. cbn in *. rewrite Hs in *; cbn in *.
  destruct (IncidentSignalDraft.status d); cbn in *.
  - destruct (Nat.ltb_spec (confidence_rank (IncidentSignalDraft.confidence d))
      (confidence_rank (IncidentKindSpec.min_open_confidence spec))) as [Hlt|Hge].
    { do 3 eexists. rewrite He. split; [done|]. by apply Ob. }
    destruct (IncidentEngine.open_incidents e !! _) as [i|] eqn:Hi.
    + specialize (Ot i eq_refl eq_refl). fold sev.
      destruct (severity_rank (Incident.severity i)
                <? severity_rank (max_severity (Incident.severity i) sev));
        do 3 eexists; (split; [done|]); exact Ot.
    + do 3 eexists. split; [done|]. by apply Oo.
  - destruct (IncidentEngine.open_incidents e !! _) as [i|] eqn:Hi.
    + do 3 eexists. split; [done|]. by apply Or.
    + do 3 eexists. rewrite He. split; [done|]. by apply On.
Qed.
End cases.

(** ** Consequences of the case analysis *)

Section step_lemmas.
Context `{UuidLib}.
Implicit Types (e : IncidentEngine.t) (cmd : IncidentCommand.t) (fp : IncidentFingerprint.t).

(** [handle] never panics, and only the incident map changes. *)
Lemma handle_outcome e cmd now n :
  ∃ r m n', IncidentEngine.handle e cmd now n = Some (r, IncidentEngine.with_open e m, n') ∧
    match cmd with
    | IncidentCommand.RecordSignal d => outcome e d now n r m n'
    | _ => (∃ what, r = Err (EngineError.NotYetImplemented what)) ∧
           m = IncidentEngine.open_incidents e ∧ n' = n
    end.
Proof.
  destruct cmd as [d| |]; [apply handle_record_signal_outcome|..];
    (eexists _, (IncidentEngine.open_incidents e), n; split; [by destruct e|]; split_and!; eauto).
Qed.

(** Inverting a known call. *)
Lemma handle_inv e cmd now n r e' n' :
  IncidentEngine.handle e cmd now n = Some (r, e', n') →
  ∃ m, e' = IncidentEngine.with_open e m ∧
    match cmd with
    | IncidentCommand.RecordSignal d => outcome e d now n r m n'
    | _ => (∃ what, r = Err (EngineError.NotYetImplemented what)) ∧
           m = IncidentEngine.open_incidents e ∧ n' = n
    end.
Proof.
  intros Hh. destruct (handle_outcome e cmd now n) as (r1 & m & n1 & E & Ho).
  rewrite Hh in E. injection E as -> -> ->. eauto.
Qed.

Lemma live_new d now oid n :
  live (compute_fingerprint d)
    (IncidentEngine.new_incident d (compute_fingerprint d)
       (severity_from_signal (IncidentSignalDraft.severity d)) now oid n).
Proof. by split. Qed.

Lemma live_touch fp i s now oid ev :
  live fp i → live fp (IncidentEngine.touch i s now oid ev).
Proof. intros []. split; cbn; try done. by destruct (Incident.signal_observation_ids i). Qed.

Lemma handle_ok e cmd now n r e' n' :
  engine_ok e → IncidentEngine.handle e cmd now n = Some (r, e', n') → engine_ok e'.
Proof.
  unfold engine_ok. intros Hok (m & -> & Ho)%handle_inv; cbn.
  destruct cmd as [d| |]; [|by destruct Ho as (_ & -> & _)..].
  destruct Ho; try done.
  - apply map_Forall_insert_2; [apply live_new|done].
  - apply map_Forall_insert_2; [|done]. by apply live_touch, Hok.
  - by apply map_Forall_delete.
Qed.

(** The concrete step of one fingerprint against the abstract one. *)
Lemma handle_lifecycle e cmd now n r e' n' fp :
  engine_ok e → IncidentEngine.handle e cmd now n = Some (r, e', n') →
  (open_severity e' fp, lifecycle_for fp (events_of r))
  = match Lifecycle.effect (IncidentEngine.kinds e) cmd with
    | Some (fp', s) =>
        if decide (fp' = fp) then Lifecycle.step (open_severity e fp) s
        else (open_severity e fp, [])
    | None => (open_severity e fp, [])
    end.
Proof.
  intros Hok (m & -> & Ho)%handle_inv. unfold open_severity; cbn [IncidentEngine.open_incidents IncidentEngine.with_open].
  destruct cmd as [d| |]; [|by destruct Ho as ((? & ->) & -> & _)..].
  destruct Ho as [err Hv|floor He _|He Hi i0|i He Hi new i'|i He Hi i'|He Hi]; rewrite ?He.
  - cbn. by rewrite Hv.
  - done.
  - cbn. unfold lifecycle_for, filter; cbn. case_decide as Hfp; [subst fp|].
    + by rewrite lookup_insert_eq, Hi, ?decide_True.
    + by rewrite lookup_insert_ne, ?decide_False.
  - pose proof (Hok _ _ Hi) as [Hfpi _ _ _ _ _]. unfold lifecycle_for, filter.
    case_decide as Hfp; [subst fp|].
    + rewrite lookup_insert_eq, Hi; cbn. subst new.
      destruct (_ <? _); cbn; [|done]. by rewrite ?decide_True.
    + rewrite lookup_insert_ne by done.
      destruct (_ <? _); cbn; [|done]. by rewrite ?decide_False by (subst i'; cbn; congruence).
  - pose proof (Hok _ _ Hi) as [Hfpi _ _ _ _ _]. unfold lifecycle_for, filter.
    case_decide as Hfp; [subst fp|].
    + rewrite lookup_delete_eq, Hi; cbn. by rewrite decide_True.
    + rewrite lookup_delete_ne by done; cbn. by rewrite decide_False by congruence.
  - cbn. case_decide as Hfp; [subst fp|done]. by rewrite Hi.
Qed.

Lemma lifecycle_for_app fp l1 l2 :
  lifecycle_for fp (l1 ++ l2) = lifecycle_for fp l1 ++ lifecycle_for fp l2.
Proof. unfold lifecycle_for. by rewrite omap_app, filter_app, fmap_app. Qed.

Lemma handle_kinds e cmd now n r e' n' :
  IncidentEngine.handle e cmd now n = Some (r, e', n') →
  IncidentEngine.kinds e' = IncidentEngine.kinds e.
Proof. by intros (m & -> & _)%handle_inv. Qed.

(** Induction over a run, a command at a time. *)
Lemma run_cons e cmd now cmds n evs e'' n'' :
  run e ((cmd, now) :: cmds) n = Some (evs, e'', n'') ↔
  ∃ r e' n' evs', IncidentEngine.handle e cmd now n = Some (r, e', n') ∧
    run e' cmds n' = Some (evs', e'', n'') ∧ evs = events_of r ++ evs'.
Proof.
  cbn. split.
  - destruct (IncidentEngine.handle e cmd now n) as [[[r e'] n']|]; cbn; [|done].
    destruct (run e' cmds n') as [[[evs' e1] n1]|] eqn:E; cbn; [|done].
    intros [= <- <- <-]. exists r, e', n', evs'. by rewrite E.
  - intros (r & e' & n' & evs' & -> & Hr & ->); cbn. by rewrite Hr.
Qed.

Lemma run_total e cmds n : is_Some (run e cmds n).
Proof.
  revert e n. induction cmds as [|[cmd now] cmds IH]; intros e n; [by eexists|].
  destruct (handle_outcome e cmd now n) as (r & m & n' & Hh & _).
  destruct (IH (IncidentEngine.with_open e m) n') as [[[evs e''] n''] Hr].
  eexists. apply run_cons. eauto 10.
Qed.
End step_lemmas.

Lemma max_severity_rank a b :
  severity_rank (max_severity a b) = severity_rank a `max` severity_rank b.
Proof. by destruct a, b. Qed.

Lemma word_app cur l1 l2 :
  Lifecycle.word cur (l1 ++ l2) = Lifecycle.word cur l1 ≫= λ c, Lifecycle.word c l2.
Proof.
  revert cur. induction l1 as [|[s|p s|s] l1 IH]; intros cur; cbn; [done|..].
  - by destruct cur.
  - by destruct (bool_decide _ && _).
  - by destruct (bool_decide _).
Qed.

(** Every abstract step emits a legal word. *)
Lemma step_word cur s :
  Lifecycle.word cur (Lifecycle.step cur s).2 = Some (Lifecycle.step cur s).1.
Proof. destruct cur as [p|], s as [sev|]; try done; [by destruct p, sev|by destruct p]. Qed.

(** One command emits a legal word for every fingerprint. *)
Lemma handle_word `{UuidLib} e cmd now n r e' n' fp :
  engine_ok e → IncidentEngine.handle e cmd now n = Some (r, e', n') →
  Lifecycle.word (open_severity e fp) (lifecycle_for fp (events_of r)) = Some (open_severity e' fp).
Proof.
  intros Hok Hh. pose proof (handle_lifecycle _ _ _ _ _ _ _ fp Hok Hh) as Hstep.
  destruct (Lifecycle.effect _ cmd) as [[fp' s]|]; [case_decide|];
    [|by injection Hstep as -> ->..].
  pose proof (step_word (open_severity e fp) s) as Hs. rewrite <-Hstep in Hs. exact Hs.
Qed.

Lemma run_word `{UuidLib} e cmds n evs e' n' fp :
  engine_ok e → run e cmds n = Some (evs, e', n') →
  engine_ok e' ∧
  Lifecycle.word (open_severity e fp) (lifecycle_for fp evs) = Some (open_severity e' fp).
Proof.
  revert e n evs. induction cmds as [|[cmd now] cmds IH]; intros e n evs Hok.
  { by intros [= <- <- <-]. }
  intros (r & e1 & n1 & evs' & Hh & Hr & ->)%run_cons.
  destruct (IH _ _ _ (handle_ok _ _ _ _ _ _ _ Hok Hh) Hr) as [Hok' Hw]. split; [done|].
  by rewrite lifecycle_for_app, word_app, (handle_word _ _ _ _ _ _ _ fp Hok Hh).
Qed.

(** Opened incidents take fresh identifiers, in increasing order of draws. *)
Definition opened_id (e : IncidentEvent.t) : option IncidentId.t :=
  match e with
  | IncidentEvent.Lifecycle (IncidentLifecycleEvent.Opened i) => Some (Incident.id i)
  | _ => None
  end.

Lemma handle_opened_ids `{UuidLib} e cmd now n r e' n' :
  IncidentEngine.handle e cmd now n = Some (r, e', n') →
  n ≤ n' ∧ (omap opened_id (events_of r) = [] ∨
            ∃ k, n ≤ k < n' ∧ omap opened_id (events_of r) = [IncidentId.new k]).
Proof.
  intros (m & -> & Ho)%handle_inv.
  destruct cmd as [d| |]; [|by destruct Ho as ((? & ->) & _ & ->); auto..].
  destruct Ho as [| | |i He Hi new i'| |]; cbn; try (split; [lia|by left]).
  - split; [lia|]. right. exists (S n). split; [lia|done].
  - destruct (_ <? _); (split; [lia|by left]).
Qed.

Lemma run_opened_ids `{UuidLaws} e cmds n evs e' n' :
  run e cmds n = Some (evs, e', n') →
  n ≤ n' ∧ ∃ ks, omap opened_id evs = IncidentId.new <$> ks ∧
                 Forall (λ k, n ≤ k < n') ks ∧ NoDup ks.
Proof.
  revert e n evs. induction cmds as [|[cmd now] cmds IH]; intros e n evs.
  { intros [= <- <- <-]. split; [done|]. exists []. split_and!; [done|constructor..]. }
  intros (r & e1 & n1 & evs' & Hh & Hr & ->)%run_cons.
  destruct (IH _ _ _ Hr) as (Hle & ks & Hks & Hb & Hnd).
  apply handle_opened_ids in Hh as [Hle1 Hids].
  split; [lia|]. rewrite omap_app, Hks.
  assert (Forall (λ k, n ≤ k < n') ks) as Hb'.
  { eapply Forall_impl; [exact Hb|]. intros k ?; cbn in *. lia. }
  destruct Hids as [->|(k & Hk & ->)]; [by exists ks|].
  exists (k :: ks). split_and!; [done|constructor; [lia|done]|constructor; [|done]].
  intros Hin. rewrite Forall_forall in Hb. apply Hb in Hin. lia.
Qed.

(** ** Properties *)

(** C1: The engine refines the lifecycle specification: [handle] never panics,
    keeps its invariant (every open incident sits under its own fingerprint,
    is not resolved and has a signal behind it), and for every fingerprint the
    severity it holds and the lifecycle events it emits are those of one
    abstract step when the command is accepted for that fingerprint, and
    unchanged and none otherwise. *)
Theorem engine_refines_lifecycle `{UuidLib} e cmd now n :
  engine_ok e →
  ∃ r e' n', IncidentEngine.handle e cmd now n = Some (r, e', n') ∧ engine_ok e' ∧
    ∀ fp, (open_severity e' fp, lifecycle_for fp (events_of r))
          = match Lifecycle.effect (IncidentEngine.kinds e) cmd with
            | Some (fp', s) =>
                if decide (fp' = fp) then Lifecycle.step (open_severity e fp) s
                else (open_severity e fp, [])
            | None => (open_severity e fp, [])
            end.
Proof.
  intros Hok. destruct (handle_outcome e cmd now n) as (r & m & n' & Hh & _).
  exists r, (IncidentEngine.with_open e m), n'. split; [done|]. split.
  - by eapply handle_ok.
  - intros fp. by eapply handle_lifecycle.
Qed.

(** C2: Over any sequence of commands, whatever fingerprints they interleave
    and whichever of them are refused, the lifecycle events of each
    fingerprint form a legal word: opened only when nothing is open, escalated
    only to strictly higher severities starting from the current one, resolved
    only when open; and they account for the engine's final state. *)
Theorem engine_lifecycle_words `{UuidLib} e cmds n fp :
  engine_ok e →
  ∃ evs e' n', run e cmds n = Some (evs, e', n') ∧ engine_ok e' ∧
    Lifecycle.word (open_severity e fp) (lifecycle_for fp evs) = Some (open_severity e' fp).
Proof.
  intros Hok. destruct (run_total e cmds n) as [[[evs e'] n'] Hr].
  exists evs, e', n'. split; [done|]. by eapply run_word.
Qed.

(** A command the engine refuses, be it a draft the registry rejects or a
    command not implemented yet, changes nothing: the engine is the same, no
    identifier is drawn, and the error names the cause. *)
Theorem engine_error_unchanged `{UuidLib} e cmd now n r e' n' :
  IncidentEngine.handle e cmd now n = Some (r, e', n') →
  ∀ err, r = Err err →
    e' = e ∧ n' = n ∧
    match err with
    | EngineError.Draft de => ∃ d, cmd = IncidentCommand.RecordSignal d ∧
        KindRegistry.validate_draft (IncidentEngine.kinds e) d = Err de
    | EngineError.NotYetImplemented _ => ∀ d, cmd ≠ IncidentCommand.RecordSignal d
    end.
Proof.
  intros (m & -> & Ho)%handle_inv err ->.
  destruct cmd as [d| |].
  - inv Ho. split_and!; [by destruct e|done|]. eauto.
  - destruct Ho as ((? & [= ->]) & -> & ->). split_and!; [by destruct e|done|done].
  - destruct Ho as ((? & [= ->]) & -> & ->). split_and!; [by destruct e|done|done].
Qed.

(** The events of an accepted draft come in side-effect order: the recorded
    signal first, which carries the draft under the engine's own source and
    the current time; then at most a below-floor notice, or a touched incident
    followed by at most one lifecycle event about that very incident. *)
Theorem engine_event_order `{UuidLib} e d now n evs e' n' :
  IncidentEngine.handle e (IncidentCommand.RecordSignal d) now n = Some (Ok evs, e', n') →
  ∃ o rest, evs = IncidentEvent.SignalRecorded o :: rest ∧
    Observation.source o = IncidentEngine.signal_source e ∧
    Observation.subject o = IncidentSignalDraft.subject d ∧
    Observation.observed_at o = now ∧
    Observation.origin o = ObservationOrigin.Computed ∧
    (rest = [] ∨
     (∃ floor, rest = [IncidentEvent.DraftBelowConfidenceFloor (IncidentSignalDraft.kind d)
                         (IncidentSignalDraft.confidence d) floor] ∧ e' = e) ∨
     (∃ i tail, rest = IncidentEvent.IncidentTouched i :: tail ∧
        last (Incident.signal_observation_ids i) = Some (Observation.id o) ∧
        Incident.updated_at i = now ∧
        (tail = [] ∨ ∃ l, tail = [IncidentEvent.Lifecycle l] ∧
                          IncidentLifecycleEvent.incident l = i))).
Proof.
  intros (m & -> & Ho)%handle_inv. inv Ho; cbn; do 2 eexists; split_and!; try done.
  - right; left. eexists. split; [done|]. by destruct e.
  - right; right. do 2 eexists. split_and!; [done..|]. eauto.
  - right; right. do 2 eexists. split_and!; [done|apply last_snoc|done|].
    destruct (_ <? _); eauto.
  - right; right. do 2 eexists. split_and!; [done|apply last_snoc|done|]. eauto.
  - by left.
Qed.

(** Incident history only grows: while an incident stays open across a
    command it keeps its identity, kind, subject, opening time and summary, its
    severity never drops, and its signals and evidence are extended at the end
    and never rewritten. *)
Theorem engine_history_append_only `{UuidLib} e cmd now n r e' n' fp i i' :
  IncidentEngine.handle e cmd now n = Some (r, e', n') →
  IncidentEngine.open_incidents e !! fp = Some i →
  IncidentEngine.open_incidents e' !! fp = Some i' →
  Incident.id i' = Incident.id i ∧ Incident.kind i' = Incident.kind i ∧
  Incident.subject i' = Incident.subject i ∧ Incident.opened_at i' = Incident.opened_at i ∧
  Incident.summary i' = Incident.summary i ∧
  severity_rank (Incident.severity i) ≤ severity_rank (Incident.severity i') ∧
  (∃ l, Incident.signal_observation_ids i' = Incident.signal_observation_ids i ++ l) ∧
  (∃ l, Incident.evidence i' = Incident.evidence i ++ l).
Proof.
  intros (m & -> & Ho)%handle_inv Hi Hi'; cbn [IncidentEngine.with_open IncidentEngine.open_incidents] in Hi'.
  assert (i' = i ∨ ∃ s oid ev, i' = IncidentEngine.touch i s now oid ev ∧
            severity_rank (Incident.severity i) ≤ severity_rank s) as Hcases.
  { destruct cmd as [d| |];
      [|destruct Ho as (_ & -> & _); left; congruence..].
    destruct Ho as [err Hv|floor He _|He Hn i0|i1 He Hn new i1'|i1 He Hn i1'|He Hn];
      try (left; congruence).
    - destruct (decide (compute_fingerprint d = fp)) as [<-|Hne]; [congruence|].
      left. rewrite lookup_insert_ne in Hi'; congruence.
    - destruct (decide (compute_fingerprint d = fp)) as [<-|Hne].
      + right. rewrite lookup_insert_eq in Hi'. rewrite Hi in Hn. injection Hn as <-.
        injection Hi' as <-. do 3 eexists. split; [done|]. subst new.
        rewrite max_severity_rank. lia.
      + left. rewrite lookup_insert_ne in Hi'; congruence.
    - apply lookup_delete_Some in Hi' as [_ Hi']. left. congruence. }
  destruct Hcases as [->|(s & oid & ev & -> & Hs)]; cbn.
  - split_and!; try done; exists []; by rewrite app_nil_r.
  - split_and!; eauto.
Qed.

(** No two incidents ever share an identifier: in any run the opened
    incidents draw pairwise distinct ones. *)
Theorem engine_incident_ids_unique `{UuidLaws} e cmds n evs e' n' :
  run e cmds n = Some (evs, e', n') → NoDup (omap opened_id evs).
Proof.
  intros (_ & ks & -> & _ & Hnd)%run_opened_ids.
  apply (NoDup_fmap_2_strong _ _); [|done].
  intros x y _ _ [= Hxy%(inj now_v7)]. done.
Qed.

(** ** Start-up *)

Lemma insert_open_spec m l m' :
  IncidentEngine.insert_open m l = Some m' ↔
  NoDup (Incident.fingerprint <$> l) ∧ Forall (λ i, m !! Incident.fingerprint i = None) l ∧
  m' = list_to_map ((λ i, (Incident.fingerprint i, i)) <$> l) ∪ m.
Proof.
  revert m. induction l as [|i l IH]; intros m; cbn.
  { split; [intros [= <-]|intros (_ & _ & ->)];
      [split_and!; [constructor..|]|]; by rewrite map_empty_union. }
  destruct (m !! Incident.fingerprint i) as [j|] eqn:Hm.
  { split; [done|]. intros (_ & Hf & _). apply Forall_cons in Hf as [? _]. congruence. }
  rewrite IH, NoDup_cons, Forall_cons. split.
  - intros (Hnd & Hf & ->).
    assert (Incident.fingerprint i ∉ Incident.fingerprint <$> l) as Hnin.
    { intros (j & Heq & Hj)%list_elem_of_fmap. rewrite Forall_forall in Hf.
      specialize (Hf j Hj). by rewrite Heq, lookup_insert_eq in Hf. }
    split_and!; [done|done|done|..].
    + eapply Forall_impl; [exact Hf|]. by intros j [? _]%lookup_insert_None.
    + rewrite <-insert_union_l, insert_union_r; [done|].
      apply not_elem_of_list_to_map_1. by rewrite <-list_fmap_compose.
  - intros ([Hnin Hnd] & [_ Hf] & ->). split_and!; [done|..].
    + rewrite Forall_forall in *. intros j Hj. rewrite lookup_insert_ne; [auto|].
      intros Heq. apply Hnin. apply list_elem_of_fmap. by exists j.
    + rewrite <-insert_union_l, insert_union_r; [done|].
      apply not_elem_of_list_to_map_1. by rewrite <-list_fmap_compose.
Qed.

(** The incidents of a list by fingerprint. *)
Definition by_fingerprint (l : list Incident.t) : incident_map :=
  list_to_map ((λ i, (Incident.fingerprint i, i)) <$> l).

Lemma engine_new_Some k s o l e :
  IncidentEngine.new k s o l = Some e ↔
  NoDup (Incident.fingerprint <$> l) ∧ e = IncidentEngine.mk k s o (by_fingerprint l).
Proof.
  unfold IncidentEngine.new.
  destruct (IncidentEngine.insert_open ∅ l) as [m|] eqn:E; cbn.
  - apply insert_open_spec in E as (Hnd & _ & ->). rewrite map_union_empty.
    split; [by intros [= <-]|by intros [_ ->]].
  - split; [done|]. intros [Hnd _].
    rewrite (proj2 (insert_open_spec ∅ l (by_fingerprint l ∪ ∅))) in E; [done|].
    split_and!; [done| |done]. apply Forall_true. intros. apply lookup_empty.
Qed.

Lemma by_fingerprint_Some l fp i :
  NoDup (Incident.fingerprint <$> l) →
  by_fingerprint l !! fp = Some i ↔ i ∈ l ∧ Incident.fingerprint i = fp.
Proof.
  intros Hnd. unfold by_fingerprint. rewrite <-elem_of_list_to_map.
  - rewrite list_elem_of_fmap. split; [by intros (x & [= -> ->] & ?)|].
    intros [? <-]. by exists i.
  - by rewrite <-list_fmap_compose.
Qed.

Lemma engine_new_ok k s o l e :
  Forall (λ i, live (Incident.fingerprint i) i) l → IncidentEngine.new k s o l = Some e → engine_ok e.
Proof.
  intros Hl [Hnd ->]%engine_new_Some fp i; cbn. intros [Hin <-]%by_fingerprint_Some; [|done].
  rewrite Forall_forall in Hl. by apply Hl.
Qed.

(** The open incidents of a well-formed engine, keyed again. *)
Lemma engine_ok_keys e :
  engine_ok e →
  (λ i, (Incident.fingerprint i, i)) <$> (map_to_list (IncidentEngine.open_incidents e)).*2
  = map_to_list (IncidentEngine.open_incidents e).
Proof.
  intros Hok. rewrite <-list_fmap_compose. rewrite <-(list_fmap_id (map_to_list _)) at 2.
  apply list_fmap_ext. intros k [fp i] Hin%list_elem_of_lookup_2; cbn.
  apply elem_of_map_to_list in Hin. by rewrite (live_fingerprint _ _ (Hok _ _ Hin)).
Qed.

(** An engine is rebuilt from its own open incidents, in any order. *)
Lemma engine_new_open e l :
  engine_ok e → l ≡ₚ (map_to_list (IncidentEngine.open_incidents e)).*2 →
  IncidentEngine.new (IncidentEngine.kinds e) (IncidentEngine.sidecar_id e)
    (IncidentEngine.signal_source e) l = Some e.
Proof.
  intros Hok Hl. apply engine_new_Some.
  assert (Hnd : NoDup (Incident.fingerprint <$> l)).
  { rewrite Hl. replace (Incident.fingerprint <$> _) with
      (map_to_list (IncidentEngine.open_incidents e)).*1; [apply NoDup_fst_map_to_list|].
    rewrite <-(engine_ok_keys e Hok) at 1. by rewrite <-list_fmap_compose. }
  split; [done|]. destruct e as [k s o m]; cbn in *. f_equal.
  apply map_eq. intros fp. apply option_eq. intros i.
  rewrite by_fingerprint_Some, Hl by done. rewrite list_elem_of_fmap. split.
  - intros Hi. split; [|apply (Hok _ _ Hi)]. exists (fp, i). by rewrite elem_of_map_to_list.
  - intros [([fp' i'] & -> & Hin%elem_of_map_to_list) <-]; cbn.
    by rewrite (live_fingerprint _ _ (Hok _ _ Hin)).
Qed.

(** [new] panics exactly when two of the loaded incidents share a
    fingerprint, and otherwise holds exactly the loaded incidents; an engine
    rebuilt from its own open incidents, in any order they come back from
    storage, is the engine it was. *)
Theorem engine_rehydration kinds sid src :
  (∀ l, IncidentEngine.new kinds sid src l = None ↔ ¬ NoDup (Incident.fingerprint <$> l)) ∧
  (∀ l e, IncidentEngine.new kinds sid src l = Some e →
     ∀ fp i, IncidentEngine.open_incidents e !! fp = Some i ↔
             i ∈ l ∧ Incident.fingerprint i = fp) ∧
  (∀ e l, engine_ok e → l ≡ₚ (map_to_list (IncidentEngine.open_incidents e)).*2 →
     IncidentEngine.new (IncidentEngine.kinds e) (IncidentEngine.sidecar_id e)
       (IncidentEngine.signal_source e) l = Some e).
Proof.
  split_and!.
  - intros l. destruct (IncidentEngine.new kinds sid src l) as [e|] eqn:E.
    + apply engine_new_Some in E as [Hnd _]. split; [done|]. by intros [].
    + split; [|done]. intros _ Hnd.
      by rewrite (proj2 (engine_new_Some _ _ _ _ _) (conj Hnd eq_refl)) in E.
  - intros l e [Hnd ->]%engine_new_Some fp i; cbn. by apply by_fingerprint_Some.
  - apply engine_new_open.
Qed.

(** ** Sample runs *)

Definition sample_registry : KindRegistry.t :=
  let kind := IncidentKind.mk well_known_incident.BITCOIN_NO_PEERS in
  KindRegistry.mk {[ kind := {|
    IncidentKindSpec.name := kind;
    IncidentKindSpec.allowed_subjects := [EntitySubjectKind.BitcoinNode];
    IncidentKindSpec.allows_dimension := false;
    IncidentKindSpec.dimension_label := None;
    IncidentKindSpec.min_open_confidence := Confidence.High;
    IncidentKindSpec.source := KindSource.Builtin;
  |} ]}.

Definition sample_engine : IncidentEngine.t := {|
  IncidentEngine.kinds := sample_registry;
  IncidentEngine.sidecar_id := sample_sidecar;
  IncidentEngine.signal_source := ObservationContext.source (sample_context 0);
  IncidentEngine.open_incidents := ∅;
|}.

Definition sample_draft (severity : SignalSeverity.t) (status : SignalStatus.t) :
    IncidentSignalDraft.t := {|
  IncidentSignalDraft.subject := sample_subject;
  IncidentSignalDraft.signal := SignalName.mk "bitcoin.no_peers.signal";
  IncidentSignalDraft.kind := IncidentKind.mk well_known_incident.BITCOIN_NO_PEERS;
  IncidentSignalDraft.dimension := None;
  IncidentSignalDraft.severity := severity;
  IncidentSignalDraft.status := status;
  IncidentSignalDraft.confidence := Confidence.High;
  IncidentSignalDraft.evidence := [];
|}.

Definition sample_commands : list (IncidentCommand.t * DateTime) := [
  (IncidentCommand.RecordSignal (sample_draft SignalSeverity.Warning SignalStatus.Active), 1%Z);
  (IncidentCommand.RecordSignal (sample_draft SignalSeverity.Critical SignalStatus.Active), 2%Z);
  (IncidentCommand.RecordSignal (sample_draft SignalSeverity.Info SignalStatus.Active), 3%Z);
  (IncidentCommand.RecordSignal (sample_draft SignalSeverity.Info SignalStatus.Cleared), 4%Z)
].

Lemma sample_engine_ok : engine_ok sample_engine.
Proof. apply map_Forall_empty. Qed.

(** The whole life of an incident: opened, escalated, touched, resolved. *)
Lemma sample_run_lifecycle :
  match run sample_engine sample_commands 0 with
  | Some (evs, e', _) =>
      lifecycle_for sample_fingerprint evs
      = [Lifecycle.Opened IncidentSeverity.Warning;
         Lifecycle.Escalated IncidentSeverity.Warning IncidentSeverity.Critical;
         Lifecycle.Resolved IncidentSeverity.Critical] ∧
      open_severity e' sample_fingerprint = None
  | None => False
  end.
Proof. vm_compute. split; reflexivity. Qed.

Definition sample_raise : IncidentCommand.t :=
  IncidentCommand.RecordSignal (sample_draft SignalSeverity.Warning SignalStatus.Active).

Lemma engine_refines_lifecycle_witness :
  engine_ok sample_engine ∧
  ∃ r e' n', IncidentEngine.handle sample_engine sample_raise 1 0 = Some (r, e', n') ∧
    open_severity e' sample_fingerprint = Some IncidentSeverity.Warning.
Proof.
  split; [exact sample_engine_ok|].
  destruct (engine_refines_lifecycle sample_engine sample_raise 1 0 sample_engine_ok)
    as (r & e' & n' & Hh & _ & Hfp).
  exists r, e', n'. split; [exact Hh|].
  etrans; [exact (f_equal fst (Hfp sample_fingerprint))|]. vm_compute. reflexivity.
Defined.

Lemma engine_lifecycle_words_witness :
  ∃ evs e' n', run sample_engine sample_commands 0 = Some (evs, e', n') ∧
    Lifecycle.word None (lifecycle_for sample_fingerprint evs)
    = Some (open_severity e' sample_fingerprint).
Proof.
  destruct (engine_lifecycle_words sample_engine sample_commands 0 sample_fingerprint
    sample_engine_ok) as (evs & e' & n' & Hr & _ & Hw).
  exists evs, e', n'. split; [exact Hr|]. exact Hw.
Defined.

Lemma engine_error_unchanged_witness :
  ∃ r e' n', IncidentEngine.handle sample_engine
      (IncidentCommand.Acknowledge (IncidentId.new 0) ActorId.system 5) 5 3 = Some (r, e', n') ∧
    e' = sample_engine ∧ n' = 3.
Proof.
  do 3 eexists. split; [reflexivity|].
  destruct (engine_error_unchanged sample_engine
    (IncidentCommand.Acknowledge (IncidentId.new 0) ActorId.system 5) 5 3 _ _ _ eq_refl
    _ eq_refl) as (H1 & H2 & _). by split.
Defined.

Lemma engine_event_order_witness :
  ∃ evs e' n', IncidentEngine.handle sample_engine sample_raise 1 0 = Some (Ok evs, e', n') ∧
    ∃ o rest, evs = IncidentEvent.SignalRecorded o :: rest ∧ Observation.observed_at o = 1%Z.
Proof.
  destruct (is_some_with (λ x, is_ok x.1.1)
    (IncidentEngine.handle sample_engine sample_raise 1 0))
    as ([[r e'] n'] & E & [evs Hr]%is_ok_ex); [vm_compute; reflexivity|].
  cbn in Hr. subst r.
  exists evs, e', n'. split; [exact E|].
  destruct (engine_event_order _ _ _ _ _ _ _ E) as (o & rest & H1 & _ & _ & H2 & _).
  exists o, rest. split; [exact H1|exact H2].
Defined.

(** The sample engine after the first [k] commands, and what it holds. *)
Definition sample_engine_after (k : nat) : IncidentEngine.t :=
  match run sample_engine (take k sample_commands) 0 with
  | Some (_, e, _) => e
  | None => sample_engine
  end.

Definition sample_handled : option (Result (list IncidentEvent.t) EngineError.t * IncidentEngine.t * nat) :=
  IncidentEngine.handle (sample_engine_after 1) (IncidentCommand.RecordSignal
    (sample_draft SignalSeverity.Critical SignalStatus.Active)) 2 2.

Lemma engine_history_append_only_witness :
  ∃ r e' n' i i', sample_handled = Some (r, e', n') ∧
    IncidentEngine.open_incidents (sample_engine_after 1) !! sample_fingerprint = Some i ∧
    IncidentEngine.open_incidents e' !! sample_fingerprint = Some i' ∧
    Incident.id i' = Incident.id i ∧ Incident.summary i' = Incident.summary i.
Proof.
  destruct (is_some_ex (IncidentEngine.open_incidents (sample_engine_after 1)
    !! sample_fingerprint)) as [i Hi]; [vm_compute; reflexivity|].
  destruct (is_some_with (λ x, is_some (IncidentEngine.open_incidents x.1.2 !! sample_fingerprint))
    sample_handled) as ([[r e'] n'] & Hh & [i' Hi']%is_some_ex); [vm_compute; reflexivity|].
  exists r, e', n', i, i'. split; [exact Hh|]. split; [exact Hi|]. split; [exact Hi'|].
  destruct (engine_history_append_only _ _ _ _ _ _ _ _ _ _ Hh Hi Hi')
    as (H1 & _ & _ & _ & H2 & _). by split.
Defined.

Lemma engine_incident_ids_unique_witness :
  ∃ evs e' n', run sample_engine sample_commands 0 = Some (evs, e', n') ∧
    NoDup (omap opened_id evs).
Proof.
  destruct (is_some_ex (run sample_engine sample_commands 0)) as [[[evs e'] n'] E];
    [vm_compute; reflexivity|].
  exists evs, e', n'. split; [exact E|]. exact (engine_incident_ids_unique _ _ _ _ _ _ E).
Defined.
