(* ===== verification/Hysteresis.v ===== *)
(** * Hysteresis: what the diagnostic rules share

    A rule keeps one entry per subject in a table, drops stale entries at every
    evaluation and advances the entry of the subject at hand. [Table] is that
    discipline and shows that subjects do not disturb one another: the outputs
    for a subject are those of a machine that sees only its own inputs.
    [Debounce] is the machine of the rules with a time window, with what it
    promises about the signals it raises and clears. *)

From S2P Require Import Prelude RustStr Names SharedTypes Observations Incidents.

(** ** Tables of per-subject entries *)

Section table.
Context {E I O : Type}.
Variables (fresh : E) (keep : Instant → E → bool) (advance : E → Instant → I → E * list O).

Definition prune (now : Instant) (m : gmap EntityRef.t E) : gmap EntityRef.t E :=
  filter (λ kv, keep now kv.2 = true) m.

(** One evaluation: drop the stale, advance the subject's entry. *)
Definition table_eval (m : gmap EntityRef.t E) (subject : EntityRef.t) (now : Instant) (i : I) :
    gmap EntityRef.t E * list O :=
  let m := prune now m in
  let '(e, o) := advance (default fresh (m !! subject)) now i in
  (<[subject := e]> m, o).

(** The same for a lone subject: its entry is dropped when it is stale. *)
Definition solo_eval (e : E) (now : Instant) (i : I) : E * list O :=
  advance (if keep now e then e else fresh) now i.

(** The outputs of a table, each with the subject it is for. *)
Fixpoint table_run (m : gmap EntityRef.t E) (l : list (EntityRef.t * Instant * I)) :
    gmap EntityRef.t E * list (EntityRef.t * O) :=
  match l with
  | [] => (m, [])
  | (s, now, i) :: l' =>
      let '(m1, o) := table_eval m s now i in
      let '(m2, os) := table_run m1 l' in (m2, (pair s <$> o) ++ os)
  end.

Fixpoint solo_run (e : E) (l : list (Instant * I)) : E * list O :=
  match l with
  | [] => (e, [])
  | (now, i) :: l' =>
      let '(e1, o) := solo_eval e now i in
      let '(e2, os) := solo_run e1 l' in (e2, o ++ os)
  end.

Lemma solo_run_app e l1 l2 :
  solo_run e (l1 ++ l2)
  = ((solo_run (solo_run e l1).1 l2).1, (solo_run e l1).2 ++ (solo_run (solo_run e l1).1 l2).2).
Proof.
  revert e. induction l1 as [|[now i] l1 IH]; intros e; cbn.
  { by destruct (solo_run e l2). }
  destruct (solo_eval e now i) as [e1 o]. rewrite IH.
  destruct (solo_run e1 l1) as [e2 os]; cbn. by rewrite app_assoc.
Qed.

Lemma solo_run_snoc e l now i :
  solo_run e (l ++ [(now, i)])
  = ((solo_eval (solo_run e l).1 now i).1,
     (solo_run e l).2 ++ (solo_eval (solo_run e l).1 now i).2).
Proof.
  rewrite solo_run_app. cbn. destruct (solo_eval _ now i) as [e1 o]; cbn.
  by rewrite app_nil_r.
Qed.

(** The inputs of a subject and the outputs for it. *)
Definition inputs_for (s : EntityRef.t) (l : list (EntityRef.t * Instant * I)) :
    list (Instant * I) :=
  omap (λ '(s', now, i), if decide (s' = s) then Some (now, i) else None) l.

Definition outputs_for (s : EntityRef.t) (l : list (EntityRef.t * O)) : list O :=
  omap (λ '(s', o), if decide (s' = s) then Some o else None) l.

(** A clock that does not go back. *)
Fixpoint clock_ok (t : Instant) (l : list (EntityRef.t * Instant * I)) : Prop :=
  match l with
  | [] => True
  | (_, now, _) :: l' => (t ≤ now)%Z ∧ clock_ok now l'
  end.

Lemma inputs_for_app s l1 l2 : inputs_for s (l1 ++ l2) = inputs_for s l1 ++ inputs_for s l2.
Proof. apply omap_app. Qed.

Lemma clock_ok_later t t' l : (t' ≤ t)%Z → clock_ok t l → clock_ok t' l.
Proof. destruct l as [|[[s now] i] l]; [done|]. intros ? [? ?]. split; [lia|done]. Qed.

Lemma clock_ok_app t l1 l2 : clock_ok t (l1 ++ l2) → clock_ok t l1 ∧ clock_ok t l2.
Proof.
  revert t. induction l1 as [|[[s now] i] l1 IH]; intros t; cbn; [done|].
  intros [Hle [H1 H2]%IH]. split; [done|]. by apply (clock_ok_later now).
Qed.

(** An entry that is stale stays stale, and a fresh one is never stale. *)
Hypothesis keep_antitone : ∀ t1 t2 e, (t1 ≤ t2)%Z → keep t2 e = true → keep t1 e = true.

(** The table's entry of a subject and the lone machine's agree up to the
    dropping of an entry that is already stale. *)
Definition entry_agrees (t : Instant) (o : option E) (e : E) : Prop :=
  match o with
  | Some e' => e' = e
  | None => e = fresh ∨ keep t e = false
  end.

Lemma entry_agrees_later t1 t2 o e :
  (t1 ≤ t2)%Z → entry_agrees t1 o e → entry_agrees t2 o e.
Proof.
  intros Hle. destruct o; [done|]. intros [?|Hk]; [by left|right].
  destruct (keep t2 e) eqn:Hk2; [|done].
  rewrite (keep_antitone t1 t2) in Hk by done. done.
Qed.

Lemma lookup_prune (m : gmap EntityRef.t E) now s :
  prune now m !! s
  = match m !! s with Some e => if keep now e then Some e else None | None => None end.
Proof.
  unfold prune. destruct (m !! s) as [e|] eqn:Hm.
  - destruct (keep now e) eqn:Hk.
    + by apply map_lookup_filter_Some_2.
    + apply map_lookup_filter_None_2. right. intros x Hx. simplify_eq. cbn. by rewrite Hk.
  - apply map_lookup_filter_None_2. by left.
Qed.

(** On the subject evaluated, the table does what the lone machine does. *)
Lemma table_eval_same m now s i e :
  entry_agrees now (m !! s) e →
  (table_eval m s now i).1 !! s = Some (solo_eval e now i).1 ∧
  (table_eval m s now i).2 = (solo_eval e now i).2.
Proof.
  intros Ha.
  assert (default fresh (prune now m !! s) = if keep now e then e else fresh) as Hd.
  { rewrite lookup_prune. destruct (m !! s) as [e'|]; cbn in *.
    - subst e'. by destruct (keep now e).
    - destruct Ha as [->| ->]; [by destruct (keep now _)|done]. }
  unfold table_eval, solo_eval. rewrite Hd.
  destruct (advance _ now i) as [e1 o]; cbn. by rewrite lookup_insert_eq.
Qed.

(** On the others, it can only drop an entry that is stale. *)
Lemma table_eval_other m now s s' i e :
  s ≠ s' → entry_agrees now (m !! s') e →
  entry_agrees now ((table_eval m s now i).1 !! s') e.
Proof.
  intros Hne Ha. unfold table_eval.
  destruct (advance _ _ _) as [e1 o]; cbn [fst].
  rewrite lookup_insert_ne, lookup_prune by done.
  destruct (m !! s') as [e'|]; [|done]. cbn in Ha. subst e'.
  destruct (keep now e) eqn:Hk; [done|]. by right.
Qed.

Lemma outputs_for_app s l1 l2 :
  outputs_for s (l1 ++ l2) = outputs_for s l1 ++ outputs_for s l2.
Proof. apply omap_app. Qed.

Lemma outputs_for_pairs s s' (o : list O) :
  outputs_for s (pair s' <$> o) = if decide (s' = s) then o else [].
Proof.
  unfold outputs_for. induction o as [|x o IH]; cbn; [by case_decide|].
  rewrite IH. by case_decide.
Qed.

(** Subjects are independent: a table fed evaluations of many subjects gives
    each of them what a machine of its own would, and keeps its entry. *)
Lemma table_run_solo t t' m l s e :
  clock_ok t (l ++ t') → entry_agrees t (m !! s) e →
  outputs_for s (table_run m l).2 = (solo_run e (inputs_for s l)).2 ∧
  match t' with
  | [] => True
  | (_, now, _) :: _ =>
      entry_agrees now ((table_run m l).1 !! s) (solo_run e (inputs_for s l)).1
  end.
Proof.
  revert t m e. induction l as [|[[s' now] i] l IH]; intros t m e.
  { intros Hc Ha. split; [done|]. destruct t' as [|[[??] ?] ?]; [done|].
    destruct Hc. by eapply entry_agrees_later. }
  intros [Hle Hc] Ha. apply (entry_agrees_later t now) in Ha; [|done].
  cbn [table_run]. destruct (table_eval m s' now i) as [m1 o] eqn:Et.
  specialize (IH now m1). destruct (table_run m1 l) as [m2 os]. cbn [fst snd] in *.
  rewrite outputs_for_app, outputs_for_pairs. cbn.
  destruct (decide (s' = s)) as [->|Hne].
  - cbn [solo_run]. destruct (table_eval_same m now s i e Ha) as [Hm Ho].
    rewrite Et in Hm, Ho. cbn in Hm, Ho. destruct (solo_eval e now i) as [e1 o1].
    cbn in *. subst o1. destruct (IH e1 Hc) as [IH1 IH2]; [by rewrite Hm|].
    rewrite IH1. unfold inputs_for in *. by destruct (solo_run e1 _).
  - pose proof (table_eval_other m now s' s i e Hne Ha) as Hm. rewrite Et in Hm.
    by apply IH.
Qed.
End table.

(** A table seen through a map of its entries. *)
Section table_view.
Context {E E' I O : Type}.
Variables (view : E → E').
Variables (fresh : E) (keep : Instant → E → bool) (advance : E → Instant → I → E * list O).
Variables (fresh' : E') (keep' : Instant → E' → bool)
          (advance' : E' → Instant → I → E' * list O).
Hypothesis view_fresh : view fresh = fresh'.
Hypothesis view_keep : ∀ t e, keep' t (view e) = keep t e.
Hypothesis view_advance : ∀ e t i,
  advance' (view e) t i = (view (advance e t i).1, (advance e t i).2).

Lemma prune_fmap m now : prune keep' now (view <$> m) = view <$> prune keep now m.
Proof.
  apply map_eq. intros s. rewrite lookup_fmap, !lookup_prune, lookup_fmap.
  destruct (m !! s) as [e|]; cbn; [|done]. rewrite view_keep. by destruct (keep now e).
Qed.

Lemma table_eval_fmap m s now i :
  table_eval fresh' keep' advance' (view <$> m) s now i
  = (view <$> (table_eval fresh keep advance m s now i).1,
     (table_eval fresh keep advance m s now i).2).
Proof.
  unfold table_eval. rewrite prune_fmap, lookup_fmap.
  replace (default fresh' (view <$> prune keep now m !! s))
    with (view (default fresh (prune keep now m !! s)))
    by (destruct (prune keep now m !! s); [done|exact view_fresh]).
  rewrite view_advance. destruct (advance _ now i) as [e1 o]; cbn.
  by rewrite fmap_insert.
Qed.
End table_view.

(** The same when the inputs are translated too. *)
Lemma table_eval_view {E E' I I' O} (view : E → E') (fresh : E) keep
    (advance : E → Instant → I → E * list O) fresh' keep'
    (advance' : E' → Instant → I' → E' * list O) (to_input : I → I') m s now i :
  view fresh = fresh' → (∀ t e, keep' t (view e) = keep t e) →
  (∀ e t i, advance' (view e) t (to_input i) = (view (advance e t i).1, (advance e t i).2)) →
  table_eval fresh' keep' advance' (view <$> m) s now (to_input i)
  = (view <$> (table_eval fresh keep advance m s now i).1,
     (table_eval fresh keep advance m s now i).2).
Proof.
  intros Hf Hk Ha.
  by apply (table_eval_fmap view fresh keep advance fresh' keep'
    (λ e t i, advance' e t (to_input i))).
Qed.

(** ** Rules that keep a table *)

(** Drafts for a subject with the given statuses, one each. *)
Definition drafts_of (s : EntityRef.t) (o : list SignalStatus.t)
    (ds : list IncidentSignalDraft.t) : Prop :=
  IncidentSignalDraft.status <$> ds = o ∧ Forall (λ d, IncidentSignalDraft.subject d = s) ds.

Lemma drafts_of_fmap s o (f : SignalStatus.t → IncidentSignalDraft.t) :
  (∀ st, IncidentSignalDraft.subject (f st) = s ∧ IncidentSignalDraft.status (f st) = st) →
  drafts_of s o (f <$> o).
Proof.
  intros Hf. split.
  - rewrite <-list_fmap_compose. rewrite <-(list_fmap_id o) at 2.
    apply list_fmap_ext. intros k st _; cbn. apply Hf.
  - apply Forall_fmap, Forall_true. intros st. apply Hf.
Qed.

(** What such a rule promises: it ignores a context or reads an input from it;
    an input advances its table, and every output becomes one draft for the
    subject of the context. *)
Class TableRule (R E I : Type) `{DiagnosticRule R} : Type := {
  tr_fresh : E;
  tr_keep : Instant → E → bool;
  tr_advance : E → Instant → I → E * list SignalStatus.t;
  tr_entries : R → gmap EntityRef.t E;
  tr_reading : R → DiagnosticContext.t → option I;
}.

Class TableRuleLaws (R E I : Type) `{TableRule R E I} : Prop := {
  tr_keep_antitone t1 t2 e :
    (t1 ≤ t2)%Z → tr_keep t2 e = true → tr_keep t1 e = true;
  tr_evaluate_ignored r ctx : tr_reading r ctx = None → evaluate r ctx = (Ok [], r);
  tr_evaluate_read r ctx i :
    tr_reading r ctx = Some i →
    let subject := DiagnosticContext.subject ctx in
    let '(m, o) := table_eval tr_fresh tr_keep tr_advance (tr_entries r) subject
                     (DiagnosticContext.monotonic_now ctx) i in
    ∃ ds r', evaluate r ctx = (Ok ds, r') ∧ drafts_of subject o ds ∧ tr_entries r' = m ∧
             ∀ ctx', tr_reading r' ctx' = tr_reading r ctx';
}.

(** The drafts of a rule over a sequence of contexts; a failed evaluation
    contributes none. *)
Fixpoint rule_run {R} `{DiagnosticRule R} (r : R) (ctxs : list DiagnosticContext.t) :
    R * list IncidentSignalDraft.t :=
  match ctxs with
  | [] => (r, [])
  | ctx :: ctxs' =>
      let '(res, r1) := evaluate r ctx in
      let '(r2, ds) := rule_run r1 ctxs' in
      (r2, match res with Ok ds0 => ds0 | Err _ => [] end ++ ds)
  end.

(** The statuses of the drafts for a subject, in order. *)
Definition statuses_for (s : EntityRef.t) (ds : list IncidentSignalDraft.t) :
    list SignalStatus.t :=
  omap (λ d, if decide (IncidentSignalDraft.subject d = s)
             then Some (IncidentSignalDraft.status d) else None) ds.

Section table_rule.
Context {R E I : Type} `{TableRuleLaws R E I}.
Implicit Types (r : R) (ctx : DiagnosticContext.t).

(** The inputs a rule reads from a sequence of contexts. *)
Definition readings r (ctxs : list DiagnosticContext.t) : list (EntityRef.t * Instant * I) :=
  omap (λ ctx, i ← tr_reading r ctx;
          Some (DiagnosticContext.subject ctx, DiagnosticContext.monotonic_now ctx, i)) ctxs.

Lemma readings_ext r1 r2 ctxs :
  (∀ ctx, tr_reading r1 ctx = tr_reading r2 ctx) → readings r1 ctxs = readings r2 ctxs.
Proof.
  intros Heq. unfold readings. induction ctxs as [|ctx ctxs IH]; cbn; [done|].
  by rewrite Heq, IH.
Qed.

Lemma statuses_for_app s l1 l2 :
  statuses_for s (l1 ++ l2) = statuses_for s l1 ++ statuses_for s l2.
Proof. apply omap_app. Qed.

Lemma statuses_for_drafts s s' o ds :
  drafts_of s' o ds → statuses_for s ds = outputs_for s (pair s' <$> o).
Proof.
  intros [<- Hs]. induction Hs as [|d ds Hd _ IH]; cbn; [done|].
  unfold statuses_for in IH. by rewrite Hd, IH.
Qed.

#[local] Arguments statuses_for : simpl never.
#[local] Arguments outputs_for : simpl never.

Lemma rule_run_cons r ctx ctxs :
  rule_run r (ctx :: ctxs)
  = ((rule_run (evaluate r ctx).2 ctxs).1,
     match (evaluate r ctx).1 with Ok ds => ds | Err _ => [] end
       ++ (rule_run (evaluate r ctx).2 ctxs).2).
Proof. cbn. destruct (evaluate r ctx) as [res r1]; cbn. by destruct (rule_run r1 ctxs). Qed.

Lemma readings_cons r ctx ctxs :
  readings r (ctx :: ctxs)
  = match tr_reading r ctx with
    | Some i => [(DiagnosticContext.subject ctx, DiagnosticContext.monotonic_now ctx, i)]
    | None => []
    end ++ readings r ctxs.
Proof. unfold readings; cbn. by destruct (tr_reading r ctx). Qed.

Lemma readings_app r l1 l2 : readings r (l1 ++ l2) = readings r l1 ++ readings r l2.
Proof. apply omap_app. Qed.

(** A rule's run is its table's, and its configuration does not change. *)
Lemma rule_run_table r ctxs s :
  let tab := table_run tr_fresh tr_keep tr_advance (tr_entries r) (readings r ctxs) in
  statuses_for s (rule_run r ctxs).2 = outputs_for s tab.2 ∧
  tr_entries (rule_run r ctxs).1 = tab.1 ∧
  ∀ ctx, tr_reading (rule_run r ctxs).1 ctx = tr_reading r ctx.
Proof.
  revert r. induction ctxs as [|ctx ctxs IH]; intros r; [done|].
  rewrite rule_run_cons, readings_cons.
  destruct (tr_reading r ctx) as [i|] eqn:Hi; cbn [app table_run fst snd].
  - pose proof (tr_evaluate_read r ctx i Hi) as He; cbn in He.
    destruct (table_eval _ _ _ _ _ _ _) as [m o]. destruct He as (ds & r1 & -> & Hds & <- & Hr).
    cbn [fst snd]. specialize (IH r1). rewrite (readings_ext r1 r) in IH by done.
    destruct (table_run _ _ _ _ _) as [m2 os]; cbn [fst snd] in *.
    destruct IH as (IH1 & IH2 & IH3).
    rewrite statuses_for_app, outputs_for_app, (statuses_for_drafts _ _ _ _ Hds), IH1.
    split_and!; [done|done|]. intros ctx'. by rewrite IH3.
  - rewrite tr_evaluate_ignored by done. apply IH.
Qed.

(** A rule treats every subject as a machine of its own would. *)
Lemma rule_run_solo r ctxs t s :
  clock_ok t (readings r ctxs) → tr_entries r !! s = None →
  statuses_for s (rule_run r ctxs).2
  = (solo_run tr_fresh tr_keep tr_advance tr_fresh (inputs_for s (readings r ctxs))).2.
Proof.
  intros Hc Hs. rewrite (proj1 (rule_run_table r ctxs s)).
  apply (table_run_solo _ _ _ tr_keep_antitone t []); [by rewrite app_nil_r|].
  rewrite Hs. by left.
Qed.

(** What one more evaluation of a rule emits. *)
Lemma rule_eval_solo r ctxs ctx i t :
  let s := DiagnosticContext.subject ctx in
  let now := DiagnosticContext.monotonic_now ctx in
  let e := (solo_run tr_fresh tr_keep tr_advance tr_fresh
              (inputs_for s (readings r ctxs))).1 in
  clock_ok t (readings r (ctxs ++ [ctx])) → tr_entries r !! s = None →
  tr_reading r ctx = Some i →
  ∃ ds r', evaluate (rule_run r ctxs).1 ctx = (Ok ds, r') ∧
           drafts_of s (solo_eval tr_fresh tr_keep tr_advance e now i).2 ds.
Proof.
  cbv zeta. intros Hc Hs Hi.
  destruct (rule_run_table r ctxs (DiagnosticContext.subject ctx)) as (_ & Ht & Hr).
  rewrite readings_app, (readings_cons r ctx []), Hi in Hc. cbn in Hc.
  destruct (table_run_solo tr_fresh tr_keep tr_advance tr_keep_antitone t
    [(DiagnosticContext.subject ctx, DiagnosticContext.monotonic_now ctx, i)] (tr_entries r)
    (readings r ctxs) (DiagnosticContext.subject ctx) tr_fresh) as [_ Ha]; [done| |].
  { rewrite Hs. by left. }
  cbn in Ha. rewrite <-Ht in Ha.
  rewrite <-Hr in Hi. pose proof (tr_evaluate_read _ ctx i Hi) as He; cbn in He.
  pose proof (table_eval_same tr_fresh tr_keep tr_advance _ _ _ i _ Ha) as [_ Ho].
  destruct (table_eval _ _ _ _ _ _ _) as [m o]. cbn in Ho. subst o.
  destruct He as (ds & r' & -> & Hds & _). by exists ds, r'.
Qed.
End table_rule.

(** ** The debounce machine *)

Module Debounce.
(** What one evaluation reads: the condition holds, to be reported once it
    has held for [window], or fails, or nothing can be told. *)
Inductive input : Type := Holds (window : Duration) | Fails | Unknown.

Record entry : Type := mk {
  since : option Instant;
  alarmed : bool;
  touched : option Instant;
}.

Definition fresh : entry := mk None false None.

(** How long an entry survives untouched: [ttl] when it is alarmed ([None]:
    forever), [retention] otherwise. *)
Definition keep (retention : Duration) (ttl : option Duration) (now : Instant)
    (e : entry) : bool :=
  match (if alarmed e then ttl else Some retention), touched e with
  | Some r, Some ts => (saturating_duration_since now ts <? r)%Z
  | _, _ => true
  end.

Definition advance (e : entry) (now : Instant) (i : input) : entry * list SignalStatus.t :=
  match i with
  | Holds window =>
      let first := default now (since e) in
      if negb (alarmed e) && (window <=? saturating_duration_since now first)%Z
      then (mk (Some first) true (Some now), [SignalStatus.Active])
      else (mk (Some first) (alarmed e) (Some now), [])
  | Fails =>
      (mk None false (Some now), if alarmed e then [SignalStatus.Cleared] else [])
  | Unknown => (mk (since e) (alarmed e) (Some now), [])
  end.

(** Signals alternate, starting with the one that changes [active]. *)
Fixpoint alternates (active : bool) (l : list SignalStatus.t) : bool :=
  match l with
  | [] => true
  | SignalStatus.Active :: l' => negb active && alternates true l'
  | SignalStatus.Cleared :: l' => active && alternates false l'
  end.

(** No clear without a raise since the previous clear. *)
Fixpoint clears_raised (active : bool) (l : list SignalStatus.t) : bool :=
  match l with
  | [] => true
  | SignalStatus.Active :: l' => clears_raised true l'
  | SignalStatus.Cleared :: l' => active && clears_raised false l'
  end.

(** At [t0] the condition was seen to hold and it was not seen to fail since. *)
Definition held_since (h : list (Instant * input)) (t0 : Instant) : Prop :=
  ∃ h1 w h2, h = h1 ++ (t0, Holds w) :: h2 ∧ Forall (λ x, x.2 ≠ Fails) h2.

Section machine.
Variables (retention : Duration) (ttl : option Duration).

#[local] Abbreviation solo := (solo_run fresh (keep retention ttl) advance).
#[local] Abbreviation eval := (solo_eval fresh (keep retention ttl) advance).

Lemma keep_antitone t1 t2 e :
  (t1 ≤ t2)%Z → keep retention ttl t2 e = true → keep retention ttl t1 e = true.
Proof.
  unfold keep, saturating_duration_since. intros Hle.
  destruct (if alarmed e then _ else _), (touched e); try done.
  rewrite !Z.ltb_lt. lia.
Qed.

(** The two verdicts of one step, against the flag it leaves. *)
Lemma eval_clears_raised e now i active :
  (alarmed e = true → active = true) →
  match (eval e now i).2 with
  | [] => (alarmed (eval e now i).1 = true → active = true)
  | [SignalStatus.Active] => alarmed (eval e now i).1 = true
  | [SignalStatus.Cleared] => active = true ∧ alarmed (eval e now i).1 = false
  | _ => False
  end.
Proof.
  intros Ha. unfold solo_eval, advance.
  destruct (keep retention ttl now e); destruct i as [w| |]; cbn;
    try (destruct (alarmed e) eqn:He; cbn; auto; fail);
    destruct e as [si [] to]; cbn in *; try (destruct (w <=? _)%Z; cbn); auto.
Qed.

Lemma clears_raised_mono l active :
  clears_raised false l = true → clears_raised active l = true.
Proof. destruct active; [|done]. by destruct l as [|[] l]. Qed.

Lemma solo_clears_raised e l active :
  (alarmed e = true → active = true) → clears_raised active (solo e l).2 = true.
Proof.
  revert e active. induction l as [|[now i] l IH]; intros e active Ha; [done|]. cbn.
  pose proof (eval_clears_raised e now i active Ha) as Hs.
  destruct (eval e now i) as [e1 o] eqn:Ee; cbn [fst snd] in Hs.
  specialize (IH e1). destruct (solo e1 l) as [e2 os]; cbn [snd] in *.
  destruct o as [|[] [|??]]; try done; cbn.
  - by apply IH.
  - by apply IH.
  - destruct Hs as [-> Hf]. apply IH. by rewrite Hf.
Qed.

(** An alarmed entry has just raised, or was alarmed all along. *)
Lemma alarmed_last e l :
  alarmed (solo e l).1 = true →
  last (solo e l).2 = Some SignalStatus.Active ∨ ((solo e l).2 = [] ∧ alarmed e = true).
Proof.
  induction l as [|[now i] l IH] using rev_ind; [by right|].
  rewrite solo_run_snoc; cbn [fst snd]. set (e1 := (solo e l).1) in *.
  unfold solo_eval, advance.
  destruct (keep retention ttl now e1) eqn:Hk; destruct i as [w| |]; cbn;
    try (destruct (alarmed e1) eqn:Ha); cbn;
    try (destruct (w <=? _)%Z; cbn); try done;
    rewrite ?app_nil_r; try (by intros; left; rewrite last_snoc); auto.
Qed.

(** The start of the window the machine measures is a time the condition
    was seen to hold, and it has not been seen to fail since. *)
Lemma since_held h t0 : since (solo fresh h).1 = Some t0 → held_since h t0.
Proof.
  induction h as [|[now i] h IH] using rev_ind; [done|].
  rewrite solo_run_snoc; cbn [fst]. set (e1 := (solo fresh h).1) in *.
  assert (Hext : ∀ x, x ≠ Fails → since e1 = Some t0 → held_since (h ++ [(now, x)]) t0).
  { intros x Hx (h1 & w & h2 & -> & Hf)%IH. exists h1, w, (h2 ++ [(now, x)]).
    rewrite <-app_assoc. split; [done|]. apply Forall_app. split; [done|].
    by constructor. }
  assert (Hnew : ∀ w, held_since (h ++ [(now, Holds w)]) now).
  { intros w. by exists h, w, []. }
  unfold solo_eval, advance.
  destruct (keep retention ttl now e1); destruct i as [w| |]; cbn; try done;
    try (by apply Hext).
  - destruct (negb _ && _); cbn; (destruct (since e1) as [ts|] eqn:Hs; cbn;
      [intros [= ->]; by apply Hext|intros [= <-]; apply Hnew]).
  - destruct (w <=? _)%Z; cbn; intros [= <-]; apply Hnew.
Qed.

(** An alarm is never raised before the condition has held for the window. *)
Lemma active_safe h now i :
  SignalStatus.Active ∈ (eval (solo fresh h).1 now i).2 →
  ∃ w t0, i = Holds w ∧ held_since (h ++ [(now, i)]) t0 ∧
          (w ≤ saturating_duration_since now t0)%Z.
Proof.
  set (e1 := if keep retention ttl now (solo fresh h).1 then (solo fresh h).1 else fresh).
  assert (He1 : ∀ t0, since e1 = Some t0 → held_since h t0).
  { subst e1. intros t0. destruct (keep _ _ _ _); [apply since_held|done]. }
  unfold solo_eval. fold e1. unfold advance. destruct i as [w| |]; cbn.
  - destruct (negb _ && (w <=? _)%Z) eqn:E; cbn; [|by intros ?%elem_of_nil].
    intros _. apply andb_prop in E as [_ Hw%Z.leb_le].
    exists w, (default now (since e1)). split; [done|]. split; [|done].
    destruct (since e1) as [ts|]; cbn; [|by exists h, w, []].
    destruct (He1 ts eq_refl) as (h1 & w1 & h2 & -> & Hf).
    exists h1, w1, (h2 ++ [(now, Holds w)]). rewrite <-app_assoc. split; [done|].
    apply Forall_app. split; [done|]. by constructor.
  - destruct (alarmed e1); cbn; [|by intros ?%elem_of_nil].
    by intros Hin%list_elem_of_singleton.
  - by intros ?%elem_of_nil.
Qed.

(** Inputs on a clock that does not go back, close enough together for
    entries to survive, and none of them a failure. *)
Fixpoint steady (t : Instant) (l : list (Instant * input)) : Prop :=
  match l with
  | [] => True
  | (now, i) :: l' => (t ≤ now < t + retention)%Z ∧ i ≠ Fails ∧ steady now l'
  end.

Definition ttl_ok : Prop := match ttl with None => True | Some r => (retention ≤ r)%Z end.

Lemma keep_recent now t e :
  ttl_ok → touched e = Some t → (t ≤ now < t + retention)%Z → keep retention ttl now e = true.
Proof.
  unfold ttl_ok, keep, saturating_duration_since. intros Hr -> Ht.
  destruct (alarmed e), ttl as [r|]; try done; apply Z.ltb_lt; lia.
Qed.

(** While the condition is not seen to fail, the window's start stays. *)
Lemma steady_persists e t t' l now w :
  ttl_ok → touched e = Some t → since e = Some t' →
  steady t (l ++ [(now, Holds w)]) → (w ≤ now - t')%Z →
  alarmed (solo e (l ++ [(now, Holds w)])).1 = true.
Proof.
  intros Hr. revert e t. induction l as [|[n i] l IH]; intros e t Ht Hs; cbn.
  - intros [Hn _] Hw. unfold solo_eval. rewrite (keep_recent _ t) by done.
    unfold advance. rewrite Hs; cbn. unfold saturating_duration_since.
    destruct (w <=? _)%Z eqn:E; [|apply Z.leb_gt in E; lia].
    by destruct (alarmed e) eqn:Ha; cbn.
  - intros (Hn & Hi & Hl) Hw. unfold solo_eval. rewrite (keep_recent _ t) by done.
    destruct i as [w1| |]; [|done|]; cbn; rewrite ?Hs; cbn.
    + assert (Hgo : ∀ b, alarmed (solo (mk (Some t') b (Some n)) (l ++ [(now, Holds w)])).1 = true).
      { intros b. by apply (IH _ n). }
      destruct (negb _ && _); cbn; [specialize (Hgo true)|specialize (Hgo (alarmed e))];
        destruct (solo _ _); done.
    + assert (Hgo : alarmed (solo (mk (Some t') (alarmed e) (Some n))
                       (l ++ [(now, Holds w)])).1 = true) by by apply (IH _ n).
      destruct (solo _ _); cbn in *; done.
Qed.

(** A condition that holds for the window without a failure is reported:
    whatever came before, the last signal is the alarm. *)
Lemma active_live h t0 w0 l now w :
  ttl_ok → Forall (λ x, (x.1 ≤ t0)%Z) h →
  steady t0 (l ++ [(now, Holds w)]) → (w ≤ now - t0)%Z →
  last (solo fresh (h ++ (t0, Holds w0) :: l ++ [(now, Holds w)])).2
  = Some SignalStatus.Active.
Proof.
  intros Hr Hh Hl Hw.
  destruct (alarmed_last fresh (h ++ (t0, Holds w0) :: l ++ [(now, Holds w)]))
    as [?|[_ ?]]; [|done|done].
  rewrite cons_middle, app_assoc, solo_run_app; cbn [fst].
  rewrite (solo_run_snoc _ _ _ fresh h); cbn [fst].
  set (e1 := (eval (solo fresh h).1 t0 (Holds w0)).1).
  assert (touched e1 = Some t0 ∧ ∃ t', since e1 = Some t' ∧ (t' ≤ t0)%Z) as [Ht (t' & Hs & Hle)].
  { subst e1. unfold solo_eval, advance.
    set (e2 := if keep _ _ _ _ then _ else _).
    assert (default t0 (since e2) ≤ t0)%Z as Hd.
    { destruct (since e2) as [ts|] eqn:Hs; cbn; [|lia]. subst e2.
      destruct (keep _ _ _ _); [|done].
      destruct (since_held _ _ Hs) as (h1 & w1 & h2 & Heq & _).
      rewrite Forall_forall in Hh. apply (Hh (ts, Holds w1)). rewrite Heq.
      apply elem_of_app. right. left. }
    destruct (negb _ && _); cbn; eauto. }
  apply (steady_persists e1 t0 t'); [done..|lia].
Qed.
End machine.

(** Inputs never further apart than [r]. *)
Fixpoint within (r : Duration) (t : option Instant) (l : list (Instant * input)) : Prop :=
  match l with
  | [] => True
  | (now, _) :: l' =>
      from_option (λ t, saturating_duration_since now t < r)%Z True t ∧ within r (Some now) l'
  end.

(** No gap lets an alarmed entry expire. *)
Definition unexpired (ttl : option Duration) (t : option Instant) (l : list (Instant * input)) : Prop :=
  from_option (λ r, within r t l) True ttl.

(** As long as no alarmed entry expires the signals strictly alternate. *)
Lemma solo_alternates retention ttl e l :
  unexpired ttl (touched e) l →
  alternates (alarmed e) (solo_run fresh (keep retention ttl) advance e l).2 = true.
Proof.
  revert e. induction l as [|[now i] l IH]; intros e Hl; [done|]. cbn.
  unfold solo_eval.
  assert (alarmed (if keep retention ttl now e then e else fresh) = alarmed e) as Ha.
  { unfold keep. destruct (alarmed e) eqn:Hal; [|by destruct (touched e); [case_match|]].
    destruct ttl as [r|], (touched e) as [ts|]; try done. destruct Hl as [Hl _]; cbn in Hl.
    by rewrite (proj2 (Z.ltb_lt _ _) Hl). }
  assert (unexpired ttl (Some now) l) as Hl' by (destruct ttl; [by destruct Hl|done]).
  set (e1 := if keep _ _ _ _ then _ else _) in *. clearbody e1. rewrite <-Ha. clear Ha Hl.
  unfold advance. destruct i as [w| |]; cbn.
  - destruct (alarmed e1) eqn:H1; cbn; [|destruct (w <=? _)%Z; cbn];
      match goal with |- context [solo_run _ _ _ ?x l] => specialize (IH x Hl') end;
      cbn in IH; destruct (solo_run _ _ _ _ l); done.
  - specialize (IH (mk None false (Some now)) Hl'). cbn in IH.
    destruct (solo_run _ _ _ _ l); by destruct (alarmed e1).
  - specialize (IH (mk (since e1) (alarmed e1) (Some now)) Hl'). cbn in IH.
    by destruct (solo_run _ _ _ _ l).
Qed.

Lemma solo_touched retention ttl e l now i :
  touched (solo_run fresh (keep retention ttl) advance e (l ++ [(now, i)])).1 = Some now.
Proof.
  rewrite solo_run_snoc; cbn [fst]. unfold solo_eval, advance.
  destruct i as [w| |]; [case_match|..]; done.
Qed.

(** After a silence as long as alarmed entries live, everything is forgotten. *)
Lemma solo_forgets retention r l1 l2 :
  (retention ≤ r)%Z → Forall (λ x, Forall (λ y, (x.1 + r ≤ y.1)%Z) l2) l1 →
  (solo_run fresh (keep retention (Some r)) advance fresh (l1 ++ l2)).2
  = (solo_run fresh (keep retention (Some r)) advance fresh l1).2
    ++ (solo_run fresh (keep retention (Some r)) advance fresh l2).2.
Proof.
  intros Hr Hgap. rewrite solo_run_app; cbn [snd]. f_equal.
  destruct l2 as [|[now i] l2]; [done|]. cbn [solo_run].
  destruct l1 as [|[t j] l1 _] using rev_ind; [done|].
  apply Forall_app in Hgap as [_ Hgap]. rewrite Forall_singleton, Forall_cons in Hgap.
  destruct Hgap as [Hgap _]; cbn in Hgap.
  pose proof (solo_touched retention (Some r) fresh l1 t j) as Ht.
  set (e := (solo_run _ _ _ _ (l1 ++ _)).1) in *. unfold solo_eval.
  assert (keep retention (Some r) now e = false) as ->; [|done].
  unfold keep, saturating_duration_since. rewrite Ht.
  destruct (alarmed e); apply Z.ltb_ge; lia.
Qed.
End Debounce.

(** ** Rules that are debounce machines *)

(** What a debouncing rule promises from its initial state [r0], over any
    sequence of evaluations of any subjects on a clock that does not go back. *)
Record debounced {R} `{TableRule R Debounce.entry Debounce.input} (retention : Duration)
    (ttl : option Duration) (r0 : R) : Prop := {
  (** It never clears what it has not raised; and as long as no alarmed entry
      expires, raises and clears strictly alternate. *)
  debounced_signals t ctxs s :
    clock_ok t (readings r0 ctxs) →
    Debounce.clears_raised false (statuses_for s (rule_run r0 ctxs).2) = true ∧
    (Debounce.unexpired ttl None (inputs_for s (readings r0 ctxs)) →
     Debounce.alternates false (statuses_for s (rule_run r0 ctxs).2) = true);
  (** An alarm means that the condition was seen to hold for its whole window
      and was not seen to fail in it. *)
  debounced_safe t ctxs ctx ds r' d :
    clock_ok t (readings r0 (ctxs ++ [ctx])) →
    evaluate (rule_run r0 ctxs).1 ctx = (Ok ds, r') → d ∈ ds →
    IncidentSignalDraft.status d = SignalStatus.Active →
    let s := DiagnosticContext.subject ctx in
    IncidentSignalDraft.subject d = s ∧
    ∃ w t0, tr_reading r0 ctx = Some (Debounce.Holds w) ∧
      Debounce.held_since (inputs_for s (readings r0 (ctxs ++ [ctx]))) t0 ∧
      (w ≤ saturating_duration_since (DiagnosticContext.monotonic_now ctx) t0)%Z;
  (** A condition that holds for its window, looked at often enough and never
      seen to fail in it, is reported. *)
  debounced_live t ctxs s h t0 w0 l now w :
    clock_ok t (readings r0 ctxs) →
    inputs_for s (readings r0 ctxs)
    = h ++ (t0, Debounce.Holds w0) :: l ++ [(now, Debounce.Holds w)] →
    Debounce.steady retention t0 (l ++ [(now, Debounce.Holds w)]) → (w ≤ now - t0)%Z →
    last (statuses_for s (rule_run r0 ctxs).2) = Some SignalStatus.Active;
  (** A subject that is not looked at for as long as alarmed entries live is
      forgotten: from then on the rule signals for it as a new one would. *)
  debounced_forgets t ctxs ctxs' s r :
    ttl = Some r → clock_ok t (readings r0 (ctxs ++ ctxs')) →
    Forall (λ x, Forall (λ y, (x.1 + r ≤ y.1)%Z) (inputs_for s (readings r0 ctxs')))
      (inputs_for s (readings r0 ctxs)) →
    statuses_for s (rule_run r0 (ctxs ++ ctxs')).2
    = statuses_for s (rule_run r0 ctxs).2 ++ statuses_for s (rule_run r0 ctxs').2;
}.

Section debounced.
Context {R : Type} `{TableRuleLaws R Debounce.entry Debounce.input}.
Variables (retention : Duration) (ttl : option Duration).
Hypothesis (tr_is_fresh : tr_fresh = Debounce.fresh)
           (tr_is_keep : tr_keep = Debounce.keep retention ttl)
           (tr_is_advance : tr_advance = Debounce.advance).

Lemma clock_inputs_after t s (l : list (EntityRef.t * Instant * Debounce.input)) :
  clock_ok t l → Forall (λ x, (t ≤ x.1)%Z) (inputs_for s l).
Proof.
  revert t. induction l as [|[[s' now] i] l IH]; intros t; cbn; [constructor|].
  intros [Hle Hc]. specialize (IH now Hc).
  assert (Forall (λ x : Instant * Debounce.input, (t ≤ x.1)%Z) (inputs_for s l)) as Hl.
  { eapply Forall_impl; [exact IH|]. intros x ?; cbn in *. lia. }
  case_decide; [by constructor|done].
Qed.

Lemma clock_inputs_before t s (l : list (EntityRef.t * Instant * Debounce.input)) h t0 i0 l' :
  clock_ok t l → inputs_for s l = h ++ (t0, i0) :: l' → Forall (λ x, (x.1 ≤ t0)%Z) h.
Proof.
  revert t h. induction l as [|[[s' now] i] l IH]; intros t h; cbn; [by destruct h|].
  intros [Hle Hc]. case_decide as Hs; [|by eapply IH].
  destruct h as [|x h]; intros Heq; [constructor|]. injection Heq as <- Heq; subst s'.
  pose proof (clock_inputs_after now s l Hc) as Hall.
  unfold inputs_for in Hall, IH. rewrite Heq in Hall.
  constructor; [|by eapply IH].
  apply Forall_app in Hall as [_ Hall]. by apply Forall_cons in Hall as [? _].
Qed.

Lemma debounced_intro r0 :
  (∀ s, tr_entries r0 !! s = None) → Debounce.ttl_ok retention ttl → debounced retention ttl r0.
Proof.
  intros Hempty Httl. split.
  - intros t ctxs s Hc. rewrite (rule_run_solo r0 ctxs t s) by auto.
    rewrite tr_is_fresh, tr_is_keep, tr_is_advance. split.
    + by apply Debounce.solo_clears_raised.
    + apply (Debounce.solo_alternates retention ttl Debounce.fresh).
  - intros t ctxs ctx ds r' d Hc He Hd Hst. cbv zeta.
    destruct (tr_reading r0 ctx) as [i|] eqn:Hi.
    + destruct (rule_eval_solo r0 ctxs ctx i t Hc (Hempty _) Hi) as (ds1 & r1 & He1 & Hds).
      rewrite He in He1. injection He1 as <- <-. destruct Hds as [Hds Hsub].
      rewrite Forall_forall in Hsub. split; [by apply Hsub|].
      assert (Hin : SignalStatus.Active ∈ IncidentSignalDraft.status <$> ds)
        by by rewrite <-Hst; apply list_elem_of_fmap_2.
      rewrite Hds in Hin.
      rewrite tr_is_fresh, tr_is_keep, tr_is_advance in Hin.
      apply Debounce.active_safe in Hin as (w & t0 & -> & Hh & Hw).
      exists w, t0. split; [done|]. split; [|done].
      rewrite readings_app, (readings_cons r0 ctx []), Hi; cbn.
      unfold inputs_for in *. rewrite omap_app; cbn. by rewrite decide_True.
    + destruct (rule_run_table r0 ctxs (DiagnosticContext.subject ctx)) as (_ & _ & Hr).
      rewrite tr_evaluate_ignored in He by by rewrite Hr.
      injection He as <- _. by apply elem_of_nil in Hd.
  - intros t ctxs s h t0 w0 l now w Hc Hin Hsteady Hw.
    rewrite (rule_run_solo r0 ctxs t s) by auto.
    rewrite tr_is_fresh, tr_is_keep, tr_is_advance, Hin.
    apply Debounce.active_live; [done| |done|done].
    by eapply clock_inputs_before.
  - intros t ctxs ctxs' s r Hr Hc Hgap. pose proof Hc as Hc'.
    rewrite readings_app in Hc'. apply clock_ok_app in Hc' as [Hc1 Hc2].
    rewrite !(rule_run_solo r0 _ t s), readings_app, inputs_for_app by auto.
    rewrite tr_is_fresh, tr_is_keep, tr_is_advance. subst ttl. by apply Debounce.solo_forgets.
Qed.
End debounced.
