(* ===== verification/BitcoinRules.v ===== *)
(** * The Bitcoin rules: [diagnostics/rules/bitcoin/*.rs]

    Each rule is a Module with its subject state, its configuration, its
    classification of a context and [evaluate]. [no_peers] and
    [rpc_unreachable] are debounce machines; [tip_lag_or_ibd_stalled] counts
    consecutive evaluations and tracks the progress of the block download. *)

From S2P Require Import Prelude RustStr Names SharedTypes F64 CollectorTypes Observations Samples ReadModels Store Incidents Hysteresis.

(** ** [bitcoin.no_peers] *)

Module BitcoinNoPeersRule.
Definition DEFAULT_DEBOUNCE : Duration := from_secs 60.
Definition STATE_RETENTION : Duration := from_secs (60 * 60).

Module SubjectState.
Record t : Type := mk {
  first_seen_at : option Instant;
  active_emitted : bool;
  last_touched_at : option Instant;
}.
Definition default : t := mk None false None.
End SubjectState.

Record t : Type := mk {
  debounce : Duration;
  state : gmap EntityRef.t SubjectState.t;
}.

Definition with_debounce (debounce : Duration) : t := mk debounce ∅.
Definition new : t := with_debounce DEFAULT_DEBOUNCE.

Inductive Condition : Type := Firing | NotFiring | Unknown.

Definition classify (ctx : DiagnosticContext.t) (node : BitcoinNodeId.t) : Condition :=
  match StateReadModelExt.bitcoin_network (DiagnosticContext.state ctx) node with
  | None => Unknown
  | Some network =>
      match StateReadModelExt.bitcoin_peer_summary (DiagnosticContext.state ctx) node with
      | None => Unknown
      | Some peers =>
          match BitcoinNetworkState.network_active (Projected.value network) with
          | None => Unknown
          | Some network_active =>
              if negb network_active then NotFiring
              else
                match (match BitcoinNetworkState.connections_out (Projected.value network) with
                       | Some n => Some n
                       | None => BitcoinPeerSummaryState.outbound_count (Projected.value peers)
                       end) with
                | None => Unknown
                | Some outbound => if (outbound =? 0)%Z then Firing else NotFiring
                end
          end
      end
  end.

(** The closure of [retain]. *)
Definition retained (now : Instant) (entry : SubjectState.t) : bool :=
  if SubjectState.active_emitted entry then true
  else match SubjectState.last_touched_at entry with
       | Some ts => (saturating_duration_since now ts <? STATE_RETENTION)%Z
       | None => true
       end.

Definition prune_stale (state : gmap EntityRef.t SubjectState.t) (now : Instant) :
    gmap EntityRef.t SubjectState.t :=
  filter (λ kv, retained now kv.2 = true) state.

Definition build_draft (subject : EntityRef.t) (status : SignalStatus.t) :
    IncidentSignalDraft.t :=
  let kind := IncidentKind.from_well_known well_known_incident.BITCOIN_NO_PEERS in {|
    IncidentSignalDraft.subject := subject;
    IncidentSignalDraft.signal := SignalName.for_incident_kind kind;
    IncidentSignalDraft.kind := kind;
    IncidentSignalDraft.dimension := None;
    IncidentSignalDraft.severity := SignalSeverity.Critical;
    IncidentSignalDraft.status := status;
    IncidentSignalDraft.confidence := Confidence.High;
    IncidentSignalDraft.evidence := [];
  |}.

(** The [match condition], on the subject's entry. *)
Definition advance (debounce : Duration) (entry : SubjectState.t) (now : Instant)
    (condition : Condition) : SubjectState.t * list SignalStatus.t :=
  match condition with
  | Firing =>
      let first := match SubjectState.first_seen_at entry with
                   | Some ts => ts
                   | None => now
                   end in
      let held := saturating_duration_since now first in
      if negb (SubjectState.active_emitted entry) && (debounce <=? held)%Z then
        (SubjectState.mk (Some first) true (SubjectState.last_touched_at entry),
         [SignalStatus.Active])
      else
        (SubjectState.mk (Some first) (SubjectState.active_emitted entry)
           (SubjectState.last_touched_at entry), [])
  | NotFiring =>
      if SubjectState.active_emitted entry then
        (SubjectState.mk None false (SubjectState.last_touched_at entry),
         [SignalStatus.Cleared])
      else (SubjectState.mk None false (SubjectState.last_touched_at entry), [])
  | Unknown => (entry, [])
  end.

Definition evaluate (r : t) (ctx : DiagnosticContext.t) :
    Result (list IncidentSignalDraft.t) string * t :=
  match DiagnosticContext.subject ctx with
  | EntityRef.BitcoinNode node_id =>
      let condition := classify ctx node_id in
      let now := DiagnosticContext.monotonic_now ctx in
      let st := prune_stale (state r) now in
      let entry := default SubjectState.default (st !! DiagnosticContext.subject ctx) in
      let entry := SubjectState.mk (SubjectState.first_seen_at entry)
                     (SubjectState.active_emitted entry) (Some now) in
      let '(entry, statuses) := advance (debounce r) entry now condition in
      (Ok (build_draft (DiagnosticContext.subject ctx) <$> statuses),
       mk (debounce r) (<[DiagnosticContext.subject ctx := entry]> st))
  | _ => (Ok [], r)
  end.

#[global] Instance rule : DiagnosticRule t := {
  rule_id _ := "bitcoin.no_peers";
  evaluate := evaluate;
}.

(** ** As a debounce machine *)

Definition view (e : SubjectState.t) : Debounce.entry := {|
  Debounce.since := SubjectState.first_seen_at e;
  Debounce.alarmed := SubjectState.active_emitted e;
  Debounce.touched := SubjectState.last_touched_at e;
|}.

Definition to_input (debounce : Duration) (c : Condition) : Debounce.input :=
  match c with
  | Firing => Debounce.Holds debounce
  | NotFiring => Debounce.Fails
  | Unknown => Debounce.Unknown
  end.

(** What a context tells about its subject. *)
Definition reading (debounce : Duration) (ctx : DiagnosticContext.t) : option Debounce.input :=
  match DiagnosticContext.subject ctx with
  | EntityRef.BitcoinNode node => Some (to_input debounce (classify ctx node))
  | _ => None
  end.

(** [evaluate]'s step on the entry, the touch included. *)
Definition step (debounce : Duration) (entry : SubjectState.t) (now : Instant)
    (c : Condition) : SubjectState.t * list SignalStatus.t :=
  advance debounce
    (SubjectState.mk (SubjectState.first_seen_at entry) (SubjectState.active_emitted entry)
       (Some now)) now c.

Lemma no_peers_view_keep now e : Debounce.keep STATE_RETENTION None now (view e) = retained now e.
Proof.
  unfold Debounce.keep, retained; cbn.
  by destruct (SubjectState.active_emitted e), (SubjectState.last_touched_at e).
Qed.

Lemma no_peers_view_step d e now c :
  Debounce.advance (view e) now (to_input d c) = (view (step d e now c).1, (step d e now c).2).
Proof.
  destruct e as [[ts|] b to], c; cbn; try done; try (by destruct b);
    by destruct (negb b && _).
Qed.

#[global] Instance table_rule : TableRule t Debounce.entry Debounce.input := {
  tr_fresh := Debounce.fresh;
  tr_keep := Debounce.keep STATE_RETENTION None;
  tr_advance := Debounce.advance;
  tr_entries r := view <$> state r;
  tr_reading r := reading (debounce r);
}.

#[global] Instance table_rule_laws : TableRuleLaws t Debounce.entry Debounce.input.
Proof.
  split; [apply Debounce.keep_antitone|done..| |].
  - intros r ctx; cbn. unfold reading, evaluate.
    by destruct (DiagnosticContext.subject ctx).
  - intros r ctx i; cbn. unfold reading, evaluate.
    destruct (DiagnosticContext.subject ctx) as [| |node|??| |??|??|??] eqn:Hs;
      try done; intros [= <-].
    rewrite (table_eval_view view SubjectState.default retained (step (debounce r))
      _ _ _ (to_input (debounce r)) _ _ _ _ eq_refl no_peers_view_keep (no_peers_view_step (debounce r))).
    unfold table_eval, prune_stale, prune, step; cbn.
    destruct (advance _ _ _ _) as [e1 o]; cbn. do 2 eexists. split_and!; [done|by apply drafts_of_fmap|done|].
    by intros ctx'.
Qed.
End BitcoinNoPeersRule.

(** ** [bitcoin.rpc_unreachable] *)

Module BitcoinRpcUnreachableRule.
Definition DEFAULT_DEBOUNCE : Duration := from_secs 60.
Definition STATE_RETENTION : Duration := from_secs (60 * 60).

Module SubjectState.
Record t : Type := mk {
  first_all_critical_at : option Instant;
  active_emitted : bool;
  last_touched_at : option Instant;
}.
Definition default : t := mk None false None.
End SubjectState.

Record t : Type := mk {
  debounce : Duration;
  state : gmap EntityRef.t SubjectState.t;
}.

Definition with_debounce (debounce : Duration) : t := mk debounce ∅.
Definition new : t := with_debounce DEFAULT_DEBOUNCE.

Definition all_four_critical (ctx : DiagnosticContext.t) : bool :=
  forallb (λ name,
    match (λ p, HealthCheckObservation.status (Projected.value p)) <$>
            HealthReadModel.current_health (DiagnosticContext.health ctx)
              (DiagnosticContext.subject ctx) (HealthTargetId.from_well_known name) with
    | Some HealthStatus.Critical => true
    | _ => false
    end) bitcoin_rpc_health.HEALTH_TARGETS.

(** The closure of [retain]. *)
Definition retained (now : Instant) (entry : SubjectState.t) : bool :=
  if SubjectState.active_emitted entry then true
  else match SubjectState.last_touched_at entry with
       | Some ts => (saturating_duration_since now ts <? STATE_RETENTION)%Z
       | None => true
       end.

Definition prune_stale (state : gmap EntityRef.t SubjectState.t) (now : Instant) :
    gmap EntityRef.t SubjectState.t :=
  filter (λ kv, retained now kv.2 = true) state.

Definition build_draft (subject : EntityRef.t) (status : SignalStatus.t) :
    IncidentSignalDraft.t :=
  let kind := IncidentKind.from_well_known well_known_incident.BITCOIN_RPC_UNREACHABLE in {|
    IncidentSignalDraft.subject := subject;
    IncidentSignalDraft.signal := SignalName.for_incident_kind kind;
    IncidentSignalDraft.kind := kind;
    IncidentSignalDraft.dimension := None;
    IncidentSignalDraft.severity := SignalSeverity.Critical;
    IncidentSignalDraft.status := status;
    IncidentSignalDraft.confidence := Confidence.High;
    IncidentSignalDraft.evidence := [];
  |}.

(** The [if all_critical], on the subject's entry. *)
Definition advance (debounce : Duration) (entry : SubjectState.t) (now : Instant)
    (all_critical : bool) : SubjectState.t * list SignalStatus.t :=
  if all_critical then
    let first := match SubjectState.first_all_critical_at entry with
                 | Some ts => ts
                 | None => now
                 end in
    let held := saturating_duration_since now first in
    if negb (SubjectState.active_emitted entry) && (debounce <=? held)%Z then
      (SubjectState.mk (Some first) true (SubjectState.last_touched_at entry),
       [SignalStatus.Active])
    else
      (SubjectState.mk (Some first) (SubjectState.active_emitted entry)
         (SubjectState.last_touched_at entry), [])
  else if SubjectState.active_emitted entry then
    (SubjectState.mk None false (SubjectState.last_touched_at entry), [SignalStatus.Cleared])
  else (SubjectState.mk None false (SubjectState.last_touched_at entry), []).

Definition evaluate (r : t) (ctx : DiagnosticContext.t) :
    Result (list IncidentSignalDraft.t) string * t :=
  match DiagnosticContext.subject ctx with
  | EntityRef.BitcoinNode _ =>
      let all_critical := all_four_critical ctx in
      let now := DiagnosticContext.monotonic_now ctx in
      let st := prune_stale (state r) now in
      let entry := default SubjectState.default (st !! DiagnosticContext.subject ctx) in
      let entry := SubjectState.mk (SubjectState.first_all_critical_at entry)
                     (SubjectState.active_emitted entry) (Some now) in
      let '(entry, statuses) := advance (debounce r) entry now all_critical in
      (Ok (build_draft (DiagnosticContext.subject ctx) <$> statuses),
       mk (debounce r) (<[DiagnosticContext.subject ctx := entry]> st))
  | _ => (Ok [], r)
  end.

#[global] Instance rule : DiagnosticRule t := {
  rule_id _ := "bitcoin.rpc_unreachable";
  evaluate := evaluate;
}.

(** ** As a debounce machine *)

Definition view (e : SubjectState.t) : Debounce.entry := {|
  Debounce.since := SubjectState.first_all_critical_at e;
  Debounce.alarmed := SubjectState.active_emitted e;
  Debounce.touched := SubjectState.last_touched_at e;
|}.

Definition to_input (debounce : Duration) (all_critical : bool) : Debounce.input :=
  if all_critical then Debounce.Holds debounce else Debounce.Fails.

(** What a context tells about its subject. *)
Definition reading (debounce : Duration) (ctx : DiagnosticContext.t) : option Debounce.input :=
  match DiagnosticContext.subject ctx with
  | EntityRef.BitcoinNode _ => Some (to_input debounce (all_four_critical ctx))
  | _ => None
  end.

(** [evaluate]'s step on the entry, the touch included. *)
Definition step (debounce : Duration) (entry : SubjectState.t) (now : Instant)
    (all_critical : bool) : SubjectState.t * list SignalStatus.t :=
  advance debounce
    (SubjectState.mk (SubjectState.first_all_critical_at entry)
       (SubjectState.active_emitted entry) (Some now)) now all_critical.

Lemma rpc_unreachable_view_keep now e : Debounce.keep STATE_RETENTION None now (view e) = retained now e.
Proof.
  unfold Debounce.keep, retained; cbn.
  by destruct (SubjectState.active_emitted e), (SubjectState.last_touched_at e).
Qed.

Lemma rpc_unreachable_view_step d e now c :
  Debounce.advance (view e) now (to_input d c) = (view (step d e now c).1, (step d e now c).2).
Proof.
  destruct e as [[ts|] b to], c; cbn; try done; try (by destruct b);
    by destruct (negb b && _).
Qed.

#[global] Instance table_rule : TableRule t Debounce.entry Debounce.input := {
  tr_fresh := Debounce.fresh;
  tr_keep := Debounce.keep STATE_RETENTION None;
  tr_advance := Debounce.advance;
  tr_entries r := view <$> state r;
  tr_reading r := reading (debounce r);
}.

#[global] Instance table_rule_laws : TableRuleLaws t Debounce.entry Debounce.input.
Proof.
  split; [apply Debounce.keep_antitone|done..| |].
  - intros r ctx; cbn. unfold reading, evaluate.
    by destruct (DiagnosticContext.subject ctx).
  - intros r ctx i; cbn. unfold reading, evaluate.
    destruct (DiagnosticContext.subject ctx) as [| |node|??| |??|??|??] eqn:Hs;
      try done; intros [= <-].
    rewrite (table_eval_view view SubjectState.default retained (step (debounce r))
      _ _ _ (to_input (debounce r)) _ _ _ _ eq_refl rpc_unreachable_view_keep (rpc_unreachable_view_step (debounce r))).
    unfold table_eval, prune_stale, prune, step; cbn.
    destruct (advance _ _ _ _) as [e1 o]; cbn. do 2 eexists. split_and!; [done|by apply drafts_of_fmap|done|].
    by intros ctx'.
Qed.
End BitcoinRpcUnreachableRule.

(** ** [bitcoin.tip_lag_or_ibd_stalled] *)

Module BitcoinTipLagOrIbdStalledRule.
Definition A1_MAX_HEADER_BLOCK_GAP : Z := 1000.
Definition A1_MIN_VERIFICATION_PROGRESS : f64 := f64_0_999.
Definition A1_MIN_PEER_COUNT : Z := 8.
Definition A2_MIN_HEADER_BLOCK_GAP : Z := A1_MAX_HEADER_BLOCK_GAP.
Definition DEFAULT_A2_FLAT_WINDOW : Duration := from_secs (5 * 60).
Definition PROGRESS_EPSILON : f64 := f64_1e_9.
Definition STATE_RETENTION : Duration := from_secs (60 * 60).

Module SubjectState.
Record t : Type := mk {
  consecutive_firing : Z;
  consecutive_clearing : Z;
  active_emitted : bool;
  last_progress : option f64;
  last_progress_change_at : option Instant;
  last_touched_at : option Instant;
}.
Definition default : t := mk 0 0 false None None None.
End SubjectState.

Record t : Type := mk {
  a2_flat_window : Duration;
  debounce_ticks : Z;
  state : gmap EntityRef.t SubjectState.t;
}.

(** The [debug_assert!] on zero ticks is not in release builds. *)
Definition with_settings (a2_flat_window : Duration) (debounce_ticks : Z) : t :=
  mk a2_flat_window debounce_ticks ∅.
Definition new : t := with_settings DEFAULT_A2_FLAT_WINDOW 2.

Inductive Classification : Type := Firing | NotFiring.

Definition a1_holds (blockchain : BitcoinBlockchainState.t)
    (peers : BitcoinPeerSummaryState.t) : bool :=
  if negb (BitcoinBlockchainState.initial_block_download blockchain) then false
  else
    let gap := u64_saturating_sub (BitcoinBlockchainState.headers blockchain)
                 (BitcoinBlockchainState.blocks blockchain) in
    (gap <? A1_MAX_HEADER_BLOCK_GAP)%Z
    && f64_gt (BitcoinBlockchainState.verification_progress blockchain)
         A1_MIN_VERIFICATION_PROGRESS
    && (A1_MIN_PEER_COUNT <=? BitcoinPeerSummaryState.peer_count peers)%Z.

(** The new progress is not within the noise of the tracked one. *)
Definition progressed (prev progress : f64) : bool :=
  f64_gt (f64_abs (f64_sub progress prev)) PROGRESS_EPSILON.

(** The [match state.last_progress]. *)
Definition track (state : SubjectState.t) (progress : f64) (now : Instant) : SubjectState.t :=
  let changed := SubjectState.mk (SubjectState.consecutive_firing state)
                   (SubjectState.consecutive_clearing state)
                   (SubjectState.active_emitted state) (Some progress) (Some now)
                   (SubjectState.last_touched_at state) in
  match SubjectState.last_progress state with
  | None => changed
  | Some prev => if progressed prev progress then changed else state
  end.

Definition update_state_and_classify (state : SubjectState.t)
    (blockchain : BitcoinBlockchainState.t) (peers : BitcoinPeerSummaryState.t)
    (now : Instant) (a2_flat_window : Duration) : SubjectState.t * Classification :=
  let state := track state (BitcoinBlockchainState.verification_progress blockchain) now in
  let last_change := default now (SubjectState.last_progress_change_at state) in
  let a1 := a1_holds blockchain peers in
  let a2 :=
    let gap := u64_saturating_sub (BitcoinBlockchainState.headers blockchain)
                 (BitcoinBlockchainState.blocks blockchain) in
    let elapsed_since_change := saturating_duration_since now last_change in
    (A2_MIN_HEADER_BLOCK_GAP <=? gap)%Z && (a2_flat_window <=? elapsed_since_change)%Z in
  (state, if a1 || a2 then Firing else NotFiring).

(** The closure of [retain]. *)
Definition retained (now : Instant) (entry : SubjectState.t) : bool :=
  if SubjectState.active_emitted entry then true
  else match SubjectState.last_touched_at entry with
       | Some ts => (saturating_duration_since now ts <? STATE_RETENTION)%Z
       | None => true
       end.

Definition prune_stale (state : gmap EntityRef.t SubjectState.t) (now : Instant) :
    gmap EntityRef.t SubjectState.t :=
  filter (λ kv, retained now kv.2 = true) state.

Definition build_draft (subject : EntityRef.t) (status : SignalStatus.t) :
    IncidentSignalDraft.t :=
  let kind :=
    IncidentKind.from_well_known well_known_incident.BITCOIN_TIP_LAG_OR_IBD_STALLED in {|
    IncidentSignalDraft.subject := subject;
    IncidentSignalDraft.signal := SignalName.for_incident_kind kind;
    IncidentSignalDraft.kind := kind;
    IncidentSignalDraft.dimension := None;
    IncidentSignalDraft.severity := SignalSeverity.Critical;
    IncidentSignalDraft.status := status;
    IncidentSignalDraft.confidence := Confidence.High;
    IncidentSignalDraft.evidence := [];
  |}.

(** The [match classification]. *)
Definition count (debounce_ticks : Z) (entry : SubjectState.t) (c : Classification) :
    SubjectState.t * list SignalStatus.t :=
  let with_counts firing clearing active :=
    SubjectState.mk firing clearing active (SubjectState.last_progress entry)
      (SubjectState.last_progress_change_at entry) (SubjectState.last_touched_at entry) in
  match c with
  | Firing =>
      let firing := u32_saturating_add (SubjectState.consecutive_firing entry) 1 in
      if negb (SubjectState.active_emitted entry) && (debounce_ticks <=? firing)%Z
      then (with_counts firing 0%Z true, [SignalStatus.Active])
      else (with_counts firing 0%Z (SubjectState.active_emitted entry), [])
  | NotFiring =>
      let clearing := u32_saturating_add (SubjectState.consecutive_clearing entry) 1 in
      if SubjectState.active_emitted entry && (debounce_ticks <=? clearing)%Z
      then (with_counts 0%Z clearing false, [SignalStatus.Cleared])
      else (with_counts 0%Z clearing (SubjectState.active_emitted entry), [])
  end.

Definition touch (entry : SubjectState.t) (now : Instant) : SubjectState.t :=
  SubjectState.mk (SubjectState.consecutive_firing entry)
    (SubjectState.consecutive_clearing entry) (SubjectState.active_emitted entry)
    (SubjectState.last_progress entry) (SubjectState.last_progress_change_at entry) (Some now).

Definition evaluate (r : t) (ctx : DiagnosticContext.t) :
    Result (list IncidentSignalDraft.t) string * t :=
  match DiagnosticContext.subject ctx with
  | EntityRef.BitcoinNode node_id =>
      match StateReadModelExt.bitcoin_blockchain (DiagnosticContext.state ctx) node_id with
      | None => (Ok [], r)
      | Some blockchain =>
          match StateReadModelExt.bitcoin_peer_summary (DiagnosticContext.state ctx) node_id with
          | None => (Ok [], r)
          | Some peers =>
              let now := DiagnosticContext.monotonic_now ctx in
              let st := prune_stale (state r) now in
              let entry := default SubjectState.default (st !! DiagnosticContext.subject ctx) in
              let entry := touch entry now in
              let '(entry, classification) :=
                update_state_and_classify entry (Projected.value blockchain)
                  (Projected.value peers) now (a2_flat_window r) in
              let '(entry, statuses) := count (debounce_ticks r) entry classification in
              (Ok (build_draft (DiagnosticContext.subject ctx) <$> statuses),
               mk (a2_flat_window r) (debounce_ticks r)
                 (<[DiagnosticContext.subject ctx := entry]> st))
          end
      end
  | _ => (Ok [], r)
  end.

#[global] Instance rule : DiagnosticRule t := {
  rule_id _ := "bitcoin.tip_lag_or_ibd_stalled";
  evaluate := evaluate;
}.

(** ** As a table *)

(** One reading of a subject, with the rule's settings. *)
Module Reading.
Record t : Type := mk {
  blockchain : BitcoinBlockchainState.t;
  peers : BitcoinPeerSummaryState.t;
  flat_window : Duration;
  ticks : Z;
}.
Definition progress (i : t) : f64 :=
  BitcoinBlockchainState.verification_progress (blockchain i).
End Reading.

Definition classify (e : SubjectState.t) (now : Instant) (i : Reading.t) :
    SubjectState.t * Classification :=
  update_state_and_classify (touch e now) (Reading.blockchain i) (Reading.peers i) now
    (Reading.flat_window i).

Definition advance (e : SubjectState.t) (now : Instant) (i : Reading.t) :
    SubjectState.t * list SignalStatus.t :=
  count (Reading.ticks i) (classify e now i).1 (classify e now i).2.

Definition reading (r : t) (ctx : DiagnosticContext.t) : option Reading.t :=
  match DiagnosticContext.subject ctx with
  | EntityRef.BitcoinNode node_id =>
      blockchain ← StateReadModelExt.bitcoin_blockchain (DiagnosticContext.state ctx) node_id;
      peers ← StateReadModelExt.bitcoin_peer_summary (DiagnosticContext.state ctx) node_id;
      Some (Reading.mk (Projected.value blockchain) (Projected.value peers)
              (a2_flat_window r) (debounce_ticks r))
  | _ => None
  end.

#[global] Instance table_rule : TableRule t SubjectState.t Reading.t := {
  tr_fresh := SubjectState.default;
  tr_keep := retained;
  tr_advance := advance;
  tr_entries := state;
  tr_reading := reading;
}.

#[local] Arguments update_state_and_classify : simpl never.
#[local] Arguments count : simpl never.

#[global] Instance table_rule_laws : TableRuleLaws t SubjectState.t Reading.t.
Proof.
  split; [|done..| |].
  - intros t1 t2 e Hle; cbn. unfold retained, saturating_duration_since.
    destruct (SubjectState.active_emitted e); [done|].
    destruct (SubjectState.last_touched_at e); [|done]. rewrite !Z.ltb_lt. lia.
  - intros r ctx; cbn. unfold reading, evaluate.
    destruct (DiagnosticContext.subject ctx); try done.
    destruct (StateReadModelExt.bitcoin_blockchain _ _); cbn; [|done].
    by destruct (StateReadModelExt.bitcoin_peer_summary _ _).
  - intros r ctx i; cbn. unfold reading, evaluate.
    destruct (DiagnosticContext.subject ctx) eqn:Hs; try done.
    destruct (StateReadModelExt.bitcoin_blockchain _ _) as [bc|]; cbn; [|done].
    destruct (StateReadModelExt.bitcoin_peer_summary _ _) as [ps|]; cbn; [|done].
    intros [= <-]. unfold table_eval, advance, classify, prune_stale, prune; cbn.
    destruct (update_state_and_classify _ _ _ _ _) as [e1 c]; cbn.
    destruct (count _ e1 c) as [e2 o]; cbn. do 2 eexists. split_and!; [done|by apply drafts_of_fmap|done|].
    by intros ctx'.
Qed.

(** ** The machine of one subject *)

#[local] Abbreviation solo := (solo_run SubjectState.default retained advance).
#[local] Abbreviation eval := (solo_eval SubjectState.default retained advance).

(** The entry an evaluation starts from, and how it classifies. *)
Definition current (e : SubjectState.t) (now : Instant) : SubjectState.t :=
  if retained now e then e else SubjectState.default.

Definition is_firing (c : Classification) : bool :=
  match c with Firing => true | NotFiring => false end.

Definition fires (e : SubjectState.t) (now : Instant) (i : Reading.t) : bool :=
  is_firing (classify (current e now) now i).2.

(** The classifications of a sequence of readings, in order. *)
Definition log (l : list (Instant * Reading.t)) : list bool :=
  (foldl (λ (acc : SubjectState.t * list bool) (x : Instant * Reading.t),
     ((eval acc.1 x.1 x.2).1, acc.2 ++ [fires acc.1 x.1 x.2]))
     (SubjectState.default, []) l).2.

(** How many of the last elements equal [b]. *)
Definition trailing (b : bool) (l : list bool) : Z :=
  Z.of_nat (length (take_while (Bool.eqb b) (reverse l))).

Lemma solo_app e l1 l2 :
  solo e (l1 ++ l2) = ((solo (solo e l1).1 l2).1, (solo e l1).2 ++ (solo (solo e l1).1 l2).2).
Proof. apply solo_run_app. Qed.

Lemma solo_snoc e l now i :
  solo e (l ++ [(now, i)])
  = ((eval (solo e l).1 now i).1, (solo e l).2 ++ (eval (solo e l).1 now i).2).
Proof. apply solo_run_snoc. Qed.

Lemma log_snoc l now i :
  log (l ++ [(now, i)]) = log l ++ [fires (solo SubjectState.default l).1 now i].
Proof.
  unfold log. rewrite foldl_app; cbn. f_equal. f_equal. f_equal.
  induction l as [|[n j] l IH] using rev_ind; [done|].
  rewrite foldl_app, solo_snoc; cbn. by rewrite IH.
Qed.

Lemma trailing_snoc_same b l : trailing b (l ++ [b]) = (trailing b l + 1)%Z.
Proof.
  unfold trailing. rewrite reverse_snoc; cbn. rewrite Bool.eqb_reflx; cbn. lia.
Qed.

Lemma trailing_snoc_other b l : trailing b (l ++ [negb b]) = 0%Z.
Proof. unfold trailing. rewrite reverse_snoc; cbn. by destruct b. Qed.

Lemma trailing_nonneg b l : (0 ≤ trailing b l)%Z.
Proof. unfold trailing. lia. Qed.

(** [classify] leaves the counters and the flag alone. *)
Lemma classify_counts e now i :
  let e' := (classify e now i).1 in
  SubjectState.consecutive_firing e' = SubjectState.consecutive_firing e ∧
  SubjectState.consecutive_clearing e' = SubjectState.consecutive_clearing e ∧
  SubjectState.active_emitted e' = SubjectState.active_emitted e ∧
  SubjectState.last_touched_at e' = Some now.
Proof.
  unfold classify, update_state_and_classify, track; cbn.
  destruct (SubjectState.last_progress _); cbn; [by destruct (progressed _ _)|done].
Qed.

Lemma current_bounded e now f c :
  (0 ≤ SubjectState.consecutive_firing e ≤ f)%Z ∧
  (0 ≤ SubjectState.consecutive_clearing e ≤ c)%Z →
  (0 ≤ SubjectState.consecutive_firing (current e now) ≤ f)%Z ∧
  (0 ≤ SubjectState.consecutive_clearing (current e now) ≤ c)%Z.
Proof. unfold current. destruct (retained now e); [done|cbn]. lia. Qed.

(** The counters never exceed the runs they count. *)
Lemma counters_bounded l :
  let e := (solo SubjectState.default l).1 in
  (0 ≤ SubjectState.consecutive_firing e ≤ trailing true (log l))%Z ∧
  (0 ≤ SubjectState.consecutive_clearing e ≤ trailing false (log l))%Z.
Proof.
  induction l as [|[now i] l IH] using rev_ind; [done|]. cbn zeta in *.
  rewrite solo_snoc, log_snoc; cbn [fst]. set (e := (solo SubjectState.default l).1) in *.
  apply (current_bounded e now) in IH.
  unfold solo_eval, fires, advance. fold (current e now).
  pose proof (classify_counts (current e now) now i) as (Hf & Hc & _ & _).
  destruct (classify (current e now) now i) as [e1 c]; cbn [fst snd] in *.
  unfold count, u32_saturating_add. destruct c; cbn [is_firing].
  - rewrite trailing_snoc_same, (trailing_snoc_other false).
    destruct (_ && _); cbn; lia.
  - rewrite (trailing_snoc_other true), trailing_snoc_same.
    destruct (_ && _); cbn; lia.
Qed.

(** What a signal says of the classifications so far. *)
Lemma signal_safe l now i st :
  st ∈ (eval (solo SubjectState.default l).1 now i).2 →
  (Reading.ticks i
    ≤ trailing (match st with SignalStatus.Active => true | SignalStatus.Cleared => false end)
        (log (l ++ [(now, i)])))%Z.
Proof.
  rewrite log_snoc. pose proof (counters_bounded l) as Hb. cbn zeta in *.
  set (e := (solo SubjectState.default l).1) in *.
  apply (current_bounded e now) in Hb.
  unfold solo_eval, fires, advance. fold (current e now).
  pose proof (classify_counts (current e now) now i) as (Hf & Hc & _ & _).
  destruct (classify (current e now) now i) as [e1 c]; cbn [fst snd] in *.
  unfold count, u32_saturating_add. destruct c; cbn [is_firing];
    (destruct (_ && _) eqn:E; cbn; [|by intros ?%elem_of_nil]);
    intros ->%list_elem_of_singleton; apply andb_prop in E as [_ E%Z.leb_le];
    rewrite trailing_snoc_same; lia.
Qed.

(** The progress seen at [t0] has not moved beyond the noise since. *)
Definition flat_since (h : list (Instant * Reading.t)) (t0 : Instant) : Prop :=
  ∃ h1 i0 h2, h = h1 ++ (t0, i0) :: h2 ∧
    Forall (λ x, progressed (Reading.progress i0) (Reading.progress x.2) = false) h2.

(** The tracked progress and since when it is the tracked one. *)
Definition tracks (h : list (Instant * Reading.t)) (e : SubjectState.t) : Prop :=
  match SubjectState.last_progress e with
  | None => SubjectState.last_progress_change_at e = None
  | Some p => ∃ t0 h1 i0 h2, SubjectState.last_progress_change_at e = Some t0 ∧
      p = Reading.progress i0 ∧ h = h1 ++ (t0, i0) :: h2 ∧
      Forall (λ x, progressed p (Reading.progress x.2) = false) h2
  end.

Lemma classify_tracks h e now i :
  tracks h e → tracks (h ++ [(now, i)]) (classify e now i).1.
Proof.
  intros Ht. unfold classify, update_state_and_classify, track; cbn.
  assert (Hnew : ∃ t0 h1 i0 h2, Some now = Some t0 ∧
    Reading.progress i = Reading.progress i0 ∧ h ++ [(now, i)] = h1 ++ (t0, i0) :: h2 ∧
    Forall (λ x, progressed (Reading.progress i) (Reading.progress x.2) = false) h2).
  { by exists now, h, i, []. }
  unfold tracks in *.
  destruct (SubjectState.last_progress e) as [p|] eqn:Hp; cbn; [|exact Hnew].
  destruct (progressed p _) eqn:Hpr; cbn; [exact Hnew|]. rewrite Hp; cbn.
  destruct Ht as (t0 & h1 & i0 & h2 & -> & -> & -> & Hf).
  exists t0, h1, i0, (h2 ++ [(now, i)]). split_and!; [done|done|by rewrite <-app_assoc|].
  apply Forall_app. split; [done|]. by constructor.
Qed.

Lemma current_tracks h e now : tracks h e → tracks h (current e now).
Proof. unfold current. by destruct (retained now e). Qed.

Lemma solo_tracks h : tracks h (solo SubjectState.default h).1.
Proof.
  induction h as [|[now i] h IH] using rev_ind; [done|].
  rewrite solo_snoc; cbn [fst]. unfold solo_eval, advance.
  fold (current (solo SubjectState.default h).1 now).
  apply (current_tracks _ _ now) in IH. apply (classify_tracks _ _ now i) in IH.
  destruct (classify _ now i) as [e1 c]; cbn [fst snd] in *.
  unfold count. destruct c; by destruct (_ && _).
Qed.

(** A firing classification is one of the two catalogued patterns: the tip
    lag the node reports itself, or a download that is far behind and has
    not moved for the window. *)
Lemma fires_sound h now i :
  fires (solo SubjectState.default h).1 now i = true →
  a1_holds (Reading.blockchain i) (Reading.peers i) = true ∨
  (A2_MIN_HEADER_BLOCK_GAP
    ≤ u64_saturating_sub (BitcoinBlockchainState.headers (Reading.blockchain i))
        (BitcoinBlockchainState.blocks (Reading.blockchain i)))%Z ∧
  ∃ t0, flat_since (h ++ [(now, i)]) t0 ∧
        (Reading.flat_window i ≤ saturating_duration_since now t0)%Z.
Proof.
  unfold fires. pose proof (solo_tracks h) as Ht.
  apply (current_tracks _ _ now) in Ht. set (e := current _ now) in *. clearbody e.
  apply (classify_tracks _ _ now i) in Ht.
  unfold classify, update_state_and_classify in *; cbn [fst snd] in *.
  set (e1 := track _ _ _) in *.
  destruct (a1_holds _ _); [by left|]. cbn [orb].
  destruct (_ && _) eqn:E; [|done]. intros _.
  apply andb_prop in E as [Hgap%Z.leb_le Hwin%Z.leb_le]. right. split; [done|].
  assert (is_Some (SubjectState.last_progress e1)) as [p Hp].
  { subst e1. unfold track. cbn. destruct (SubjectState.last_progress e) eqn:Hl; cbn; [|eauto].
    destruct (progressed _ _); cbn; rewrite ?Hl; eauto. }
  unfold tracks in Ht. rewrite Hp in Ht.
  destruct Ht as (t0 & h1 & i0 & h2 & Hc & -> & Heq & Hf).
  rewrite Hc in Hwin; cbn in Hwin. exists t0. split; [|done]. by exists h1, i0, h2.
Qed.

(** Readings close enough together for entries to survive. *)
Fixpoint steady (t : Instant) (l : list (Instant * Reading.t)) : Prop :=
  match l with
  | [] => True
  | (now, _) :: l' => (t ≤ now < t + STATE_RETENTION)%Z ∧ steady now l'
  end.

Lemma current_recent e t now :
  SubjectState.last_touched_at e = Some t → (t ≤ now < t + STATE_RETENTION)%Z →
  current e now = e.
Proof.
  intros Ht Hle. unfold current, retained, saturating_duration_since. rewrite Ht.
  destruct (SubjectState.active_emitted e); [done|].
  destruct (Z.ltb_spec (Z.max 0 (now - t)) STATE_RETENTION); [done|lia].
Qed.

(** The classifications of further readings from a given entry. *)
Fixpoint all_class (b : bool) (e : SubjectState.t) (l : list (Instant * Reading.t)) : Prop :=
  match l with
  | [] => True
  | (now, i) :: l' => fires e now i = b ∧ all_class b (eval e now i).1 l'
  end.

(** A condition that stays on one side long enough ends up reported there. *)
Lemma settles b e t l k :
  SubjectState.last_touched_at e = Some t → steady t l → all_class b e l →
  Forall (λ x, Reading.ticks x.2 = k) l → (k ≤ u32_max)%Z →
  (k ≤ (if b then SubjectState.consecutive_firing e else SubjectState.consecutive_clearing e)
       + Z.of_nat (length l))%Z →
  (0 ≤ (if b then SubjectState.consecutive_firing e else SubjectState.consecutive_clearing e))%Z →
  l ≠ [] →
  SubjectState.active_emitted (solo e l).1 = b.
Proof.
  revert e t. induction l as [|[now i] l IH]; intros e t Ht Hs Hc Hk Hmax Hle H0 Hne; [done|].
  destruct Hs as [Hnow Hs], Hc as [Hfire Hc]. apply Forall_cons in Hk as [Hki Hk]. cbn in Hki.
  cbn [solo_run]. unfold fires in Hfire. unfold solo_eval in *. fold (current e now) in *.
  rewrite (current_recent e t) in Hfire, Hc |- * by done. unfold advance in *.
  pose proof (classify_counts e now i) as (Hf & Hcl & Ha & Hto). cbn zeta in *.
  destruct (classify e now i) as [e1 c]; cbn [fst snd] in *.
  assert (Hstep : let e2 := (count (Reading.ticks i) e1 c).1 in
    SubjectState.last_touched_at e2 = Some now ∧
    (if b then SubjectState.consecutive_firing e2 else SubjectState.consecutive_clearing e2)
    = Z.min u32_max ((if b then SubjectState.consecutive_firing e
                      else SubjectState.consecutive_clearing e) + 1) ∧
    ((k ≤ (if b then SubjectState.consecutive_firing e
           else SubjectState.consecutive_clearing e) + 1)%Z →
     SubjectState.active_emitted e2 = b)).
  { unfold count, u32_saturating_add. subst b. rewrite Hki.
    destruct c; cbn [is_firing] in *; rewrite ?Hf, ?Hcl, ?Ha;
      destruct (SubjectState.active_emitted e), (k <=? _)%Z eqn:E; cbn;
      (split_and!; [done|done|]); intros ?; try done; apply Z.leb_gt in E; lia. }
  destruct (count (Reading.ticks i) e1 c) as [e2 o]; cbn [fst] in *. cbn zeta in Hstep.
  destruct Hstep as (Ht2 & Hn & Hfin).
  destruct l as [|x l].
  - cbn. apply Hfin. cbn in Hle. lia.
  - specialize (IH e2 now Ht2 Hs Hc Hk Hmax). cbn [length] in *.
    destruct (solo_run _ _ _ e2 (x :: l)) as [e3 os]; cbn [fst] in *.
    apply IH; [lia|lia|done].
Qed.

Lemma current_active e now :
  SubjectState.active_emitted (current e now) = SubjectState.active_emitted e.
Proof.
  unfold current, retained. destruct (SubjectState.active_emitted e) eqn:Ha; [done|].
  by destruct (SubjectState.last_touched_at e); [case_match|].
Qed.

(** One evaluation emits a signal exactly when it flips the flag. *)
Lemma eval_signal e now i :
  (eval e now i).2 =
  match SubjectState.active_emitted e, SubjectState.active_emitted (eval e now i).1 with
  | false, true => [SignalStatus.Active]
  | true, false => [SignalStatus.Cleared]
  | _, _ => []
  end.
Proof.
  unfold solo_eval, advance. fold (current e now). rewrite <-(current_active e now).
  pose proof (classify_counts (current e now) now i) as (_ & _ & <- & _).
  destruct (classify (current e now) now i) as [e1 c]; cbn [fst snd].
  unfold count. destruct c, (SubjectState.active_emitted e1) eqn:Ha; cbn;
    try (destruct (_ <=? _)%Z; cbn); by rewrite ?Ha.
Qed.

Lemma tip_lag_solo_alternates e l :
  Debounce.alternates (SubjectState.active_emitted e) (solo e l).2 = true.
Proof.
  revert e. induction l as [|[now i] l IH]; intros e; [done|]. cbn [solo_run].
  pose proof (eval_signal e now i) as Hs. specialize (IH (eval e now i).1).
  destruct (eval e now i) as [e1 o]; cbn [fst snd] in *.
  destruct (solo e1 l) as [e2 os]; cbn [snd] in *. subst o.
  by destruct (SubjectState.active_emitted e), (SubjectState.active_emitted e1).
Qed.

Lemma last_signal l :
  last (solo SubjectState.default l).2 = Some SignalStatus.Active ↔
  SubjectState.active_emitted (solo SubjectState.default l).1 = true.
Proof.
  induction l as [|[now i] l IH] using rev_ind; [done|].
  rewrite solo_snoc; cbn [fst snd]. rewrite eval_signal.
  destruct (SubjectState.active_emitted (solo _ l).1), (SubjectState.active_emitted _);
    rewrite ?app_nil_r, ?last_snoc; try done; rewrite IH; done.
Qed.

Lemma eval_touched e now i : SubjectState.last_touched_at (eval e now i).1 = Some now.
Proof.
  unfold solo_eval, advance. fold (current e now).
  pose proof (classify_counts (current e now) now i) as (_ & _ & _ & Ht).
  destruct (classify (current e now) now i) as [e1 c]; cbn [fst snd] in *.
  unfold count. destruct c; by destruct (_ && _).
Qed.

(** Every reading of a rule carries its settings. *)
Lemma readings_settings r ctxs s :
  Forall (λ x, Reading.ticks x.2 = debounce_ticks r ∧ Reading.flat_window x.2 = a2_flat_window r)
    (inputs_for s (readings r ctxs)).
Proof.
  induction ctxs as [|ctx ctxs IH]; [constructor|]. rewrite readings_cons. unfold inputs_for.
  rewrite omap_app. apply Forall_app. split; [|exact IH]. cbn [tr_reading table_rule].
  unfold reading. destruct (DiagnosticContext.subject ctx); try by constructor.
  destruct (StateReadModelExt.bitcoin_blockchain _ _); cbn; [|constructor].
  destruct (StateReadModelExt.bitcoin_peer_summary _ _); cbn; [|constructor].
  case_decide; by repeat constructor.
Qed.
End BitcoinTipLagOrIbdStalledRule.

(** ** Properties *)

(** [bitcoin.no_peers] is a debounced alarm. Per subject, however the
    evaluations of several nodes interleave and however idle entries are
    pruned: its signals strictly alternate between active and cleared; it
    raises only after zero outbound peers with networking on was seen and not
    contradicted for the whole debounce window; and a node that stays in that
    condition for the window, looked at more than once per retention period,
    is reported. Missing inputs neither raise, clear nor restart the window. *)
Theorem no_peers_debounced debounce :
  debounced BitcoinNoPeersRule.STATE_RETENTION None (BitcoinNoPeersRule.with_debounce debounce).
Proof. apply debounced_intro; done. Qed.

(** [bitcoin.rpc_unreachable] is a debounced alarm in the same sense, over
    the reading that all four RPC health targets are critical; a target that
    is missing counts against it and ends the window. *)
Theorem rpc_unreachable_debounced debounce :
  debounced BitcoinRpcUnreachableRule.STATE_RETENTION None
    (BitcoinRpcUnreachableRule.with_debounce debounce).
Proof. apply debounced_intro; done. Qed.

Module TipLag := BitcoinTipLagOrIbdStalledRule.

(** [bitcoin.tip_lag_or_ibd_stalled] flips only on agreement: per subject
    its signals strictly alternate, an active signal follows at least
    [debounce_ticks] consecutive firing classifications and a cleared one at
    least as many consecutive non-firing ones; and when the classifications of
    a subject stay on one side for that many evaluations, none of them later
    than the retention period after the one before, the rule ends up
    reporting that side. *)
Theorem tip_lag_hysteresis window ticks t ctxs s :
  (ticks ≤ u32_max)%Z →
  let r0 := TipLag.with_settings window ticks in
  let h := inputs_for s (readings r0 ctxs) in
  clock_ok t (readings r0 ctxs) →
  Debounce.alternates false (statuses_for s (rule_run r0 ctxs).2) = true ∧
  (∀ h0 now i st, h = h0 ++ [(now, i)] →
     st ∈ (solo_eval TipLag.SubjectState.default TipLag.retained TipLag.advance
             (solo_run TipLag.SubjectState.default TipLag.retained TipLag.advance
                TipLag.SubjectState.default h0).1 now i).2 →
     (ticks ≤ TipLag.trailing
        (match st with SignalStatus.Active => true | SignalStatus.Cleared => false end)
        (TipLag.log h))%Z) ∧
  (∀ b h0 t0 i0 l, h = h0 ++ (t0, i0) :: l → l ≠ [] → (ticks ≤ Z.of_nat (length l))%Z →
     TipLag.steady t0 l →
     TipLag.all_class b
       (solo_run TipLag.SubjectState.default TipLag.retained TipLag.advance
          TipLag.SubjectState.default (h0 ++ [(t0, i0)])).1 l →
     last (statuses_for s (rule_run r0 ctxs).2) = Some SignalStatus.Active ↔ b = true).
Proof.
  intros Hmax r0 h Hc.
  pose proof (rule_run_solo r0 ctxs t s Hc (lookup_empty _)) as Hrun.
  pose proof (TipLag.readings_settings r0 ctxs s) as Hset.
  change (tr_fresh) with TipLag.SubjectState.default in Hrun. cbn [tr_keep tr_advance TipLag.table_rule] in Hrun.
  fold h in Hrun, Hset. clearbody h. rewrite Hrun. split_and!.
  - apply (TipLag.tip_lag_solo_alternates TipLag.SubjectState.default).
  - intros h0 now i st -> Hin. apply TipLag.signal_safe in Hin.
    apply Forall_app in Hset as [_ Hset]. apply Forall_cons in Hset as [[Hi _] _]. cbn in Hi.
    by rewrite <-Hi.
  - intros b h0 t0 i0 l -> Hne Hlen Hst Hcl. rewrite TipLag.last_signal.
    rewrite cons_middle, app_assoc in Hset |- *.
    pose proof (TipLag.counters_bounded (h0 ++ [(t0, i0)])) as [Hb1 Hb2]. cbn zeta in *.
    assert (TipLag.SubjectState.active_emitted (solo_run TipLag.SubjectState.default
      TipLag.retained TipLag.advance TipLag.SubjectState.default ((h0 ++ [(t0, i0)]) ++ l)).1 = b)
      as ->; [|by destruct b].
    rewrite TipLag.solo_app; cbn [fst].
    apply (TipLag.settles b _ t0 l ticks); try done.
    + rewrite TipLag.solo_snoc; cbn [fst]. apply TipLag.eval_touched.
    + apply Forall_app in Hset as [_ Hset]. eapply Forall_impl; [exact Hset|]. by intros x [? _].
    + destruct b; lia.
    + destruct b; lia.
Qed.

(** A firing classification means one of the two catalogued patterns. Either
    the node says it is downloading while it is within 1000 blocks of the
    headers, verified beyond 0.999 and has at least 8 peers; or it is at least
    1000 blocks behind and, since some reading at least a flat window ago, no
    later reading of the node moved its progress by more than the noise. *)
Theorem tip_lag_firing_sound h now i :
  let gap := u64_saturating_sub (BitcoinBlockchainState.headers (TipLag.Reading.blockchain i))
               (BitcoinBlockchainState.blocks (TipLag.Reading.blockchain i)) in
  TipLag.fires (solo_run TipLag.SubjectState.default TipLag.retained TipLag.advance
                  TipLag.SubjectState.default h).1 now i = true →
  (BitcoinBlockchainState.initial_block_download (TipLag.Reading.blockchain i) = true ∧
   (gap < 1000)%Z ∧
   f64_gt (TipLag.Reading.progress i) f64_0_999 = true ∧
   (8 ≤ BitcoinPeerSummaryState.peer_count (TipLag.Reading.peers i))%Z) ∨
  ((1000 ≤ gap)%Z ∧
   ∃ t0, TipLag.flat_since (h ++ [(now, i)]) t0 ∧
         (TipLag.Reading.flat_window i ≤ saturating_duration_since now t0)%Z).
Proof.
  intros gap [Ha|Hb]%TipLag.fires_sound; [left|by right].
  unfold TipLag.a1_holds in Ha. fold gap in Ha.
  destruct (BitcoinBlockchainState.initial_block_download _); [|done]. cbn [negb] in Ha.
  apply andb_prop in Ha as [[Hg%Z.ltb_lt Hp]%andb_prop Hn%Z.leb_le]. done.
Qed.

Definition sample_stalled : TipLag.Reading.t := {|
  TipLag.Reading.blockchain :=
    BitcoinBlockchainState.mk "main" 1000 5000 None f64_0_999 true false 0;
  TipLag.Reading.peers := BitcoinPeerSummaryState.mk 9 None None None;
  TipLag.Reading.flat_window := from_secs 300;
  TipLag.Reading.ticks := 2;
|}.

Lemma tip_lag_firing_sound_witness :
  TipLag.fires (solo_run TipLag.SubjectState.default TipLag.retained TipLag.advance
                  TipLag.SubjectState.default [(0%Z, sample_stalled)]).1
    (from_secs 300) sample_stalled = true ∧
  ∃ t0, TipLag.flat_since [(0%Z, sample_stalled); (from_secs 300, sample_stalled)] t0.
Proof.
  assert (TipLag.fires (solo_run TipLag.SubjectState.default TipLag.retained TipLag.advance
                  TipLag.SubjectState.default [(0%Z, sample_stalled)]).1
    (from_secs 300) sample_stalled = true) as Hf by (vm_compute; reflexivity).
  split; [exact Hf|].
  destruct (tip_lag_firing_sound [(0%Z, sample_stalled)] (from_secs 300) sample_stalled Hf)
    as [(_ & Hg & _)|(_ & t0 & H & _)]; [vm_compute in Hg; discriminate Hg|].
  exists t0. exact H.
Defined.

(** A node that reports the stalled readings, looked at three times. *)
Definition sample_stalled_states : StateReadModel.t := {|
  StateReadModel.latest_state _ name :=
    let proj v := Some (Projected.mk v (ObservationId.new 0) 0%Z) in
    if decide (name = StateName.from_well_known well_known_state.BITCOIN_BLOCKCHAIN)
    then proj (StateObservation.BitcoinBlockchain (TipLag.Reading.blockchain sample_stalled))
    else if decide (name = StateName.from_well_known well_known_state.BITCOIN_PEER_SUMMARY)
    then proj (StateObservation.BitcoinPeerSummary (TipLag.Reading.peers sample_stalled))
    else None;
  StateReadModel.states_for _ := [];
|}.

Definition sample_diagnostic (now : Instant) (states : StateReadModel.t) :
    DiagnosticContext.t := {|
  DiagnosticContext.now := now;
  DiagnosticContext.monotonic_now := now;
  DiagnosticContext.subject := sample_subject;
  DiagnosticContext.state := states;
  DiagnosticContext.metrics := MetricReadModel.mk (λ _ _, None) (λ _ _ _, []) (λ _ _, None);
  DiagnosticContext.health := HealthReadModel.mk (λ _ _, None);
  DiagnosticContext.capabilities := CapabilityReadModel.mk (λ _ _, None) (λ _, []);
  DiagnosticContext.heartbeats := HeartbeatReadModel.mk None (λ _, []);
  DiagnosticContext.signals :=
    IncidentSignalReadModel.mk (λ _ _, None) (λ _, []) (λ _ _, []);
|}.

Lemma tip_lag_hysteresis_witness :
  let r0 := TipLag.with_settings (from_secs 300) 2 in
  let ctxs := (λ n, sample_diagnostic (from_secs n) sample_stalled_states) <$> [0; 300; 330]%Z in
  statuses_for sample_subject (rule_run r0 ctxs).2 = [SignalStatus.Active] ∧
  Debounce.alternates false (statuses_for sample_subject (rule_run r0 ctxs).2) = true.
Proof.
  cbv zeta. split; [vm_compute; reflexivity|].
  apply (tip_lag_hysteresis (from_secs 300) 2 0
    ((λ n, sample_diagnostic (from_secs n) sample_stalled_states) <$> [0; 300; 330]%Z)
    sample_subject); [lia|].
  vm_compute. repeat split; discriminate.
Defined.
