(* ===== verification/LndRules.v ===== *)
(** * The LND rules: [diagnostics/rules/lnd/*.rs]

    [channel_inactive] and [chain_backend_lag] are debounce machines whose
    alarmed entries are also dropped, a day after their last evaluation. *)

From S2P Require Import Prelude RustStr Names SharedTypes F64 CollectorTypes Observations Samples ReadModels Store Incidents Hysteresis.

(** ** [lnd.channel_inactive] *)

Module LndChannelInactiveRule.
Definition DEFAULT_PUBLIC_DEBOUNCE : Duration := from_secs (5 * 60).
Definition DEFAULT_PRIVATE_DEBOUNCE : Duration := from_secs (30 * 60).
Definition STATE_RETENTION : Duration := from_secs (60 * 60).
Definition ACTIVE_EMITTED_TTL : Duration := from_secs (24 * 60 * 60).

Module SubjectState.
Record t : Type := mk {
  first_inactive_at : option Instant;
  active_emitted : bool;
  last_touched_at : option Instant;
}.
Definition default : t := mk None false None.
End SubjectState.

Record t : Type := mk {
  public_debounce : Duration;
  private_debounce : Duration;
  state : gmap EntityRef.t SubjectState.t;
}.

Definition with_thresholds (public_debounce private_debounce : Duration) : t :=
  mk public_debounce private_debounce ∅.
Definition new : t := with_thresholds DEFAULT_PUBLIC_DEBOUNCE DEFAULT_PRIVATE_DEBOUNCE.

Definition severity_and_confidence (peer_online : option bool) :
    SignalSeverity.t * Confidence.t :=
  match peer_online with
  | Some true => (SignalSeverity.Critical, Confidence.High)
  | Some false | None => (SignalSeverity.Warning, Confidence.Medium)
  end.

Definition build_draft (subject : EntityRef.t) (status : SignalStatus.t)
    (sc : SignalSeverity.t * Confidence.t) : IncidentSignalDraft.t :=
  let kind := IncidentKind.from_well_known well_known_incident.LND_CHANNEL_INACTIVE in {|
    IncidentSignalDraft.subject := subject;
    IncidentSignalDraft.signal := SignalName.for_incident_kind kind;
    IncidentSignalDraft.kind := kind;
    IncidentSignalDraft.dimension := None;
    IncidentSignalDraft.severity := sc.1;
    IncidentSignalDraft.status := status;
    IncidentSignalDraft.confidence := sc.2;
    IncidentSignalDraft.evidence := [];
  |}.

(** The closure of [retain]. *)
Definition retained (now : Instant) (entry : SubjectState.t) : bool :=
  let retention := if SubjectState.active_emitted entry then ACTIVE_EMITTED_TTL
                   else STATE_RETENTION in
  match SubjectState.last_touched_at entry with
  | Some ts => (saturating_duration_since now ts <? retention)%Z
  | None => true
  end.

Definition prune_stale (state : gmap EntityRef.t SubjectState.t) (now : Instant) :
    gmap EntityRef.t SubjectState.t :=
  filter (λ kv, retained now kv.2 = true) state.

(** The [if channel_state.active], on the subject's entry. *)
Definition advance (r : t) (entry : SubjectState.t) (now : Instant)
    (channel_state : LndChannelState.t) : SubjectState.t * list SignalStatus.t :=
  if LndChannelState.active channel_state then
    if SubjectState.active_emitted entry then
      (SubjectState.mk None false (SubjectState.last_touched_at entry), [SignalStatus.Cleared])
    else (SubjectState.mk None false (SubjectState.last_touched_at entry), [])
  else
    let first := match SubjectState.first_inactive_at entry with
                 | Some ts => ts
                 | None => now
                 end in
    let held := saturating_duration_since now first in
    let debounce := if LndChannelState.private channel_state then private_debounce r
                    else public_debounce r in
    if negb (SubjectState.active_emitted entry) && (debounce <=? held)%Z then
      (SubjectState.mk (Some first) true (SubjectState.last_touched_at entry),
       [SignalStatus.Active])
    else
      (SubjectState.mk (Some first) (SubjectState.active_emitted entry)
         (SubjectState.last_touched_at entry), []).

(** The channel state the rule looks at, if there is one. *)
Definition channel_of (ctx : DiagnosticContext.t) : option LndChannelState.t :=
  match DiagnosticContext.subject ctx with
  | EntityRef.LndChannel _ _ =>
      match StateReadModel.latest_state (DiagnosticContext.state ctx)
              (DiagnosticContext.subject ctx)
              (StateName.from_well_known well_known_state.LND_CHANNEL_DETAIL) with
      | Some snapshot =>
          match Projected.value snapshot with
          | StateObservation.LndChannel c => Some c
          | _ => None
          end
      | None => None
      end
  | _ => None
  end.

Definition evaluate (r : t) (ctx : DiagnosticContext.t) :
    Result (list IncidentSignalDraft.t) string * t :=
  match channel_of ctx with
  | None => (Ok [], r)
  | Some channel_state =>
      let now := DiagnosticContext.monotonic_now ctx in
      let st := prune_stale (state r) now in
      let entry := default SubjectState.default (st !! DiagnosticContext.subject ctx) in
      let entry := SubjectState.mk (SubjectState.first_inactive_at entry)
                     (SubjectState.active_emitted entry) (Some now) in
      let '(entry, statuses) := advance r entry now channel_state in
      (Ok ((λ status, build_draft (DiagnosticContext.subject ctx) status
              (severity_and_confidence (LndChannelState.peer_online channel_state)))
           <$> statuses),
       mk (public_debounce r) (private_debounce r)
         (<[DiagnosticContext.subject ctx := entry]> st))
  end.

#[global] Instance rule : DiagnosticRule t := {
  rule_id _ := "lnd.channel_inactive";
  evaluate := evaluate;
}.

(** ** As a debounce machine *)

Definition view (e : SubjectState.t) : Debounce.entry := {|
  Debounce.since := SubjectState.first_inactive_at e;
  Debounce.alarmed := SubjectState.active_emitted e;
  Debounce.touched := SubjectState.last_touched_at e;
|}.

Definition to_input (r : t) (c : LndChannelState.t) : Debounce.input :=
  if LndChannelState.active c then Debounce.Fails
  else Debounce.Holds (if LndChannelState.private c then private_debounce r
                       else public_debounce r).

(** [evaluate]'s step on the entry, the touch included. *)
Definition step (r : t) (entry : SubjectState.t) (now : Instant)
    (c : LndChannelState.t) : SubjectState.t * list SignalStatus.t :=
  advance r
    (SubjectState.mk (SubjectState.first_inactive_at entry)
       (SubjectState.active_emitted entry) (Some now)) now c.

Lemma channel_inactive_view_keep now e :
  Debounce.keep STATE_RETENTION (Some ACTIVE_EMITTED_TTL) now (view e) = retained now e.
Proof.
  unfold Debounce.keep, retained; cbn.
  by destruct (SubjectState.active_emitted e), (SubjectState.last_touched_at e).
Qed.

Lemma channel_inactive_view_step r e now c :
  Debounce.advance (view e) now (to_input r c) = (view (step r e now c).1, (step r e now c).2).
Proof.
  unfold step, advance, to_input. destruct e as [[ts|] b to], (LndChannelState.active c); cbn;
    try (by destruct b); by destruct (negb b && _).
Qed.

#[global] Instance table_rule : TableRule t Debounce.entry Debounce.input := {
  tr_fresh := Debounce.fresh;
  tr_keep := Debounce.keep STATE_RETENTION (Some ACTIVE_EMITTED_TTL);
  tr_advance := Debounce.advance;
  tr_entries r := view <$> state r;
  tr_reading r ctx := to_input r <$> channel_of ctx;
}.

#[local] Arguments advance : simpl never.

#[global] Instance table_rule_laws : TableRuleLaws t Debounce.entry Debounce.input.
Proof.
  split; [apply Debounce.keep_antitone| |].
  - intros r ctx; cbn. unfold evaluate. by destruct (channel_of ctx).
  - intros r ctx i; cbn. unfold evaluate.
    destruct (channel_of ctx) as [c|] eqn:Hc; cbn; [|done]. intros [= <-].
    rewrite (table_eval_view view SubjectState.default retained (step r)
      _ _ _ (to_input r) _ _ _ _ eq_refl channel_inactive_view_keep (channel_inactive_view_step r)).
    unfold table_eval, prune_stale, prune, step; cbn.
    destruct (advance _ _ _ _) as [e1 o]; cbn. do 2 eexists.
    split_and!; [done|by apply drafts_of_fmap|done|]. by intros ctx'.
Qed.
End LndChannelInactiveRule.

(** ** [lnd.chain_backend_lag] *)

Module LndChainBackendLagRule.
Definition DEFAULT_LAG_BLOCKS_THRESHOLD : Z := 2.
Definition DEFAULT_LAG_PERSIST : Duration := from_secs 60.
Definition STATE_RETENTION : Duration := from_secs (60 * 60).
Definition ACTIVE_EMITTED_TTL : Duration := from_secs (24 * 60 * 60).
Definition DEFAULT_MAX_STATE_AGE : Duration := from_secs 90.

Module SubjectState.
Record t : Type := mk {
  first_lagged_at : option Instant;
  active_emitted : bool;
  last_touched_at : option Instant;
}.
Definition default : t := mk None false None.
End SubjectState.

Record t : Type := mk {
  correlation_target : BitcoinNodeId.t;
  lag_blocks_threshold : Z;
  lag_persist : Duration;
  state : gmap EntityRef.t SubjectState.t;
}.

Definition with_thresholds (correlation_target : BitcoinNodeId.t)
    (lag_blocks_threshold : Z) (lag_persist : Duration) : t :=
  mk correlation_target lag_blocks_threshold lag_persist ∅.
Definition new (correlation_target : BitcoinNodeId.t) : t :=
  with_thresholds correlation_target DEFAULT_LAG_BLOCKS_THRESHOLD DEFAULT_LAG_PERSIST.

Definition build_draft (subject : EntityRef.t) (status : SignalStatus.t) :
    IncidentSignalDraft.t :=
  let kind := IncidentKind.from_well_known well_known_incident.LND_CHAIN_BACKEND_LAG in {|
    IncidentSignalDraft.subject := subject;
    IncidentSignalDraft.signal := SignalName.for_incident_kind kind;
    IncidentSignalDraft.kind := kind;
    IncidentSignalDraft.dimension := None;
    IncidentSignalDraft.severity := SignalSeverity.Critical;
    IncidentSignalDraft.status := status;
    IncidentSignalDraft.confidence := Confidence.High;
    IncidentSignalDraft.evidence := [];
  |}.

(** The closure of [retain]. *)
Definition retained (now : Instant) (entry : SubjectState.t) : bool :=
  let retention := if SubjectState.active_emitted entry then ACTIVE_EMITTED_TTL
                   else STATE_RETENTION in
  match SubjectState.last_touched_at entry with
  | Some ts => (saturating_duration_since now ts <? retention)%Z
  | None => true
  end.

Definition prune_stale (state : gmap EntityRef.t SubjectState.t) (now : Instant) :
    gmap EntityRef.t SubjectState.t :=
  filter (λ kv, retained now kv.2 = true) state.

(** The two heights; [None] is one of the early returns. *)
Definition lnd_height (ctx : DiagnosticContext.t) : option Z :=
  match DiagnosticContext.subject ctx with
  | EntityRef.LndNode _ =>
      match StateReadModel.latest_state (DiagnosticContext.state ctx)
              (DiagnosticContext.subject ctx)
              (StateName.from_well_known well_known_state.LND_NODE) with
      | Some snapshot =>
          if (DEFAULT_MAX_STATE_AGE
                <? DiagnosticContext.now ctx - Projected.observed_at snapshot)%Z then None
          else match Projected.value snapshot with
               | StateObservation.LndNode s => Some (LndNodeState.block_height s)
               | _ => None
               end
      | None => None
      end
  | _ => None
  end.

Definition bitcoind_height (target : BitcoinNodeId.t) (ctx : DiagnosticContext.t) :
    option Z :=
  match StateReadModel.latest_state (DiagnosticContext.state ctx)
          (EntityRef.BitcoinNode target)
          (StateName.from_well_known well_known_state.BITCOIN_BLOCKCHAIN) with
  | Some snapshot =>
      if (DEFAULT_MAX_STATE_AGE
            <? DiagnosticContext.now ctx - Projected.observed_at snapshot)%Z then None
      else match Projected.value snapshot with
           | StateObservation.BitcoinBlockchain s => Some (BitcoinBlockchainState.blocks s)
           | _ => None
           end
  | None => None
  end.

Definition lagged (r : t) (lnd_height bitcoind_height : Z) : bool :=
  (lag_blocks_threshold r <? u64_saturating_sub bitcoind_height lnd_height)%Z.

(** The [if lagged], on the subject's entry. *)
Definition advance (lag_persist : Duration) (entry : SubjectState.t) (now : Instant)
    (lagged : bool) : SubjectState.t * list SignalStatus.t :=
  if lagged then
    let first := match SubjectState.first_lagged_at entry with
                 | Some ts => ts
                 | None => now
                 end in
    let held := saturating_duration_since now first in
    if negb (SubjectState.active_emitted entry) && (lag_persist <=? held)%Z then
      (SubjectState.mk (Some first) true (SubjectState.last_touched_at entry),
       [SignalStatus.Active])
    else
      (SubjectState.mk (Some first) (SubjectState.active_emitted entry)
         (SubjectState.last_touched_at entry), [])
  else if SubjectState.active_emitted entry then
    (SubjectState.mk None false (SubjectState.last_touched_at entry), [SignalStatus.Cleared])
  else (SubjectState.mk None false (SubjectState.last_touched_at entry), []).

Definition evaluate (r : t) (ctx : DiagnosticContext.t) :
    Result (list IncidentSignalDraft.t) string * t :=
  match lnd_height ctx with
  | None => (Ok [], r)
  | Some lnd_height =>
      match bitcoind_height (correlation_target r) ctx with
      | None => (Ok [], r)
      | Some bitcoind_height =>
          let lagged := lagged r lnd_height bitcoind_height in
          let now := DiagnosticContext.monotonic_now ctx in
          let st := prune_stale (state r) now in
          let entry := default SubjectState.default (st !! DiagnosticContext.subject ctx) in
          let entry := SubjectState.mk (SubjectState.first_lagged_at entry)
                         (SubjectState.active_emitted entry) (Some now) in
          let '(entry, statuses) := advance (lag_persist r) entry now lagged in
          (Ok (build_draft (DiagnosticContext.subject ctx) <$> statuses),
           mk (correlation_target r) (lag_blocks_threshold r) (lag_persist r)
             (<[DiagnosticContext.subject ctx := entry]> st))
      end
  end.

#[global] Instance rule : DiagnosticRule t := {
  rule_id _ := "lnd.chain_backend_lag";
  evaluate := evaluate;
}.

(** ** As a debounce machine *)

Definition view (e : SubjectState.t) : Debounce.entry := {|
  Debounce.since := SubjectState.first_lagged_at e;
  Debounce.alarmed := SubjectState.active_emitted e;
  Debounce.touched := SubjectState.last_touched_at e;
|}.

Definition to_input (lag_persist : Duration) (lagged : bool) : Debounce.input :=
  if lagged then Debounce.Holds lag_persist else Debounce.Fails.

(** What a context tells about its subject: nothing as soon as one of the
    two heights is missing or older than the age limit. *)
Definition reading (r : t) (ctx : DiagnosticContext.t) : option Debounce.input :=
  lnd ← lnd_height ctx;
  bitcoind ← bitcoind_height (correlation_target r) ctx;
  Some (to_input (lag_persist r) (lagged r lnd bitcoind)).

(** [evaluate]'s step on the entry, the touch included. *)
Definition step (lag_persist : Duration) (entry : SubjectState.t) (now : Instant)
    (lagged : bool) : SubjectState.t * list SignalStatus.t :=
  advance lag_persist
    (SubjectState.mk (SubjectState.first_lagged_at entry)
       (SubjectState.active_emitted entry) (Some now)) now lagged.

Lemma chain_lag_view_keep now e :
  Debounce.keep STATE_RETENTION (Some ACTIVE_EMITTED_TTL) now (view e) = retained now e.
Proof.
  unfold Debounce.keep, retained; cbn.
  by destruct (SubjectState.active_emitted e), (SubjectState.last_touched_at e).
Qed.

Lemma chain_lag_view_step d e now c :
  Debounce.advance (view e) now (to_input d c) = (view (step d e now c).1, (step d e now c).2).
Proof.
  destruct e as [[ts|] b to], c; cbn; try done; try (by destruct b);
    by destruct (negb b && _).
Qed.

#[global] Instance table_rule : TableRule t Debounce.entry Debounce.input := {
  tr_fresh := Debounce.fresh;
  tr_keep := Debounce.keep STATE_RETENTION (Some ACTIVE_EMITTED_TTL);
  tr_advance := Debounce.advance;
  tr_entries r := view <$> state r;
  tr_reading := reading;
}.

#[local] Arguments advance : simpl never.

#[global] Instance table_rule_laws : TableRuleLaws t Debounce.entry Debounce.input.
Proof.
  split; [apply Debounce.keep_antitone| |].
  - intros r ctx; cbn. unfold reading, evaluate.
    destruct (lnd_height ctx); cbn; [|done]. by destruct (bitcoind_height _ ctx).
  - intros r ctx i; cbn. unfold reading, evaluate.
    destruct (lnd_height ctx) as [l|]; cbn; [|done].
    destruct (bitcoind_height _ ctx) as [b|]; cbn; [|done]. intros [= <-].
    rewrite (table_eval_view view SubjectState.default retained (step (lag_persist r))
      _ _ _ (to_input (lag_persist r)) _ _ _ _ eq_refl chain_lag_view_keep (chain_lag_view_step (lag_persist r))).
    unfold table_eval, prune_stale, prune, step; cbn.
    destruct (advance _ _ _ _) as [e1 o]; cbn. do 2 eexists.
    split_and!; [done|by apply drafts_of_fmap|done|]. by intros ctx'.
Qed.
End LndChainBackendLagRule.

(** ** Properties *)

(** C30: [lnd.channel_inactive] is a debounced alarm over the channel's own
    [active] flag, with the window of its privacy (five minutes for a public
    channel and thirty for a private one by default). Per channel, however the
    evaluations of others interleave: it never clears what it did not raise; it
    raises only after the channel was seen inactive for the whole window
    without being seen active; a channel that stays inactive for the window,
    looked at more than once an hour, is reported; as long as it is looked at
    more than once a day, raises and clears strictly alternate; and a channel
    not looked at for a day is forgotten, so that from then on the rule signals
    for it like a new one, an alarm included. *)
Theorem channel_inactive_debounced public private :
  debounced (from_secs 3600) (Some (from_secs 86400))
    (LndChannelInactiveRule.with_thresholds public private) ∧
  (∀ ctx, tr_reading (LndChannelInactiveRule.with_thresholds public private) ctx
     = c ← LndChannelInactiveRule.channel_of ctx;
       Some (if LndChannelState.active c then Debounce.Fails
             else Debounce.Holds (if LndChannelState.private c then private else public))) ∧
  LndChannelInactiveRule.new
  = LndChannelInactiveRule.with_thresholds (from_secs 300) (from_secs 1800).
Proof.
  split_and!; [by apply (debounced_intro LndChannelInactiveRule.STATE_RETENTION
    (Some LndChannelInactiveRule.ACTIVE_EMITTED_TTL))| |done].
  intros ctx. cbn. by destruct (LndChannelInactiveRule.channel_of ctx).
Qed.

(** An inactive public channel, looked at at a time. *)
Definition sample_channel : LndChannelState.t :=
  LndChannelState.mk "02ab" 1000000 500000 500000 false false true 144 0 0 None None None.

Definition sample_channel_subject : EntityRef.t :=
  EntityRef.LndChannel sample_lnd (LndChannelId.mk "tx:0").

Definition sample_channel_context (at_ : Instant) : DiagnosticContext.t :=
  let store := ReadModelStore.mk StateProjection.new (MetricProjection.mk 1 ∅) HealthProjection.new
    CapabilityProjection.new (HeartbeatProjection.mk 1 []) IncidentSignalProjection.new in {|
    DiagnosticContext.now := at_;
    DiagnosticContext.monotonic_now := at_;
    DiagnosticContext.subject := sample_channel_subject;
    DiagnosticContext.state := {|
      StateReadModel.latest_state _ _ :=
        Some (Projected.mk (StateObservation.LndChannel sample_channel) (ObservationId.new 0) at_);
      StateReadModel.states_for _ := [];
    |};
    DiagnosticContext.metrics := ReadModelStore.metric_read_model store;
    DiagnosticContext.health := ReadModelStore.health_read_model store;
    DiagnosticContext.capabilities := ReadModelStore.capability_read_model store;
    DiagnosticContext.heartbeats := ReadModelStore.heartbeat_read_model store;
    DiagnosticContext.signals := ReadModelStore.incident_signal_read_model store;
  |}.

(** It is reported after five minutes, and again after a day of silence. *)
Lemma channel_inactive_debounced_witness :
  statuses_for sample_channel_subject (rule_run LndChannelInactiveRule.new
    (sample_channel_context <$> [from_secs 0; from_secs 300; from_secs 86700; from_secs 87000])).2
  = [SignalStatus.Active; SignalStatus.Active].
Proof.
  destruct (channel_inactive_debounced (from_secs 300) (from_secs 1800)) as ([_ _ _ Hforget] & _ & ->).
  change [from_secs 0; from_secs 300; from_secs 86700; from_secs 87000]
    with ([from_secs 0; from_secs 300] ++ [from_secs 86700; from_secs 87000]).
  rewrite fmap_app, (Hforget 0%Z _ _ sample_channel_subject (from_secs 86400) eq_refl);
    [reflexivity|vm_compute; repeat split; discriminate|].
  apply (bool_decide_unpack _). vm_compute. exact I.
Defined.

(** [lnd.chain_backend_lag] is a debounced alarm over the difference of two
    fresh heights: evaluations where either height is missing or older than
    the age limit count neither way, and otherwise the rule alarms exactly
    like the channel rule, on bitcoind being more than the threshold ahead. *)
Theorem chain_backend_lag_debounced target threshold persist :
  debounced LndChainBackendLagRule.STATE_RETENTION
    (Some LndChainBackendLagRule.ACTIVE_EMITTED_TTL)
    (LndChainBackendLagRule.with_thresholds target threshold persist).
Proof. apply debounced_intro; try done. Qed.

(** A channel's evaluation raises at most one draft, with the severity and
    confidence of its peer's presence. *)
Lemma channel_inactive_draft r ctx c :
  LndChannelInactiveRule.channel_of ctx = Some c →
  ∃ ds r', LndChannelInactiveRule.evaluate r ctx = (Ok ds, r') ∧ length ds ≤ 1 ∧
    Forall (λ d,
      (IncidentSignalDraft.severity d, IncidentSignalDraft.confidence d)
      = match LndChannelState.peer_online c with
        | Some true => (SignalSeverity.Critical, Confidence.High)
        | _ => (SignalSeverity.Warning, Confidence.Medium)
        end) ds.
Proof.
  intros Hc. unfold LndChannelInactiveRule.evaluate. rewrite Hc.
  destruct (LndChannelInactiveRule.advance _ _ _ _) as [e1 o] eqn:Ho.
  do 2 eexists. split; [done|]. rewrite length_fmap.
  assert (length o ≤ 1) as Hlen.
  { unfold LndChannelInactiveRule.advance in Ho. split_matches; lia. }
  split; [done|]. apply Forall_fmap, Forall_true. intros st; cbn.
  by destruct (LndChannelState.peer_online c) as [[]|].
Qed.
