(* ===== verification/Storage.v ===== *)
(** * Storage: [storage/traits.rs], [incidents/repository.rs],
    [notifications/repository.rs], [storage/memory/]

    The three storage traits are interfaces over the state of an
    implementation. What each promises its callers is a class of laws, stated
    on an abstract content: a log of observations, a map of incidents and a
    map of attempts. The in-memory implementations discharge them. *)

From S2P Require Import Prelude RustStr Names SharedTypes CollectorTypes Observations Samples Incidents Engine Notifications.

(** A [HashMap] iterates over its values in an order of its own. *)
Class HashOrder : Type := {
  hash_values {K V} `{Countable K} : gmap K V → list V;
  hash_values_perm {K V} `{Countable K} (m : gmap K V) : hash_values m ≡ₚ (map_to_list m).*2;
}.

#[global] Instance sample_hash_order : HashOrder :=
  {| hash_values K V _ _ m := (map_to_list m).*2; hash_values_perm K V _ _ m := Permutation_refl _ |}.

Lemma elem_of_hash_values `{HashOrder} {K V} `{Countable K} (m : gmap K V) v :
  v ∈ hash_values m ↔ ∃ k, m !! k = Some v.
Proof.
  rewrite hash_values_perm, list_elem_of_fmap. split.
  - intros ([k v'] & -> & Hin%elem_of_map_to_list). by exists k.
  - intros [k Hk]. exists (k, v). by rewrite elem_of_map_to_list.
Qed.

(** ** Errors *)

Module StoreError.
Inductive t : Type :=
  | Io (e : string)
  | Database (e : string)
  | Serialization (e : string)
  | Corruption (what : string)
  | NotInitialized.
End StoreError.

Module IncidentRepoError.
Inductive t : Type :=
  | Backend (e : string)
  | Conflict (id : IncidentId.t)
  | NotFound (id : IncidentId.t).
End IncidentRepoError.

Module AttemptRepoError.
Inductive t : Type :=
  | Backend (e : string)
  | Conflict (id : NotificationAttemptId.t)
  | NotFound (id : NotificationAttemptId.t).
End AttemptRepoError.

(** ** The traits *)

Class ObservationStore (S : Type) : Type := {
  append_many : S → list Observation.t → Result unit StoreError.t * S;
  iter_since : S → DateTime → Result (list (Result Observation.t StoreError.t)) StoreError.t;
  get_by_id : S → ObservationId.t → Result (option Observation.t) StoreError.t;
}.

(** The provided method [append]. *)
Definition append {S : Type} `{ObservationStore S} (s : S) (obs : Observation.t) :
    Result unit StoreError.t * S := append_many s [obs].

Class IncidentRepository (R : Type) : Type := {
  load_open : R → Result (list Incident.t) IncidentRepoError.t;
  save : R → Incident.t → Result unit IncidentRepoError.t * R;
  get : R → IncidentId.t → Result (option Incident.t) IncidentRepoError.t;
}.

Class NotificationAttemptRepository (R : Type) : Type := {
  insert_pending : R → NotificationAttempt.t → Result unit AttemptRepoError.t * R;
  complete : R → NotificationAttemptId.t → DeliveryReceipt.t → option DateTime →
    Result unit AttemptRepoError.t * R;
  list_retryable : R → DateTime → nat → Result (list NotificationAttempt.t) AttemptRepoError.t;
  list_for_incident : R → IncidentId.t → Result (list NotificationAttempt.t) AttemptRepoError.t;
}.

(** ** Terminal statuses *)

Definition status_for_outcome (outcome : DeliveryOutcome.t) (will_retry : bool) :
    NotificationDeliveryStatus.t :=
  match outcome with
  | DeliveryOutcome.Delivered _ => NotificationDeliveryStatus.Succeeded
  | DeliveryOutcome.Transient _ _ =>
      if will_retry then NotificationDeliveryStatus.FailedTransient
      else NotificationDeliveryStatus.FailedPermanent
  | DeliveryOutcome.Permanent _ => NotificationDeliveryStatus.FailedPermanent
  end.

(** The assignments of [complete] to the row it finds. *)
Definition completed (a : NotificationAttempt.t) (receipt : DeliveryReceipt.t)
    (next_retry_at : option DateTime) : NotificationAttempt.t := {|
  NotificationAttempt.id := NotificationAttempt.id a;
  NotificationAttempt.rule_id := NotificationAttempt.rule_id a;
  NotificationAttempt.incident_id := NotificationAttempt.incident_id a;
  NotificationAttempt.lifecycle_kind := NotificationAttempt.lifecycle_kind a;
  NotificationAttempt.target_kind := NotificationAttempt.target_kind a;
  NotificationAttempt.target_summary := NotificationAttempt.target_summary a;
  NotificationAttempt.status :=
    status_for_outcome (DeliveryReceipt.outcome receipt) (is_some next_retry_at);
  NotificationAttempt.attempt_number := NotificationAttempt.attempt_number a;
  NotificationAttempt.parent_attempt_id := NotificationAttempt.parent_attempt_id a;
  NotificationAttempt.next_retry_at := next_retry_at;
  NotificationAttempt.outcome := Some (DeliveryReceipt.outcome receipt);
  NotificationAttempt.external_ref :=
    match DeliveryReceipt.outcome receipt with
    | DeliveryOutcome.Delivered external_ref => external_ref
    | _ => None
    end;
  NotificationAttempt.attempted_at := NotificationAttempt.attempted_at a;
  NotificationAttempt.completed_at := Some (DeliveryReceipt.completed_at receipt);
|}.

(** ** The laws: what an implementation promises, on an abstract content

    The content is what was written. What a backend reads back is promised
    while it keeps the content ([keeps_log], [keeps_incidents]), which for
    memory is always. *)

Class ObservationStoreLaws (S : Type) `{ObservationStore S} : Type := {
  logged : S → list Observation.t;
  keeps_log : S → Prop;
  append_many_ok s batch s' :
    append_many s batch = (Ok (), s') → logged s' = logged s ++ batch;
  append_many_err s batch e s' :
    append_many s batch = (Err e, s') → logged s' = logged s;
  get_by_id_ok s id o : keeps_log s →
    get_by_id s id = Ok o → o = List.find (λ o, bool_decide (Observation.id o = id)) (logged s);
}.

Class IncidentRepositoryLaws (R : Type) `{IncidentRepository R} : Type := {
  incidents : R → gmap IncidentId.t Incident.t;
  keeps_incidents : R → Prop;
  save_ok r i r' :
    save r i = (Ok (), r') → incidents r' = <[Incident.id i := i]> (incidents r);
  save_err r i e r' : save r i = (Err e, r') → incidents r' = incidents r;
  load_open_ok r l : keeps_incidents r → load_open r = Ok l →
    l ≡ₚ filter (λ i, Incident.status i ≠ IncidentStatus.Resolved)
           (map_to_list (incidents r)).*2;
  get_ok r id o : keeps_incidents r → get r id = Ok o → o = incidents r !! id;
}.

Class NotificationAttemptRepositoryLaws (R : Type) `{NotificationAttemptRepository R} : Type := {
  rows : R → gmap NotificationAttemptId.t NotificationAttempt.t;
  insert_pending_ok r a r' : insert_pending r a = (Ok (), r') →
    rows r !! NotificationAttempt.id a = None ∧
    rows r' = <[NotificationAttempt.id a := a]> (rows r);
  insert_pending_err r a e r' : insert_pending r a = (Err e, r') → rows r' = rows r;
  complete_ok r id receipt next r' : complete r id receipt next = (Ok (), r') →
    ∃ a, rows r !! id = Some a ∧ rows r' = <[id := completed a receipt next]> (rows r);
  complete_err r id receipt next e r' :
    complete r id receipt next = (Err e, r') → rows r' = rows r;
}.

(** ** In-memory implementations *)

Module MemoryObservationStore.
Record t : Type := mk { inner : list Observation.t }.

Definition new : t := mk [].

Definition append_many (s : t) (batch : list Observation.t) : Result unit StoreError.t * t :=
  (Ok (), mk (inner s ++ batch)).

Definition iter_since (s : t) (since : DateTime) :
    Result (list (Result Observation.t StoreError.t)) StoreError.t :=
  let snapshot := filter (λ o, (since ≤ Observation.observed_at o)%Z) (inner s) in
  let snapshot :=
    sort_by (λ a b, (Observation.observed_at a <=? Observation.observed_at b)%Z) snapshot in
  Ok (Ok <$> snapshot).

Definition get_by_id (s : t) (id : ObservationId.t) :
    Result (option Observation.t) StoreError.t :=
  Ok (List.find (λ o, bool_decide (Observation.id o = id)) (inner s)).

#[global] Instance store : ObservationStore t :=
  {| Storage.append_many := append_many; Storage.iter_since := iter_since;
     Storage.get_by_id := get_by_id |}.
End MemoryObservationStore.

Module MemoryIncidentRepository.
Record t : Type := mk { inner : gmap IncidentId.t Incident.t }.

Definition new : t := mk ∅.

Definition load_open `{HashOrder} (r : t) : Result (list Incident.t) IncidentRepoError.t :=
  let out := filter (λ i, Incident.status i ≠ IncidentStatus.Resolved)
               (hash_values (inner r)) in
  Ok (sort_by (λ a b, (Incident.opened_at a <=? Incident.opened_at b)%Z) out).

Definition save (r : t) (incident : Incident.t) : Result unit IncidentRepoError.t * t :=
  (Ok (), mk (<[Incident.id incident := incident]> (inner r))).

Definition get (r : t) (id : IncidentId.t) : Result (option Incident.t) IncidentRepoError.t :=
  Ok (inner r !! id).

#[global] Instance repository `{HashOrder} : IncidentRepository t :=
  {| Storage.load_open := load_open; Storage.save := save; Storage.get := get |}.
End MemoryIncidentRepository.

Module MemoryNotificationAttemptRepository.
Record t : Type := mk { inner : gmap NotificationAttemptId.t NotificationAttempt.t }.

Definition new : t := mk ∅.

Definition insert_pending (r : t) (attempt : NotificationAttempt.t) :
    Result unit AttemptRepoError.t * t :=
  match inner r !! NotificationAttempt.id attempt with
  | Some _ => (Err (AttemptRepoError.Conflict (NotificationAttempt.id attempt)), r)
  | None => (Ok (), mk (<[NotificationAttempt.id attempt := attempt]> (inner r)))
  end.

Definition complete (r : t) (id : NotificationAttemptId.t) (receipt : DeliveryReceipt.t)
    (next_retry_at : option DateTime) : Result unit AttemptRepoError.t * t :=
  match inner r !! id with
  | None => (Err (AttemptRepoError.NotFound id), r)
  | Some attempt => (Ok (), mk (<[id := completed attempt receipt next_retry_at]> (inner r)))
  end.

(** [Option<DateTime>] is ordered with [None] first. *)
Definition retry_le (a b : NotificationAttempt.t) : bool :=
  match NotificationAttempt.next_retry_at a, NotificationAttempt.next_retry_at b with
  | None, _ => true
  | Some _, None => false
  | Some x, Some y => (x <=? y)%Z
  end.

Definition due (now : DateTime) (a : NotificationAttempt.t) : bool :=
  match NotificationAttempt.next_retry_at a with
  | Some t => (t <=? now)%Z
  | None => false
  end.

Definition list_retryable `{HashOrder} (r : t) (now : DateTime) (limit : nat) :
    Result (list NotificationAttempt.t) AttemptRepoError.t :=
  let out := filter (λ a, NotificationAttempt.status a
                          = NotificationDeliveryStatus.FailedTransient)
               (hash_values (inner r)) in
  let out := filter (λ a, due now a = true) out in
  Ok (take limit (sort_by retry_le out)).

Definition list_for_incident `{HashOrder} (r : t) (incident_id : IncidentId.t) :
    Result (list NotificationAttempt.t) AttemptRepoError.t :=
  let out := filter (λ a, NotificationAttempt.incident_id a = incident_id)
               (hash_values (inner r)) in
  Ok (sort_by (λ a b, (NotificationAttempt.attempted_at b
                       <=? NotificationAttempt.attempted_at a)%Z) out).

#[global] Instance repository `{HashOrder} : NotificationAttemptRepository t :=
  {| Storage.insert_pending := insert_pending; Storage.complete := complete;
     Storage.list_retryable := list_retryable;
     Storage.list_for_incident := list_for_incident |}.
End MemoryNotificationAttemptRepository.

(** ** The implementations keep the promises *)

#[global] Program Instance memory_observation_store_laws :
    ObservationStoreLaws MemoryObservationStore.t :=
  {| logged := MemoryObservationStore.inner; keeps_log _ := True |}.
Next Obligation. by intros s batch s' [= <-]. Qed.
Next Obligation. done. Qed.
Next Obligation. by intros s id o _ [= <-]. Qed.

#[global] Program Instance memory_incident_repository_laws `{HashOrder} :
    IncidentRepositoryLaws MemoryIncidentRepository.t :=
  {| incidents := MemoryIncidentRepository.inner; keeps_incidents _ := True |}.
Next Obligation. by intros ? r i r' [= <-]. Qed.
Next Obligation. done. Qed.
Next Obligation. intros ? r l _ [= <-]. by rewrite sort_by_perm, hash_values_perm. Qed.
Next Obligation. by intros ? r id o _ [= <-]. Qed.

#[global] Program Instance memory_attempt_repository_laws `{HashOrder} :
    NotificationAttemptRepositoryLaws MemoryNotificationAttemptRepository.t :=
  {| rows := MemoryNotificationAttemptRepository.inner |}.
Next Obligation.
  intros ? r a r'. cbn. unfold MemoryNotificationAttemptRepository.insert_pending.
  destruct (_ !! _) eqn:E; [done|]. by intros [= <-].
Qed.
Next Obligation.
  intros ? r a e r'. cbn. unfold MemoryNotificationAttemptRepository.insert_pending.
  destruct (_ !! _); [|done]. by intros [= <- <-].
Qed.
Next Obligation.
  intros ? r id receipt next r'. cbn. unfold MemoryNotificationAttemptRepository.complete.
  destruct (_ !! _) as [a|] eqn:E; [|done]. intros [= <-]. by exists a.
Qed.
Next Obligation.
  intros ? r id receipt next e r'. cbn. unfold MemoryNotificationAttemptRepository.complete.
  destruct (_ !! _); [done|]. by intros [= <- <-].
Qed.

(** ** Lemmas *)

(** Saving a list of incidents, oldest save first. *)
Definition save_all (r : MemoryIncidentRepository.t) (l : list Incident.t) :
    MemoryIncidentRepository.t := foldl (λ r i, (MemoryIncidentRepository.save r i).2) r l.

(** The last version saved under an identifier. *)
Definition last_saved (l : list Incident.t) (id : IncidentId.t) : option Incident.t :=
  last (filter (λ i, Incident.id i = id) l).

Lemma last_saved_snoc l i id :
  last_saved (l ++ [i]) id = if decide (Incident.id i = id) then Some i else last_saved l id.
Proof.
  unfold last_saved. rewrite filter_app. unfold filter at 2; cbn. case_decide; cbn.
  - by rewrite last_snoc.
  - by rewrite app_nil_r.
Qed.

Lemma save_all_lookup l id :
  MemoryIncidentRepository.inner (save_all MemoryIncidentRepository.new l) !! id
  = last_saved l id.
Proof.
  induction l as [|i l IH] using rev_ind; [done|].
  unfold save_all in *. rewrite foldl_app, last_saved_snoc; cbn. case_decide as Hid.
  - subst id. by rewrite lookup_insert_eq.
  - by rewrite lookup_insert_ne.
Qed.

Lemma last_saved_id l id i : last_saved l id = Some i → Incident.id i = id.
Proof. intros Hl%last_Some_elem_of. by apply list_elem_of_filter in Hl as [? _]. Qed.

Lemma opened_at_le_total a b :
  (Incident.opened_at a <=? Incident.opened_at b)%Z = false →
  (Incident.opened_at b <=? Incident.opened_at a)%Z = true.
Proof. rewrite Z.leb_gt, Z.leb_le. lia. Qed.

Lemma opened_at_le_trans a b c :
  (Incident.opened_at a <=? Incident.opened_at b)%Z = true →
  (Incident.opened_at b <=? Incident.opened_at c)%Z = true →
  (Incident.opened_at a <=? Incident.opened_at c)%Z = true.
Proof. rewrite !Z.leb_le. lia. Qed.

Lemma retry_le_total a b :
  MemoryNotificationAttemptRepository.retry_le a b = false →
  MemoryNotificationAttemptRepository.retry_le b a = true.
Proof.
  unfold MemoryNotificationAttemptRepository.retry_le. repeat case_match; try done.
  rewrite Z.leb_gt, Z.leb_le. lia.
Qed.

Lemma retry_le_trans a b c :
  MemoryNotificationAttemptRepository.retry_le a b = true →
  MemoryNotificationAttemptRepository.retry_le b c = true →
  MemoryNotificationAttemptRepository.retry_le a c = true.
Proof.
  unfold MemoryNotificationAttemptRepository.retry_le. repeat case_match; try done.
  rewrite !Z.leb_le. lia.
Qed.

(** Incidents stored under their own identifiers appear once in the values. *)
Lemma hash_values_NoDup_ids `{HashOrder} (m : gmap IncidentId.t Incident.t) :
  (∀ id i, m !! id = Some i → Incident.id i = id) →
  NoDup (Incident.id <$> hash_values m).
Proof.
  intros Hm. rewrite hash_values_perm.
  replace (Incident.id <$> (map_to_list m).*2) with (map_to_list m).*1;
    [apply NoDup_fst_map_to_list|].
  rewrite <-list_fmap_compose. apply list_fmap_ext.
  intros k [id i] Hin%list_elem_of_lookup_2. apply elem_of_map_to_list in Hin. cbn.
  by rewrite (Hm _ _ Hin).
Qed.

Lemma filter_fmap_NoDup {A B} (f : A → B) (P : A → Prop) `{∀ x, Decision (P x)} (l : list A) :
  NoDup (f <$> l) → NoDup (f <$> filter P l).
Proof.
  induction l as [|x l IH]; [done|]. cbn. intros [Hx Hl]%NoDup_cons.
  unfold filter; cbn. case_decide; cbn; [|by apply IH].
  constructor; [|by apply IH]. intros (y & Heq & Hy)%list_elem_of_fmap.
  apply list_elem_of_filter in Hy as [_ Hy]. apply Hx. rewrite Heq. by apply list_elem_of_fmap_2.
Qed.

(** ** Properties *)

(** What start-up loads from the repository is the current state: after any
    sequence of saves, [load_open] returns, for every incident identifier
    whose last saved version is not resolved, that version and no other, each
    exactly once, oldest first. *)
Theorem load_open_latest `{HashOrder} saves :
  ∃ out,
    MemoryIncidentRepository.load_open (save_all MemoryIncidentRepository.new saves) = Ok out ∧
    (∀ i, i ∈ out ↔ last_saved saves (Incident.id i) = Some i ∧
                    Incident.status i ≠ IncidentStatus.Resolved) ∧
    NoDup (Incident.id <$> out) ∧
    StronglySorted (λ a b, Incident.opened_at a ≤ Incident.opened_at b)%Z out.
Proof.
  eexists. split; [done|]. split_and!.
  - intros i. rewrite sort_by_perm, list_elem_of_filter, elem_of_hash_values.
    setoid_rewrite save_all_lookup. split; [|naive_solver].
    intros [Hs [id Hid]]. by rewrite (last_saved_id _ _ _ Hid).
  - rewrite sort_by_perm. apply filter_fmap_NoDup, hash_values_NoDup_ids.
    intros id i. rewrite save_all_lookup. apply last_saved_id.
  - eapply sorted_weaken; [|apply sort_by_sorted; [apply opened_at_le_total|apply opened_at_le_trans]].
    intros a b. apply Z.leb_le.
Qed.

(** Completing an attempt. An unknown identifier is an error and changes
    nothing. A known row takes its terminal status from the outcome
    ([Succeeded] exactly for a delivery, [FailedTransient] exactly for a
    transient failure with a retry time), records outcome, reference and
    completion time, and keeps its identity, rule, incident, redacted target
    and attempt number; no other row changes. The status the row had is not
    consulted: completing a completed row rewrites it. *)
Theorem attempt_completion r id receipt next :
  MemoryNotificationAttemptRepository.complete r id receipt next =
    match MemoryNotificationAttemptRepository.inner r !! id with
    | None => (Err (AttemptRepoError.NotFound id), r)
    | Some a => (Ok (), MemoryNotificationAttemptRepository.mk
        (<[id := completed a receipt next]> (MemoryNotificationAttemptRepository.inner r)))
    end ∧
  ∀ a, let a' := completed a receipt next in
    (NotificationAttempt.status a' = NotificationDeliveryStatus.Succeeded ↔
     ∃ ref, DeliveryReceipt.outcome receipt = DeliveryOutcome.Delivered ref) ∧
    (NotificationAttempt.status a' = NotificationDeliveryStatus.FailedTransient ↔
     ∃ e after t, DeliveryReceipt.outcome receipt = DeliveryOutcome.Transient e after ∧
                  next = Some t) ∧
    NotificationAttempt.status a' ≠ NotificationDeliveryStatus.Pending ∧
    NotificationAttempt.outcome a' = Some (DeliveryReceipt.outcome receipt) ∧
    NotificationAttempt.completed_at a' = Some (DeliveryReceipt.completed_at receipt) ∧
    NotificationAttempt.id a' = NotificationAttempt.id a ∧
    NotificationAttempt.incident_id a' = NotificationAttempt.incident_id a ∧
    NotificationAttempt.target_summary a' = NotificationAttempt.target_summary a ∧
    (∀ receipt2 next2, completed a' receipt2 next2 = completed a receipt2 next2).
Proof.
  split; [unfold MemoryNotificationAttemptRepository.complete; by case_match|].
  intros a. cbn. destruct (DeliveryReceipt.outcome receipt) as [ref|e after|e], next; cbn;
    split_and!; try done; split; naive_solver.
Qed.

(** The retry query lists due work only: every attempt it returns is stored,
    [FailedTransient] and due, earliest retry first, at most [limit] of them,
    and when it returns fewer than [limit] every due attempt is among them. *)
Lemma list_retryable_due `{HashOrder} r now limit :
  ∃ out, MemoryNotificationAttemptRepository.list_retryable r now limit = Ok out ∧
    length out ≤ limit ∧
    StronglySorted (λ a b, MemoryNotificationAttemptRepository.retry_le a b = true) out ∧
    let wanted a :=
      (∃ id, MemoryNotificationAttemptRepository.inner r !! id = Some a) ∧
      NotificationAttempt.status a = NotificationDeliveryStatus.FailedTransient ∧
      ∃ t, NotificationAttempt.next_retry_at a = Some t ∧ (t ≤ now)%Z in
    (∀ a, a ∈ out → wanted a) ∧
    (length out < limit → ∀ a, wanted a → a ∈ out).
Proof.
  unfold MemoryNotificationAttemptRepository.list_retryable. eexists. split; [done|].
  set (due_rows := filter _ (filter _ _)).
  assert (Hdue : ∀ a, a ∈ due_rows ↔
      (∃ id, MemoryNotificationAttemptRepository.inner r !! id = Some a) ∧
      NotificationAttempt.status a = NotificationDeliveryStatus.FailedTransient ∧
      ∃ t, NotificationAttempt.next_retry_at a = Some t ∧ (t ≤ now)%Z).
  { intros a. unfold due_rows. rewrite !list_elem_of_filter, elem_of_hash_values.
    unfold MemoryNotificationAttemptRepository.due.
    destruct (NotificationAttempt.next_retry_at a) as [t|]; [rewrite Z.leb_le|]; naive_solver. }
  split_and!.
  - rewrite length_take. lia.
  - apply sorted_take, sort_by_sorted; [apply retry_le_total|apply retry_le_trans].
  - intros a Ha. apply Hdue. rewrite <-(sort_by_perm MemoryNotificationAttemptRepository.retry_le).
    apply elem_of_take in Ha as (k & Hk & _). by eapply list_elem_of_lookup_2.
  - intros Hlt a Ha%Hdue. rewrite take_ge by (rewrite length_take in Hlt; lia).
    by rewrite sort_by_perm.
Qed.

(** Replay reads the log: [iter_since] yields exactly the appended
    observations at or after the given time, in ascending time order, and an
    observation is found by its identifier as soon as it is appended. *)
Lemma observation_log_replay batches since :
  let s := foldl (λ s b, (MemoryObservationStore.append_many s b).2)
             MemoryObservationStore.new batches in
  (∃ out, MemoryObservationStore.iter_since s since = Ok (Ok <$> out) ∧
     out ≡ₚ filter (λ o, (since ≤ Observation.observed_at o)%Z) (concat batches) ∧
     StronglySorted (λ a b, Observation.observed_at a ≤ Observation.observed_at b)%Z out) ∧
  (∀ o, o ∈ concat batches →
     ∃ o', MemoryObservationStore.get_by_id s (Observation.id o) = Ok (Some o') ∧
           o' ∈ concat batches ∧ Observation.id o' = Observation.id o).
Proof.
  cbn zeta. assert (∀ l0, MemoryObservationStore.inner
    (foldl (λ s b, (MemoryObservationStore.append_many s b).2) (MemoryObservationStore.mk l0)
       batches) = l0 ++ concat batches) as Hs.
  { induction batches as [|b bs IH]; intros l0; cbn; [by rewrite app_nil_r|].
    by rewrite IH, app_assoc. }
  specialize (Hs []). unfold MemoryObservationStore.iter_since, MemoryObservationStore.get_by_id.
  unfold MemoryObservationStore.new. rewrite Hs. cbn [app]. split.
  - eexists. split_and!; [done|apply sort_by_perm|].
    eapply sorted_weaken; [|apply sort_by_sorted].
    + intros a b. apply Z.leb_le.
    + intros a b. rewrite Z.leb_gt, Z.leb_le. lia.
    + intros a b c. rewrite !Z.leb_le. lia.
  - intros o Ho. destruct (List.find _ _) as [o'|] eqn:E.
    + apply List.find_some in E as [Hin Hid%bool_decide_eq_true].
      exists o'. split_and!; [done| |done]. by apply list_elem_of_In.
    + apply list_elem_of_In in Ho. pose proof (List.find_none _ _ E _ Ho) as Hf.
      by apply bool_decide_eq_false in Hf.
Qed.
