(* ===== verification/Senders.v ===== *)
(** * Delivery to the three kinds of target:
    [notifications/targets/*/payload.rs], [notifications/targets/*/sender.rs]

    [reqwest], [serde_json] and [chrono] are parameters: [Net] is the network
    and the clock as a state that each call advances, [HttpLib] the header
    checks, [JsonLib] the decoders of the response types and the encoders of
    the payloads, [ChronoLib] the date formats. [None] as the result of a
    sender is a panic. *)

From stdpp Require Import pretty.
From S2P Require Import Prelude RustStr Names SharedTypes F64 Observations Samples Incidents Engine Notifications.

(** ** The outside *)

Module Json.
#[local] Set Warnings "-register-all".
Inductive t : Type :=
  | Null
  | Bool (b : bool)
  | Number (n : Z)
  | Str (s : string)
  | Object (fields : list (string * t)).

Definition of_option (s : option string) : t :=
  match s with
  | Some s => Str s
  | None => Null
  end.
End Json.

Module HttpRequest.
Record t : Type := mk {
  url : string;
  query : list (string * string);
  headers : list (string * string);
  body : string;
}.
End HttpRequest.

Module HttpResponse.
Record t : Type := mk {
  status : Z;
  retry_after : option string;
  (** [None] when reading the body fails. *)
  bytes : option string;
}.
End HttpResponse.

(** The clock, and a POST that is answered or fails in transport. *)
Class Net (H : Type) : Type := {
  utc_now : H → DateTime * H;
  post : H → HttpRequest.t → option HttpResponse.t * H;
}.

Class HttpLib : Type := {
  header_name_from_bytes : string → option string;
  header_value_from_str : string → option string;
  header_value_to_str : string → option string;
}.

(** [chrono]: date formats, and [TimeDelta::seconds], which panics when the
    number of milliseconds does not fit an [i64]. *)
Class ChronoLib : Type := {
  parse_from_rfc2822 : string → option DateTime;
  to_rfc3339 : DateTime → string;
}.

Definition time_delta_seconds (s : Z) : option Duration :=
  if (Z.abs s <=? i64_max / 1000)%Z then Some (from_secs s) else None.

Definition num_seconds (d : Duration) : Z := Z.quot d 1000000000.

(** [i64::clamp]. *)
Definition clamp (n lo hi : Z) : Z := if (n <? lo)%Z then lo else if (hi <? n)%Z then hi else n.

(** ** Payloads *)

Module WebhookPayload.
Record t : Type := mk { body : Json.t }.
End WebhookPayload.

Module TelegramInlineButton.
Record t : Type := mk { text : string; callback_data : string }.
End TelegramInlineButton.

Module TelegramReplyMarkup.
Record t : Type := mk { inline_keyboard : list (list TelegramInlineButton.t) }.
End TelegramReplyMarkup.

Module TelegramPayload.
Record t : Type := mk {
  text : string;
  parse_mode : TelegramParseMode.t;
  disable_notification : option bool;
  reply_to_message_id : option Z;
  reply_markup : option TelegramReplyMarkup.t;
}.
End TelegramPayload.

Module DiscordMentionType.
Inductive t : Type := Roles | Users | Everyone.
End DiscordMentionType.

Module DiscordAllowedMentions.
Record t : Type := mk {
  parse : list DiscordMentionType.t;
  roles : list string;
  users : list string;
}.

Definition none : t := mk [] [] [].
End DiscordAllowedMentions.

Module DiscordEmbedField.
Record t : Type := mk { name : string; value : string; inline : bool }.
End DiscordEmbedField.

Module DiscordEmbedFooter.
Record t : Type := mk { text : string; icon_url : option string }.
End DiscordEmbedFooter.

Module DiscordEmbedAuthor.
Record t : Type := mk { name : string; url : option string; icon_url : option string }.
End DiscordEmbedAuthor.

Module DiscordEmbed.
Record t : Type := mk {
  title : option string;
  description : option string;
  url : option string;
  color : option Z;
  timestamp : option DateTime;
  footer : option DiscordEmbedFooter.t;
  author : option DiscordEmbedAuthor.t;
  fields : list DiscordEmbedField.t;
}.
End DiscordEmbed.

Module DiscordPayload.
Record t : Type := mk {
  content : option string;
  username : option string;
  avatar_url : option string;
  embeds : list DiscordEmbed.t;
  allowed_mentions : option DiscordAllowedMentions.t;
}.
End DiscordPayload.

(** ** Response bodies *)

Module TelegramChat.
Record t : Type := mk { id : option Z }.
End TelegramChat.

Module TelegramResult.
Record t : Type := mk { message_id : option Z; chat : option TelegramChat.t }.
End TelegramResult.

Module TelegramErrorParameters.
Record t : Type := mk { retry_after : option Z }.
End TelegramErrorParameters.

Module TelegramEnvelope.
Record t : Type := mk {
  ok : bool;
  result : option TelegramResult.t;
  description : option string;
  error_code : option Z;
  parameters : option TelegramErrorParameters.t;
}.
End TelegramEnvelope.

Module DiscordMessageResponse.
Record t : Type := mk { id : string; channel_id : string }.
End DiscordMessageResponse.

Module DiscordRateLimitBody.
Record t : Type := mk { retry_after : f64 }.
End DiscordRateLimitBody.

(** [serde_json] with the derived codecs of these types, and the lossy UTF-8
    decoding of a body. *)
Class JsonLib : Type := {
  json_to_string : Json.t → string;
  discord_payload_json : DiscordPayload.t → string;
  parse_telegram_envelope : string → option TelegramEnvelope.t;
  parse_discord_message : string → option DiscordMessageResponse.t;
  parse_discord_rate_limit : string → option DiscordRateLimitBody.t;
  from_utf8_lossy : string → string;
}.

(** ** Helpers of the senders *)

Definition MAX_SECS : Z := 3600.

Definition f64_3600 : f64 := S754_finite false 7916483719987200 (-41).
Definition f64_1000 : f64 := S754_finite false 8796093022208000 (-43).

(** [f64::min]. *)
Definition f64_min (a b : f64) : f64 :=
  match a, b with
  | S754_nan, _ => b
  | _, S754_nan => a
  | _, _ => if f64_lt b a then b else a
  end.

(** [x.round() as i64]: halves away from zero, saturating, NaN to zero. *)
Definition f64_round_as_i64 (x : f64) : Z :=
  match x with
  | S754_zero _ | S754_nan => 0
  | S754_infinity s => if s then i64_min else i64_max
  | S754_finite s m e =>
      let magnitude :=
        if (0 <=? e)%Z then (Zpos m * 2 ^ e)%Z
        else ((Zpos m + 2 ^ (- e - 1)) / 2 ^ (- e))%Z in
      clamp (if s then - magnitude else magnitude)%Z i64_min i64_max
  end.

Definition sane_retry_after_seconds_f64 (secs : f64) : option Duration :=
  if negb (is_finite secs) || f64_lt secs (S754_zero false) then None
  else
    let bounded := f64_min secs f64_3600 in
    let ms := f64_round_as_i64 (f64_mul bounded f64_1000) in
    Some (from_millis ms).

Definition looks_like_auth_failure (description : string) : bool :=
  let lower := to_ascii_lowercase description in
  contains_str "unauthorized" lower || contains_str "invalid token" lower.

Definition in_range (lo hi n : Z) : bool := (lo <=? n)%Z && (n <=? hi)%Z.

(** ** The senders *)

Section senders.
Context {H : Type} `{Net H, HttpLib, ChronoLib, JsonLib}.

(** [send] of every sender: the receipt around [do_send]. *)
Definition with_receipt (do_send : H → option (DeliveryOutcome.t * H)) (h : H) :
    option (DeliveryReceipt.t * H) :=
  let '(started_at, h) := utc_now h in
  '(outcome, h) ← do_send h;
  let '(completed_at, h) := utc_now h in
  Some (DeliveryReceipt.mk outcome started_at completed_at, h).

Definition network_failure : DeliveryOutcome.t :=
  DeliveryOutcome.Transient TransientError.Network None.

(** *** Webhook *)

Definition parse_retry_after_seconds (header : option string) (h : H) : option Duration * H :=
  match header ≫= header_value_to_str with
  | None => (None, h)
  | Some raw =>
      let raw := trim raw in
      match parse_int i64_min i64_max raw with
      | Some secs => (Some (from_secs (clamp secs 0 MAX_SECS)), h)
      | None =>
          match parse_from_rfc2822 raw with
          | Some when =>
              let '(now, h) := utc_now h in
              (Some (from_secs (clamp (num_seconds (when - now)) 0 MAX_SECS)), h)
          | None => (None, h)
          end
      end
  end.

(** The loop over [target.headers]. *)
Fixpoint add_headers (acc : list (string * string)) (l : list WebhookHeader.t) :
    Result (list (string * string)) DeliveryOutcome.t :=
  match l with
  | [] => Ok acc
  | header :: l' =>
      match header_name_from_bytes (WebhookHeader.name header) with
      | None => Err (DeliveryOutcome.Permanent (PermanentError.BadRequest
                  ("invalid header name: " +:+ WebhookHeader.name header)))
      | Some name =>
          match header_value_from_str (WebhookHeader.value header) with
          | None => Err (DeliveryOutcome.Permanent (PermanentError.BadRequest
                      ("invalid header value for " +:+ WebhookHeader.name header)))
          | Some value => add_headers (acc ++ [(name, value)]) l'
          end
      end
  end.

Definition webhook_outcome (response : HttpResponse.t) (h : H) : DeliveryOutcome.t * H :=
  let status := HttpResponse.status response in
  if in_range 200 299 status then (DeliveryOutcome.Delivered None, h)
  else if (status =? 401)%Z || (status =? 403)%Z then
    (DeliveryOutcome.Permanent PermanentError.AuthFailure, h)
  else if (status =? 410)%Z then (DeliveryOutcome.Permanent PermanentError.DestinationGone, h)
  else if (status =? 429)%Z then
    let '(retry_after, h) := parse_retry_after_seconds (HttpResponse.retry_after response) h in
    (DeliveryOutcome.Transient TransientError.RateLimited retry_after, h)
  else if in_range 400 499 status then
    (DeliveryOutcome.Permanent (PermanentError.BadRequest ("HTTP " +:+ pretty status)), h)
  else if in_range 500 599 status then
    (DeliveryOutcome.Transient (TransientError.Upstream5xx status) None, h)
  else
    (DeliveryOutcome.Transient
       (TransientError.Unknown ("unexpected status " +:+ pretty status)) None, h).

Definition webhook_do_send (target : WebhookTarget.t) (payload : WebhookPayload.t) (h : H) :
    DeliveryOutcome.t * H :=
  match add_headers [("Content-Type", "application/json")] (WebhookTarget.headers target) with
  | Err outcome => (outcome, h)
  | Ok headers =>
      let '(response, h) := post h {|
        HttpRequest.url := WebhookTarget.url target;
        HttpRequest.query := [];
        HttpRequest.headers := headers;
        HttpRequest.body := json_to_string (WebhookPayload.body payload);
      |} in
      match response with
      | None => (network_failure, h)
      | Some response => webhook_outcome response h
      end
  end.

(** *** Telegram *)

Definition telegram_body (target : TelegramTarget.t) (payload : TelegramPayload.t) : Json.t :=
  Json.Object (
    [("chat_id", Json.Number (TelegramChatId.get (TelegramTarget.chat_id target)));
     ("text", Json.Str (TelegramPayload.text payload))] ++
    match TelegramPayload.parse_mode payload with
    | TelegramParseMode.Html => [("parse_mode", Json.Str "HTML")]
    | TelegramParseMode.PlainText => []
    end ++
    match TelegramPayload.disable_notification payload with
    | Some silent => [("disable_notification", Json.Bool silent)]
    | None => []
    end ++
    match TelegramPayload.reply_to_message_id payload with
    | Some reply => [("reply_to_message_id", Json.Number reply)]
    | None => []
    end).

(** What the envelope says; [None] is the panic of [ChronoDuration::seconds]. *)
Definition telegram_outcome (target : TelegramTarget.t) (envelope : TelegramEnvelope.t) :
    option DeliveryOutcome.t :=
  if TelegramEnvelope.ok envelope then
    match TelegramEnvelope.result envelope ≫= TelegramResult.message_id with
    | None => Some (DeliveryOutcome.Transient
                (TransientError.Unknown "ok:true but no result.message_id") None)
    | Some message_id =>
        let chat_id_returned :=
          (TelegramEnvelope.result envelope ≫= TelegramResult.chat) ≫= TelegramChat.id in
        Some (DeliveryOutcome.Delivered (Some (ExternalMessageRef.Telegram
          (TelegramChatId.mk (default (TelegramChatId.get (TelegramTarget.chat_id target))
             chat_id_returned)) message_id)))
    end
  else
    let detail := default "" (TelegramEnvelope.description envelope) in
    retry_after ←
      match TelegramEnvelope.parameters envelope ≫= TelegramErrorParameters.retry_after
      return option (option Duration) with
      | Some s => Some <$> time_delta_seconds s
      | None => Some None
      end;
    Some match TelegramEnvelope.error_code envelope with
    | Some code =>
        if (code =? 429)%Z then DeliveryOutcome.Transient TransientError.RateLimited retry_after
        else if (code =? 401)%Z then DeliveryOutcome.Permanent PermanentError.AuthFailure
        else if (code =? 403)%Z then
          DeliveryOutcome.Permanent
            (if looks_like_auth_failure detail then PermanentError.AuthFailure
             else PermanentError.DestinationGone)
        else if in_range 400 499 code then
          DeliveryOutcome.Permanent
            (PermanentError.BadRequest ("[" +:+ pretty code +:+ "] " +:+ detail))
        else if in_range 500 599 code then
          DeliveryOutcome.Transient (TransientError.Upstream5xx code) None
        else DeliveryOutcome.Transient (TransientError.Unknown detail) retry_after
    | None => DeliveryOutcome.Transient (TransientError.Unknown detail) retry_after
    end.

Definition telegram_response (target : TelegramTarget.t) (response : HttpResponse.t) :
    option DeliveryOutcome.t :=
  let http_status := HttpResponse.status response in
  match HttpResponse.bytes response with
  | None => Some network_failure
  | Some body_bytes =>
      if in_range 500 599 http_status then
        Some (DeliveryOutcome.Transient (TransientError.Upstream5xx http_status) None)
      else
        match parse_telegram_envelope body_bytes with
        | None => Some (DeliveryOutcome.Transient (TransientError.Unknown
                    ("non-JSON response, HTTP " +:+ pretty http_status)) None)
        | Some envelope => telegram_outcome target envelope
        end
  end.

(** The sender's fields: the bot token and the base URL. *)
Definition telegram_do_send (bot_token base_url : string) (target : TelegramTarget.t)
    (payload : TelegramPayload.t) (h : H) : option (DeliveryOutcome.t * H) :=
  let '(response, h) := post h {|
    HttpRequest.url := base_url +:+ "/bot" +:+ bot_token +:+ "/sendMessage";
    HttpRequest.query := [];
    HttpRequest.headers := [("Content-Type", "application/json")];
    HttpRequest.body := json_to_string (telegram_body target payload);
  |} in
  match response with
  | None => Some (network_failure, h)
  | Some response => outcome ← telegram_response target response; Some (outcome, h)
  end.

(** *** Discord *)

Definition discord_ref (body_bytes : string) : option ExternalMessageRef.t :=
  m ← parse_discord_message body_bytes;
  mid ← parse_int 0 u64_max (DiscordMessageResponse.id m);
  cid ← parse_int 0 u64_max (DiscordMessageResponse.channel_id m);
  Some (ExternalMessageRef.Discord (DiscordChannelId.mk cid) mid).

Definition discord_outcome (response : HttpResponse.t) : DeliveryOutcome.t :=
  let status_code := HttpResponse.status response in
  let body_bytes := default "" (HttpResponse.bytes response) in
  if in_range 200 299 status_code then
    match discord_ref body_bytes with
    | Some external_ref => DeliveryOutcome.Delivered (Some external_ref)
    | None => DeliveryOutcome.Transient (TransientError.Unknown
        ("HTTP " +:+ pretty status_code +:+
         " but body is not a Discord message envelope (got " +:+
         pretty (String.length body_bytes) +:+ " bytes)")) None
    end
  else if (status_code =? 401)%Z || (status_code =? 403)%Z then
    DeliveryOutcome.Permanent PermanentError.AuthFailure
  else if (status_code =? 404)%Z || (status_code =? 410)%Z then
    DeliveryOutcome.Permanent PermanentError.DestinationGone
  else if (status_code =? 429)%Z then
    DeliveryOutcome.Transient TransientError.RateLimited
      (b ← parse_discord_rate_limit body_bytes;
       sane_retry_after_seconds_f64 (DiscordRateLimitBody.retry_after b))
  else if in_range 400 499 status_code then
    DeliveryOutcome.Permanent (PermanentError.BadRequest
      ("HTTP " +:+ pretty status_code +:+ ": " +:+ from_utf8_lossy body_bytes))
  else if in_range 500 599 status_code then
    DeliveryOutcome.Transient (TransientError.Upstream5xx status_code) None
  else
    DeliveryOutcome.Transient
      (TransientError.Unknown ("unexpected status " +:+ pretty status_code)) None.

Definition discord_do_send (target : DiscordTarget.t) (payload : DiscordPayload.t) (h : H) :
    DeliveryOutcome.t * H :=
  let query := ("wait", "true") ::
    match DiscordTarget.thread_id target with
    | Some thread_id => [("thread_id", pretty (DiscordThreadId.get thread_id))]
    | None => []
    end in
  let '(response, h) := post h {|
    HttpRequest.url := DiscordTarget.webhook_url target;
    HttpRequest.query := query;
    HttpRequest.headers := [("Content-Type", "application/json")];
    HttpRequest.body := discord_payload_json payload;
  |} in
  match response with
  | None => (network_failure, h)
  | Some response => (discord_outcome response, h)
  end.
End senders.

Module WebhookSender.
Definition send `{Net H, HttpLib, ChronoLib, JsonLib} (target : WebhookTarget.t)
    (payload : WebhookPayload.t) (h : H) : option (DeliveryReceipt.t * H) :=
  with_receipt (λ h, Some (webhook_do_send target payload h)) h.
End WebhookSender.

Module TelegramSender.
Record t : Type := mk { bot_token : string; base_url : string }.

Definition new (bot_token : string) : t := mk bot_token "https://api.telegram.org".

Definition with_base_url (s : t) (base_url : string) : t := mk (bot_token s) base_url.

Definition send `{Net H, JsonLib} (s : t) (target : TelegramTarget.t)
    (payload : TelegramPayload.t) (h : H) : option (DeliveryReceipt.t * H) :=
  with_receipt (telegram_do_send (bot_token s) (base_url s) target payload) h.
End TelegramSender.

Module DiscordSender.
Definition send `{Net H, JsonLib} (target : DiscordTarget.t) (payload : DiscordPayload.t)
    (h : H) : option (DeliveryReceipt.t * H) :=
  with_receipt (λ h, Some (discord_do_send target payload h)) h.
End DiscordSender.

(** ** Lemmas *)

Lemma in_range_iff lo hi n : in_range lo hi n = true ↔ (lo ≤ n ≤ hi)%Z.
Proof. unfold in_range. rewrite andb_true_iff, !Z.leb_le. done. Qed.

Lemma in_range_spec lo hi n : reflect (lo ≤ n ≤ hi)%Z (in_range lo hi n).
Proof. apply iff_reflect. by rewrite in_range_iff. Qed.

(** The tests on a status, as propositions, in their order. *)
Ltac status_cases :=
  repeat match goal with
  | |- context [in_range ?lo ?hi ?n] => destruct (in_range_spec lo hi n)
  | |- context [(?a =? ?b)%Z] => destruct (Z.eqb_spec a b)
  end.

Lemma clamp_bounds n lo hi : (lo ≤ hi)%Z → (lo ≤ clamp n lo hi ≤ hi)%Z.
Proof. unfold clamp. intros. destruct (Z.ltb_spec n lo), (Z.ltb_spec hi n); lia. Qed.

(** A retry delay between zero and one hour. *)
Definition within_hour (d : Duration) : Prop := (0 ≤ d ≤ from_secs MAX_SECS)%Z.

Lemma from_secs_clamp s : within_hour (from_secs (clamp s 0 MAX_SECS)).
Proof.
  pose proof (clamp_bounds s 0 MAX_SECS ltac:(done)). unfold within_hour, from_secs. lia.
Qed.

Section sender_lemmas.
Context {H : Type} `{Net H, HttpLib, ChronoLib, JsonLib}.

(** A [Retry-After] header never delays a retry by more than an hour, whatever
    its contents, and the clock is read at most once. *)
Lemma parse_retry_after_within header h :
  from_option within_hour True (parse_retry_after_seconds header h).1 ∧
  ((parse_retry_after_seconds header h).2 = h ∨
   (parse_retry_after_seconds header h).2 = (utc_now h).2).
Proof.
  unfold parse_retry_after_seconds. destruct (header ≫= header_value_to_str) as [raw|]; [|cbn; auto].
  destruct (parse_int i64_min i64_max (trim raw)) as [s|].
  { split; [apply from_secs_clamp|by left]. }
  destruct (parse_from_rfc2822 (trim raw)) as [t|]; [|cbn; auto].
  destruct (utc_now h) as [now h']. split; [apply from_secs_clamp|by right].
Qed.

(** The outcomes of a webhook response, by its status. *)
Lemma webhook_outcome_cases response h :
  let status := HttpResponse.status response in
  match (webhook_outcome response h).1 with
  | DeliveryOutcome.Delivered ref => ref = None ∧ (200 ≤ status ≤ 299)%Z
  | DeliveryOutcome.Permanent _ => (400 ≤ status ≤ 499)%Z ∧ status ≠ 429%Z
  | DeliveryOutcome.Transient _ after =>
      (¬ (200 ≤ status ≤ 299) ∧ (status = 429 ∨ ¬ (400 ≤ status ≤ 499)))%Z ∧
      from_option within_hour True after ∧ (after ≠ None → status = 429%Z)
  end.
Proof.
  cbn zeta. unfold webhook_outcome. status_cases; cbn; try lia.
  all: try by split_and!; first [done|lia].
  all: destruct (parse_retry_after_seconds _ h) as [after h'] eqn:E; cbn;
    pose proof (proj1 (parse_retry_after_within (HttpResponse.retry_after response) h)) as Hw;
    rewrite E in Hw; split_and!; [lia|lia|done|done].
Qed.

Lemma add_headers_permanent acc l o :
  add_headers acc l = Err o → ∃ detail, o = DeliveryOutcome.Permanent (PermanentError.BadRequest detail).
Proof.
  revert acc. induction l as [|x l IH]; intros acc; cbn; [done|].
  destruct (header_name_from_bytes _); [|intros [= <-]; eauto].
  destruct (header_value_from_str _); [apply IH|intros [= <-]; eauto].
Qed.
End sender_lemmas.

(** ** Properties *)

(** C34: Every webhook delivery ends in exactly one classified outcome. It is
    [Delivered] only for a 2xx answer, [Permanent] only when a configured
    header is invalid, in which case nothing is sent, or the answer is a 4xx
    other than 429, and [Transient] in every other case, transport failures
    included; a retry delay is only given for 429 and lies between zero and
    one hour whatever the server's header says. *)
Theorem webhook_classified `{Net H, HttpLib, ChronoLib, JsonLib} target payload (h : H) :
  let sent := add_headers [("Content-Type", "application/json")] (WebhookTarget.headers target) in
  let request headers := HttpRequest.mk (WebhookTarget.url target) [] headers
                           (json_to_string (WebhookPayload.body payload)) in
  let '(outcome, h') := webhook_do_send target payload h in
  match sent with
  | Err _ => h' = h ∧ ∃ detail, outcome = DeliveryOutcome.Permanent (PermanentError.BadRequest detail)
  | Ok headers =>
      match post h (request headers) with
      | (None, h1) => h' = h1 ∧ outcome = DeliveryOutcome.Transient TransientError.Network None
      | (Some response, h1) =>
          let status := HttpResponse.status response in
          (outcome, h') = webhook_outcome response h1 ∧
          match outcome with
          | DeliveryOutcome.Delivered ref => ref = None ∧ (200 ≤ status ≤ 299)%Z
          | DeliveryOutcome.Permanent _ => (400 ≤ status ≤ 499)%Z ∧ status ≠ 429%Z
          | DeliveryOutcome.Transient _ after =>
              (¬ (200 ≤ status ≤ 299) ∧ (status = 429 ∨ ¬ (400 ≤ status ≤ 499)))%Z ∧
              from_option within_hour True after ∧ (after ≠ None → status = 429%Z)
          end
      end
  end.
Proof.
  cbn zeta. unfold webhook_do_send.
  destruct (add_headers _ _) as [headers|o] eqn:E; [|split; [done|by eapply add_headers_permanent]].
  destruct (post h _) as [[response|] h1]; [|done].
  pose proof (webhook_outcome_cases response h1) as Hc.
  destruct (webhook_outcome response h1) as [outcome h'] eqn:Eo. by split.
Qed.

(** The Telegram sender panics, which ends the worker's task, exactly when
    the envelope reports an error with a [retry_after] beyond what a
    [TimeDelta] of seconds can hold; on every other answer it returns an
    outcome. The delay is otherwise taken as the server gives it: there is no
    upper bound and it may be negative. *)
Theorem telegram_panics_iff `{JsonLib} target response :
  (telegram_response target response = None ↔
   ∃ body envelope p s,
     HttpResponse.bytes response = Some body ∧
     ¬ (500 ≤ HttpResponse.status response ≤ 599)%Z ∧
     parse_telegram_envelope body = Some envelope ∧
     TelegramEnvelope.ok envelope = false ∧
     TelegramEnvelope.parameters envelope = Some p ∧
     TelegramErrorParameters.retry_after p = Some s ∧
     (i64_max / 1000 < Z.abs s)%Z) ∧
  (∀ body envelope p s,
     HttpResponse.bytes response = Some body →
     ¬ (500 ≤ HttpResponse.status response ≤ 599)%Z →
     parse_telegram_envelope body = Some envelope →
     TelegramEnvelope.ok envelope = false →
     TelegramEnvelope.error_code envelope = Some 429%Z →
     TelegramEnvelope.parameters envelope = Some p →
     TelegramErrorParameters.retry_after p = Some s → (Z.abs s ≤ i64_max / 1000)%Z →
     telegram_response target response =
       Some (DeliveryOutcome.Transient TransientError.RateLimited (Some (from_secs s)))).
Proof.
  unfold telegram_response, telegram_outcome, time_delta_seconds. split.
  - split.
    + destruct (HttpResponse.bytes response) as [body|]; [|done].
      destruct (in_range_spec 500 599 (HttpResponse.status response)) as [|Hs]; [done|].
      destruct (parse_telegram_envelope body) as [env|] eqn:He; [|done].
      destruct (TelegramEnvelope.ok env) eqn:Hok; [by destruct (_ ≫= _)|].
      destruct (TelegramEnvelope.parameters env) as [p|] eqn:Hp; cbn; [|done].
      destruct (TelegramErrorParameters.retry_after p) as [s|] eqn:Hr; cbn; [|done].
      destruct (Z.leb_spec (Z.abs s) (i64_max / 1000)) as [|Hlt]; [done|]. intros _.
      by exists body, env, p, s.
    + intros (body & env & p & s & -> & Hs & -> & -> & Hp & Hr & Hlt).
      destruct (in_range_spec 500 599 (HttpResponse.status response)); [done|].
      rewrite Hp; cbn. rewrite Hr. by destruct (Z.leb_spec (Z.abs s) (i64_max / 1000)); [lia|].
  - intros body env p s -> Hs -> -> -> Hp Hr Hle.
    destruct (in_range_spec 500 599 (HttpResponse.status response)); [done|].
    rewrite Hp; cbn. rewrite Hr. by destruct (Z.leb_spec (Z.abs s) (i64_max / 1000)); [|lia].
Qed.

(** A Telegram or Discord message counts as delivered only on evidence: the
    answer names the message. Telegram's envelope says [ok] with a message
    identifier, whatever the HTTP status short of 5xx; Discord's is a 2xx
    whose body is a message with identifiers that parse as [u64], and the
    recorded reference is made of those very numbers. *)
Theorem delivered_on_evidence `{JsonLib} ttarget response ref :
  (telegram_response ttarget response = Some (DeliveryOutcome.Delivered ref) ↔
   ∃ body envelope r message_id,
     HttpResponse.bytes response = Some body ∧
     ¬ (500 ≤ HttpResponse.status response ≤ 599)%Z ∧
     parse_telegram_envelope body = Some envelope ∧ TelegramEnvelope.ok envelope = true ∧
     TelegramEnvelope.result envelope = Some r ∧
     TelegramResult.message_id r = Some message_id ∧
     ref = Some (ExternalMessageRef.Telegram
       (TelegramChatId.mk (default (TelegramChatId.get (TelegramTarget.chat_id ttarget))
          (TelegramResult.chat r ≫= TelegramChat.id))) message_id)) ∧
  (discord_outcome response = DeliveryOutcome.Delivered ref ↔
   (200 ≤ HttpResponse.status response ≤ 299)%Z ∧
   ∃ m mid cid,
     parse_discord_message (default "" (HttpResponse.bytes response)) = Some m ∧
     parse_int 0 u64_max (DiscordMessageResponse.id m) = Some mid ∧
     parse_int 0 u64_max (DiscordMessageResponse.channel_id m) = Some cid ∧
     ref = Some (ExternalMessageRef.Discord (DiscordChannelId.mk cid) mid)).
Proof.
  split.
  - unfold telegram_response, telegram_outcome. split.
    + destruct (HttpResponse.bytes response) as [body|]; [|done].
      destruct (in_range_spec 500 599 (HttpResponse.status response)) as [|Hs]; [done|].
      destruct (parse_telegram_envelope body) as [env|] eqn:He; [|done].
      destruct (TelegramEnvelope.ok env) eqn:Hok.
      * destruct (TelegramEnvelope.result env) as [r|] eqn:Hr; cbn; [|done].
        destruct (TelegramResult.message_id r) as [mid|] eqn:Hm; [|done].
        intros [= <-]. by exists body, env, r, mid.
      * destruct (match _ with Some _ => _ | None => _ end) as [after|]; cbn; [|done].
        destruct (TelegramEnvelope.error_code env); [|done]. by status_cases.
    + intros (body & env & r & mid & -> & Hs & -> & -> & Hr & Hm & ->).
      destruct (in_range_spec 500 599 (HttpResponse.status response)); [done|].
      rewrite Hr; cbn. by rewrite Hm.
  - unfold discord_outcome, discord_ref.
    destruct (in_range_spec 200 299 (HttpResponse.status response)) as [Hs|Hs].
    + destruct (parse_discord_message _) as [m|] eqn:E1; cbn; [|naive_solver].
      destruct (parse_int 0 u64_max (DiscordMessageResponse.id m)) as [mid|] eqn:E2; cbn; [|naive_solver].
      destruct (parse_int 0 u64_max (DiscordMessageResponse.channel_id m)) as [cid|] eqn:E3; cbn; naive_solver.
    + split; [|naive_solver]. status_cases; cbn; naive_solver.
Qed.

(** ** A concrete outside *)

(** A server whose answers are queued, and a clock that advances by one
    second at every reading. *)
Module SampleNet.
Record t : Type := mk { clock : DateTime; answers : list (option HttpResponse.t) }.

#[global] Instance net : Net t := {|
  utc_now h := (clock h, mk (clock h + 1000000000) (answers h));
  post h _ :=
    match answers h with
    | [] => (None, h)
    | a :: l => (a, mk (clock h) l)
    end;
|}.
End SampleNet.

#[global] Instance sample_http_lib : HttpLib := {|
  header_name_from_bytes s := if contains_byte " " s then None else Some s;
  header_value_from_str s := if contains_byte "010" s then None else Some s;
  header_value_to_str s := Some s;
|}.

#[global] Instance sample_chrono_lib : ChronoLib :=
  {| parse_from_rfc2822 _ := None; to_rfc3339 t := pretty t |}.

(** A decoder of a one-letter language of bodies: [r<n>] is a Telegram rate
    limit of [n] seconds, [m<n>] a message [n]. *)
#[global] Instance sample_json_lib : JsonLib := {|
  json_to_string _ := "";
  discord_payload_json _ := "";
  parse_telegram_envelope s :=
    match s with
    | String b rest =>
        n ← parse_int i64_min i64_max rest;
        if Ascii.eqb b "r" then
          Some (TelegramEnvelope.mk false None (Some "Too Many Requests") (Some 429%Z)
                  (Some (TelegramErrorParameters.mk (Some n))))
        else if Ascii.eqb b "m" then
          Some (TelegramEnvelope.mk true (Some (TelegramResult.mk (Some n) None)) None None None)
        else None
    | EmptyString => None
    end;
  parse_discord_message s := Some (DiscordMessageResponse.mk s "7");
  parse_discord_rate_limit _ := Some (DiscordRateLimitBody.mk (S754_finite false 6755399441055744 (-52)));
  from_utf8_lossy s := s;
|}.

Definition sample_telegram_target : TelegramTarget.t :=
  TelegramTarget.mk (TelegramChatId.mk (-1001234)) TelegramParseMode.PlainText.

(** Deliveries, a sane delay, and the delay that panics. *)
Lemma sample_telegram_answers :
  let answer body := telegram_response sample_telegram_target
                       (HttpResponse.mk 200 None (Some body)) in
  answer "m42" = Some (DeliveryOutcome.Delivered (Some
    (ExternalMessageRef.Telegram (TelegramChatId.mk (-1001234)) 42))) ∧
  answer "r30" = Some (DeliveryOutcome.Transient TransientError.RateLimited
    (Some (from_secs 30))) ∧
  answer "r9223372036854775807" = None.
Proof. vm_compute. auto. Qed.

(** Discord's delay is rounded to milliseconds, capped and checked. *)
Lemma sample_discord_delays :
  sane_retry_after_seconds_f64 (S754_finite false 6755399441055744 (-52)) = Some (from_millis 1500) ∧
  sane_retry_after_seconds_f64 (S754_infinity false) = None ∧
  sane_retry_after_seconds_f64 S754_nan = None ∧
  sane_retry_after_seconds_f64 (S754_finite true 4503599627370496 (-52)) = None ∧
  sane_retry_after_seconds_f64 (S754_finite false 4503599627370496 8) = Some (from_millis 3600000).
Proof. vm_compute. auto. Qed.
