(* ===== verification/Worker.v ===== *)
(** * The notification worker: [runtime/notification_worker.rs]

    [dispatch] routes a message to the sender of its target, [process_dispatch]
    delivers to every target of a dispatch and completes its rows, and [step]
    is the main loop as a step relation: the channel fills, a dispatch is
    taken, the shutdown fires or the channel closes. A panic of a sender ends
    the worker where it stands. *)

From S2P Require Import Prelude RustStr Names SharedTypes Observations Samples Incidents Engine Notifications Storage Senders.

Module NotificationDispatch.
Record t : Type := mk {
  event : IncidentLifecycleEvent.t;
  message : NotificationMessage.t;
  attempts : list NotificationAttemptId.t;
  targets : list (NotificationAttemptId.t * NotificationTarget.t);
}.
End NotificationDispatch.

(** The webhook and Discord senders hold an HTTP client and nothing else. *)
Module NotifierSenders.
Record t : Type := mk {
  telegram : option TelegramSender.t;
  discord : option unit;
}.
End NotifierSenders.

Section worker.
Context {H : Type} `{Net H, HttpLib, ChronoLib, JsonLib}.

Definition not_configured_receipt (started_at : DateTime) (h : H) : DeliveryReceipt.t * H :=
  let '(completed_at, h) := utc_now h in
  (DeliveryReceipt.mk (DeliveryOutcome.Permanent PermanentError.NotConfigured)
     started_at completed_at, h).

Definition dispatch (senders : NotifierSenders.t) (target : NotificationTarget.t)
    (message : NotificationMessage.t) (h : H) : option (DeliveryReceipt.t * H) :=
  let '(started_at, h) := utc_now h in
  match target with
  | NotificationTarget.Webhook t =>
      let payload := WebhookPayload.mk (Json.Object [
        ("title", Json.Str (NotificationMessage.title message));
        ("summary", Json.Str (NotificationMessage.summary message));
        ("affected_component", Json.of_option (NotificationMessage.affected_component message));
        ("diagnostic_summary", Json.of_option (NotificationMessage.diagnostic_summary message));
        ("occurred_at", Json.Str (to_rfc3339 (NotificationMessage.occurred_at message)))]) in
      WebhookSender.send t payload h
  | NotificationTarget.Telegram t =>
      match NotifierSenders.telegram senders with
      | None => Some (not_configured_receipt started_at h)
      | Some sender =>
          TelegramSender.send sender t {|
            TelegramPayload.text := NotificationMessage.title message +:+ "

" +:+ NotificationMessage.summary message;
            TelegramPayload.parse_mode := TelegramTarget.parse_mode t;
            TelegramPayload.disable_notification := None;
            TelegramPayload.reply_to_message_id := None;
            TelegramPayload.reply_markup := None;
          |} h
      end
  | NotificationTarget.Discord t =>
      match NotifierSenders.discord senders with
      | None => Some (not_configured_receipt started_at h)
      | Some _ =>
          DiscordSender.send t {|
            DiscordPayload.content := Some ("**" +:+ NotificationMessage.title message +:+ "**
" +:+ NotificationMessage.summary message);
            DiscordPayload.username := None;
            DiscordPayload.avatar_url := None;
            DiscordPayload.embeds := [];
            DiscordPayload.allowed_mentions := None;
          |} h
      end
  end.

Context {A : Type} `{NotificationAttemptRepository A}.

(** The loop over [dispatch.targets]; [false] when a sender panicked. An error
    of [complete] is logged. *)
Fixpoint process_targets (senders : NotifierSenders.t) (message : NotificationMessage.t)
    (targets : list (NotificationAttemptId.t * NotificationTarget.t)) (repo : A) (h : H) :
    A * H * bool :=
  match targets with
  | [] => (repo, h, true)
  | (attempt_id, target) :: targets' =>
      match dispatch senders target message h with
      | None => (repo, h, false)
      | Some (receipt, h) =>
          let '(_, repo) := complete repo attempt_id receipt None in
          process_targets senders message targets' repo h
      end
  end.

Definition process_dispatch (senders : NotifierSenders.t) (d : NotificationDispatch.t)
    (repo : A) (h : H) : A * H * bool :=
  process_targets senders (NotificationDispatch.message d) (NotificationDispatch.targets d)
    repo h.

(** *** The main loop *)

Inductive status : Type := Running | Stopped | Panicked.

(** The channel with whether its sender is gone, and what the loop acts on. *)
Record state : Type := mk_state {
  queue : list NotificationDispatch.t;
  closed : bool;
  repo : A;
  net : H;
  worker : status;
}.

(** A step, with the dispatch it takes from the channel if it takes one. *)
Inductive step (senders : NotifierSenders.t) :
    state → list NotificationDispatch.t → state → Prop :=
  (** The consumer sends; the receiving end exists as long as the worker runs. *)
  | step_send q d r h :
      step senders (mk_state q false r h Running) [] (mk_state (q ++ [d]) false r h Running)
  (** The consumer drops its end. *)
  | step_close q r h w :
      step senders (mk_state q false r h w) [] (mk_state q true r h w)
  (** [rx.recv()] yields a dispatch. *)
  | step_recv q d c r h r' h' ok :
      process_dispatch senders d r h = (r', h', ok) →
      step senders (mk_state (d :: q) c r h Running) [d]
        (mk_state q c r' h' (if ok then Running else Panicked))
  (** [rx.recv()] yields [None]. *)
  | step_gone r h :
      step senders (mk_state [] true r h Running) [] (mk_state [] true r h Stopped)
  (** The shutdown signal wins the [select!]: what is queued stays queued. *)
  | step_shutdown q c r h :
      step senders (mk_state q c r h Running) [] (mk_state q c r h Stopped).

(** A run, with the dispatches taken in order. *)
Inductive exec (senders : NotifierSenders.t) :
    state → list NotificationDispatch.t → state → Prop :=
  | exec_refl s : exec senders s [] s
  | exec_step s1 t1 s2 t2 s3 :
      step senders s1 t1 s2 → exec senders s2 t2 s3 → exec senders s1 (t1 ++ t2) s3.

(** ** Specification: what may happen to the rows *)

(** A row of the log against what it was: untouched, or closed for good. *)
Inductive row_step (taken : Prop) (old : NotificationAttempt.t) :
    NotificationAttempt.t → Prop :=
  | row_untouched : row_step taken old old
  | row_completed a receipt :
      taken → NotificationAttempt.id a = NotificationAttempt.id old →
      NotificationAttempt.rule_id a = NotificationAttempt.rule_id old →
      NotificationAttempt.incident_id a = NotificationAttempt.incident_id old →
      NotificationAttempt.target_summary a = NotificationAttempt.target_summary old →
      NotificationAttempt.attempt_number a = NotificationAttempt.attempt_number old →
      row_step taken old (completed a receipt None).

Definition target_ids (ds : list NotificationDispatch.t) : list NotificationAttemptId.t :=
  ds ≫= λ d, (NotificationDispatch.targets d).*1.

End worker.

(** ** Lemmas *)

Section rows.
Context {H : Type} `{Net H, HttpLib, ChronoLib, JsonLib}.
Context {A : Type} `{NotificationAttemptRepository A, !NotificationAttemptRepositoryLaws A}.

Lemma row_step_trans (P Q R : Prop) a b c :
  (P → R) → (Q → R) → row_step P a b → row_step Q b c → row_step R a c.
Proof.
  intros HP HQ Hab Hbc. destruct Hbc as [|b' receipt HQ' E1 E2 E3 E4 E5].
  - destruct Hab; constructor; auto.
  - destruct Hab; constructor; cbn in *; try congruence; auto.
Qed.

(** The rows of two repositories, the second reached by completing some of
    the rows in [ids]. *)
Definition rows_step (ids : NotificationAttemptId.t → Prop) (r r' : A) : Prop :=
  ∀ id, option_relation (row_step (ids id)) (λ _, False) (λ _, False)
          (rows r !! id) (rows r' !! id).

Lemma rows_step_refl ids r : rows_step ids r r.
Proof. intros id. by destruct (rows r !! id); cbn; [constructor|]. Qed.

Lemma rows_step_trans (P Q R : NotificationAttemptId.t → Prop) r1 r2 r3 :
  (∀ id, P id → R id) → (∀ id, Q id → R id) →
  rows_step P r1 r2 → rows_step Q r2 r3 → rows_step R r1 r3.
Proof.
  intros HP HQ H12 H23 id. specialize (H12 id). specialize (H23 id).
  destruct (rows r1 !! id), (rows r2 !! id), (rows r3 !! id); cbn in *; try done.
  by eapply row_step_trans; [apply HP|apply HQ|..].
Qed.

Lemma complete_rows_step r id receipt :
  rows_step (λ id', id' = id) r (complete r id receipt None).2.
Proof.
  destruct (complete r id receipt None) as [[[]|e] r'] eqn:E; cbn.
  - apply complete_ok in E as (a & Ha & Hr'). intros id'.
    destruct (decide (id = id')) as [<-|Hne].
    + rewrite Hr', lookup_insert_eq, Ha. cbn. by constructor.
    + rewrite Hr', lookup_insert_ne by done. destruct (rows r !! id'); constructor.
  - apply complete_err in E. unfold rows_step. rewrite E. apply rows_step_refl.
Qed.

Lemma process_targets_rows senders message targets r h :
  rows_step (λ id, id ∈ targets.*1) r (process_targets senders message targets r h).1.1.
Proof.
  revert r h. induction targets as [|[id target] targets IH]; intros r h; [apply rows_step_refl|].
  cbn. destruct (dispatch senders target message h) as [[receipt h1]|]; [|apply rows_step_refl].
  pose proof (complete_rows_step r id receipt) as Hc.
  destruct (complete r id receipt None) as [res r1].
  eapply rows_step_trans; [| |exact Hc|apply IH]; cbn.
  - intros id' ->. apply list_elem_of_here.
  - intros id' ?. by apply list_elem_of_further.
Qed.

Lemma target_ids_app l1 l2 : target_ids (l1 ++ l2) = target_ids l1 ++ target_ids l2.
Proof. apply bind_app. Qed.

Lemma exec_rows senders s taken s' :
  exec senders s taken s' → rows_step (λ id, id ∈ target_ids taken) (repo s) (repo s').
Proof.
  induction 1 as [s|s1 t1 s2 t2 s3 Hs _ IH]; [apply rows_step_refl|].
  assert (rows_step (λ id, id ∈ target_ids t1) (repo s1) (repo s2)) as Hfirst.
  { destruct Hs as [| |q d c r h r' h' ok Hp| |]; try apply rows_step_refl. cbn [repo].
    pose proof (process_targets_rows senders (NotificationDispatch.message d)
      (NotificationDispatch.targets d) r h) as Hr.
    unfold process_dispatch in Hp. rewrite Hp in Hr. cbn in Hr.
    unfold target_ids. cbn. by rewrite app_nil_r. }
  eapply rows_step_trans; [| |exact Hfirst|exact IH]; intros id; rewrite target_ids_app; set_solver.
Qed.

(** Dispatches are taken in the order they were sent, each once. *)
Lemma exec_fifo senders s taken s' :
  exec senders s taken s' → ∃ sent, queue s ++ sent = taken ++ queue s'.
Proof.
  induction 1 as [s|s1 t1 s2 t2 s3 Hs _ [sent IH]]; [exists []; by rewrite app_nil_r|].
  destruct Hs as [q d| |q d| |]; cbn in *.
  - exists (d :: sent). by rewrite <-IH, <-app_assoc.
  - by exists sent.
  - exists sent. by rewrite IH.
  - by exists sent.
  - by exists sent.
Qed.
End rows.

(** A row closed with the outcome of a delivery to one of [targets]. *)
Definition settled {H : Type} `{Net H, HttpLib, ChronoLib, JsonLib} senders message
    (targets : list (NotificationAttemptId.t * NotificationTarget.t))
    (r : MemoryNotificationAttemptRepository.t) (id : NotificationAttemptId.t) : Prop :=
  ∃ a receipt,
    MemoryNotificationAttemptRepository.inner r !! id = Some (completed a receipt None) ∧
    ∃ target h1 h2, (id, target) ∈ targets ∧
      dispatch senders target message h1 = Some (receipt, h2).

(** On the in-memory repository a completion succeeds on every known row. *)
Lemma process_targets_settles {H : Type} `{Net H, HttpLib, ChronoLib, JsonLib, HashOrder}
    senders message all targets (r : MemoryNotificationAttemptRepository.t) (h : H) r' h' :
  targets ⊆ all →
  (∀ id, id ∈ targets.*1 → is_Some (MemoryNotificationAttemptRepository.inner r !! id)) →
  process_targets senders message targets r h = (r', h', true) →
  ∀ id, id ∈ targets.*1 ∨ settled senders message all r id → settled senders message all r' id.
Proof.
  revert r h. induction targets as [|[id0 target] targets IH]; intros r h Hall Hin.
  { intros [= <- <-] id [[]%elem_of_nil|]; done. }
  cbn. destruct (dispatch senders target message h) as [[receipt h1]|] eqn:Hd; [|done].
  destruct (Hin id0 (list_elem_of_here _ _)) as [a0 Ha0].
  unfold MemoryNotificationAttemptRepository.complete. rewrite Ha0. intros Hp id Hid.
  eapply IH; [set_solver| |exact Hp|]; cbn.
  - intros id1 Hid1. destruct (decide (id0 = id1)) as [<-|].
    + rewrite lookup_insert_eq. by eexists.
    + rewrite lookup_insert_ne by done. apply Hin. by apply list_elem_of_further.
  - destruct (decide (id0 = id)) as [<-|Hne].
    + right. exists a0, receipt. cbn. rewrite lookup_insert_eq. split; [done|].
      exists target, h, h1. split; [|done]. apply Hall, list_elem_of_here.
    + destruct Hid as [Hid|(a & rec & Ha & Hs)]; [left; set_solver|right].
      exists a, rec. cbn. by rewrite lookup_insert_ne.
Qed.

(** ** Sample data *)

Definition sample_attempt_id (n : nat) : NotificationAttemptId.t := NotificationAttemptId.new n.

Definition sample_incident : Incident.t :=
  IncidentEngine.new_incident (sample_draft SignalSeverity.Critical SignalStatus.Active)
    sample_fingerprint IncidentSeverity.Critical 5 (ObservationId.new 0) 1.

Definition sample_pending (n : nat) : NotificationAttempt.t := {|
  NotificationAttempt.id := sample_attempt_id n;
  NotificationAttempt.rule_id := NotificationRuleId.mk "ops";
  NotificationAttempt.incident_id := Incident.id sample_incident;
  NotificationAttempt.lifecycle_kind := IncidentNotificationEventKind.Opened;
  NotificationAttempt.target_kind := TargetKind.Telegram;
  NotificationAttempt.target_summary := "telegram:chat_id=-1001234";
  NotificationAttempt.status := NotificationDeliveryStatus.Pending;
  NotificationAttempt.attempt_number := 1;
  NotificationAttempt.parent_attempt_id := None;
  NotificationAttempt.next_retry_at := None;
  NotificationAttempt.outcome := None;
  NotificationAttempt.external_ref := None;
  NotificationAttempt.attempted_at := 5%Z;
  NotificationAttempt.completed_at := None;
|}.

Definition sample_attempts : MemoryNotificationAttemptRepository.t :=
  MemoryNotificationAttemptRepository.mk {[ sample_attempt_id 7 := sample_pending 7 ]}.

Definition sample_message : NotificationMessage.t := {|
  NotificationMessage.incident_lifecycle_event := IncidentLifecycleEvent.Opened sample_incident;
  NotificationMessage.title := "OPENED [Critical] bitcoin.no_peers";
  NotificationMessage.summary := "";
  NotificationMessage.affected_component := None;
  NotificationMessage.diagnostic_summary := None;
  NotificationMessage.occurred_at := 5%Z;
|}.

Definition sample_dispatch : NotificationDispatch.t := {|
  NotificationDispatch.event := IncidentLifecycleEvent.Opened sample_incident;
  NotificationDispatch.message := sample_message;
  NotificationDispatch.attempts := [sample_attempt_id 7];
  NotificationDispatch.targets :=
    [(sample_attempt_id 7, NotificationTarget.Telegram sample_telegram_target)];
|}.

Definition sample_senders : NotifierSenders.t :=
  NotifierSenders.mk (Some (TelegramSender.new "token")) None.

Definition sample_net (body : string) : SampleNet.t :=
  SampleNet.mk 10 [Some (HttpResponse.mk 200 None (Some body))].

(** ** Properties *)

(** C18: The audit log survives the worker. Over any run, whatever is sent,
    however it interleaves with shutdown, failing repositories and panicking
    senders: dispatches are taken in the order they were sent and each at most
    once; no row appears or disappears; a row whose dispatch was not taken is
    untouched, and any other is untouched or closed with its rule, incident,
    redacted target and attempt number kept; and no row ever becomes
    [FailedTransient], so the retry queue stays empty. *)
Theorem worker_audit {H : Type} `{Net H, HttpLib, ChronoLib, JsonLib} {A : Type}
    `{NotificationAttemptRepository A, !NotificationAttemptRepositoryLaws A}
    senders (s s' : state) taken :
  exec senders s taken s' →
  (∃ sent, queue s ++ sent = taken ++ queue s') ∧
  (∀ id, rows (repo s) !! id = None ↔ rows (repo s') !! id = None) ∧
  (∀ id old new, rows (repo s) !! id = Some old → rows (repo s') !! id = Some new →
     row_step (id ∈ target_ids taken) old new ∧
     (NotificationAttempt.status new = NotificationDeliveryStatus.FailedTransient → new = old)).
Proof.
  intros Hx. pose proof (exec_rows _ _ _ _ Hx) as Hr. split_and!.
  - by eapply exec_fifo.
  - intros id. specialize (Hr id).
    by destruct (rows (repo s) !! id), (rows (repo s') !! id).
  - intros id old new Ho Hn. specialize (Hr id). rewrite Ho, Hn in Hr; cbn in Hr.
    split; [done|]. destruct Hr as [|a receipt]; [done|]. cbn.
    by destruct (DeliveryReceipt.outcome receipt).
Qed.

Lemma worker_audit_witness :
  ∃ s', exec sample_senders
          (mk_state [sample_dispatch; sample_dispatch] false sample_attempts
             (sample_net "m42") Running) [sample_dispatch] s' ∧
    worker s' = Stopped ∧ queue s' = [sample_dispatch] ∧
    (rows (repo s') !! sample_attempt_id 9 = None).
Proof.
  assert (Hx : ∃ s', exec sample_senders
    (mk_state [sample_dispatch; sample_dispatch] false sample_attempts (sample_net "m42") Running)
    ([sample_dispatch] ++ [] ++ []) s' ∧ worker s' = Stopped ∧ queue s' = [sample_dispatch]).
  { eexists. split.
    - eapply exec_step; [eapply step_recv; vm_compute; reflexivity|].
      eapply exec_step; [|apply exec_refl]. apply step_shutdown.
    - split; reflexivity. }
  destruct Hx as (s' & Hx & Hw & Hq). exists s'. split; [exact Hx|]. split; [exact Hw|].
  split; [exact Hq|].
  apply (proj1 (proj2 (worker_audit _ _ _ _ Hx))). vm_compute. reflexivity.
Defined.

(** A dispatch the worker finishes is settled: unless a sender panics, every
    target's row is terminal afterwards, with the outcome of a delivery to
    that very dispatch recorded and no retry scheduled, and a target whose
    sink was not configured at start-up is recorded as [NotConfigured] without
    any network traffic. *)
Theorem process_dispatch_settles {H : Type} `{Net H, HttpLib, ChronoLib, JsonLib, HashOrder}
    senders d (r : MemoryNotificationAttemptRepository.t) (h : H) r' h' :
  (∀ id, id ∈ (NotificationDispatch.targets d).*1 →
     is_Some (MemoryNotificationAttemptRepository.inner r !! id)) →
  process_dispatch senders d r h = (r', h', true) →
  (∀ id, id ∈ (NotificationDispatch.targets d).*1 → ∃ a receipt,
     MemoryNotificationAttemptRepository.inner r' !! id = Some (completed a receipt None) ∧
     ∃ target h1 h2, (id, target) ∈ NotificationDispatch.targets d ∧
       dispatch senders target (NotificationDispatch.message d) h1 = Some (receipt, h2)) ∧
  (∀ target message h1,
     match target with
     | NotificationTarget.Telegram _ => NotifierSenders.telegram senders = None
     | NotificationTarget.Discord _ => NotifierSenders.discord senders = None
     | NotificationTarget.Webhook _ => False
     end → ∃ t1 t2, dispatch senders target message h1 = Some (DeliveryReceipt.mk
             (DeliveryOutcome.Permanent PermanentError.NotConfigured) t1 t2,
             (utc_now (utc_now h1).2).2)).
Proof.
  intros Hin Hp. split.
  - intros id Hid. eapply process_targets_settles; [reflexivity|exact Hin|exact Hp|by left].
  - intros target message h1 Hc. unfold dispatch, not_configured_receipt.
    destruct (utc_now h1) as [t1 h2]; cbn. destruct (utc_now h2) as [t2 h3]; cbn.
    destruct target; [rewrite Hc|rewrite Hc|done]; eauto.
Qed.

Definition sample_settled : MemoryNotificationAttemptRepository.t * SampleNet.t * bool :=
  process_dispatch sample_senders sample_dispatch sample_attempts (sample_net "r30").

Lemma process_dispatch_settles_witness :
  (∀ id, id ∈ (NotificationDispatch.targets sample_dispatch).*1 →
     is_Some (MemoryNotificationAttemptRepository.inner sample_attempts !! id)) ∧
  (∃ a receipt, MemoryNotificationAttemptRepository.inner sample_settled.1.1
     !! sample_attempt_id 7 = Some (completed a receipt None)).
Proof.
  assert (Hin : ∀ id, id ∈ (NotificationDispatch.targets sample_dispatch).*1 →
    is_Some (MemoryNotificationAttemptRepository.inner sample_attempts !! id)).
  { intros id Hid. apply list_elem_of_singleton in Hid. subst id. by eexists. }
  split; [exact Hin|].
  assert (Hp : process_dispatch sample_senders sample_dispatch sample_attempts (sample_net "r30")
    = (sample_settled.1.1, sample_settled.1.2, true)) by (vm_compute; reflexivity).
  destruct (proj1 (process_dispatch_settles _ _ _ _ _ _ Hin Hp) (sample_attempt_id 7)
    (list_elem_of_here _ _)) as (a & receipt & Ha & _).
  exists a, receipt. exact Ha.
Defined.
