(* ===== verification/Consumer.v ===== *)
(** * The pipeline consumer: [runtime/consumer.rs]

    One task owns the rules, the read models and the engine, and drives the
    three storage traits and the notification channel. Its state is a record;
    every function takes the state and returns it, with the [tracing] calls
    and the sleeps recorded in its trace. [None] is a panic of the task. The
    clocks are read once per batch: [now] and [monotonic_now]. *)

From S2P Require Import Prelude RustStr Names SharedTypes CollectorTypes Observations Samples ReadModels Store Incidents Kinds Engine Hysteresis BitcoinRules Notifications Storage Senders Worker.

(** A [Box<dyn DiagnosticRule>]: a rule of some type with its current state.
    Its [evaluate] may panic, which [catch_unwind] turns into [None]; the
    state is whatever the call left behind. *)
Record BoxedRule : Type := Boxed {
  boxed_type : Type;
  boxed_rule : boxed_type;
  boxed_evaluate : boxed_type → DiagnosticContext.t →
    option (Result (list IncidentSignalDraft.t) string) * boxed_type;
}.

(** The rules of the repository return. *)
Definition box {R : Type} `{DiagnosticRule R} (rule : R) : BoxedRule :=
  Boxed R rule (λ r ctx, let '(res, r') := evaluate r ctx in (Some res, r')).

Definition catch_unwind (b : BoxedRule) (ctx : DiagnosticContext.t) :
    option (Result (list IncidentSignalDraft.t) string) * BoxedRule :=
  let '(res, r') := boxed_evaluate b (boxed_rule b) ctx in
  (res, Boxed (boxed_type b) r' (boxed_evaluate b)).

(** What is logged, and the sleeps of the retry loop. *)
Module Trace.
Inductive t : Type :=
  | AppendFailed (e : StoreError.t)
  | ApplyFailed (e : ApplyError.t)
  | RuleFailed (e : string)
  | RulePanicked
  | EngineFailed (e : EngineError.t)
  | SignalAppendFailed (e : StoreError.t)
  | SignalApplyFailed (e : ApplyError.t)
  | SaveExhausted (id : IncidentId.t) (e : IncidentRepoError.t)
  | Slept (d : Duration)
  | InsertPendingFailed (rule : NotificationRuleId.t) (e : AttemptRepoError.t)
  | ChannelClosed
  | BelowConfidenceFloor (kind : IncidentKind.t).
End Trace.

(** The sending end of the notification channel: what was sent, and how many
    more messages it takes before the worker drops the receiving end ([None]
    when it never does). *)
Module Channel.
Record t : Type := mk { sent : list NotificationDispatch.t; accepts : option nat }.

Definition send (c : t) (d : NotificationDispatch.t) : bool * t :=
  match accepts c with
  | None => (true, mk (sent c ++ [d]) None)
  | Some O => (false, c)
  | Some (S k) => (true, mk (sent c ++ [d]) (Some k))
  end.

(** A message is sent at the end, or refused with nothing changed. *)
Lemma send_cases c d :
  (send c d).1 = true ∧ sent (send c d).2 = sent c ++ [d] ∨
  send c d = (false, c).
Proof. unfold send. destruct (accepts c) as [[|k]|]; auto. Qed.
End Channel.

(** ** The message of a lifecycle event *)

Section message.
Context `{UuidLib, DebugLib}.

Definition debug_severity (s : IncidentSeverity.t) : string :=
  match s with
  | IncidentSeverity.Info => "Info"
  | IncidentSeverity.Warning => "Warning"
  | IncidentSeverity.Critical => "Critical"
  end.

(** The derived [Debug] of a newtype, of [IncidentId] and of [EntityRef]. *)
Definition debug_newtype (name field : string) : string := name +:+ "(" +:+ field +:+ ")".

Definition debug_incident_id (id : IncidentId.t) : string :=
  debug_newtype "IncidentId" (uuid_to_string (IncidentId.get id)).

Definition debug_scoped (variant scope_name scope_type scope id_name id_type id : string) : string :=
  variant +:+ " { " +:+ scope_name +:+ ": " +:+ debug_newtype scope_type (debug_str scope)
  +:+ ", " +:+ id_name +:+ ": " +:+ debug_newtype id_type (debug_str id) +:+ " }".

Definition debug_entity_ref (e : EntityRef.t) : string :=
  match e with
  | EntityRef.Sidecar i =>
      debug_newtype "Sidecar" (debug_newtype "SidecarId" (uuid_to_string (SidecarId.get i)))
  | EntityRef.Host i =>
      debug_newtype "Host" (debug_newtype "HostId" (debug_str (HostId.get i)))
  | EntityRef.BitcoinNode i =>
      debug_newtype "BitcoinNode" (debug_newtype "BitcoinNodeId" (debug_str (BitcoinNodeId.get i)))
  | EntityRef.BitcoinPeer n p =>
      debug_scoped "BitcoinPeer" "node_id" "BitcoinNodeId" (BitcoinNodeId.get n)
        "peer_id" "BitcoinPeerId" (BitcoinPeerId.get p)
  | EntityRef.LndNode i =>
      debug_newtype "LndNode" (debug_newtype "LndNodeId" (debug_str (LndNodeId.get i)))
  | EntityRef.LndPeer n p =>
      debug_scoped "LndPeer" "node_id" "LndNodeId" (LndNodeId.get n)
        "peer_id" "LndPeerId" (LndPeerId.get p)
  | EntityRef.LndChannel n c =>
      debug_scoped "LndChannel" "node_id" "LndNodeId" (LndNodeId.get n)
        "channel_id" "LndChannelId" (LndChannelId.get c)
  | EntityRef.LndInvoice n i =>
      debug_scoped "LndInvoice" "node_id" "LndNodeId" (LndNodeId.get n)
        "invoice_id" "LndInvoiceId" (LndInvoiceId.get i)
  end.

Definition compose_notification_message (event : IncidentLifecycleEvent.t) (now : DateTime) :
    NotificationMessage.t :=
  let incident := IncidentLifecycleEvent.incident event in
  let verb := match IncidentLifecycleEvent.notification_kind event with
              | IncidentNotificationEventKind.Opened => "OPENED"
              | IncidentNotificationEventKind.Escalated => "ESCALATED"
              | IncidentNotificationEventKind.Resolved => "RESOLVED"
              end in
  {|
    NotificationMessage.incident_lifecycle_event := event;
    NotificationMessage.title :=
      verb +:+ " [" +:+ debug_severity (Incident.severity incident) +:+ "] "
      +:+ IncidentKind.as_str (Incident.kind incident);
    NotificationMessage.summary :=
      "incident " +:+ debug_incident_id (Incident.id incident)
      +:+ " on " +:+ debug_entity_ref (Incident.subject incident);
    NotificationMessage.affected_component := None;
    NotificationMessage.diagnostic_summary := None;
    NotificationMessage.occurred_at := now;
  |}.
End message.

Definition observations_from_batch (batch : ObservationBatch.t) : list Observation.t :=
  match ObservationBatch.result batch with
  | ProbeResult.Ok observations => observations
  | ProbeResult.Failed _ partial_observations _ => partial_observations
  end.

(** ** The pipeline *)

Section consumer.
Context `{UuidLib, DebugLib}.
Context {S R A : Type}.
Context `{ObservationStore S, IncidentRepository R, NotificationAttemptRepository A}.

(** What the task owns, the stores it holds, its end of the channel, the
    UUIDs drawn so far and the trace. *)
Record consumer : Type := mk_consumer {
  rules : list BoxedRule;
  read_models : ReadModelStore.t;
  engine : IncidentEngine.t;
  notification_rules : list NotificationRule.t;
  notif_tx : Channel.t;
  observation_store : S;
  incident_repo : R;
  attempts_repo : A;
  draws : nat;
  trace : list Trace.t;
}.

Definition set_rules (c : consumer) x : consumer :=
  mk_consumer x (read_models c) (engine c) (notification_rules c) (notif_tx c)
    (observation_store c) (incident_repo c) (attempts_repo c) (draws c) (trace c).
Definition set_read_models (c : consumer) x : consumer :=
  mk_consumer (rules c) x (engine c) (notification_rules c) (notif_tx c)
    (observation_store c) (incident_repo c) (attempts_repo c) (draws c) (trace c).
Definition set_engine (c : consumer) x n : consumer :=
  mk_consumer (rules c) (read_models c) x (notification_rules c) (notif_tx c)
    (observation_store c) (incident_repo c) (attempts_repo c) n (trace c).
Definition set_notif_tx (c : consumer) x : consumer :=
  mk_consumer (rules c) (read_models c) (engine c) (notification_rules c) x
    (observation_store c) (incident_repo c) (attempts_repo c) (draws c) (trace c).
Definition set_observation_store (c : consumer) x : consumer :=
  mk_consumer (rules c) (read_models c) (engine c) (notification_rules c) (notif_tx c)
    x (incident_repo c) (attempts_repo c) (draws c) (trace c).
Definition set_incident_repo (c : consumer) x : consumer :=
  mk_consumer (rules c) (read_models c) (engine c) (notification_rules c) (notif_tx c)
    (observation_store c) x (attempts_repo c) (draws c) (trace c).
Definition set_attempts_repo (c : consumer) x n : consumer :=
  mk_consumer (rules c) (read_models c) (engine c) (notification_rules c) (notif_tx c)
    (observation_store c) (incident_repo c) x n (trace c).
Definition log (c : consumer) (l : list Trace.t) : consumer :=
  mk_consumer (rules c) (read_models c) (engine c) (notification_rules c) (notif_tx c)
    (observation_store c) (incident_repo c) (attempts_repo c) (draws c) (trace c ++ l).

(** *** Rules *)

Fixpoint evaluate_rules (l : list BoxedRule) (ctx : DiagnosticContext.t) :
    list IncidentSignalDraft.t * list BoxedRule * list Trace.t :=
  match l with
  | [] => ([], [], [])
  | rule :: l' =>
      let '(result, rule') := catch_unwind rule ctx in
      let '(drafts, rules', tr) := evaluate_rules l' ctx in
      match result with
      | Some (Ok rule_drafts) => (rule_drafts ++ drafts, rule' :: rules', tr)
      | Some (Err e) => (drafts, rule' :: rules', Trace.RuleFailed e :: tr)
      | None => (drafts, rule' :: rules', Trace.RulePanicked :: tr)
      end
  end.

Definition diagnostic_context (rm : ReadModelStore.t) (subject : EntityRef.t)
    (now : DateTime) (monotonic_now : Instant) : DiagnosticContext.t := {|
  DiagnosticContext.now := now;
  DiagnosticContext.monotonic_now := monotonic_now;
  DiagnosticContext.subject := subject;
  DiagnosticContext.state := ReadModelStore.state_read_model rm;
  DiagnosticContext.metrics := ReadModelStore.metric_read_model rm;
  DiagnosticContext.health := ReadModelStore.health_read_model rm;
  DiagnosticContext.capabilities := ReadModelStore.capability_read_model rm;
  DiagnosticContext.heartbeats := ReadModelStore.heartbeat_read_model rm;
  DiagnosticContext.signals := ReadModelStore.incident_signal_read_model rm;
|}.

(** *** Persisting an incident *)

Definition RETRY_DELAYS_MS : list Z := [100; 500]%Z.

(** The loop of [save_incident_with_retry] from an attempt index on, with
    [fuel] attempts left and the last error. *)
Fixpoint save_attempts (fuel attempt_index : nat) (last_err : option IncidentRepoError.t)
    (repo : R) (incident : Incident.t) :
    option (Result unit IncidentRepoError.t * R * list Trace.t) :=
  match fuel with
  | O => e ← last_err; Some (Err e, repo, [])
  | Datatypes.S fuel =>
      let '(res, repo) := save repo incident in
      match res with
      | Ok _ => Some (Ok (), repo, [])
      | Err e =>
          '(res, repo, tr) ←
            save_attempts fuel (Datatypes.S attempt_index) (Some e) repo incident;
          Some (res, repo,
                match RETRY_DELAYS_MS !! attempt_index with
                | Some delay => [Trace.Slept (from_millis delay)]
                | None => []
                end ++ tr)
      end
  end.

(** [for attempt_index in 0..=RETRY_DELAYS_MS.len()]. *)
Definition save_incident_with_retry (repo : R) (incident : Incident.t) :
    option (Result unit IncidentRepoError.t * R * list Trace.t) :=
  save_attempts (Datatypes.S (length RETRY_DELAYS_MS)) 0 None repo incident.

(** *** Notifications *)

(** The row inserted for a matching rule. *)
Definition pending_attempt (rule : NotificationRule.t) (event : IncidentLifecycleEvent.t)
    (now : DateTime) (n : nat) : NotificationAttempt.t := {|
  NotificationAttempt.id := NotificationAttemptId.new n;
  NotificationAttempt.rule_id := NotificationRule.id rule;
  NotificationAttempt.incident_id := Incident.id (IncidentLifecycleEvent.incident event);
  NotificationAttempt.lifecycle_kind := IncidentLifecycleEvent.notification_kind event;
  NotificationAttempt.target_kind := (TargetKind.summarize (NotificationRule.target rule)).1;
  NotificationAttempt.target_summary := (TargetKind.summarize (NotificationRule.target rule)).2;
  NotificationAttempt.status := NotificationDeliveryStatus.Pending;
  NotificationAttempt.attempt_number := 1;
  NotificationAttempt.parent_attempt_id := None;
  NotificationAttempt.next_retry_at := None;
  NotificationAttempt.outcome := None;
  NotificationAttempt.external_ref := None;
  NotificationAttempt.attempted_at := now;
  NotificationAttempt.completed_at := None;
|}.

(** The loop over the matching rules: the targets, the repository and the
    draws after it. *)
Fixpoint insert_attempts (l : list NotificationRule.t) (event : IncidentLifecycleEvent.t)
    (now : DateTime) (repo : A) (n : nat) :
    list (NotificationAttemptId.t * NotificationTarget.t) * A * nat * list Trace.t :=
  match l with
  | [] => ([], repo, n, [])
  | rule :: l' =>
      if NotificationRule.matches rule event then
        let pending := pending_attempt rule event now n in
        let '(res, repo) := insert_pending repo pending in
        let '(targets, repo, n, tr) := insert_attempts l' event now repo (Datatypes.S n) in
        match res with
        | Ok _ => ((NotificationAttempt.id pending, NotificationRule.target rule) :: targets,
                   repo, n, tr)
        | Err e =>
            (targets, repo, n, Trace.InsertPendingFailed (NotificationRule.id rule) e :: tr)
        end
      else insert_attempts l' event now repo n
  end.

Definition dispatch_lifecycle (event : IncidentLifecycleEvent.t) (now : DateTime)
    (c : consumer) : consumer :=
  let message := compose_notification_message event now in
  let '(targets, repo, n, tr) :=
    insert_attempts (notification_rules c) event now (attempts_repo c) (draws c) in
  let c := log (set_attempts_repo c repo n) tr in
  let attempts := targets.*1 in
  match attempts with
  | [] => c
  | _ =>
      let '(sent, tx) := Channel.send (notif_tx c) {|
        NotificationDispatch.event := event;
        NotificationDispatch.message := message;
        NotificationDispatch.attempts := attempts;
        NotificationDispatch.targets := targets;
      |} in
      let c := set_notif_tx c tx in
      if sent then c else log c [Trace.ChannelClosed]
  end.

(** *** Engine events *)

Definition process_engine_event (event : IncidentEvent.t) (now : DateTime) (c : consumer) :
    option consumer :=
  match event with
  | IncidentEvent.SignalRecorded obs =>
      let '(res, store) := append (observation_store c) obs in
      let c := set_observation_store c store in
      let c := match res with
               | Ok _ => c
               | Err e => log c [Trace.SignalAppendFailed e]
               end in
      Some match ReadModelStore.apply (read_models c) obs with
           | Ok rm => set_read_models c rm
           | Err e => log c [Trace.SignalApplyFailed e]
           end
  | IncidentEvent.IncidentTouched incident =>
      '(res, repo, tr) ← save_incident_with_retry (incident_repo c) incident;
      let c := log (set_incident_repo c repo) tr in
      Some match res with
           | Ok _ => c
           | Err e => log c [Trace.SaveExhausted (Incident.id incident) e]
           end
  | IncidentEvent.Lifecycle lifecycle => Some (dispatch_lifecycle lifecycle now c)
  | IncidentEvent.DraftBelowConfidenceFloor kind _ _ =>
      Some (log c [Trace.BelowConfidenceFloor kind])
  end.

Fixpoint process_engine_events (events : list IncidentEvent.t) (now : DateTime)
    (c : consumer) : option consumer :=
  match events with
  | [] => Some c
  | event :: events' => c ← process_engine_event event now c; process_engine_events events' now c
  end.

(** *** Batches *)

(** The loop that persists and applies; [false] when an append failed and the
    rest of the batch is skipped. *)
Fixpoint persist_and_apply (l : list Observation.t) (c : consumer) : consumer * bool :=
  match l with
  | [] => (c, true)
  | obs :: l' =>
      let '(res, store) := append (observation_store c) obs in
      let c := set_observation_store c store in
      match res with
      | Err e => (log c [Trace.AppendFailed e], false)
      | Ok _ =>
          let c := match ReadModelStore.apply (read_models c) obs with
                   | Ok rm => set_read_models c rm
                   | Err e => log c [Trace.ApplyFailed e]
                   end in
          persist_and_apply l' c
      end
  end.

(** The loop that hands each draft to the engine. *)
Fixpoint handle_drafts (drafts : list IncidentSignalDraft.t) (now : DateTime) (c : consumer) :
    option consumer :=
  match drafts with
  | [] => Some c
  | draft :: drafts' =>
      '(res, e, n) ←
        IncidentEngine.handle (engine c) (IncidentCommand.RecordSignal draft) now (draws c);
      let c := set_engine c e n in
      match res with
      | Ok events =>
          c ← process_engine_events events now c; handle_drafts drafts' now c
      | Err err => handle_drafts drafts' now (log c [Trace.EngineFailed err])
      end
  end.

Definition process_batch (batch : ObservationBatch.t) (now : DateTime)
    (monotonic_now : Instant) (c : consumer) : option consumer :=
  let observations := observations_from_batch batch in
  match Observation.subject <$> head observations with
  | None => Some c
  | Some subject =>
      let '(c, ok) := persist_and_apply observations c in
      if negb ok then Some c
      else
        let '(drafts, rules', tr) :=
          evaluate_rules (rules c)
            (diagnostic_context (read_models c) subject now monotonic_now) in
        handle_drafts drafts now (log (set_rules c rules') tr)
  end.

(** [run]: the batches in the order they are received, each with its clocks.
    After a shutdown the loop only drains the channel, in the same order, so
    a run is the sequence of the batches received. *)
Fixpoint run (batches : list (ObservationBatch.t * DateTime * Instant)) (c : consumer) :
    option consumer :=
  match batches with
  | [] => Some c
  | (batch, now, monotonic_now) :: batches' =>
      c ← process_batch batch now monotonic_now c; run batches' c
  end.
End consumer.

(** ** The run as a sequence of steps *)

#[local] Arguments IncidentEngine.handle : simpl never.
#[local] Arguments ReadModelStore.apply : simpl never.
#[local] Arguments Nat.ltb : simpl never.

Section steps.
Context `{UuidLib, DebugLib}.
Context {S R A : Type}.
Context `{ObservationStore S, IncidentRepository R, NotificationAttemptRepository A}.
#[local] Abbreviation consumer := (consumer (S := S) (R := R) (A := A)).
Implicit Types (c : consumer).

Inductive cstep : consumer → consumer → Prop :=
  | cs_append_failed c obs e store :
      append (observation_store c) obs = (Err e, store) →
      cstep c (log (set_observation_store c store) [Trace.AppendFailed e])
  | cs_observe c obs store :
      append (observation_store c) obs = (Ok (), store) →
      cstep c (match ReadModelStore.apply (read_models c) obs with
               | Ok rm => set_read_models (set_observation_store c store) rm
               | Err e => log (set_observation_store c store) [Trace.ApplyFailed e]
               end)
  | cs_rules c ctx :
      cstep c (log (set_rules c (evaluate_rules (rules c) ctx).1.2)
                 (evaluate_rules (rules c) ctx).2)
  | cs_refused c draft now err e n :
      IncidentEngine.handle (engine c) (IncidentCommand.RecordSignal draft) now (draws c)
      = Some (Err err, e, n) →
      cstep c (log (set_engine c e n) [Trace.EngineFailed err])
  | cs_draft c draft now events e n c' :
      IncidentEngine.handle (engine c) (IncidentCommand.RecordSignal draft) now (draws c)
      = Some (Ok events, e, n) →
      process_engine_events events now (set_engine c e n) = Some c' →
      cstep c c'.

(** The retry loop never panics: it runs at least once. *)
Lemma save_attempts_total fuel k e r i :
  ∃ res r' tr, save_attempts fuel k (Some e) r i = Some (res, r', tr).
Proof.
  revert k e r. induction fuel as [|fuel IH]; intros k e r; cbn; [by eauto|].
  destruct (save r i) as [[[]|e'] r']; [by eauto|].
  destruct (IH (Datatypes.S k) e' r') as (res & r2 & tr & ->). cbn. eauto.
Qed.

Lemma save_incident_total r i :
  ∃ res r' tr, save_incident_with_retry r i = Some (res, r', tr).
Proof.
  unfold save_incident_with_retry. cbn -[save_attempts]. simpl.
  destruct (save r i) as [[[]|e] r']; [by eauto|].
  destruct (save_attempts_total 2 1 e r' i) as (res & r2 & tr & E).
  cbn in E. rewrite E. cbn. eauto.
Qed.

Lemma process_engine_event_total event now c :
  ∃ c', process_engine_event event now c = Some c'.
Proof.
  destruct event as [obs|i|l|kind conf floor]; cbn [process_engine_event]; [|..|by eauto|by eauto].
  - destruct (append _ obs) as [res store]. by eauto.
  - destruct (save_incident_total (incident_repo c) i) as (res & r' & tr & ->). cbn. eauto.
Qed.

Lemma process_engine_events_total events now c :
  ∃ c', process_engine_events events now c = Some c'.
Proof.
  revert c. induction events as [|event events IH]; intros c; cbn; [by eauto|].
  destruct (process_engine_event_total event now c) as [c1 ->]. cbn. apply IH.
Qed.

Lemma handle_drafts_steps drafts now c :
  ∃ c', handle_drafts drafts now c = Some c' ∧ rtc cstep c c'.
Proof.
  revert c. induction drafts as [|d drafts IH]; intros c; cbn; [by eauto using rtc_refl|].
  destruct (handle_outcome (engine c) (IncidentCommand.RecordSignal d) now (draws c))
    as (res & m & n & Hh & _).
  rewrite Hh. cbn. destruct res as [events|err].
  - destruct (process_engine_events_total events now
      (set_engine c (IncidentEngine.with_open (engine c) m) n)) as [c1 Hc1].
    rewrite Hc1. cbn. destruct (IH c1) as (c2 & Hc2 & Hs). exists c2. split; [done|].
    eapply rtc_l; [|exact Hs]. by eapply cs_draft.
  - destruct (IH (log (set_engine c (IncidentEngine.with_open (engine c) m) n)
      [Trace.EngineFailed err])) as (c2 & Hc2 & Hs). exists c2. split; [done|].
    eapply rtc_l; [|exact Hs]. by eapply cs_refused.
Qed.

Lemma persist_and_apply_steps l c : rtc cstep c (persist_and_apply l c).1.
Proof.
  revert c. induction l as [|obs l IH]; intros c; cbn; [apply rtc_refl|].
  destruct (append (observation_store c) obs) as [[[]|e] store] eqn:E.
  - eapply rtc_l; [by apply cs_observe|]. apply IH.
  - apply rtc_once. by apply cs_append_failed with obs.
Qed.

Lemma process_batch_steps batch now mono c :
  ∃ c', process_batch batch now mono c = Some c' ∧ rtc cstep c c'.
Proof.
  unfold process_batch. destruct (_ <$> _) as [subject|]; [|by eauto using rtc_refl].
  pose proof (persist_and_apply_steps (observations_from_batch batch) c) as Hp.
  destruct (persist_and_apply _ c) as [c1 ok]; cbn in Hp.
  destruct ok; cbn; [|by eauto].
  set (ctx := diagnostic_context _ subject now mono).
  destruct (evaluate_rules (rules c1) ctx) as [[drafts rules'] tr] eqn:E.
  destruct (handle_drafts_steps drafts now (log (set_rules c1 rules') tr)) as (c2 & Hc2 & Hs).
  exists c2. split; [done|]. etrans; [exact Hp|]. eapply rtc_l; [|exact Hs].
  pose proof (cs_rules c1 ctx) as Hr. by rewrite E in Hr.
Qed.

(** A run never panics and is a sequence of steps. *)
Lemma run_steps batches c : ∃ c', run batches c = Some c' ∧ rtc cstep c c'.
Proof.
  revert c. induction batches as [|[[batch now] mono] batches IH]; intros c; cbn;
    [by eauto using rtc_refl|].
  destruct (process_batch_steps batch now mono c) as (c1 & -> & Hfirst). cbn.
  destruct (IH c1) as (c2 & Hc2 & Hs). exists c2. split; [done|]. by etrans.
Qed.
End steps.

(** ** Frames: what each part leaves alone *)

Section frames.
Context `{UuidLib, DebugLib}.
Context {S R A : Type}.
Context `{ObservationStore S, IncidentRepository R, NotificationAttemptRepository A}.
#[local] Abbreviation consumer := (consumer (S := S) (R := R) (A := A)).
Implicit Types (c : consumer).

Lemma insert_attempts_draws l event now (repo : A) n :
  n ≤ (insert_attempts l event now repo n).1.2.
Proof.
  revert repo n. induction l as [|rule l IH]; intros repo n; cbn; [done|].
  destruct (NotificationRule.matches rule event); [|apply IH].
  destruct (insert_pending repo _) as [res repo1].
  specialize (IH repo1 (Datatypes.S n)).
  destruct (insert_attempts l event now repo1 (Datatypes.S n)) as [[[t r] n'] tr].
  cbn in IH. destruct res; cbn; lia.
Qed.

(** Everything but the attempts, the channel, the draws and the trace. *)
Record same_core c c' : Prop := {
  core_rules : rules c' = rules c;
  core_read_models : read_models c' = read_models c;
  core_engine : engine c' = engine c;
  core_notification_rules : notification_rules c' = notification_rules c;
  core_observation_store : observation_store c' = observation_store c;
  core_incident_repo : incident_repo c' = incident_repo c;
  core_draws : draws c ≤ draws c';
}.

(** [x] is only logged by its own site: the traces added satisfy [P]. *)
Definition logs (P : Trace.t → Prop) c c' : Prop :=
  ∃ l, trace c' = trace c ++ l ∧ Forall P l.

Lemma logs_refl P c : logs P c c.
Proof. exists []. by rewrite app_nil_r. Qed.

Lemma logs_trans P c1 c2 c3 : logs P c1 c2 → logs P c2 c3 → logs P c1 c3.
Proof.
  intros (l1 & E1 & F1) (l2 & E2 & F2). exists (l1 ++ l2). split.
  - by rewrite E2, E1, app_assoc.
  - by apply Forall_app.
Qed.

Lemma logs_weaken (P Q : Trace.t → Prop) c c' :
  (∀ x, P x → Q x) → logs P c c' → logs Q c c'.
Proof. intros HPQ (l & E & F). exists l. split; [done|]. eapply Forall_impl; eauto. Qed.

Definition notification_trace (x : Trace.t) : Prop :=
  match x with
  | Trace.InsertPendingFailed _ _ | Trace.ChannelClosed => True
  | _ => False
  end.

Lemma insert_attempts_trace l event now (repo : A) n :
  Forall notification_trace (insert_attempts l event now repo n).2.
Proof.
  revert repo n. induction l as [|rule l IH]; intros repo n; cbn; [constructor|].
  destruct (NotificationRule.matches rule event); [|apply IH].
  destruct (insert_pending repo _) as [res repo1].
  specialize (IH repo1 (Datatypes.S n)).
  destruct (insert_attempts l event now repo1 (Datatypes.S n)) as [[[t r] n'] tr].
  cbn in IH. destruct res; cbn; [done|by constructor].
Qed.

Lemma dispatch_lifecycle_frame event now c :
  same_core c (dispatch_lifecycle event now c) ∧
  logs notification_trace c (dispatch_lifecycle event now c).
Proof.
  unfold dispatch_lifecycle.
  pose proof (insert_attempts_draws (notification_rules c) event now (attempts_repo c) (draws c)) as Hn.
  pose proof (insert_attempts_trace (notification_rules c) event now (attempts_repo c) (draws c)) as Ht.
  destruct (insert_attempts _ _ _ _ _) as [[[targets repo] n] tr]. cbn in Hn, Ht.
  destruct targets.*1 as [|a al]; cbn.
  - split; [by split|]. by exists tr.
  - destruct (Channel.send (notif_tx c) _) as [[] tx]; cbn.
    + split; [by split|]. by exists tr.
    + split; [by split|]. exists (tr ++ [Trace.ChannelClosed]). cbn. rewrite app_assoc.
      split; [done|]. apply Forall_app. by split; [|repeat constructor].
Qed.
End frames.

(** ** Write-through: the repository mirrors the engine *)

Section write_through.
Context `{UuidLib, DebugLib}.
Context {S R A : Type}.
Context `{ObservationStore S, IncidentRepository R, !IncidentRepositoryLaws R,
  NotificationAttemptRepository A}.
#[local] Abbreviation consumer := (consumer (S := S) (R := R) (A := A)).
Implicit Types (c : consumer).

(** No incident was given up on. *)
Definition saves_ok c : Prop := ∀ id e, Trace.SaveExhausted id e ∉ trace c.

Definition not_exhausted (x : Trace.t) : Prop :=
  match x with
  | Trace.SaveExhausted _ _ => False
  | _ => True
  end.

Lemma saves_ok_before P c c' : logs P c c' → saves_ok c' → saves_ok c.
Proof. intros (l & E & _) Hok id e Hin. apply (Hok id e). rewrite E. set_solver. Qed.

Lemma save_attempts_incidents fuel k e r i res r' tr :
  save_attempts fuel k e r i = Some (res, r', tr) →
  Forall not_exhausted tr ∧
  incidents r' = match res with
                 | Ok _ => <[Incident.id i := i]> (incidents r)
                 | Err _ => incidents r
                 end.
Proof.
  revert k e r res r' tr. induction fuel as [|fuel IH]; intros k e r res r' tr; cbn.
  { destruct e; cbn; [|done]. by intros [= <- <- <-]. }
  destruct (save r i) as [[[]|e1] r1] eqn:E.
  { intros [= <- <- <-]. split; [constructor|]. by apply save_ok. }
  destruct (save_attempts fuel (Datatypes.S k) (Some e1) r1 i) as [[[res2 r2] tr2]|] eqn:E2;
    cbn; [|done].
  intros [= <- <- <-]. apply IH in E2 as [Hf Hi]. apply save_err in E. split.
  - apply Forall_app. split; [|done].
    destruct (RETRY_DELAYS_MS !! k); repeat constructor.
  - rewrite Hi. by destruct res2; rewrite E.
Qed.

Definition touched (e : IncidentEvent.t) : option Incident.t :=
  match e with
  | IncidentEvent.IncidentTouched i => Some i
  | _ => None
  end.

Definition save_map (m : gmap IncidentId.t Incident.t) (i : Incident.t) :
    gmap IncidentId.t Incident.t := <[Incident.id i := i]> m.

Lemma event_incidents event now c c' :
  process_engine_event event now c = Some c' →
  engine c' = engine c ∧ draws c ≤ draws c' ∧ (saves_ok c' → saves_ok c ∧
    incidents (incident_repo c') = foldl save_map (incidents (incident_repo c))
      (omap touched [event])).
Proof.
  destruct event as [obs|i|l|kind conf floor]; cbn [process_engine_event].
  - destruct (append _ obs) as [res store]. intros [= <-].
    destruct res, (ReadModelStore.apply _ obs); cbn; split_and!; try done; unfold saves_ok; cbn;
      intros Hok; (split; [|done]); intros id e' Hin; apply (Hok id e'); set_solver.
  - destruct (save_incident_with_retry _ i) as [[[res r'] tr]|] eqn:E; cbn; [|done].
    intros [= <-]. apply save_attempts_incidents in E as [Hf Hi].
    destruct res as [|e]; cbn; split_and!; try done; unfold saves_ok; cbn; intros Hok.
    + split; [|done]. intros id e' Hin. apply (Hok id e'). set_solver.
    + exfalso. apply (Hok (Incident.id i) e). set_solver.
  - intros [= <-]. destruct (dispatch_lifecycle_frame l now c) as [[] Hl].
    split_and!; [done|done|]. intros Hok. split; [by eapply saves_ok_before|]. cbn. congruence.
  - intros [= <-]. cbn. split_and!; try done. unfold saves_ok; cbn. intros Hok.
    split; [|done]. intros id e' Hin. apply (Hok id e'). set_solver.
Qed.

Lemma events_incidents events now c c' :
  process_engine_events events now c = Some c' →
  engine c' = engine c ∧ draws c ≤ draws c' ∧ (saves_ok c' → saves_ok c ∧
    incidents (incident_repo c') = foldl save_map (incidents (incident_repo c))
      (omap touched events)).
Proof.
  revert c. induction events as [|event events IH]; intros c; cbn; [by intros [= <-]|].
  destruct (process_engine_event event now c) as [c1|] eqn:E; cbn; [|done].
  intros (He & Hd & Hi)%IH. apply event_incidents in E as (He1 & Hd1 & Hi1).
  split_and!; [congruence|lia|]. intros [Hok1 Hi2]%Hi. destruct (Hi1 Hok1) as [Hok Hi3].
  split; [done|]. rewrite Hi2, Hi3. cbn. by destruct (touched event).
Qed.

End write_through.

(** What stored incidents must be for the engine to be rebuilt from them; the
    identifiers still to be drawn are not in use. *)
Record mirror `{UuidLib} (e : IncidentEngine.t) (m : gmap IncidentId.t Incident.t) (n : nat) :
    Prop := {
  mirror_engine : engine_ok e;
  mirror_ids id i : m !! id = Some i → Incident.id i = id;
  mirror_stored fp i : IncidentEngine.open_incidents e !! fp = Some i →
    m !! Incident.id i = Some i;
  mirror_open id i : m !! id = Some i → Incident.status i ≠ IncidentStatus.Resolved →
    IncidentEngine.open_incidents e !! Incident.fingerprint i = Some i;
  mirror_fresh k : n ≤ k → m !! IncidentId.new k = None;
}.

Section mirror.
Context `{UuidLaws}.
Implicit Types (e : IncidentEngine.t) (m : gmap IncidentId.t Incident.t).

Lemma mirror_later e m n n' : n ≤ n' → mirror e m n → mirror e m n'.
Proof. intros Hn []. split; eauto with lia. Qed.

(** The map after an open incident is stored under its own identifier. *)
Lemma mirror_save_open e m n fp i :
  mirror e m n → live fp i → (∀ k, n ≤ k → IncidentId.new k ≠ Incident.id i) →
  (∀ fp' j, fp' ≠ fp → IncidentEngine.open_incidents e !! fp' = Some j →
     Incident.id j ≠ Incident.id i) →
  (∀ j, IncidentEngine.open_incidents e !! fp = Some j → Incident.id j = Incident.id i) →
  mirror (IncidentEngine.with_open e (<[fp := i]> (IncidentEngine.open_incidents e)))
    (save_map m i) n.
Proof.
  intros [Hok Hids Hst Hop Hfr] Hlive Hnew Hother Hsame. unfold save_map. split; cbn.
  - by apply map_Forall_insert_2.
  - intros id j [[<- <-]|[_ Hj]]%lookup_insert_Some; eauto.
  - intros fp' j [[<- <-]|[Hne Hj]]%lookup_insert_Some; [by rewrite lookup_insert_eq|].
    rewrite lookup_insert_ne by (specialize (Hother fp' j); naive_solver). eauto.
  - intros id j [[<- <-]|[Hid Hj]]%lookup_insert_Some Hs.
    + by rewrite (live_fingerprint _ _ Hlive), lookup_insert_eq.
    + pose proof (Hop _ _ Hj Hs) as Hjo. rewrite lookup_insert_ne; [done|].
      intros ->. apply Hid. rewrite <-(Hsame _ Hjo). eauto.
  - intros k Hk. rewrite lookup_insert_ne; [by apply Hfr|]. intros Heq. by apply (Hnew k).
Qed.

Lemma mirror_ids_inj e m n fp fp' i j :
  mirror e m n → IncidentEngine.open_incidents e !! fp = Some i →
  IncidentEngine.open_incidents e !! fp' = Some j → Incident.id j = Incident.id i → fp' = fp.
Proof.
  intros [Hok _ Hst _ _] Hi Hj Hid. pose proof (Hst _ _ Hi) as E1. pose proof (Hst _ _ Hj) as E2.
  rewrite Hid, E1 in E2. injection E2 as <-.
  by rewrite <-(live_fingerprint _ _ (Hok _ _ Hi)), <-(live_fingerprint _ _ (Hok _ _ Hj)).
Qed.

(** Handling a command and saving what it touched keeps the mirror. *)
Lemma mirror_handle e m n cmd now r e' n' :
  mirror e m n → IncidentEngine.handle e cmd now n = Some (r, e', n') →
  mirror e' (foldl save_map m (omap touched (events_of r))) n'.
Proof.
  intros Hm (o & -> & Ho)%handle_inv.
  assert (IncidentEngine.with_open e (IncidentEngine.open_incidents e) = e) as He by by destruct e.
  destruct cmd as [d| |]; [|by destruct Ho as ((? & ->) & -> & ->); rewrite He..].
  destruct Ho as [err Hv|floor Hef _|Hef Hi i|i Hef Hi new i'|i Hef Hi i'|Hef Hi]; cbn;
    rewrite ?He; try (eapply mirror_later; [|done]; lia).
  - apply mirror_later with (S (S n)); [done|]. apply mirror_save_open.
    + eapply mirror_later; [|done]. lia.
    + apply live_new.
    + intros k Hk [= Heq%(inj now_v7)]. lia.
    + intros fp' j _ Hj Hid. pose proof (mirror_stored _ _ _ Hm _ _ Hj) as Hs.
      rewrite Hid in Hs. cbn in Hs. rewrite (mirror_fresh _ _ _ Hm) in Hs; [done|lia].
    + intros j Hj. congruence.
  - replace (foldl _ _ _) with (save_map m i') by (by destruct (_ <? _)).
    apply mirror_later with n; [lia|]. apply mirror_save_open; [done|..].
    + apply live_touch. by apply (mirror_engine _ _ _ Hm).
    + intros k Hk Heq. pose proof (mirror_stored _ _ _ Hm _ _ Hi) as Hs. cbn in Heq.
      rewrite <-Heq, (mirror_fresh _ _ _ Hm) in Hs by done. done.
    + intros fp' j Hne Hj Hid. apply Hne. by eapply mirror_ids_inj.
    + intros j Hj. cbn. congruence.
  - destruct Hm as [Hok Hids Hst Hop Hfr]. pose proof (Hst _ _ Hi) as Hs.
    unfold save_map. cbn. split; cbn.
    + by apply map_Forall_delete.
    + intros id j [[<- <-]|[_ Hj]]%lookup_insert_Some; [done|eauto].
    + intros fp' j [Hne Hj]%lookup_delete_Some. rewrite lookup_insert_ne; [eauto|].
      intros Hid. apply Hne. symmetry. by eapply (mirror_ids_inj e m n); [by split| | |].
    + intros id j [[<- <-]|[Hid Hj]]%lookup_insert_Some Hst'; [done|].
      pose proof (Hop _ _ Hj Hst') as Hjo. rewrite lookup_delete_ne; [done|].
      intros Hfp. apply Hid. rewrite <-Hfp, Hi in Hjo. injection Hjo as <-. eauto.
    + intros k Hk. rewrite lookup_insert_ne; [apply Hfr; lia|].
      intros Heq. rewrite Heq, Hfr in Hs; [done|lia].
Qed.
End mirror.

(** ** Lemmas on the steps *)

Section step_lemmas.
Context `{UuidLaws, DebugLib}.
Context {S R A : Type}.
Context `{ObservationStore S, IncidentRepository R, !IncidentRepositoryLaws R,
  NotificationAttemptRepository A}.
#[local] Abbreviation consumer := (consumer (S := S) (R := R) (A := A)).
Implicit Types (c : consumer).

Definition write_through c : Prop :=
  mirror (engine c) (incidents (incident_repo c)) (draws c).

Lemma evaluate_rules_trace l ctx : Forall not_exhausted (evaluate_rules l ctx).2.
Proof.
  induction l as [|b l IH]; cbn; [constructor|].
  destruct (catch_unwind b ctx) as [res b'].
  destruct (evaluate_rules l ctx) as [[drafts rules'] tr]; cbn in IH.
  destruct res as [[]|]; cbn; [done|by constructor..].
Qed.

Lemma saves_ok_log c l : saves_ok (log c l) → saves_ok c.
Proof. apply (saves_ok_before (λ _, True)). exists l. split; [done|]. by apply Forall_true. Qed.

Lemma cstep_write_through c c' :
  cstep c c' → (saves_ok c' → saves_ok c ∧ (write_through c → write_through c')).
Proof.
  destruct 1 as [c obs e store Ha|c obs store Ha|c ctx|c draft now err e n Hh|c draft now events e n c' Hh Hp].
  - intros Hok%saves_ok_log. by split.
  - destruct (ReadModelStore.apply _ obs); [by split|]. intros Hok%saves_ok_log. by split.
  - intros Hok%saves_ok_log. by split.
  - intros Hok%saves_ok_log. split; [done|]. intros Hw.
    apply (mirror_handle _ _ _ _ _ _ _ _ Hw Hh).
  - apply events_incidents in Hp as (He & Hd & Hi). intros [Hok Hi']%Hi. split; [done|].
    intros Hw. unfold write_through. rewrite He, Hi'. cbn in Hd |- *.
    eapply mirror_later; [exact Hd|].
    apply (mirror_handle _ _ _ _ _ _ _ _ Hw Hh).
Qed.

Lemma steps_write_through c c' :
  rtc cstep c c' → saves_ok c' → saves_ok c ∧ (write_through c → write_through c').
Proof.
  induction 1 as [c|c1 c2 c3 H12 _ IH]; intros Hok; [done|].
  destruct (IH Hok) as [Hok2 Hw2]. destruct (cstep_write_through _ _ H12 Hok2). auto.
Qed.

(** A mirrored engine is rebuilt from what the repository loads. *)
Lemma write_through_reload c l :
  write_through c → keeps_incidents (incident_repo c) → load_open (incident_repo c) = Ok l →
  l ≡ₚ (map_to_list (IncidentEngine.open_incidents (engine c))).*2.
Proof.
  intros [Hok Hids Hst Hop _] Hkeeps Hl. apply (load_open_ok _ _ Hkeeps) in Hl. rewrite Hl. apply NoDup_Permutation.
  - apply NoDup_filter. apply (NoDup_fmap_1 Incident.id).
    replace (Incident.id <$> _) with (map_to_list (incidents (incident_repo c))).*1;
      [apply NoDup_fst_map_to_list|].
    rewrite <-list_fmap_compose. apply list_fmap_ext.
    intros k [id i] Hin%list_elem_of_lookup_2. apply elem_of_map_to_list in Hin. cbn.
    by rewrite (Hids _ _ Hin).
  - apply (NoDup_fmap_1 (λ i, (Incident.fingerprint i, i))). rewrite (engine_ok_keys _ Hok).
    apply NoDup_map_to_list.
  - intros i. rewrite list_elem_of_filter, !list_elem_of_fmap. split.
    + intros (Hs & [id i'] & -> & Hin%elem_of_map_to_list). cbn in *.
      exists (Incident.fingerprint i', i'). rewrite elem_of_map_to_list. eauto.
    + intros ([fp i'] & -> & Hin%elem_of_map_to_list). cbn.
      split; [apply (Hok _ _ Hin)|]. exists (Incident.id i', i').
      rewrite elem_of_map_to_list. eauto.
Qed.
End step_lemmas.

(** ** Every dispatch is backed by its rows *)

Section backed.
Context `{UuidLib, DebugLib}.
Context {S R A : Type}.
Context `{ObservationStore S, IncidentRepository R,
  NotificationAttemptRepository A, !NotificationAttemptRepositoryLaws A}.
#[local] Abbreviation consumer := (consumer (S := S) (R := R) (A := A)).
Implicit Types (c : consumer).

(** A target of a dispatch with the Pending row inserted for it. *)
Definition backed_target (l : list NotificationRule.t) (repo : A) (event : IncidentLifecycleEvent.t)
    (p : NotificationAttemptId.t * NotificationTarget.t) : Prop :=
  ∃ rule k now, rule ∈ l ∧ NotificationRule.matches rule event = true ∧
    NotificationRule.target rule = p.2 ∧
    rows repo !! p.1 = Some (pending_attempt rule event now k).

Definition backed c (d : NotificationDispatch.t) : Prop :=
  NotificationDispatch.attempts d = (NotificationDispatch.targets d).*1 ∧
  NotificationDispatch.targets d ≠ [] ∧
  Forall (backed_target (notification_rules c) (attempts_repo c) (NotificationDispatch.event d))
    (NotificationDispatch.targets d).

Lemma backed_ids c ds id :
  Forall (backed c) ds → id ∈ target_ids ds → is_Some (rows (attempts_repo c) !! id).
Proof.
  intros HF Hid. unfold target_ids in Hid. apply list_elem_of_bind in Hid as (d & Hid & Hd).
  rewrite Forall_forall in HF. destruct (HF d Hd) as (_ & _ & Hb).
  apply list_elem_of_fmap in Hid as (p & -> & Hp). rewrite Forall_forall in Hb.
  destruct (Hb p Hp) as (? & ? & ? & _ & _ & _ & Hrow). by eexists.
Qed.

(** Rows are only added. *)
Definition rows_grow (repo repo' : A) : Prop := rows repo ⊆ rows repo'.

#[local] Instance rows_grow_preorder : PreOrder rows_grow.
Proof. split; [intros r|intros r1 r2 r3]; unfold rows_grow; [done|apply transitivity]. Qed.

Lemma insert_pending_grow repo a : rows_grow repo (insert_pending repo a).2.
Proof.
  unfold rows_grow. destruct (insert_pending repo a) as [[[]|e] repo'] eqn:E; cbn.
  - apply insert_pending_ok in E as [Hnone ->]. by apply insert_subseteq.
  - by apply insert_pending_err in E as ->.
Qed.

Lemma backed_target_grow l l' repo repo' event p :
  l ⊆ l' → rows_grow repo repo' → backed_target l repo event p → backed_target l' repo' event p.
Proof.
  intros Hl Hg (rule & k & now & Hr & Hm & Ht & Hrow). exists rule, k, now.
  split_and!; [by apply Hl|done..|]. by eapply lookup_weaken.
Qed.

Lemma insert_attempts_backed l event now repo n targets repo' n' tr :
  insert_attempts l event now repo n = (targets, repo', n', tr) →
  rows_grow repo repo' ∧ Forall (backed_target l repo' event) targets ∧
  NoDup targets.*1 ∧ (∀ id, id ∈ targets.*1 → rows repo !! id = None) ∧
  length targets + length tr
  = length (filter (λ r, NotificationRule.matches r event = true) l).
Proof.
  revert repo n targets repo' n' tr. induction l as [|rule l IH]; intros repo n targets repo' n' tr.
  { intros [= <- <- <- <-]. split_and!; [unfold rows_grow; reflexivity|constructor..| |done].
    by intros id ?%elem_of_nil. }
  cbn [insert_attempts]. destruct (NotificationRule.matches rule event) eqn:Hm.
  - rewrite filter_cons_True by done. cbn [length].
    destruct (insert_pending repo _) as [res repo1] eqn:Ei.
    destruct (insert_attempts l event now repo1 (Datatypes.S n)) as [[[ts r2] n2] tr2] eqn:E.
    apply IH in E as (Hg & Hb & Hnd & Hnew & Hlen).
    pose proof (insert_pending_grow repo (pending_attempt rule event now n)) as Hg1.
    rewrite Ei in Hg1. cbn in Hg1.
    assert (Forall (backed_target (rule :: l) r2 event) ts) as Hb'.
    { eapply Forall_impl; [exact Hb|]. intros p. apply backed_target_grow; [set_solver|].
      reflexivity. }
    assert (rows_grow repo r2) as Hg2 by by etrans.
    assert (∀ id, id ∈ ts.*1 → rows repo !! id = None) as Hnew1.
    { intros id Hid. specialize (Hnew id Hid). by eapply lookup_weaken_None. }
    destruct res as [[]|e]; intros [= <- <- <- <-]; cbn [length]; (split_and!; [done|..|lia]); try done.
    1: constructor; [|done]. all: apply insert_pending_ok in Ei as [Hnone Hrows].
    2: { cbn. constructor; [|done]. intros Hin%Hnew. by rewrite Hrows, lookup_insert_eq in Hin. }
    2: { cbn. intros id [->|Hid]%elem_of_cons; auto. }
    exists rule, n, now. split_and!; [set_solver|done..|].
    eapply lookup_weaken; [|exact Hg]. rewrite Hrows. apply lookup_insert_eq.
  - rewrite filter_cons_False by congruence. intros (Hg & Hb & Hnd & Hnew & Hlen)%IH.
    split_and!; [done| |done..].
    eapply Forall_impl; [exact Hb|]. intros p. apply backed_target_grow; [set_solver|reflexivity].
Qed.

(** What a step does to the rows and the channel. *)
Definition audited c c' : Prop :=
  notification_rules c' = notification_rules c ∧
  rows_grow (attempts_repo c) (attempts_repo c') ∧
  ∃ ds, Channel.sent (notif_tx c') = Channel.sent (notif_tx c) ++ ds ∧ Forall (backed c') ds ∧
    NoDup (target_ids ds) ∧ ∀ id, id ∈ target_ids ds → rows (attempts_repo c) !! id = None.

Lemma audited_same c c' :
  notification_rules c' = notification_rules c → attempts_repo c' = attempts_repo c →
  notif_tx c' = notif_tx c → audited c c'.
Proof.
  intros E1 E2 E3. split_and!; [done|by rewrite E2|]. exists []. rewrite E3, app_nil_r.
  split_and!; try constructor. by intros id ?%elem_of_nil.
Qed.

Lemma audited_trans c1 c2 c3 : audited c1 c2 → audited c2 c3 → audited c1 c3.
Proof.
  intros (N1 & G1 & d1 & E1 & F1 & U1 & O1) (N2 & G2 & d2 & E2 & F2 & U2 & O2). split_and!.
  - congruence.
  - by etrans.
  - exists (d1 ++ d2). rewrite target_ids_app. split_and!; [by rewrite E2, E1, app_assoc|..].
    + apply Forall_app. split; [|done].
      eapply Forall_impl; [exact F1|]. intros d (Ha & Hne & Hb). split_and!; [done..|].
      eapply Forall_impl; [exact Hb|]. intros p. apply backed_target_grow; [by rewrite N2|done].
    + apply NoDup_app. split_and!; [done| |done]. intros id Hin1 Hin2%O2.
      destruct (backed_ids _ _ _ F1 Hin1) as [a Ha]. by rewrite Ha in Hin2.
    + intros id [Hid|Hid]%elem_of_app; [by apply O1|].
      specialize (O2 id Hid). by eapply lookup_weaken_None.
Qed.

Lemma dispatch_lifecycle_audited event now c : audited c (dispatch_lifecycle event now c).
Proof.
  unfold dispatch_lifecycle.
  destruct (insert_attempts _ _ _ _ _) as [[[targets repo] n] tr] eqn:E.
  apply insert_attempts_backed in E as (Hg & Hb & Hnd & Hnew & _).
  destruct targets as [|t ts]; cbn.
  { split_and!; [done|done|]. exists []. rewrite app_nil_r.
    split_and!; try constructor. by intros id ?%elem_of_nil. }
  match goal with |- context [Channel.send ?tx ?d] =>
    destruct (Channel.send_cases tx d) as [[Hs Hd]|Hs]; destruct (Channel.send tx d) as [sent tx']
  end; cbn in *.
  - subst sent. split_and!; [done|done|]. eexists [_]. unfold target_ids; cbn. rewrite app_nil_r.
    split_and!; [exact Hd| |exact Hnd|exact Hnew].
    repeat constructor; [done| |].
    + by apply Forall_cons in Hb as [? _].
    + by apply Forall_cons in Hb as [_ ?].
  - injection Hs as -> ->. split_and!; [done|done|]. exists []. rewrite app_nil_r.
    split_and!; try constructor. by intros id ?%elem_of_nil.
Qed.

Lemma event_audited event now c c' : process_engine_event event now c = Some c' → audited c c'.
Proof.
  destruct event as [obs|i|l|kind conf floor]; cbn [process_engine_event].
  - destruct (append _ obs) as [res store]. intros [= <-].
    apply audited_same; by destruct res, (ReadModelStore.apply _ obs).
  - destruct (save_incident_with_retry _ i) as [[[res r'] tr]|]; cbn; [|done].
    intros [= <-]. apply audited_same; by destruct res.
  - intros [= <-]. apply dispatch_lifecycle_audited.
  - intros [= <-]. by apply audited_same.
Qed.

Lemma events_audited events now c c' : process_engine_events events now c = Some c' → audited c c'.
Proof.
  revert c. induction events as [|event events IH]; intros c; cbn.
  { intros [= <-]. by apply audited_same. }
  destruct (process_engine_event event now c) as [c1|] eqn:E; cbn; [|done].
  intros Hc%IH. apply event_audited in E. by eapply audited_trans.
Qed.

Lemma steps_audited c c' : rtc cstep c c' → audited c c'.
Proof.
  induction 1 as [c|c1 c2 c3 H12 _ IH]; [by apply audited_same|].
  eapply audited_trans; [|exact IH]. destruct H12 as [| c obs store| | |c d now evs e n c' _ Hp];
    try by apply audited_same.
  - apply audited_same; by destruct (ReadModelStore.apply _ obs).
  - apply events_audited in Hp. eapply audited_trans; [|exact Hp]. by apply audited_same.
Qed.
End backed.

(** ** The read models are the projection of the observation log *)

Section replayed.
Context `{UuidLib, DebugLib}.
Context {S R A : Type}.
Context `{ObservationStore S, !ObservationStoreLaws S, IncidentRepository R,
  NotificationAttemptRepository A}.
#[local] Abbreviation consumer := (consumer (S := S) (R := R) (A := A)).
Implicit Types (c : consumer).

(** No signal was lost: the consumer applies a signal it failed to store. *)
Definition signals_ok c : Prop := ∀ e, Trace.SignalAppendFailed e ∉ trace c.

Definition replayed (config : ReadModelStoreConfig.t) c : Prop :=
  represents config (logged (observation_store c)) (read_models c).

Lemma logs_any c c' l : trace c' = trace c ++ l → logs (λ _, True) c c'.
Proof. intros E. exists l. split; [done|]. by apply Forall_true. Qed.

Lemma logs_same c c' : trace c' = trace c → logs (λ _, True) c c'.
Proof. intros E. apply (logs_any _ _ []). by rewrite app_nil_r. Qed.

Lemma signals_ok_before P c c' : logs P c c' → signals_ok c' → signals_ok c.
Proof. intros (l & E & _) Hok e Hin. apply (Hok e). rewrite E. set_solver. Qed.

Lemma event_replayed config event now c c' :
  process_engine_event event now c = Some c' →
  logs (λ _, True) c c' ∧ (signals_ok c' → replayed config c → replayed config c').
Proof.
  destruct event as [obs|i|l|kind conf floor]; cbn [process_engine_event].
  - destruct (append _ obs) as [res store] eqn:Ha. intros [= <-]. destruct res as [[]|e].
    + split; [destruct (ReadModelStore.apply _ obs); [by apply logs_same|by eapply logs_any]|].
      intros _ Hr. destruct (apply_represents _ _ _ obs Hr) as (rm & E & Hr').
      cbn. rewrite E. unfold replayed; cbn. by rewrite (append_many_ok _ _ _ Ha).
    + assert (∀ c1, logs (λ _, True) (log (set_observation_store c store)
        [Trace.SignalAppendFailed e]) c1 → ¬ signals_ok c1) as Hno.
      { intros c1 Hl Hok. apply (signals_ok_before _ _ _ Hl) in Hok. apply (Hok e). cbn. set_solver. }
      assert (logs (λ _, True) c (log (set_observation_store c store)
        [Trace.SignalAppendFailed e])) as Hlog by by eapply logs_any.
      cbn [read_models log set_observation_store].
      destruct (ReadModelStore.apply (read_models c) obs) as [rm|e'].
      * split; [by eapply logs_any|]. intros Hok. exfalso. eapply Hno; [|exact Hok]. by apply logs_same.
      * split; [eapply logs_trans; [exact Hlog|by eapply logs_any]|].
        intros Hok. exfalso. eapply Hno; [|exact Hok]. by eapply logs_any.
  - destruct (save_incident_with_retry _ i) as [[[res r'] tr]|]; cbn; [|done].
    intros [= <-]. destruct res; (split; [|by intros]).
    + by eapply logs_any.
    + eapply (logs_any _ _ (tr ++ [_])). cbn. by rewrite app_assoc.
  - intros [= <-]. destruct (dispatch_lifecycle_frame l now c) as [[] Hl].
    split; [by eapply logs_weaken|]. intros _. unfold replayed. congruence.
  - intros [= <-]. split; [by eapply logs_any|done].
Qed.

Lemma events_replayed config events now c c' :
  process_engine_events events now c = Some c' →
  logs (λ _, True) c c' ∧ (signals_ok c' → replayed config c → replayed config c').
Proof.
  revert c. induction events as [|event events IH]; intros c; cbn.
  { intros [= <-]. split; [apply logs_refl|done]. }
  destruct (process_engine_event event now c) as [c1|] eqn:E; cbn; [|done].
  intros [Hl2 Hr2]%IH. apply (event_replayed config) in E as [Hl1 Hr1].
  split; [by eapply logs_trans|]. intros Hok Hr.
  apply Hr2; [done|]. apply Hr1; [by eapply signals_ok_before|done].
Qed.

Lemma steps_replayed config c c' :
  rtc cstep c c' → logs (λ _, True) c c' ∧ (signals_ok c' → replayed config c → replayed config c').
Proof.
  induction 1 as [c|c1 c2 c3 H12 _ [Hl2 Hr2]]; [split; [apply logs_refl|done]|].
  enough (logs (λ _, True) c1 c2 ∧ (signals_ok c2 → replayed config c1 → replayed config c2))
    as [Hl1 Hr1].
  { split; [by eapply logs_trans|]. intros Hok Hr.
    apply Hr2; [done|]. apply Hr1; [by eapply signals_ok_before|done]. }
  destruct H12 as [c obs e store Ha|c obs store Ha|c ctx|c d now err e n Hh|c d now evs e n c' Hh Hp].
  - split; [by eapply logs_any|]. intros _. unfold replayed; cbn.
    by rewrite (append_many_err _ _ _ _ Ha).
  - split; [destruct (ReadModelStore.apply _ obs); [by apply logs_same|by eapply logs_any]|].
    intros _ Hr. destruct (apply_represents _ _ _ obs Hr) as (rm & E & Hr').
    rewrite E. unfold replayed; cbn. by rewrite (append_many_ok _ _ _ Ha).
  - split; [by eapply logs_any|done].
  - split; [by eapply logs_any|done].
  - apply (events_replayed config) in Hp as [Hl Hr]. split; [exact Hl|exact Hr].
Qed.
End replayed.

(** ** One evaluation per rule and batch *)

Section evaluation.
Context `{UuidLib, DebugLib}.
Context {S R A : Type}.
Context `{ObservationStore S, IncidentRepository R, NotificationAttemptRepository A}.
#[local] Abbreviation consumer := (consumer (S := S) (R := R) (A := A)).
Implicit Types (c : consumer).

(** The drafts a rule contributes: none when it fails or panics. *)
Definition rule_drafts (ctx : DiagnosticContext.t) (b : BoxedRule) : list IncidentSignalDraft.t :=
  match (catch_unwind b ctx).1 with
  | Some (Ok drafts) => drafts
  | _ => []
  end.

Lemma evaluate_rules_spec l ctx :
  (evaluate_rules l ctx).1 = (l ≫= rule_drafts ctx, (λ b, (catch_unwind b ctx).2) <$> l).
Proof.
  induction l as [|b l IH]; cbn; [done|]. unfold rule_drafts at 1.
  destruct (catch_unwind b ctx) as [res b']; cbn.
  destruct (evaluate_rules l ctx) as [[drafts rules'] tr]; cbn in *. injection IH as -> ->.
  by destruct res as [[]|].
Qed.

Lemma event_rules event now c c' :
  process_engine_event event now c = Some c' → rules c' = rules c.
Proof.
  destruct event as [obs|i|l|kind conf floor]; cbn [process_engine_event].
  - destruct (append _ obs) as [res store]. intros [= <-].
    by destruct res, (ReadModelStore.apply _ obs).
  - destruct (save_incident_with_retry _ i) as [[[res r'] tr]|]; cbn; [|done].
    intros [= <-]. by destruct res.
  - intros [= <-]. by destruct (dispatch_lifecycle_frame l now c) as [[] _].
  - by intros [= <-].
Qed.

Lemma events_rules events now c c' :
  process_engine_events events now c = Some c' → rules c' = rules c.
Proof.
  revert c. induction events as [|event events IH]; intros c; cbn; [by intros [= <-]|].
  destruct (process_engine_event event now c) as [c1|] eqn:E; cbn; [|done].
  intros Hr%IH. apply event_rules in E. congruence.
Qed.

Lemma handle_drafts_rules drafts now c c' :
  handle_drafts drafts now c = Some c' → rules c' = rules c.
Proof.
  revert c. induction drafts as [|d drafts IH]; intros c; cbn; [by intros [= <-]|].
  destruct (IncidentEngine.handle _ _ _ _) as [[[res e] n]|]; cbn; [|done].
  destruct res as [evs|err]; [|by intros Hr%IH].
  destruct (process_engine_events evs now _) as [c1|] eqn:E; cbn; [|done].
  intros Hr%IH. apply events_rules in E. cbn in E. congruence.
Qed.

Lemma persist_and_apply_frame l c :
  rules (persist_and_apply l c).1 = rules c ∧ engine (persist_and_apply l c).1 = engine c ∧
  incident_repo (persist_and_apply l c).1 = incident_repo c ∧
  attempts_repo (persist_and_apply l c).1 = attempts_repo c ∧
  notif_tx (persist_and_apply l c).1 = notif_tx c.
Proof.
  revert c. induction l as [|obs l IH]; intros c; cbn; [done|].
  destruct (append (observation_store c) obs) as [[[]|e] store]; [|done].
  destruct (ReadModelStore.apply (read_models c) obs) as [rm|e].
  - exact (IH (set_read_models (set_observation_store c store) rm)).
  - exact (IH (log (set_observation_store c store) [Trace.ApplyFailed e])).
Qed.
End evaluation.

(** ** Sample data: the no-peers rule over in-memory stores *)

Definition sample_rule : NotificationRule.t := {|
  NotificationRule.id := NotificationRuleId.mk "ops";
  NotificationRule.name := NotificationRuleName.mk "ops";
  NotificationRule.enabled := true;
  NotificationRule.min_severity := IncidentSeverity.Info;
  NotificationRule.event_kinds := [];
  NotificationRule.target := NotificationTarget.Telegram sample_telegram_target;
|}.

Definition sample_read_models : ReadModelStore.t :=
  default (ReadModelStore.mk StateProjection.new (MetricProjection.mk 0 ∅) HealthProjection.new
    CapabilityProjection.new (HeartbeatProjection.mk 0 []) IncidentSignalProjection.new)
    ReadModelStore.default.

(** A rule that panics whenever it is evaluated. *)
Definition panicking_rule : BoxedRule := Boxed unit () (λ _ _, (None, ())).

Definition sample_consumer : consumer (S := MemoryObservationStore.t)
    (R := MemoryIncidentRepository.t) (A := MemoryNotificationAttemptRepository.t) := {|
  rules := [panicking_rule; box (BitcoinNoPeersRule.with_debounce 0)];
  read_models := sample_read_models;
  engine := sample_engine;
  notification_rules := [sample_rule];
  notif_tx := Channel.mk [] None;
  observation_store := MemoryObservationStore.new;
  incident_repo := MemoryIncidentRepository.new;
  attempts_repo := MemoryNotificationAttemptRepository.new;
  draws := 100;
  trace := [];
|}.

Definition sample_batch (observations : list Observation.t) : ObservationBatch.t := {|
  ObservationBatch.id := ObservationBatchId.new 50;
  ObservationBatch.collector := sample_collector;
  ObservationBatch.sidecar_id := sample_sidecar;
  ObservationBatch.window := ProbeWindow.mk 0 0;
  ObservationBatch.result := ProbeResult.Ok observations;
|}.

Definition sample_network (n : nat) (at_ : DateTime) (outbound : Z) : Observation.t :=
  Observation.state (sample_context at_)
    (StateObservation.BitcoinNetwork
       (BitcoinNetworkState.mk 270000 "/Satoshi:27.0.0/" 70016 outbound None (Some outbound)
          (Some true)))
    no_attributes n.

(** No peers, then peers again: an incident is opened and resolved. *)
Definition sample_batches : list (ObservationBatch.t * DateTime * Instant) := [
  (sample_batch [sample_network 51 10 0; sample_peer_summary 52 10 0], 10%Z, 10%Z);
  (sample_batch [sample_network 53 20 8; sample_peer_summary 54 20 8], 20%Z, 20%Z)
].

(** Probes that fail outright. *)
Definition failed_outright (batch : ObservationBatch.t) : Prop :=
  ∃ health error, ObservationBatch.result batch = ProbeResult.Failed health [] error.

(** ** Properties *)

(** Write-through and crash recovery. A run of the consumer never panics.
    As long as no save exhausted its retries, the repository mirrors the
    engine after every run from a mirrored state: each open incident is
    stored as the engine has it, every stored incident that is not resolved
    is open, and the identifiers still to be drawn are free. Hence an engine
    rebuilt at start-up from what [load_open] returns, in whatever order, is
    the engine that was running, provided the backend keeps what was saved
    (memory does; [sqlite_restart] discharges it for SQLite). *)
Theorem consumer_recovery `{UuidLaws, DebugLib} {S R A : Type}
    `{ObservationStore S, IncidentRepository R, !IncidentRepositoryLaws R,
      NotificationAttemptRepository A}
    batches (c : consumer (S := S) (R := R) (A := A)) :
  write_through c →
  ∃ c', run batches c = Some c' ∧
    (saves_ok c' →
     write_through c' ∧
     ∀ l, keeps_incidents (incident_repo c') → load_open (incident_repo c') = Ok l →
       IncidentEngine.new (IncidentEngine.kinds (engine c')) (IncidentEngine.sidecar_id (engine c'))
         (IncidentEngine.signal_source (engine c')) l = Some (engine c')).
Proof.
  intros Hw. destruct (run_steps batches c) as (c' & Hr & Hs). exists c'. split; [done|].
  intros Hok. destruct (steps_write_through _ _ Hs Hok) as [_ Hw']. specialize (Hw' Hw).
  split; [done|]. intros l Hkeeps Hl. apply engine_new_open; [by destruct Hw'|].
  by apply write_through_reload.
Qed.

(** A trace with nothing but panicking rules in it. *)
Definition only_panics (l : list Trace.t) : bool :=
  forallb (λ x, match x with Trace.RulePanicked => true | _ => false end) l.

Lemma only_panics_not l x : only_panics l = true → only_panics [x] = false → x ∉ l.
Proof.
  unfold only_panics. intros Hl Hx Hin%list_elem_of_In. rewrite forallb_forall in Hl.
  apply Hl in Hin. cbn in Hx. by rewrite Hin in Hx.
Qed.

Lemma consumer_recovery_witness :
  ∃ c', run (take 1 sample_batches) sample_consumer = Some c' ∧
    open_severity (engine c') sample_fingerprint = Some IncidentSeverity.Critical ∧
    ∀ l, load_open (incident_repo c') = Ok l →
      IncidentEngine.new (IncidentEngine.kinds (engine c')) (IncidentEngine.sidecar_id (engine c'))
        (IncidentEngine.signal_source (engine c')) l = Some (engine c').
Proof.
  assert (Hw : write_through sample_consumer).
  { split; cbn; [apply map_Forall_empty|done..]. }
  destruct (consumer_recovery (take 1 sample_batches) sample_consumer Hw) as (c' & Hr & Hc).
  destruct (is_some_with (λ c, only_panics (trace c) &&
    bool_decide (open_severity (engine c) sample_fingerprint = Some IncidentSeverity.Critical))
    (run (take 1 sample_batches) sample_consumer)) as (c1 & Hc1 & Hb); [vm_compute; reflexivity|].
  rewrite Hr in Hc1. injection Hc1 as <-.
  apply andb_prop in Hb as [Ht Ho]. apply bool_decide_eq_true in Ho.
  exists c'. split; [exact Hr|]. split; [exact Ho|]. intros l.
  apply Hc; [|exact I]. intros id e. by apply only_panics_not.
Defined.

(** Audit before dispatch. Over any run, whatever fails, every dispatch put
    on the channel has at least one target, lists exactly its targets'
    attempts, and each target belongs to a configured rule that matches the
    event and whose row is in the attempts repository, as inserted: Pending,
    first attempt, with the redacted target. Rows are never removed or
    rewritten by the consumer. *)
Theorem dispatch_backed_by_rows `{UuidLib, DebugLib} {S R A : Type}
    `{ObservationStore S, IncidentRepository R,
      NotificationAttemptRepository A, !NotificationAttemptRepositoryLaws A}
    batches (c : consumer (S := S) (R := R) (A := A)) :
  ∃ c', run batches c = Some c' ∧
    rows (attempts_repo c) ⊆ rows (attempts_repo c') ∧
    ∃ ds, Channel.sent (notif_tx c') = Channel.sent (notif_tx c) ++ ds ∧
      Forall (λ d,
        NotificationDispatch.attempts d = (NotificationDispatch.targets d).*1 ∧
        NotificationDispatch.targets d ≠ [] ∧
        ∀ id target, (id, target) ∈ NotificationDispatch.targets d →
          ∃ rule k now, rule ∈ notification_rules c ∧
            NotificationRule.matches rule (NotificationDispatch.event d) = true ∧
            NotificationRule.target rule = target ∧
            rows (attempts_repo c') !! id
            = Some (pending_attempt rule (NotificationDispatch.event d) now k)) ds.
Proof.
  destruct (run_steps batches c) as (c' & Hr & Hs). exists c'. split; [done|].
  destruct (steps_audited _ _ Hs) as (Hn & Hg & ds & Hd & Hb & _). split; [exact Hg|].
  exists ds. split; [done|]. eapply Forall_impl; [exact Hb|].
  intros d (Ha & Hne & Ht). split_and!; [done..|]. intros id target Hin.
  rewrite Forall_forall, Hn in Ht. exact (Ht _ Hin).
Qed.

(** C6: The read models are the projection of the observation log. As long as
    no signal failed to be stored, the read models after any run are those
    obtained by applying the observations of the store, in the order they
    were appended; an observation that could not be stored is not applied,
    and the projections never refuse one. *)
Theorem read_models_replay_log `{UuidLib, DebugLib} {S R A : Type}
    `{ObservationStore S, !ObservationStoreLaws S, IncidentRepository R,
      NotificationAttemptRepository A}
    config batches (c : consumer (S := S) (R := R) (A := A)) :
  represents config (logged (observation_store c)) (read_models c) →
  ∃ c', run batches c = Some c' ∧
    (signals_ok c' → represents config (logged (observation_store c')) (read_models c')).
Proof.
  intros Hr. destruct (run_steps batches c) as (c' & Hrun & Hs). exists c'. split; [done|].
  intros Hok. by apply (steps_replayed config _ _ Hs).
Qed.

Lemma read_models_replay_log_witness :
  ∃ c', run sample_batches sample_consumer = Some c' ∧
    represents ReadModelStoreConfig.default (logged (observation_store c')) (read_models c').
Proof.
  assert (Hr : represents ReadModelStoreConfig.default
    (logged (observation_store sample_consumer)) (read_models sample_consumer)).
  { apply new_represents. reflexivity. }
  destruct (read_models_replay_log _ sample_batches sample_consumer Hr) as (c' & Hrun & Hc).
  exists c'. split; [exact Hrun|]. apply Hc.
  destruct (is_some_with (λ c, only_panics (trace c)) (run sample_batches sample_consumer))
    as (c1 & Hc1 & Hb); [vm_compute; reflexivity|].
  rewrite Hrun in Hc1. injection Hc1 as <-.
  intros e. by apply only_panics_not.
Defined.

(** Each batch evaluates every rule exactly once, for the subject of its
    first observation only, on the read models the whole batch was applied
    to; a rule that fails or panics contributes nothing and does not keep the
    others from being evaluated, and the drafts of all rules reach the engine
    in rule order. When an observation cannot be stored the batch stops
    there: no rule is evaluated and the engine is not touched. *)
Theorem batch_evaluates_once `{UuidLib, DebugLib} {S R A : Type}
    `{ObservationStore S, IncidentRepository R, NotificationAttemptRepository A}
    batch now mono (c : consumer (S := S) (R := R) (A := A)) obs rest :
  observations_from_batch batch = obs :: rest →
  let '(c1, ok) := persist_and_apply (obs :: rest) c in
  let ctx := diagnostic_context (read_models c1) (Observation.subject obs) now mono in
  ∃ c', process_batch batch now mono c = Some c' ∧
    if ok then
      rules c' = (λ b, (catch_unwind b ctx).2) <$> rules c ∧
      handle_drafts (rules c ≫= rule_drafts ctx) now
        (log (set_rules c1 ((λ b, (catch_unwind b ctx).2) <$> rules c))
           (evaluate_rules (rules c) ctx).2) = Some c'
    else c' = c1 ∧ rules c' = rules c ∧ engine c' = engine c.
Proof.
  intros Hobs. unfold process_batch. rewrite Hobs. cbn [head fmap option_fmap option_map].
  pose proof (persist_and_apply_frame (obs :: rest) c) as (Hr & He & _).
  destruct (persist_and_apply (obs :: rest) c) as [c1 ok]. cbn [fst] in Hr, He.
  destruct ok; cbn [negb]; [|by exists c1].
  set (ctx := diagnostic_context _ _ now mono).
  pose proof (evaluate_rules_spec (rules c) ctx) as Hev. rewrite Hr.
  destruct (evaluate_rules (rules c) ctx) as [[drafts rules'] tr]. cbn in Hev.
  injection Hev as -> ->. cbn [snd].
  destruct (handle_drafts_steps (rules c ≫= rule_drafts ctx) now
    (log (set_rules c1 ((λ b, (catch_unwind b ctx).2) <$> rules c)) tr)) as (c' & Hc' & _).
  exists c'. split_and!; [done| |done]. by apply handle_drafts_rules in Hc'.
Qed.

Lemma batch_evaluates_once_witness :
  ∃ c', process_batch (sample_batch [sample_network 51 10 0; sample_peer_summary 52 10 0])
      10 10 sample_consumer = Some c' ∧ length (rules c') = 2.
Proof.
  pose proof (batch_evaluates_once
    (sample_batch [sample_network 51 10 0; sample_peer_summary 52 10 0]) 10 10 sample_consumer
    (sample_network 51 10 0) [sample_peer_summary 52 10 0] eq_refl) as H.
  destruct (persist_and_apply [sample_network 51 10 0; sample_peer_summary 52 10 0]
    sample_consumer) as [c1 ok].
  destruct H as (c' & Hc' & Hok). exists c'. split; [exact Hc'|].
  destruct ok; destruct Hok as [H1 H2].
  - rewrite H1. reflexivity.
  - destruct H2 as [H2 _]. rewrite H2. reflexivity.
Defined.

(** A probe that fails outright leaves no mark: the health observation of a
    failed batch is dropped, so batches that failed without partial
    observations change nothing at all, whatever they report and however many
    arrive in a row, and no rule ever sees the outage. *)
Theorem failed_probes_leave_no_mark `{UuidLib, DebugLib} {S R A : Type}
    `{ObservationStore S, IncidentRepository R, NotificationAttemptRepository A}
    (batches : list (ObservationBatch.t * DateTime * Instant))
    (c : consumer (S := S) (R := R) (A := A)) :
  Forall (λ b, failed_outright b.1.1) batches → run batches c = Some c.
Proof.
  induction 1 as [|[[batch now] mono] batches (health & error & Hb) _ IH]; [done|].
  cbn in Hb |- *. unfold process_batch, observations_from_batch. rewrite Hb. exact IH.
Qed.

Definition sample_failure : ObservationBatch.t := {|
  ObservationBatch.id := ObservationBatchId.new 50;
  ObservationBatch.collector := sample_collector;
  ObservationBatch.sidecar_id := sample_sidecar;
  ObservationBatch.window := ProbeWindow.mk 0 0;
  ObservationBatch.result := ProbeResult.Failed
    (HealthCheckObservation.mk (HealthTargetId.from_well_known "bitcoin.rpc") HealthStatus.Critical
       None None None) []
    (CollectionError.mk CollectionErrorKind.Timeout "timed out");
|}.

Lemma failed_probes_leave_no_mark_witness :
  run (repeat (sample_failure, 10%Z, 10%Z) 100) sample_consumer = Some sample_consumer.
Proof.
  apply failed_probes_leave_no_mark. apply Forall_forall. intros b Hb%list_elem_of_In%repeat_spec.
  rewrite Hb. do 2 eexists. reflexivity.
Defined.

(** The retry policy of incident persistence: the first save that succeeds
    ends it, there are at most three, with 100 ms and 500 ms between them, and
    after a third failure the last error is returned. *)
Theorem save_retry_policy {R : Type} `{IncidentRepository R} (r : R) i :
  let '(res1, r1) := save r i in
  let '(res2, r2) := save r1 i in
  let '(res3, r3) := save r2 i in
  let wait ms := Trace.Slept (from_millis ms) in
  save_incident_with_retry r i =
    Some match res1, res2, res3 with
         | Ok _, _, _ => (Ok (), r1, [])
         | Err _, Ok _, _ => (Ok (), r2, [wait 100%Z])
         | Err _, Err _, Ok _ => (Ok (), r3, [wait 100%Z; wait 500%Z])
         | Err _, Err _, Err e => (Err e, r3, [wait 100%Z; wait 500%Z])
         end.
Proof.
  unfold save_incident_with_retry. cbn.
  destruct (save r i) as [[[]|e1] r1]; cbn.
  { by destruct (save r1 i) as [res2 r2], (save r2 i) as [res3 r3]. }
  destruct (save r1 i) as [[[]|e2] r2]; cbn; [by destruct (save r2 i)|].
  by destruct (save r2 i) as [[[]|e3] r3].
Qed.
