(* ===== verification/Dispatches.v ===== *)
(** * What subscribers are told: the dispatches of a run against the lifecycle
    events of the engine

    [run_handings] lists, for a run of the consumer, every draft its rules made
    with the clock and the draws it was handed to the engine with and the
    engine's answer, in order. The consumer turns the lifecycle events of these
    answers, and nothing else, into dispatches. *)

From S2P Require Import Prelude RustStr Names SharedTypes Observations Samples ReadModels Store Incidents Kinds Engine BitcoinRules Notifications Storage Senders Worker Consumer.

#[local] Arguments IncidentEngine.handle : simpl never.

(** ** The engine's side *)

(** A draft handed to the engine: the clock and the draws it came with, and
    the answer. *)
Module Handing.
Record t : Type := mk {
  draft : IncidentSignalDraft.t;
  now : DateTime;
  draws : nat;
  answer : Result (list IncidentEvent.t) EngineError.t;
}.
End Handing.

(** What the engine answered, and the lifecycle events among it with their times. *)
Definition engine_answers (hs : list Handing.t) : list IncidentEvent.t :=
  hs ≫= λ h, events_of (Handing.answer h).

Definition at_time {A} (now : DateTime) (l : list A) : list (A * DateTime) := (λ x, (x, now)) <$> l.

Definition happened (hs : list Handing.t) : list (IncidentLifecycleEvent.t * DateTime) :=
  hs ≫= λ h, at_time (Handing.now h) (omap lifecycle_of (events_of (Handing.answer h))).

Lemma engine_answers_cons h hs :
  engine_answers (h :: hs) = events_of (Handing.answer h) ++ engine_answers hs.
Proof. done. Qed.

Lemma engine_answers_app hs hs' :
  engine_answers (hs ++ hs') = engine_answers hs ++ engine_answers hs'.
Proof. apply bind_app. Qed.

Lemma happened_app hs hs' : happened (hs ++ hs') = happened hs ++ happened hs'.
Proof. apply bind_app. Qed.

Lemma happened_events hs : (happened hs).*1 = omap lifecycle_of (engine_answers hs).
Proof.
  induction hs as [|h hs IH]; [done|]. unfold happened, engine_answers, at_time in *; cbn.
  rewrite fmap_app, omap_app, IH, <-list_fmap_compose. f_equal. apply list_fmap_id.
Qed.

#[global] Arguments engine_answers : simpl never.
#[global] Arguments happened : simpl never.

Section engine_path.
Context `{UuidLib}.
Implicit Types (e : IncidentEngine.t) (hs : list Handing.t).

(** The engine went through these handings. *)
Inductive engine_path : IncidentEngine.t → list Handing.t → IncidentEngine.t → Prop :=
  | path_nil e : engine_path e [] e
  | path_handing e h e1 n1 hs e2 :
      IncidentEngine.handle e (IncidentCommand.RecordSignal (Handing.draft h)) (Handing.now h)
        (Handing.draws h) = Some (Handing.answer h, e1, n1) →
      engine_path e1 hs e2 → engine_path e (h :: hs) e2.

Lemma path_trans e1 hs1 e2 hs2 e3 :
  engine_path e1 hs1 e2 → engine_path e2 hs2 e3 → engine_path e1 (hs1 ++ hs2) e3.
Proof. induction 1 as [|e h e1 n1 hs e2 Hh _ IH]; intros H23; [done|]. by eapply path_handing, IH. Qed.

Lemma path_ok e hs e' : engine_ok e → engine_path e hs e' → engine_ok e'.
Proof. intros Hok Hp. induction Hp as [|e h e1 n1 hs e2 Hh _ IH]; [done|]. by eapply IH, handle_ok. Qed.

(** The path answers for the severity of every fingerprint. *)
Lemma path_word e hs e' fp :
  engine_ok e → engine_path e hs e' →
  Lifecycle.word (open_severity e fp) (lifecycle_for fp (engine_answers hs)) = Some (open_severity e' fp).
Proof.
  intros Hok Hp. induction Hp as [|e h e1 n1 hs e2 Hh _ IH]; [done|].
  rewrite engine_answers_cons, lifecycle_for_app, word_app, (handle_word _ _ _ _ _ _ _ fp Hok Hh).
  apply IH. by eapply handle_ok.
Qed.
(** One handing as a fingerprint sees it: nothing happened to its incident, or
    one event did, which carries the incident. *)
Lemma handle_story e d now n r e' n' fp :
  engine_ok e → IncidentEngine.handle e (IncidentCommand.RecordSignal d) now n = Some (r, e', n') →
  (lifecycle_for fp (events_of r) = [] ∧
     Incident.id <$> IncidentEngine.open_incidents e' !! fp
     = Incident.id <$> IncidentEngine.open_incidents e !! fp) ∨
  ∃ l, omap lifecycle_of (events_of r) = [l] ∧ lifecycle_for fp (events_of r) = [Lifecycle.view l] ∧
    Incident.fingerprint (IncidentLifecycleEvent.incident l) = fp ∧
    Incident.kind (IncidentLifecycleEvent.incident l) = IncidentFingerprint.kind fp ∧
    Incident.subject (IncidentLifecycleEvent.incident l) = IncidentFingerprint.subject fp ∧
    match l with
    | IncidentLifecycleEvent.Opened o => IncidentEngine.open_incidents e' !! fp = Some o
    | IncidentLifecycleEvent.Escalated _ _ _ => True
    | IncidentLifecycleEvent.Resolved o =>
        Incident.id <$> IncidentEngine.open_incidents e !! fp = Some (Incident.id o)
    end.
Proof.
  intros Hok (m & -> & Ho)%handle_inv. cbn [IncidentEngine.open_incidents IncidentEngine.with_open].
  destruct Ho as [err Hv|floor He _|He Hi i0|i He Hi new i'|i He Hi i'|He Hi]; try by left.
  - destruct (decide (compute_fingerprint d = fp)) as [<-|Hfp].
    + right. exists (IncidentLifecycleEvent.Opened i0). unfold lifecycle_for, filter; cbn.
      rewrite decide_True by done. by rewrite lookup_insert_eq.
    + left. unfold lifecycle_for, filter; cbn. rewrite decide_False by done.
      by rewrite lookup_insert_ne.
  - pose proof (Hok _ _ Hi) as [Hfpi Hk Hs _ _ _].
    assert (Incident.id <$> <[compute_fingerprint d:=i']> (IncidentEngine.open_incidents e) !! fp
      = Incident.id <$> IncidentEngine.open_incidents e !! fp) as Hid.
    { destruct (decide (compute_fingerprint d = fp)) as [<-|Hfp];
        by rewrite ?lookup_insert_eq, ?lookup_insert_ne, ?Hi. }
    destruct (_ <? _); [|by left]. destruct (decide (compute_fingerprint d = fp)) as [<-|Hfp].
    + right. exists (IncidentLifecycleEvent.Escalated i' (Incident.severity i) new).
      unfold lifecycle_for, filter; cbn. by rewrite decide_True.
    + left. split; [|done]. unfold lifecycle_for, filter; cbn. by rewrite decide_False by congruence.
  - pose proof (Hok _ _ Hi) as [Hfpi Hk Hs _ _ _].
    destruct (decide (compute_fingerprint d = fp)) as [<-|Hfp].
    + right. exists (IncidentLifecycleEvent.Resolved i'). unfold lifecycle_for, filter; cbn.
      rewrite decide_True by done. by rewrite Hi.
    + left. unfold lifecycle_for, filter; cbn. rewrite decide_False by congruence.
      by rewrite lookup_delete_ne.
Qed.

Lemma path_quiet e hs e' fp :
  engine_ok e → engine_path e hs e' → lifecycle_for fp (engine_answers hs) = [] →
  Incident.id <$> IncidentEngine.open_incidents e' !! fp
  = Incident.id <$> IncidentEngine.open_incidents e !! fp.
Proof.
  intros Hok Hp. induction Hp as [|e h e1 n1 hs e2 Hh _ IH]; [done|].
  rewrite engine_answers_cons, lifecycle_for_app. intros [Hhere Hrest]%app_nil.
  rewrite IH; [|by eapply handle_ok|done].
  destruct (handle_story _ _ _ _ _ _ _ fp Hok Hh) as [[_ ->]|(l & _ & Hl & _)]; [done|congruence].
Qed.

(** The one event of a fingerprint over a path, with its incident: the one that
    is open afterwards, or the one that was open before. *)
Lemma path_event e hs e' fp ev :
  engine_ok e → engine_path e hs e' → lifecycle_for fp (engine_answers hs) = [ev] →
  ∃ l, l ∈ omap lifecycle_of (engine_answers hs) ∧ Lifecycle.view l = ev ∧
    Incident.fingerprint (IncidentLifecycleEvent.incident l) = fp ∧
    Incident.kind (IncidentLifecycleEvent.incident l) = IncidentFingerprint.kind fp ∧
    Incident.subject (IncidentLifecycleEvent.incident l) = IncidentFingerprint.subject fp ∧
    match l with
    | IncidentLifecycleEvent.Opened o =>
        Incident.id <$> IncidentEngine.open_incidents e' !! fp = Some (Incident.id o)
    | IncidentLifecycleEvent.Escalated _ _ _ => True
    | IncidentLifecycleEvent.Resolved o =>
        Incident.id <$> IncidentEngine.open_incidents e !! fp = Some (Incident.id o)
    end.
Proof.
  intros Hok Hp. induction Hp as [|e h e1 n1 hs e2 Hh Hp IH]; [done|].
  pose proof (handle_ok _ _ _ _ _ _ _ Hok Hh) as Hok1.
  rewrite engine_answers_cons, lifecycle_for_app, omap_app.
  destruct (handle_story _ _ _ _ _ _ _ fp Hok Hh)
    as [[-> Hid]|(l & Hl & -> & Hfp & Hk & Hs & Hm)]; cbn [app].
  - intros (l & Hin & Hv & Hfp & Hk & Hs & Hm)%(IH Hok1). exists l. rewrite elem_of_app.
    split_and!; [by right|done..|]. destruct l as [o| |o]; [done..|]. by rewrite <-Hid.
  - intros [= <- Hrest]. exists l. rewrite Hl. split_and!; [by left|done..|].
    destruct l as [o| |o]; [|done..]. by rewrite (path_quiet _ _ _ _ Hok1 Hp Hrest), Hm.
Qed.
End engine_path.

(** ** The drafts of a run *)

Section handings.
Context `{UuidLib, DebugLib} {S R A : Type}.
Context `{ObservationStore S, IncidentRepository R, NotificationAttemptRepository A}.
#[local] Abbreviation consumer := (consumer (S := S) (R := R) (A := A)).
Implicit Types (c : consumer).

Fixpoint draft_handings (drafts : list IncidentSignalDraft.t) (now : DateTime) c : list Handing.t :=
  match drafts with
  | [] => []
  | draft :: drafts' =>
      match IncidentEngine.handle (engine c) (IncidentCommand.RecordSignal draft) now (draws c) with
      | Some (answer, _, _) =>
          Handing.mk draft now (draws c) answer ::
          from_option (draft_handings drafts' now) [] (handle_drafts [draft] now c)
      | None => []
      end
  end.

(** A batch whose observations were stored is shown to the rules, and their
    drafts are handed over. *)
Definition batch_handings (batch : ObservationBatch.t) (now : DateTime) (monotonic_now : Instant) c :
    list Handing.t :=
  let observations := observations_from_batch batch in
  match Observation.subject <$> head observations with
  | None => []
  | Some subject =>
      let '(c, ok) := persist_and_apply observations c in
      if negb ok then []
      else
        let '(drafts, rules', tr) :=
          evaluate_rules (rules c)
            (diagnostic_context (read_models c) subject now monotonic_now) in
        draft_handings drafts now (log (set_rules c rules') tr)
  end.

Fixpoint run_handings (batches : list (ObservationBatch.t * DateTime * Instant)) c :
    list Handing.t :=
  match batches with
  | [] => []
  | (batch, now, monotonic_now) :: batches' =>
      batch_handings batch now monotonic_now c ++
      from_option (run_handings batches') [] (process_batch batch now monotonic_now c)
  end.

(** Every draft is handed over, once and in order. *)
Lemma draft_handings_drafts drafts now c : Handing.draft <$> draft_handings drafts now c = drafts.
Proof.
  revert c. induction drafts as [|d drafts IH]; intros c; [done|]. cbn [draft_handings].
  destruct (handle_drafts_steps [d] now c) as (c1 & Hc1 & _). rewrite Hc1.
  destruct (handle_outcome (engine c) (IncidentCommand.RecordSignal d) now (draws c))
    as (r & m & n & -> & _). cbn. by rewrite IH.
Qed.
End handings.

Section dispatches.
Context `{UuidLib, DebugLib} {S R A : Type}.
Context `{ObservationStore S, IncidentRepository R, NotificationAttemptRepository A}.
#[local] Abbreviation consumer := (consumer (S := S) (R := R) (A := A)).
Implicit Types (c : consumer) (rules : list NotificationRule.t).

Definition matching_targets rules event : list NotificationTarget.t :=
  NotificationRule.target <$> filter (λ r, NotificationRule.matches r event = true) rules.

(** An event with someone to tell, the message it makes, and whom to tell. *)
Definition announcement rules (event : IncidentLifecycleEvent.t * DateTime) :
    option (IncidentLifecycleEvent.t * NotificationMessage.t * list NotificationTarget.t) :=
  match matching_targets rules event.1 with
  | [] => None
  | targets => Some (event.1, compose_notification_message event.1 event.2, targets)
  end.

Definition announced (d : NotificationDispatch.t) :
    IncidentLifecycleEvent.t * NotificationMessage.t * list NotificationTarget.t :=
  (NotificationDispatch.event d, NotificationDispatch.message d, (NotificationDispatch.targets d).*2).

(** No row was refused and the worker's end of the channel stood. *)
Definition notify_ok c : Prop := Forall (λ x, ¬ notification_trace x) (trace c).

Lemma insert_attempts_announced rules event now (repo : A) n targets repo' n' :
  insert_attempts rules event now repo n = (targets, repo', n', []) →
  targets.*2 = matching_targets rules event.
Proof.
  unfold matching_targets. revert repo n targets repo' n'.
  induction rules as [|rule rules IH]; intros repo n targets repo' n'; cbn [insert_attempts];
    [by intros [= <- _ _]|].
  destruct (NotificationRule.matches rule event) eqn:Hm.
  - rewrite filter_cons_True by done. destruct (insert_pending repo _) as [res repo1].
    destruct (insert_attempts rules event now repo1 _) as [[[ts r2] n2] tr2] eqn:E.
    destruct res; [|done]. intros [= <- <- <- ->]. cbn. f_equal. by eapply IH.
  - rewrite filter_cons_False by congruence. apply IH.
Qed.

(** What a part of a run announces, if no notification fails. *)
Definition announces (l : list (IncidentLifecycleEvent.t * DateTime)) c c' : Prop :=
  notification_rules c' = notification_rules c ∧
  (notify_ok c' → notify_ok c ∧ ∃ ds,
     Channel.sent (notif_tx c') = Channel.sent (notif_tx c) ++ ds ∧
     announced <$> ds = omap (announcement (notification_rules c)) l).

Lemma announces_nothing c c' :
  notification_rules c' = notification_rules c → notif_tx c' = notif_tx c →
  (∃ l, trace c' = trace c ++ l) → announces [] c c'.
Proof.
  intros Hr Ht [l Hl]. split; [done|]. unfold notify_ok. rewrite Hl, Forall_app. intros [Hc _].
  split; [done|]. exists []. by rewrite Ht, app_nil_r.
Qed.

(** The trace was extended. *)
Ltac trace_grows :=
  first [exists []; by rewrite app_nil_r | by eexists | rewrite <-app_assoc; by eexists].

Lemma announces_trans l1 l2 c1 c2 c3 :
  announces l1 c1 c2 → announces l2 c2 c3 → announces (l1 ++ l2) c1 c3.
Proof.
  intros [R1 A1] [R2 A2]. split; [congruence|]. intros Hok.
  destruct (A2 Hok) as (Hok2 & d2 & E2 & F2). destruct (A1 Hok2) as (Hok1 & d1 & E1 & F1).
  split; [done|]. exists (d1 ++ d2). by rewrite E2, E1, fmap_app, F1, F2, R1, omap_app, app_assoc.
Qed.

Lemma dispatch_announces event now c : announces [(event, now)] c (dispatch_lifecycle event now c).
Proof.
  unfold dispatch_lifecycle, announces, notify_ok.
  destruct (insert_attempts _ _ _ _ _) as [[[targets repo] n] tr] eqn:E.
  assert (Forall (λ x, ¬ notification_trace x) tr → tr = []) as Htr.
  { pose proof (insert_attempts_trace (notification_rules c) event now (attempts_repo c) (draws c)) as Hn.
    rewrite E in Hn. cbn in Hn. destruct tr as [|x tr]; [done|].
    apply Forall_cons in Hn as [Hx _]. by intros [? _]%Forall_cons. }
  assert (tr = [] → targets.*2 = matching_targets (notification_rules c) event) as Hts.
  { intros ->. by eapply insert_attempts_announced. }
  destruct targets as [|t ts]; cbn.
  { split; [done|]. rewrite Forall_app. intros [Hc Ht%Htr]. split; [done|].
    exists []. rewrite app_nil_r. unfold announcement; cbn. by rewrite <-(Hts Ht). }
  destruct (Channel.send_cases (notif_tx c) (NotificationDispatch.mk event
    (compose_notification_message event now) (t :: ts).*1 (t :: ts))) as [[Hs Hd]|Hs];
    destruct (Channel.send _ _) as [sent tx]; cbn in *.
  - subst sent. split; [done|]. cbn. rewrite Forall_app. intros [Hc Ht%Htr]. split; [done|].
    eexists [_]. split; [exact Hd|].
    unfold announcement, announced. cbn. by rewrite <-(Hts Ht).
  - injection Hs as -> ->. split; [done|]. cbn. rewrite !Forall_app.
    intros [_ [Hbad _]%Forall_cons]. done.
Qed.

Lemma event_announces event now c c' :
  process_engine_event event now c = Some c' →
  engine c' = engine c ∧ announces (at_time now (omap lifecycle_of [event])) c c'.
Proof.
  destruct event as [obs|i|l|kind conf floor]; cbn [process_engine_event].
  - destruct (append _ obs) as [res store]. intros [= <-].
    split; [by destruct res, (ReadModelStore.apply _ obs)|].
    apply announces_nothing; [by destruct res, (ReadModelStore.apply _ obs)..|].
    destruct res, (ReadModelStore.apply _ obs); cbn; trace_grows.
  - destruct (save_incident_with_retry _ i) as [[[res r'] tr]|]; cbn; [|done].
    intros [= <-]. split; [by destruct res|].
    apply announces_nothing; [by destruct res..|]. destruct res; cbn; trace_grows.
  - intros [= <-]. split; [|apply dispatch_announces].
    by destruct (dispatch_lifecycle_frame l now c) as [[] _].
  - intros [= <-]. split; [done|]. apply announces_nothing; [done..|]. trace_grows.
Qed.

Lemma events_announces events now c c' :
  process_engine_events events now c = Some c' →
  engine c' = engine c ∧ announces (at_time now (omap lifecycle_of events)) c c'.
Proof.
  revert c. induction events as [|event events IH]; intros c; cbn [process_engine_events].
  { intros [= <-]. split; [done|]. apply announces_nothing; [done..|]. trace_grows. }
  destruct (process_engine_event event now c) as [c1|] eqn:E; cbn; [|done].
  apply event_announces in E as [He Ha]. intros [He' Ha']%IH. split; [congruence|].
  apply (announces_trans _ _ _ _ _ Ha) in Ha'. revert Ha'. cbn. by destruct (lifecycle_of event).
Qed.

Lemma drafts_announce drafts now c c' :
  handle_drafts drafts now c = Some c' →
  engine_path (engine c) (draft_handings drafts now c) (engine c') ∧
  announces (happened (draft_handings drafts now c)) c c'.
Proof.
  revert c. induction drafts as [|d drafts IH]; intros c.
  { intros [= <-]. split; [constructor|]. apply announces_nothing; [done..|]. trace_grows. }
  cbn [draft_handings handle_drafts].
  destruct (IncidentEngine.handle _ _ _ _) as [[[[events|err] e] n]|] eqn:Hh; cbn; [| |done].
  - destruct (process_engine_events events now (set_engine c e n)) as [c1|] eqn:Hev; cbn; [|done].
    intros Hc'. destruct (IH c1 Hc') as [Hp Ha]. apply events_announces in Hev as [He1 Ha1].
    split; [eapply path_handing; [exact Hh|]; cbn in He1; by rewrite <-He1|].
    exact (announces_trans _ _ _ _ _ Ha1 Ha).
  - intros Hc'. destruct (IH _ Hc') as [Hp Ha]. split; [by eapply path_handing|].
    refine (announces_trans [] _ _ _ _ _ Ha). apply announces_nothing; [done..|]. trace_grows.
Qed.

Lemma persist_announces l c : announces [] c (persist_and_apply l c).1.
Proof.
  revert c. induction l as [|obs l IH]; intros c; cbn.
  { apply announces_nothing; [done..|]. trace_grows. }
  destruct (append _ obs) as [[[]|e] store].
  - refine (announces_trans [] [] _ _ _ _ (IH _)).
    destruct (ReadModelStore.apply _ obs); (apply announces_nothing; [done..|]; trace_grows).
  - apply announces_nothing; [done..|]. trace_grows.
Qed.

Lemma batch_announces batch now m c c' :
  process_batch batch now m c = Some c' →
  engine_path (engine c) (batch_handings batch now m c) (engine c') ∧
  announces (happened (batch_handings batch now m c)) c c'.
Proof.
  unfold process_batch, batch_handings.
  destruct (_ <$> _) as [subject|].
  2:{ intros [= <-]. split; [constructor|]. apply announces_nothing; [done..|]. trace_grows. }
  pose proof (persist_announces (observations_from_batch batch) c) as Ha0.
  pose proof (persist_and_apply_frame (observations_from_batch batch) c) as (_ & He0 & _).
  destruct (persist_and_apply _ c) as [c1 ok]; cbn in Ha0, He0. rewrite <-He0.
  destruct ok; cbn; [|intros [= <-]; split; [constructor|exact Ha0]].
  destruct (evaluate_rules _ _) as [[drafts rules'] tr].
  intros [Hp Ha]%drafts_announce. split; [exact Hp|].
  refine (announces_trans [] _ _ _ _ Ha0 (announces_trans [] _ _ _ _ _ Ha)).
  apply announces_nothing; [done..|]. trace_grows.
Qed.

Lemma run_announces batches c c' :
  run batches c = Some c' →
  engine_path (engine c) (run_handings batches c) (engine c') ∧
  announces (happened (run_handings batches c)) c c'.
Proof.
  revert c. induction batches as [|[[batch now] m] batches IH]; intros c; cbn.
  { intros [= <-]. split; [constructor|]. apply announces_nothing; [done..|]. trace_grows. }
  destruct (process_batch batch now m c) as [c1|] eqn:E; cbn; [|done].
  apply batch_announces in E as [Hp1 Ha1]. intros [Hp Ha]%IH.
  split; [by eapply path_trans|]. rewrite happened_app. by eapply announces_trans.
Qed.

(** A rule's target was sent an event, with the message composed of it. *)
Definition sent_to (rule : NotificationRule.t) (l : IncidentLifecycleEvent.t) c : Prop :=
  ∃ d, d ∈ Channel.sent (notif_tx c) ∧ NotificationDispatch.event d = l ∧
    (∃ now, NotificationDispatch.message d = compose_notification_message l now) ∧
    NotificationRule.target rule ∈ (NotificationDispatch.targets d).*2.

(** Every rule that matches an event of the run has been sent it. *)
Lemma event_dispatched batches c c' rule l :
  run batches c = Some c' → notify_ok c' →
  l ∈ omap lifecycle_of (engine_answers (run_handings batches c)) →
  rule ∈ notification_rules c → NotificationRule.matches rule l = true → sent_to rule l c'.
Proof.
  intros Hr Hn Hl Hrule Hm. destruct (run_announces _ _ _ Hr) as (_ & _ & Ha).
  destruct (Ha Hn) as (_ & ds & Hsent & Hann).
  rewrite <-happened_events in Hl. apply list_elem_of_fmap in Hl as ([l' now] & -> & Hl).
  assert (NotificationRule.target rule ∈ matching_targets (notification_rules c) l') as Hmt.
  { apply list_elem_of_fmap_2, list_elem_of_filter. by split. }
  assert ((l', compose_notification_message l' now, matching_targets (notification_rules c) l')
    ∈ announced <$> ds) as Hd.
  { rewrite Hann. apply list_elem_of_omap. exists (l', now). split; [done|].
    unfold announcement; cbn. destruct (matching_targets _ _) eqn:E; [|done]. by apply elem_of_nil in Hmt. }
  apply list_elem_of_fmap in Hd as (d & [= Hev Hmsg Hts] & Hd). exists d. split_and!.
  - rewrite Hsent. apply elem_of_app. by right.
  - done.
  - by exists now.
  - by rewrite <-Hts.
Qed.

(** Every one of some rules that matches an event has been sent it, if no
    notification failed. *)
Definition told_all rules (l : IncidentLifecycleEvent.t) c' : Prop :=
  notify_ok c' → ∀ rule, rule ∈ rules → NotificationRule.matches rule l = true → sent_to rule l c'.

(** An incident with a fingerprint, and of its kind and subject. *)
Definition identified (fp : IncidentFingerprint.t) (i : Incident.t) : Prop :=
  Incident.fingerprint i = fp ∧ Incident.kind i = IncidentFingerprint.kind fp ∧
  Incident.subject i = IncidentFingerprint.subject fp.

(** The one event of a fingerprint over a run: the incident it carries, and who
    has been told. *)
Lemma run_event batches c c' fp ev :
  run batches c = Some c' → engine_ok (engine c) →
  lifecycle_for fp (engine_answers (run_handings batches c)) = [ev] →
  ∃ l, Lifecycle.view l = ev ∧ identified fp (IncidentLifecycleEvent.incident l) ∧
    told_all (notification_rules c) l c' ∧
    match l with
    | IncidentLifecycleEvent.Opened o =>
        Incident.id <$> IncidentEngine.open_incidents (engine c') !! fp = Some (Incident.id o)
    | IncidentLifecycleEvent.Escalated _ _ _ => True
    | IncidentLifecycleEvent.Resolved o =>
        Incident.id <$> IncidentEngine.open_incidents (engine c) !! fp = Some (Incident.id o)
    end.
Proof.
  intros Hr Hok Hev. destruct (run_announces _ _ _ Hr) as [Hp _].
  destruct (path_event _ _ _ fp ev Hok Hp Hev) as (l & Hin & Hv & Hfp & Hk & Hs & Hm).
  exists l. split_and!; [done|done| |done]. intros Hn rule Hrule Hmt. by eapply event_dispatched.
Qed.

(** C5: Subscribers are told what happened. A run never panics, and the engine
    goes through the handings of the run, which are the drafts of the rules
    over the stored batches, in order, each with the clock of its batch and
    the engine's answer. If no row was refused and the channel stood, the
    dispatches sent are exactly the lifecycle events of these answers that
    some configured rule matches, each once and in the order of the answers,
    with the message composed of the event at that clock, addressed to the
    targets of all the matching rules in their order. For every fingerprint
    the answers tell a legal story from the severity before the run to the one
    after it: opened when nothing is open, escalated only upwards, resolved
    only when open. *)
Theorem every_event_dispatched batches c :
  engine_ok (engine c) →
  let hs := run_handings batches c in
  ∃ c', run batches c = Some c' ∧ engine_path (engine c) hs (engine c') ∧
    (∀ fp, Lifecycle.word (open_severity (engine c) fp) (lifecycle_for fp (engine_answers hs))
           = Some (open_severity (engine c') fp)) ∧
    (notify_ok c' → ∃ ds,
       Channel.sent (notif_tx c') = Channel.sent (notif_tx c) ++ ds ∧
       announced <$> ds = omap (announcement (notification_rules c)) (happened hs)).
Proof.
  intros Hok hs. destruct (run_steps batches c) as (c' & Hr & _).
  destruct (run_announces _ _ _ Hr) as (Hp & _ & Ha). exists c'. split_and!; [done|done|..].
  - intros fp. by apply path_word.
  - intros Hn. by destruct (Ha Hn) as [_ Hds].
Qed.
End dispatches.

(** ** Concrete inputs *)

(** Opened, then resolved: two dispatches. *)
Lemma every_event_dispatched_witness :
  engine_ok (engine sample_consumer) ∧
  ∃ c', run sample_batches sample_consumer = Some c' ∧
    length (Channel.sent (notif_tx c')) = 2 ∧
    announced <$> Channel.sent (notif_tx c')
    = omap (announcement (notification_rules sample_consumer))
        (happened (run_handings sample_batches sample_consumer)).
Proof.
  split; [exact sample_engine_ok|].
  destruct (every_event_dispatched sample_batches sample_consumer sample_engine_ok)
    as (c' & Hr & _ & _ & Hd).
  destruct (is_some_with (λ c, only_panics (trace c) && (length (Channel.sent (notif_tx c)) =? 2))
    (run sample_batches sample_consumer)) as (c1 & Hc1 & Hb); [vm_compute; reflexivity|].
  rewrite Hr in Hc1. injection Hc1 as <-. apply andb_prop in Hb as [Ht Hl].
  exists c'. split; [exact Hr|]. split; [by apply Nat.eqb_eq|].
  destruct Hd as (ds & Hs & Ha); [|rewrite Hs; exact Ha].
  apply Forall_forall. intros x Hx Hn. apply (only_panics_not _ x Ht); [|exact Hx].
  destruct x; first [reflexivity | destruct Hn].
Defined.
