(* ===== verification/SqliteRows.v ===== *)
(** * Rows of the SQLite tables: [migrations/0001_initial.sql] and the column
    codecs of [storage/sqlite/*.rs]

    One record per table with the columns of its DDL, the [*_str] functions
    with the parsers that read them back, and the conversions between a row
    and its domain value. The derived JSON codecs of the payload columns are
    the class [SerdeJson]; [SerdeLaws] names the values they keep. The result
    [None] of a writer is the panic of [timestamp_nanos_opt().expect]. *)

From stdpp Require Import pretty.
From S2P Require Import Prelude RustStr Names SharedTypes F64 CollectorTypes Observations Samples Incidents Notifications Storage.

(** ** The JSON columns *)

Class SerdeJson (T : Type) : Type := {
  serde_to_string : T → Result string string;
  serde_from_str : string → Result T string;
}.

(** The values a derived codec keeps: all of them, except that JSON has no
    non-finite number and that decimal floats may be rounded. *)
Class SerdeLaws (T : Type) `{SerdeJson T} : Type := {
  serde_exact : T → Prop;
  serde_round_trip x :
    serde_exact x → ∃ s, serde_to_string x = Ok s ∧ serde_from_str s = Ok x;
}.

(** An optional column is NULL for [None]. *)
Definition serialize_opt {T} `{SerdeJson T} (o : option T) : Result (option string) string :=
  match o with
  | Some x => let? s := serde_to_string x in Ok (Some s)
  | None => Ok None
  end.

Definition deserialize_opt {T} `{SerdeJson T} (o : option string) : Result (option T) string :=
  match o with
  | Some s => let? x := serde_from_str s in Ok (Some x)
  | None => Ok None
  end.

Definition exact_opt {T} `{SerdeLaws T} (o : option T) : Prop :=
  match o with
  | Some x => serde_exact x
  | None => True
  end.

Lemma serialize_opt_round_trip {T} `{SerdeLaws T} (o : option T) :
  exact_opt o → ∃ s, serialize_opt o = Ok s ∧ deserialize_opt s = Ok o.
Proof.
  destruct o as [x|]; cbn; [|by exists None].
  intros (s & Hs & Hx)%serde_round_trip. exists (Some s). cbn. by rewrite Hs, Hx.
Qed.

(** ** Instants: signed 64-bit nanoseconds *)

Definition in_i64 (t : Z) : bool := (i64_min <=? t)%Z && (t <=? i64_max)%Z.

Definition nanos (t : DateTime) : option Z := if in_i64 t then Some t else None.

Definition nanos_opt (o : option DateTime) : option (option Z) :=
  match o with
  | Some t => Some <$> nanos t
  | None => Some None
  end.

Definition nanos_to_dt (n : Z) : DateTime := n.

Definition storable_instant (t : DateTime) : Prop := in_i64 t = true.

Definition storable_instant_opt (o : option DateTime) : Prop :=
  match o with
  | Some t => storable_instant t
  | None => True
  end.

Lemma nanos_some t : storable_instant t → nanos t = Some t.
Proof. unfold nanos. by intros ->. Qed.

Lemma nanos_opt_some o : storable_instant_opt o → nanos_opt o = Some o.
Proof. destruct o; [|done]. cbn. intros H. by rewrite nanos_some. Qed.

(** ** UTF-8: [String::from_utf8] on the bytes of a BLOB *)

Definition byte_range (lo hi : N) (b : ascii) : bool :=
  (lo <=? N_of_ascii b)%N && (N_of_ascii b <=? hi)%N.

Definition is_continuation (b : ascii) : bool := byte_range 128 191 b.

(** The second byte excludes overlong forms and surrogates. *)
Definition second_of_three (b1 b2 : ascii) : bool :=
  byte_range 224 224 b1 && byte_range 160 191 b2
  || byte_range 225 236 b1 && is_continuation b2
  || byte_range 237 237 b1 && byte_range 128 159 b2
  || byte_range 238 239 b1 && is_continuation b2.

Definition second_of_four (b1 b2 : ascii) : bool :=
  byte_range 240 240 b1 && byte_range 144 191 b2
  || byte_range 241 243 b1 && is_continuation b2
  || byte_range 244 244 b1 && byte_range 128 143 b2.

Fixpoint valid_utf8 (s : string) : bool :=
  match s with
  | EmptyString => true
  | String b1 s1 =>
      if byte_range 0 127 b1 then valid_utf8 s1
      else match s1 with
      | EmptyString => false
      | String b2 s2 =>
          if byte_range 194 223 b1 then is_continuation b2 && valid_utf8 s2
          else match s2 with
          | EmptyString => false
          | String b3 s3 =>
              if second_of_three b1 b2 then is_continuation b3 && valid_utf8 s3
              else match s3 with
              | EmptyString => false
              | String b4 s4 =>
                  second_of_four b1 b2 && is_continuation b3 && is_continuation b4
                  && valid_utf8 s4
              end
          end
      end
  end.

(** ** Subjects: two text columns *)

Definition split_scoped (debug_str : string → string) (id kind : string) :
    Result (string * string) StoreError.t :=
  ok_or (split_once "/" id)
    (StoreError.Corruption ("scoped subject_kind " +:+ debug_str kind
       +:+ " expects 'node_id/sub_id' but got " +:+ debug_str id)).

(** [impl Debug for str] and the texts of [uuid::Error] and [FromUtf8Error]. *)
Class StoreText : Type := {
  str_debug : string → string;
  uuid_error : string → string;
  utf8_error : string → string;
}.

#[global] Instance sample_store_text : StoreText :=
  {| str_debug s := s; uuid_error s := s; utf8_error s := s |}.

Section subjects.
Context `{UuidLib, StoreText}.

Definition subject_from_pair (kind id : string) : Result EntityRef.t StoreError.t :=
  match kind with
  | "sidecar" =>
      match uuid_parse_str id with
      | Some uuid => Ok (EntityRef.Sidecar (SidecarId.mk uuid))
      | None => Err (StoreError.Corruption
                  ("sidecar subject_id is not a UUID: " +:+ uuid_error id))
      end
  | "host" => Ok (EntityRef.Host (HostId.mk id))
  | "bitcoin_node" => Ok (EntityRef.BitcoinNode (BitcoinNodeId.mk id))
  | "bitcoin_peer" =>
      let? '(node, peer) := split_scoped str_debug id kind in
      Ok (EntityRef.BitcoinPeer (BitcoinNodeId.mk node) (BitcoinPeerId.mk peer))
  | "lnd_node" => Ok (EntityRef.LndNode (LndNodeId.mk id))
  | "lnd_peer" =>
      let? '(node, peer) := split_scoped str_debug id kind in
      Ok (EntityRef.LndPeer (LndNodeId.mk node) (LndPeerId.mk peer))
  | "lnd_channel" =>
      let? '(node, channel) := split_scoped str_debug id kind in
      Ok (EntityRef.LndChannel (LndNodeId.mk node) (LndChannelId.mk channel))
  | "lnd_invoice" =>
      let? '(node, invoice) := split_scoped str_debug id kind in
      Ok (EntityRef.LndInvoice (LndNodeId.mk node) (LndInvoiceId.mk invoice))
  | other => Err (StoreError.Corruption
               ("unknown subject_kind in observations row: " +:+ other))
  end%string.
End subjects.

(** ** Enumerations as text *)

Definition origin_str (origin : ObservationOrigin.t) : string :=
  match origin with
  | ObservationOrigin.Collected => "collected"
  | ObservationOrigin.Computed => "computed"
  | ObservationOrigin.Imported => "imported"
  | ObservationOrigin.UserReported => "user_reported"
  end.

Definition origin_from_str (s : string) : Result ObservationOrigin.t StoreError.t :=
  match s with
  | "collected" => Ok ObservationOrigin.Collected
  | "computed" => Ok ObservationOrigin.Computed
  | "imported" => Ok ObservationOrigin.Imported
  | "user_reported" => Ok ObservationOrigin.UserReported
  | other => Err (StoreError.Corruption ("unknown origin in observations row: " +:+ other))
  end%string.

Definition payload_kind (p : ObservationPayload.t) : string :=
  match p with
  | ObservationPayload.Capability _ => "capability"
  | ObservationPayload.Diagnosis _ => "diagnosis"
  | ObservationPayload.Event _ => "event"
  | ObservationPayload.Heartbeat _ => "heartbeat"
  | ObservationPayload.Health _ => "health"
  | ObservationPayload.IncidentSignal _ => "incident_signal"
  | ObservationPayload.Inventory _ => "inventory"
  | ObservationPayload.Metric _ => "metric"
  | ObservationPayload.State _ => "state"
  | ObservationPayload.Transition _ => "transition"
  end.

Definition severity_str (s : IncidentSeverity.t) : string :=
  match s with
  | IncidentSeverity.Info => "Info"
  | IncidentSeverity.Warning => "Warning"
  | IncidentSeverity.Critical => "Critical"
  end.

Definition incident_status_str (s : IncidentStatus.t) : string :=
  match s with
  | IncidentStatus.Open => "Open"
  | IncidentStatus.Acknowledged => "Acknowledged"
  | IncidentStatus.Resolved => "Resolved"
  | IncidentStatus.Suppressed => "Suppressed"
  end.

Definition lifecycle_kind_str (k : IncidentNotificationEventKind.t) : string :=
  match k with
  | IncidentNotificationEventKind.Opened => "Opened"
  | IncidentNotificationEventKind.Escalated => "Escalated"
  | IncidentNotificationEventKind.Resolved => "Resolved"
  end.

Definition lifecycle_kind_from_str (s : string) :
    Result IncidentNotificationEventKind.t AttemptRepoError.t :=
  match s with
  | "Opened" => Ok IncidentNotificationEventKind.Opened
  | "Escalated" => Ok IncidentNotificationEventKind.Escalated
  | "Resolved" => Ok IncidentNotificationEventKind.Resolved
  | other => Err (AttemptRepoError.Backend ("unknown lifecycle_kind in row: " +:+ other))
  end%string.

Definition target_kind_str (k : TargetKind.t) : string :=
  match k with
  | TargetKind.Telegram => "telegram"
  | TargetKind.Discord => "discord"
  | TargetKind.Webhook => "webhook"
  end.

Definition target_kind_from_str (s : string) : Result TargetKind.t AttemptRepoError.t :=
  match s with
  | "telegram" => Ok TargetKind.Telegram
  | "discord" => Ok TargetKind.Discord
  | "webhook" => Ok TargetKind.Webhook
  | other => Err (AttemptRepoError.Backend ("unknown target_kind in row: " +:+ other))
  end%string.

Definition status_str (s : NotificationDeliveryStatus.t) : string :=
  match s with
  | NotificationDeliveryStatus.Pending => "Pending"
  | NotificationDeliveryStatus.Succeeded => "Succeeded"
  | NotificationDeliveryStatus.FailedTransient => "FailedTransient"
  | NotificationDeliveryStatus.FailedPermanent => "FailedPermanent"
  | NotificationDeliveryStatus.Suppressed => "Suppressed"
  end.

Definition status_from_str (s : string) :
    Result NotificationDeliveryStatus.t AttemptRepoError.t :=
  match s with
  | "Pending" => Ok NotificationDeliveryStatus.Pending
  | "Succeeded" => Ok NotificationDeliveryStatus.Succeeded
  | "FailedTransient" => Ok NotificationDeliveryStatus.FailedTransient
  | "FailedPermanent" => Ok NotificationDeliveryStatus.FailedPermanent
  | "Suppressed" => Ok NotificationDeliveryStatus.Suppressed
  | other => Err (AttemptRepoError.Backend ("unknown status in row: " +:+ other))
  end%string.

Definition outcome_kind_str (o : DeliveryOutcome.t) : string :=
  match o with
  | DeliveryOutcome.Delivered _ => "Delivered"
  | DeliveryOutcome.Transient _ _ => "Transient"
  | DeliveryOutcome.Permanent _ => "Permanent"
  end.

(** [NotificationRuleId] is a slug stored as the bytes of a BLOB. *)
Definition rule_id_blob (id : NotificationRuleId.t) : string := NotificationRuleId.get id.

Definition rule_id_from_blob `{StoreText} (b : string) :
    Result NotificationRuleId.t AttemptRepoError.t :=
  if valid_utf8 b then Ok (NotificationRuleId.mk b)
  else Err (AttemptRepoError.Backend ("rule_id is not utf-8: " +:+ utf8_error b)).

(** ** The table [observations] *)

Module ObservationRow.
Record t : Type := mk {
  id : Uuid.t;
  observed_at : Z;
  received_at : option Z;
  subject_kind : string;
  subject_id : string;
  sidecar_id : Uuid.t;
  collector_id : string;
  integration : string;
  instance_label : string;
  origin : string;
  payload_kind : string;
  payload_json : string;
  attributes_json : string;
}.
End ObservationRow.

Section observation_rows.
Context `{UuidLib, StoreText}.
Context `{SerdeJson IntegrationKind.t, SerdeJson ObservationPayload.t, SerdeJson Attributes.t}.

(** The columns [append_many] binds for one observation. *)
Definition observation_columns (obs : Observation.t) :
    option (Result ObservationRow.t StoreError.t) :=
  let collector := ObservationSource.collector (Observation.source obs) in
  match map_err StoreError.Serialization (
    let? integration := serde_to_string (CollectorRef.integration collector) in
    let? payload := serde_to_string (Observation.payload obs) in
    let? attributes := serde_to_string (Observation.attributes obs) in
    Ok (integration, payload, attributes)) with
  | Err e => Some (Err e)
  | Ok (integration, payload, attributes) =>
      observed_at ← nanos (Observation.observed_at obs);
      received_at ← nanos_opt (Observation.received_at obs);
      Some (Ok {|
        ObservationRow.id := ObservationId.get (Observation.id obs);
        ObservationRow.observed_at := observed_at;
        ObservationRow.received_at := received_at;
        ObservationRow.subject_kind := EntityRef.subject_kind_str (Observation.subject obs);
        ObservationRow.subject_id := EntityRef.subject_id_str (Observation.subject obs);
        ObservationRow.sidecar_id :=
          SidecarId.get (ObservationSource.sidecar_id (Observation.source obs));
        ObservationRow.collector_id := CollectorId.get (CollectorRef.id collector);
        ObservationRow.integration := integration;
        ObservationRow.instance_label := CollectorRef.instance_label collector;
        ObservationRow.origin := origin_str (Observation.origin obs);
        ObservationRow.payload_kind := payload_kind (Observation.payload obs);
        ObservationRow.payload_json := payload;
        ObservationRow.attributes_json := attributes;
      |})
  end.

Definition row_to_observation (row : ObservationRow.t) : Result Observation.t StoreError.t :=
  let? subject := subject_from_pair (ObservationRow.subject_kind row)
                    (ObservationRow.subject_id row) in
  let? origin := origin_from_str (ObservationRow.origin row) in
  let? integration := map_err StoreError.Serialization
                        (serde_from_str (ObservationRow.integration row)) in
  let? payload := map_err StoreError.Serialization
                    (serde_from_str (ObservationRow.payload_json row)) in
  let? attributes := map_err StoreError.Serialization
                       (serde_from_str (ObservationRow.attributes_json row)) in
  Ok {|
    Observation.id := ObservationId.mk (ObservationRow.id row);
    Observation.observed_at := nanos_to_dt (ObservationRow.observed_at row);
    Observation.received_at := nanos_to_dt <$> ObservationRow.received_at row;
    Observation.source := {|
      ObservationSource.sidecar_id := SidecarId.mk (ObservationRow.sidecar_id row);
      ObservationSource.collector := {|
        CollectorRef.id := CollectorId.mk (ObservationRow.collector_id row);
        CollectorRef.integration := integration;
        CollectorRef.instance_label := ObservationRow.instance_label row;
      |};
    |};
    Observation.subject := subject;
    Observation.origin := origin;
    Observation.attributes := attributes;
    Observation.payload := payload;
  |}.
End observation_rows.

(** ** The table [incidents] *)

Module IncidentRow.
Record t : Type := mk {
  id : Uuid.t;
  fingerprint : string;
  kind : string;
  subject_kind : string;
  subject_id : string;
  severity : string;
  status : string;
  opened_at : Z;
  updated_at : Z;
  resolved_at : option Z;
  incident_json : string;
}.
End IncidentRow.

(** [From<sqlx::Error>] and [From<serde_json::Error>] of the repositories. *)
Definition serde_text (e : string) : string := "serde_json: " +:+ e.

Section incident_rows.
Context `{UuidLib, SerdeJson Incident.t}.

(** The columns [save] binds. *)
Definition incident_columns (incident : Incident.t) :
    option (Result IncidentRow.t IncidentRepoError.t) :=
  match map_err (IncidentRepoError.Backend ∘ serde_text) (serde_to_string incident) with
  | Err e => Some (Err e)
  | Ok incident_json =>
      opened_at ← nanos (Incident.opened_at incident);
      updated_at ← nanos (Incident.updated_at incident);
      resolved_at ← nanos_opt (Incident.resolved_at incident);
      Some (Ok {|
        IncidentRow.id := IncidentId.get (Incident.id incident);
        IncidentRow.fingerprint := IncidentFingerprint.as_key (Incident.fingerprint incident);
        IncidentRow.kind := IncidentKind.as_str (Incident.kind incident);
        IncidentRow.subject_kind := EntityRef.subject_kind_str (Incident.subject incident);
        IncidentRow.subject_id := EntityRef.subject_id_str (Incident.subject incident);
        IncidentRow.severity := severity_str (Incident.severity incident);
        IncidentRow.status := incident_status_str (Incident.status incident);
        IncidentRow.opened_at := opened_at;
        IncidentRow.updated_at := updated_at;
        IncidentRow.resolved_at := resolved_at;
        IncidentRow.incident_json := incident_json;
      |})
  end.

Definition row_to_incident (row : IncidentRow.t) : Result Incident.t IncidentRepoError.t :=
  map_err (IncidentRepoError.Backend ∘ serde_text)
    (serde_from_str (IncidentRow.incident_json row)).
End incident_rows.

(** ** The table [notification_attempts] *)

Module AttemptRow.
Record t : Type := mk {
  id : Uuid.t;
  rule_id : string;
  incident_id : Uuid.t;
  lifecycle_kind : string;
  target_kind : string;
  target_summary : string;
  status : string;
  attempt_number : Z;
  parent_attempt_id : option Uuid.t;
  next_retry_at : option Z;
  outcome_kind : option string;
  outcome_json : option string;
  external_ref_json : option string;
  attempted_at : Z;
  completed_at : option Z;
}.
End AttemptRow.

Section attempt_rows.
Context `{StoreText, SerdeJson DeliveryOutcome.t, SerdeJson ExternalMessageRef.t}.

Definition serialize_outcome (outcome : option DeliveryOutcome.t) :
    Result (option string * option string) AttemptRepoError.t :=
  let? json := map_err (AttemptRepoError.Backend ∘ serde_text) (serialize_opt outcome) in
  Ok (outcome_kind_str <$> outcome, json).

Definition serialize_external_ref (external_ref : option ExternalMessageRef.t) :
    Result (option string) AttemptRepoError.t :=
  map_err (AttemptRepoError.Backend ∘ serde_text) (serialize_opt external_ref).

(** The columns [insert_pending] binds. *)
Definition attempt_columns (attempt : NotificationAttempt.t) :
    option (Result AttemptRow.t AttemptRepoError.t) :=
  match (let? '(outcome_kind, outcome_json) :=
           serialize_outcome (NotificationAttempt.outcome attempt) in
         let? external_ref_json :=
           serialize_external_ref (NotificationAttempt.external_ref attempt) in
         Ok (outcome_kind, outcome_json, external_ref_json)) with
  | Err e => Some (Err e)
  | Ok (outcome_kind, outcome_json, external_ref_json) =>
      next_retry_at ← nanos_opt (NotificationAttempt.next_retry_at attempt);
      attempted_at ← nanos (NotificationAttempt.attempted_at attempt);
      completed_at ← nanos_opt (NotificationAttempt.completed_at attempt);
      Some (Ok {|
        AttemptRow.id := NotificationAttemptId.get (NotificationAttempt.id attempt);
        AttemptRow.rule_id := rule_id_blob (NotificationAttempt.rule_id attempt);
        AttemptRow.incident_id := IncidentId.get (NotificationAttempt.incident_id attempt);
        AttemptRow.lifecycle_kind :=
          lifecycle_kind_str (NotificationAttempt.lifecycle_kind attempt);
        AttemptRow.target_kind := target_kind_str (NotificationAttempt.target_kind attempt);
        AttemptRow.target_summary := NotificationAttempt.target_summary attempt;
        AttemptRow.status := status_str (NotificationAttempt.status attempt);
        AttemptRow.attempt_number := NotificationAttempt.attempt_number attempt;
        AttemptRow.parent_attempt_id :=
          NotificationAttemptId.get <$> NotificationAttempt.parent_attempt_id attempt;
        AttemptRow.next_retry_at := next_retry_at;
        AttemptRow.outcome_kind := outcome_kind;
        AttemptRow.outcome_json := outcome_json;
        AttemptRow.external_ref_json := external_ref_json;
        AttemptRow.attempted_at := attempted_at;
        AttemptRow.completed_at := completed_at;
      |})
  end.

Definition row_to_attempt (row : AttemptRow.t) :
    Result NotificationAttempt.t AttemptRepoError.t :=
  let? outcome := map_err (AttemptRepoError.Backend ∘ serde_text)
                    (deserialize_opt (AttemptRow.outcome_json row)) in
  let? external_ref := map_err (AttemptRepoError.Backend ∘ serde_text)
                         (deserialize_opt (AttemptRow.external_ref_json row)) in
  if (AttemptRow.attempt_number row <? 0)%Z then
    Err (AttemptRepoError.Backend
      ("attempt_number is negative: " +:+ pretty (AttemptRow.attempt_number row)))
  else
    let? rule_id := rule_id_from_blob (AttemptRow.rule_id row) in
    let? lifecycle_kind := lifecycle_kind_from_str (AttemptRow.lifecycle_kind row) in
    let? target_kind := target_kind_from_str (AttemptRow.target_kind row) in
    let? status := status_from_str (AttemptRow.status row) in
    Ok {|
      NotificationAttempt.id := NotificationAttemptId.mk (AttemptRow.id row);
      NotificationAttempt.rule_id := rule_id;
      NotificationAttempt.incident_id := IncidentId.mk (AttemptRow.incident_id row);
      NotificationAttempt.lifecycle_kind := lifecycle_kind;
      NotificationAttempt.target_kind := target_kind;
      NotificationAttempt.target_summary := AttemptRow.target_summary row;
      NotificationAttempt.status := status;
      NotificationAttempt.attempt_number := (AttemptRow.attempt_number row) mod 2 ^ 32;
      NotificationAttempt.parent_attempt_id :=
        NotificationAttemptId.mk <$> AttemptRow.parent_attempt_id row;
      NotificationAttempt.next_retry_at := nanos_to_dt <$> AttemptRow.next_retry_at row;
      NotificationAttempt.outcome := outcome;
      NotificationAttempt.external_ref := external_ref;
      NotificationAttempt.attempted_at := nanos_to_dt (AttemptRow.attempted_at row);
      NotificationAttempt.completed_at := nanos_to_dt <$> AttemptRow.completed_at row;
    |}.
End attempt_rows.

(** ** Reading back what was written *)

Lemma origin_round_trip o : origin_from_str (origin_str o) = Ok o.
Proof. by destruct o. Qed.

Lemma lifecycle_kind_round_trip k : lifecycle_kind_from_str (lifecycle_kind_str k) = Ok k.
Proof. by destruct k. Qed.

Lemma target_kind_round_trip k : target_kind_from_str (target_kind_str k) = Ok k.
Proof. by destruct k. Qed.

Lemma status_round_trip s : status_from_str (status_str s) = Ok s.
Proof. by destruct s. Qed.

Lemma status_str_inj : Inj (=) (=) status_str.
Proof. intros a b Heq. apply (f_equal status_from_str) in Heq. by rewrite !status_round_trip in Heq; simplify_eq. Qed.

Lemma incident_status_str_inj : Inj (=) (=) incident_status_str.
Proof. by intros [] []. Qed.

#[export] Hint Rewrite origin_round_trip lifecycle_kind_round_trip target_kind_round_trip
  status_round_trip : bithound.

Lemma nanos_to_dt_fmap (o : option Z) : nanos_to_dt <$> o = o.
Proof. by destruct o. Qed.

Lemma mk_get_fmap (o : option NotificationAttemptId.t) :
  NotificationAttemptId.mk <$> (NotificationAttemptId.get <$> o) = o.
Proof. by destruct o as [[]|]. Qed.

#[export] Hint Rewrite nanos_to_dt_fmap mk_get_fmap : bithound.

(** The node text of a scoped subject, as [split_once] cuts it. *)
Lemma split_scoped_app dbg n p k :
  split_scoped dbg (n +:+ "/" +:+ p) k =
    if contains_byte "/" n then split_scoped dbg (n +:+ "/" +:+ p) k else Ok (n, p).
Proof.
  destruct (contains_byte "/" n) eqn:E; [done|].
  unfold split_scoped. rewrite string_app_cons, string_app_nil_l.
  by rewrite split_once_app.
Qed.

Lemma split_scoped_left dbg n p k l r :
  split_scoped dbg (n +:+ "/" +:+ p) k = Ok (l, r) → contains_byte "/" l = false.
Proof.
  unfold split_scoped. destruct (split_once _ _) as [[l' r']|] eqn:E; [|done].
  intros [= <- <-]. by apply split_once_Some in E as [_ ?].
Qed.

(** C36: A subject is read back from its two columns exactly when no slash
    occurs in the identifier of its scoping node: [subject_from_pair] returns
    the subject that was stored if and only if the node half of a peer,
    channel or invoice reference is free of slashes (other subjects always
    round trip). *)
Theorem subject_round_trip `{UuidLaws, StoreText} e :
  subject_from_pair (EntityRef.subject_kind_str e) (EntityRef.subject_id_str e) = Ok e ↔
  scope_free "/" e.
Proof.
  unfold scope_free. destruct e; destruct_ids; cbn;
    rewrite ?uuid_parse_to_string; try done.
  all: split; [|intros Hn; rewrite split_scoped_app, Hn; done].
  all: destruct (split_scoped _ _ _) as [[l r]|] eqn:E; cbn; [|done].
  all: intros [= -> _]; by apply split_scoped_left in E.
Qed.

Section observation_round_trip.
Context `{UuidLaws, StoreText}.
Context `{SerdeLaws IntegrationKind.t, SerdeLaws ObservationPayload.t, SerdeLaws Attributes.t}.

(** What the columns can hold. *)
Record storable_observation (obs : Observation.t) : Prop := {
  so_subject : scope_free "/" (Observation.subject obs);
  so_observed_at : storable_instant (Observation.observed_at obs);
  so_received_at : storable_instant_opt (Observation.received_at obs);
  so_integration : serde_exact (CollectorRef.integration
                     (ObservationSource.collector (Observation.source obs)));
  so_payload : serde_exact (Observation.payload obs);
  so_attributes : serde_exact (Observation.attributes obs);
}.

Lemma observation_round_trip obs :
  storable_observation obs →
  ∃ row, observation_columns obs = Some (Ok row) ∧ row_to_observation row = Ok obs ∧
    ObservationRow.id row = ObservationId.get (Observation.id obs) ∧
    ObservationRow.observed_at row = Observation.observed_at obs.
Proof.
  intros [Hsub Hobs Hrec (i & Hi & Hi')%serde_round_trip (p & Hp & Hp')%serde_round_trip
          (a & Ha & Ha')%serde_round_trip].
  unfold observation_columns. rewrite Hi; cbn. rewrite Hp; cbn. rewrite Ha; cbn.
  rewrite (nanos_some _ Hobs), (nanos_opt_some _ Hrec); cbn.
  eexists. split_and!; [done| |done|done].
  unfold row_to_observation; cbn. rewrite (proj2 (subject_round_trip _) Hsub); cbn.
  rewrite origin_round_trip; cbn. rewrite Hi'; cbn. rewrite Hp'; cbn. rewrite Ha'; cbn.
  rewrite nanos_to_dt_fmap. by destruct obs as [[] ? ? [[] [[] ? ?]] ? ? ? ?].
Qed.
End observation_round_trip.

Section incident_round_trip.
Context `{UuidLib, SerdeLaws Incident.t}.

Record storable_incident (i : Incident.t) : Prop := {
  si_opened_at : storable_instant (Incident.opened_at i);
  si_updated_at : storable_instant (Incident.updated_at i);
  si_resolved_at : storable_instant_opt (Incident.resolved_at i);
  si_exact : serde_exact i;
}.

Lemma incident_round_trip i :
  storable_incident i →
  ∃ row, incident_columns i = Some (Ok row) ∧ row_to_incident row = Ok i ∧
    IncidentRow.id row = IncidentId.get (Incident.id i) ∧
    IncidentRow.status row = incident_status_str (Incident.status i) ∧
    IncidentRow.opened_at row = Incident.opened_at i ∧
    IncidentRow.resolved_at row = Incident.resolved_at i.
Proof.
  intros [Ho Hu Hr (s & Hs & Hs')%serde_round_trip].
  unfold incident_columns. rewrite Hs; cbn.
  rewrite (nanos_some _ Ho), (nanos_some _ Hu), (nanos_opt_some _ Hr); cbn.
  eexists. split_and!; [done| |done..]. unfold row_to_incident; cbn. by rewrite Hs'.
Qed.
End incident_round_trip.

Section attempt_round_trip.
Context `{StoreText, SerdeLaws DeliveryOutcome.t, SerdeLaws ExternalMessageRef.t}.

Record storable_attempt (a : NotificationAttempt.t) : Prop := {
  sa_rule_id : valid_utf8 (NotificationRuleId.get (NotificationAttempt.rule_id a)) = true;
  sa_number : is_u32 (NotificationAttempt.attempt_number a);
  sa_next_retry_at : storable_instant_opt (NotificationAttempt.next_retry_at a);
  sa_attempted_at : storable_instant (NotificationAttempt.attempted_at a);
  sa_completed_at : storable_instant_opt (NotificationAttempt.completed_at a);
  sa_outcome : exact_opt (NotificationAttempt.outcome a);
  sa_external_ref : exact_opt (NotificationAttempt.external_ref a);
}.

(** The columns of an attempt, given what its JSON columns hold. *)
Definition attempt_row_with (a : NotificationAttempt.t)
    (outcome_json external_ref_json : option string) : AttemptRow.t := {|
  AttemptRow.id := NotificationAttemptId.get (NotificationAttempt.id a);
  AttemptRow.rule_id := rule_id_blob (NotificationAttempt.rule_id a);
  AttemptRow.incident_id := IncidentId.get (NotificationAttempt.incident_id a);
  AttemptRow.lifecycle_kind := lifecycle_kind_str (NotificationAttempt.lifecycle_kind a);
  AttemptRow.target_kind := target_kind_str (NotificationAttempt.target_kind a);
  AttemptRow.target_summary := NotificationAttempt.target_summary a;
  AttemptRow.status := status_str (NotificationAttempt.status a);
  AttemptRow.attempt_number := NotificationAttempt.attempt_number a;
  AttemptRow.parent_attempt_id :=
    NotificationAttemptId.get <$> NotificationAttempt.parent_attempt_id a;
  AttemptRow.next_retry_at := NotificationAttempt.next_retry_at a;
  AttemptRow.outcome_kind := outcome_kind_str <$> NotificationAttempt.outcome a;
  AttemptRow.outcome_json := outcome_json;
  AttemptRow.external_ref_json := external_ref_json;
  AttemptRow.attempted_at := NotificationAttempt.attempted_at a;
  AttemptRow.completed_at := NotificationAttempt.completed_at a;
|}.

(** A row represents an attempt when its columns are the attempt's and its
    JSON columns decode to the attempt's outcome and reference. *)
Definition represents_attempt (row : AttemptRow.t) (a : NotificationAttempt.t) : Prop :=
  valid_utf8 (NotificationRuleId.get (NotificationAttempt.rule_id a)) = true ∧
  is_u32 (NotificationAttempt.attempt_number a) ∧
  ∃ o e, row = attempt_row_with a o e ∧
    deserialize_opt o = Ok (NotificationAttempt.outcome a) ∧
    deserialize_opt e = Ok (NotificationAttempt.external_ref a).

Lemma represents_attempt_read row a :
  represents_attempt row a → row_to_attempt row = Ok a.
Proof.
  intros (Hutf & [Hn0 Hn] & o & e & -> & Ho & He).
  unfold row_to_attempt, attempt_row_with; cbn. rewrite Ho; cbn. rewrite He; cbn.
  rewrite (proj2 (Z.ltb_ge _ _) Hn0). unfold rule_id_from_blob, rule_id_blob. rewrite Hutf; cbn.
  rewrite lifecycle_kind_round_trip; cbn. rewrite target_kind_round_trip; cbn.
  rewrite status_round_trip; cbn. rewrite !nanos_to_dt_fmap, mk_get_fmap.
  rewrite Z.mod_small by lia. by destruct a as [[] [] [] ? ? ? ? ? ? ? ? ? ? ?].
Qed.

Lemma attempt_columns_represents a :
  storable_attempt a →
  ∃ row, attempt_columns a = Some (Ok row) ∧ represents_attempt row a ∧
    AttemptRow.id row = NotificationAttemptId.get (NotificationAttempt.id a).
Proof.
  intros [Hutf Hn Hretry Hat Hdone (o & Ho & Ho')%serialize_opt_round_trip
          (e & He & He')%serialize_opt_round_trip].
  unfold attempt_columns, serialize_outcome, serialize_external_ref.
  rewrite Ho; cbn. rewrite He; cbn.
  rewrite (nanos_opt_some _ Hretry), (nanos_some _ Hat), (nanos_opt_some _ Hdone); cbn.
  eexists. split_and!; [done| |done]. split_and!; [done..|]. by exists o, e.
Qed.
End attempt_round_trip.
