(* ===== verification/Sqlite.v ===== *)
(** * The SQLite backend: [storage/sqlite/*.rs], [storage/retention.rs]

    The pool is the four tables with a count of the statements sent to it. The
    database itself is [SqlEngine]: which statement fails and with what text,
    and the order in which a scan of a table enumerates its rows. The SQL of
    the source is written out on the rows: the primary key of every table is
    unique, an upsert replaces every column, [ORDER BY] sorts the scan and
    [LIMIT] cuts it. Operations return [None] for the panic of a timestamp
    outside the range of signed nanoseconds. *)

From S2P Require Import Prelude RustStr Names SharedTypes F64 CollectorTypes Observations Samples Incidents Engine Notifications Storage SqliteRows.

(** ** The database *)

Module SqlxError.
Inductive t : Type :=
  | UniqueViolation
  | Other (e : string).
End SqlxError.

Class SqlEngine : Type := {
  (** The failure of the [n]-th statement, if it fails. *)
  io_error : nat → option string;
  (** The text of a violated primary key. *)
  unique_text : string;
  scan {V} : gmap Uuid.t V → list V;
  scan_perm {V} (m : gmap Uuid.t V) : scan m ≡ₚ (map_to_list m).*2;
}.

Module SuppressionRow.
Record t : Type := mk { id : Uuid.t; until : option Z }.
End SuppressionRow.

Module Tables.
Record t : Type := mk {
  observations : gmap Uuid.t ObservationRow.t;
  incidents : gmap Uuid.t IncidentRow.t;
  suppression_rules : gmap Uuid.t SuppressionRow.t;
  notification_attempts : gmap Uuid.t AttemptRow.t;
}.

Definition empty : t := mk ∅ ∅ ∅ ∅.

Definition with_observations (f : gmap Uuid.t ObservationRow.t) (ts : t) : t :=
  mk f (incidents ts) (suppression_rules ts) (notification_attempts ts).
Definition with_incidents (f : gmap Uuid.t IncidentRow.t) (ts : t) : t :=
  mk (observations ts) f (suppression_rules ts) (notification_attempts ts).
Definition with_suppression_rules (f : gmap Uuid.t SuppressionRow.t) (ts : t) : t :=
  mk (observations ts) (incidents ts) f (notification_attempts ts).
Definition with_attempts (f : gmap Uuid.t AttemptRow.t) (ts : t) : t :=
  mk (observations ts) (incidents ts) (suppression_rules ts) f.
End Tables.

Module Pool.
Record t : Type := mk { tables : Tables.t; executed : nat }.

Definition fresh : t := mk Tables.empty 0.
End Pool.

Section engine.
Context `{SqlEngine}.

Definition sqlx_text (e : SqlxError.t) : string :=
  match e with
  | SqlxError.UniqueViolation => unique_text
  | SqlxError.Other e => e
  end.

(** One statement that writes: it fails and changes nothing, or takes effect. *)
Definition execute {R} (p : Pool.t) (stmt : Tables.t → Result (R * Tables.t) SqlxError.t) :
    Result R SqlxError.t * Pool.t :=
  let failed e := (Err e, Pool.mk (Pool.tables p) (S (Pool.executed p))) in
  match io_error (Pool.executed p) with
  | Some e => failed (SqlxError.Other e)
  | None =>
      match stmt (Pool.tables p) with
      | Err e => failed e
      | Ok (r, ts) => (Ok r, Pool.mk ts (S (Pool.executed p)))
      end
  end.

(** A query reads the tables; it fails as the statement it would be. *)
Definition fetch {R} (p : Pool.t) (query : Tables.t → R) : Result R SqlxError.t :=
  match io_error (Pool.executed p) with
  | Some e => Err (SqlxError.Other e)
  | None => Ok (query (Pool.tables p))
  end.

(** [INSERT] under a primary key. *)
Definition insert_row {V} (id : Uuid.t) (row : V) (table : gmap Uuid.t V) :
    Result (gmap Uuid.t V) SqlxError.t :=
  match table !! id with
  | Some _ => Err SqlxError.UniqueViolation
  | None => Ok (<[id := row]> table)
  end.
End engine.

(** Collecting an iterator of results: the first error, or every value. *)
Fixpoint collect {T E} (l : list (Result T E)) : Result (list T) E :=
  match l with
  | [] => Ok []
  | r :: l' => let? x := r in let? xs := collect l' in Ok (x :: xs)
  end.

(** ** [SqliteObservationStore] *)

Module SqliteObservationStore.
Section store.
Context `{UuidLib, StoreText, SqlEngine}.
Context `{SerdeJson IntegrationKind.t, SerdeJson ObservationPayload.t, SerdeJson Attributes.t}.

Definition database (e : SqlxError.t) : StoreError.t := StoreError.Database (sqlx_text e).

(** One [INSERT] of the transaction; the pool is the transaction's view. *)
Definition insert_one (tx : Pool.t) (obs : Observation.t) :
    option (Result unit StoreError.t * Pool.t) :=
  columns ← observation_columns obs;
  match columns with
  | Err e => Some (Err e, tx)
  | Ok row =>
      let '(res, tx) := execute tx (λ ts,
        let? t := insert_row (ObservationRow.id row) row (Tables.observations ts) in
        Ok (tt, Tables.with_observations t ts)) in
      Some (map_err database res, tx)
  end.

Fixpoint insert_all (tx : Pool.t) (batch : list Observation.t) :
    option (Result unit StoreError.t * Pool.t) :=
  match batch with
  | [] => Some (Ok tt, tx)
  | obs :: batch' =>
      '(res, tx) ← insert_one tx obs;
      match res with
      | Err e => Some (Err e, tx)
      | Ok _ => insert_all tx batch'
      end
  end.

(** Dropping a transaction rolls it back: the tables are those of [p]. *)
Definition rollback (p tx : Pool.t) : Pool.t := Pool.mk (Pool.tables p) (Pool.executed tx).

Definition append_many (p : Pool.t) (batch : list Observation.t) :
    option (Result unit StoreError.t * Pool.t) :=
  match batch with
  | [] => Some (Ok tt, p)
  | _ =>
      let '(begun, tx) := execute p (λ ts, Ok (tt, ts)) in
      match begun with
      | Err e => Some (Err (database e), tx)
      | Ok _ =>
          '(res, tx) ← insert_all tx batch;
          match res with
          | Err e => Some (Err e, rollback p tx)
          | Ok _ =>
              let '(committed, tx) := execute tx (λ ts, Ok (tt, ts)) in
              match committed with
              | Err e => Some (Err (database e), rollback p tx)
              | Ok _ => Some (Ok tt, tx)
              end
          end
      end
  end.

Definition row_le (a b : ObservationRow.t) : bool :=
  (ObservationRow.observed_at a <=? ObservationRow.observed_at b)%Z.

Definition iter_since (p : Pool.t) (since : DateTime) :
    option (Result (list (Result Observation.t StoreError.t)) StoreError.t) :=
  since_nanos ← nanos since;
  Some match fetch p (λ ts,
      sort_by row_le (filter (λ r, (since_nanos ≤ ObservationRow.observed_at r)%Z)
                        (scan (Tables.observations ts)))) with
  | Err e => Ok [Err (database e)]
  | Ok rows => Ok (row_to_observation <$> rows)
  end.

Definition get_by_id (p : Pool.t) (id : ObservationId.t) :
    Result (option Observation.t) StoreError.t :=
  let? row := map_err database (fetch p (λ ts, Tables.observations ts !! ObservationId.get id)) in
  match row with
  | Some row => let? obs := row_to_observation row in Ok (Some obs)
  | None => Ok None
  end.
End store.
End SqliteObservationStore.

(** ** [SqliteIncidentRepository] *)

Module SqliteIncidentRepository.
Section repository.
Context `{UuidLib, SqlEngine, SerdeJson Incident.t}.

Definition backend (e : SqlxError.t) : IncidentRepoError.t := IncidentRepoError.Backend (sqlx_text e).

Definition row_le (a b : IncidentRow.t) : bool :=
  (IncidentRow.opened_at a <=? IncidentRow.opened_at b)%Z.

Definition load_open (p : Pool.t) : Result (list Incident.t) IncidentRepoError.t :=
  let? rows := map_err backend (fetch p (λ ts,
    sort_by row_le
      (filter (λ r, IncidentRow.status r ≠ incident_status_str IncidentStatus.Resolved)
         (scan (Tables.incidents ts))))) in
  collect (row_to_incident <$> rows).

(** The upsert replaces every column of a row with the same id. *)
Definition save (p : Pool.t) (incident : Incident.t) :
    option (Result unit IncidentRepoError.t * Pool.t) :=
  columns ← incident_columns incident;
  match columns with
  | Err e => Some (Err e, p)
  | Ok row =>
      let '(res, p) := execute p (λ ts,
        Ok (tt, Tables.with_incidents (<[IncidentRow.id row := row]> (Tables.incidents ts)) ts)) in
      Some (map_err backend res, p)
  end.

Definition get (p : Pool.t) (id : IncidentId.t) :
    Result (option Incident.t) IncidentRepoError.t :=
  let? row := map_err backend (fetch p (λ ts, Tables.incidents ts !! IncidentId.get id)) in
  match row with
  | Some row => let? incident := row_to_incident row in Ok (Some incident)
  | None => Ok None
  end.
End repository.
End SqliteIncidentRepository.

(** ** [SqliteNotificationAttemptRepository] *)

Module SqliteNotificationAttemptRepository.
Section repository.
Context `{StoreText, SqlEngine, SerdeJson DeliveryOutcome.t, SerdeJson ExternalMessageRef.t}.

Definition backend (e : SqlxError.t) : AttemptRepoError.t := AttemptRepoError.Backend (sqlx_text e).

Definition map_insert_error (id : NotificationAttemptId.t) (e : SqlxError.t) :
    AttemptRepoError.t :=
  match e with
  | SqlxError.UniqueViolation => AttemptRepoError.Conflict id
  | _ => backend e
  end.

Definition insert_pending (p : Pool.t) (attempt : NotificationAttempt.t) :
    option (Result unit AttemptRepoError.t * Pool.t) :=
  columns ← attempt_columns attempt;
  match columns with
  | Err e => Some (Err e, p)
  | Ok row =>
      let '(res, p) := execute p (λ ts,
        let? t := insert_row (AttemptRow.id row) row (Tables.notification_attempts ts) in
        Ok (tt, Tables.with_attempts t ts)) in
      Some (map_err (map_insert_error (NotificationAttempt.id attempt)) res, p)
  end.

(** The [SET] list of the [UPDATE]. *)
Definition set_completed (status : string) (outcome_kind outcome_json external_ref_json : option string)
    (next_retry_at : option Z) (completed_at : Z) (row : AttemptRow.t) : AttemptRow.t := {|
  AttemptRow.id := AttemptRow.id row;
  AttemptRow.rule_id := AttemptRow.rule_id row;
  AttemptRow.incident_id := AttemptRow.incident_id row;
  AttemptRow.lifecycle_kind := AttemptRow.lifecycle_kind row;
  AttemptRow.target_kind := AttemptRow.target_kind row;
  AttemptRow.target_summary := AttemptRow.target_summary row;
  AttemptRow.status := status;
  AttemptRow.attempt_number := AttemptRow.attempt_number row;
  AttemptRow.parent_attempt_id := AttemptRow.parent_attempt_id row;
  AttemptRow.next_retry_at := next_retry_at;
  AttemptRow.outcome_kind := outcome_kind;
  AttemptRow.outcome_json := outcome_json;
  AttemptRow.external_ref_json := external_ref_json;
  AttemptRow.attempted_at := AttemptRow.attempted_at row;
  AttemptRow.completed_at := Some completed_at;
|}.

Definition complete (p : Pool.t) (id : NotificationAttemptId.t) (receipt : DeliveryReceipt.t)
    (next_retry_at : option DateTime) : option (Result unit AttemptRepoError.t * Pool.t) :=
  let status := status_for_outcome (DeliveryReceipt.outcome receipt) (is_some next_retry_at) in
  let external_ref := match DeliveryReceipt.outcome receipt with
                      | DeliveryOutcome.Delivered external_ref => external_ref
                      | _ => None
                      end in
  match (let? '(outcome_kind, outcome_json) :=
           serialize_outcome (Some (DeliveryReceipt.outcome receipt)) in
         let? external_ref_json := serialize_external_ref external_ref in
         Ok (outcome_kind, outcome_json, external_ref_json)) with
  | Err e => Some (Err e, p)
  | Ok (outcome_kind, outcome_json, external_ref_json) =>
      next ← nanos_opt next_retry_at;
      completed_at ← nanos (DeliveryReceipt.completed_at receipt);
      let '(res, p) := execute p (λ ts,
        match Tables.notification_attempts ts !! NotificationAttemptId.get id with
        | None => Ok (0, ts)
        | Some row => Ok (1, Tables.with_attempts
            (<[NotificationAttemptId.get id :=
                set_completed (status_str status) outcome_kind outcome_json external_ref_json
                  next completed_at row]> (Tables.notification_attempts ts)) ts)
        end) in
      Some match res with
      | Err e => (Err (backend e), p)
      | Ok 0 => (Err (AttemptRepoError.NotFound id), p)
      | Ok _ => (Ok tt, p)
      end
  end.

Definition due (now : Z) (r : AttemptRow.t) : bool :=
  String.eqb (AttemptRow.status r) (status_str NotificationDeliveryStatus.FailedTransient) &&
  match AttemptRow.next_retry_at r with
  | Some t => (t <=? now)%Z
  | None => false
  end.

(** [ORDER BY next_retry_at ASC]: NULL sorts first. *)
Definition retry_le (a b : AttemptRow.t) : bool :=
  match AttemptRow.next_retry_at a, AttemptRow.next_retry_at b with
  | None, _ => true
  | Some _, None => false
  | Some x, Some y => (x <=? y)%Z
  end.

Definition list_retryable (p : Pool.t) (now : DateTime) (limit : nat) :
    option (Result (list NotificationAttempt.t) AttemptRepoError.t) :=
  now ← nanos now;
  Some (let? rows := map_err backend (fetch p (λ ts,
          take limit (sort_by retry_le
            (filter (λ r, due now r = true) (scan (Tables.notification_attempts ts)))))) in
        collect (row_to_attempt <$> rows)).

Definition list_for_incident (p : Pool.t) (incident_id : IncidentId.t) :
    Result (list NotificationAttempt.t) AttemptRepoError.t :=
  let? rows := map_err backend (fetch p (λ ts,
    sort_by (λ a b, (AttemptRow.attempted_at b <=? AttemptRow.attempted_at a)%Z)
      (filter (λ r, AttemptRow.incident_id r = IncidentId.get incident_id)
         (scan (Tables.notification_attempts ts))))) in
  collect (row_to_attempt <$> rows).
End repository.
End SqliteNotificationAttemptRepository.

(** ** Retention *)

Module RetentionConfig.
Record t : Type := mk {
  observations_max_age : option Duration;
  incidents_max_age : option Duration;
  suppressions_grace : option Duration;
  attempts_max_age : option Duration;
  vacuum_interval : Duration;
}.
End RetentionConfig.

Definition duration_nanos (d : Duration) : Z := if (d <=? i64_max)%Z then d else i64_max.

(** [i64] subtraction as the release build computes it. *)
Definition i64_wrapping_sub (a b : Z) : Z := ((a - b - i64_min) mod 2 ^ 64 + i64_min)%Z.

Definition older (cutoff : Z) (o : option Z) : bool :=
  match o with
  | Some t => (t <? cutoff)%Z
  | None => false
  end.

(** The [WHERE] clauses of the four [DELETE]s. *)
Definition observation_expired (cutoff : Z) (r : ObservationRow.t) : bool :=
  (ObservationRow.observed_at r <? cutoff)%Z.

Definition incident_expired (cutoff : Z) (r : IncidentRow.t) : bool :=
  older cutoff (IncidentRow.resolved_at r).

Definition suppression_expired (cutoff : Z) (r : SuppressionRow.t) : bool :=
  older cutoff (SuppressionRow.until r).

Definition attempt_expired (cutoff : Z) (r : AttemptRow.t) : bool :=
  (AttemptRow.attempted_at r <? cutoff)%Z && negb (String.eqb (AttemptRow.status r) "Pending").

Definition delete_where {V} (expired : V → bool) (m : gmap Uuid.t V) : gmap Uuid.t V :=
  filter (λ kv, expired kv.2 = false) m.

Section retention.
Context `{SqlEngine}.

(** One table's sweep: skipped without an age, its error logged. *)
Definition sweep_table (age : option Duration) (now_nanos : Z)
    (delete : Z → Tables.t → Tables.t) (p : Pool.t) : Pool.t :=
  match age with
  | None => p
  | Some age =>
      let cutoff := i64_wrapping_sub now_nanos (duration_nanos age) in
      (execute p (λ ts, Ok (tt, delete cutoff ts))).2
  end.

Definition delete_observations (cutoff : Z) (ts : Tables.t) : Tables.t :=
  Tables.with_observations (delete_where (observation_expired cutoff) (Tables.observations ts)) ts.
Definition delete_incidents (cutoff : Z) (ts : Tables.t) : Tables.t :=
  Tables.with_incidents (delete_where (incident_expired cutoff) (Tables.incidents ts)) ts.
Definition delete_suppression_rules (cutoff : Z) (ts : Tables.t) : Tables.t :=
  Tables.with_suppression_rules
    (delete_where (suppression_expired cutoff) (Tables.suppression_rules ts)) ts.
Definition delete_attempts (cutoff : Z) (ts : Tables.t) : Tables.t :=
  Tables.with_attempts
    (delete_where (attempt_expired cutoff) (Tables.notification_attempts ts)) ts.

(** [sweep] at the instant [now]; [VACUUM] moves no row. *)
Definition sweep (p : Pool.t) (config : RetentionConfig.t) (now : DateTime) : option Pool.t :=
  now_nanos ← nanos now;
  let p := sweep_table (RetentionConfig.observations_max_age config) now_nanos delete_observations p in
  let p := sweep_table (RetentionConfig.incidents_max_age config) now_nanos delete_incidents p in
  let p := sweep_table (RetentionConfig.suppressions_grace config) now_nanos
             delete_suppression_rules p in
  let p := sweep_table (RetentionConfig.attempts_max_age config) now_nanos delete_attempts p in
  Some (execute p (λ ts, Ok (tt, ts))).2.

(** What the [select!] of [run] sees after the first tick, which is consumed
    before the loop. *)
Inductive wake : Type := Tick (now : DateTime) | ShutdownSignal.

Fixpoint retention_run (p : Pool.t) (config : RetentionConfig.t) (wakes : list wake) :
    option Pool.t :=
  match wakes with
  | [] => Some p
  | Tick now :: wakes' => p ← sweep p config now; retention_run p config wakes'
  | ShutdownSignal :: _ => Some p
  end.
End retention.

(** ** Lemmas on statements *)

Section engine_lemmas.
Context `{SqlEngine}.

(** A statement fails and leaves the tables, or is the function it denotes. *)
Lemma execute_cases {R} (p : Pool.t) (stmt : Tables.t → Result (R * Tables.t) SqlxError.t) res p' :
  execute p stmt = (res, p') →
  Pool.executed p' = S (Pool.executed p) ∧
  ((∃ e, res = Err e ∧ Pool.tables p' = Pool.tables p ∧
     (io_error (Pool.executed p) = None → stmt (Pool.tables p) = Err e)) ∨
   (∃ r ts, res = Ok r ∧ stmt (Pool.tables p) = Ok (r, ts) ∧ Pool.tables p' = ts ∧
     io_error (Pool.executed p) = None)).
Proof.
  unfold execute. destruct (io_error _) as [e|].
  - intros [= <- <-]. split; [done|]. left. by eexists.
  - destruct (stmt _) as [[r ts]|e]; intros [= <- <-]; (split; [done|]); [right; by eexists _, _|left; by eexists].
Qed.

Lemma elem_of_scan {V} (m : gmap Uuid.t V) v : v ∈ scan m ↔ ∃ k, m !! k = Some v.
Proof.
  rewrite scan_perm, list_elem_of_fmap. split.
  - intros ([k v'] & -> & Hin%elem_of_map_to_list). by exists k.
  - intros [k Hk]. exists (k, v). by rewrite elem_of_map_to_list.
Qed.

Lemma collect_fmap {V T E} (f : V → Result T E) (g : V → T) (l : list V) :
  (∀ v, v ∈ l → f v = Ok (g v)) → collect (f <$> l) = Ok (g <$> l).
Proof.
  induction l as [|v l IH]; [done|]. intros Hl. cbn. rewrite (Hl v) by constructor. cbn.
  rewrite IH; [done|]. intros v' Hv'. apply Hl. by constructor.
Qed.
End engine_lemmas.

(** ** A table that represents a map of domain values *)

Section table_sim.
Context {Row V K : Type} `{Countable K} (mk : Uuid.t → K) (R : Row → V → Prop).
Context `{!Inj (=) (=) mk} (get : K → Uuid.t) (mk_get : ∀ k, mk (get k) = k).

(** Row by row, the table holds what the map holds. *)
Definition table_sim (t : gmap Uuid.t Row) (m : gmap K V) : Prop :=
  ∀ u, match t !! u, m !! mk u with
       | None, None => True
       | Some row, Some v => R row v
       | _, _ => False
       end.

Lemma table_sim_empty : table_sim ∅ ∅.
Proof. intros u. by rewrite !lookup_empty. Qed.

Lemma table_sim_insert t m u row v :
  table_sim t m → R row v → table_sim (<[u := row]> t) (<[mk u := v]> m).
Proof.
  intros Ht Hr u'. destruct (decide (u = u')) as [->|Hne].
  - by rewrite !lookup_insert_eq.
  - rewrite !lookup_insert_ne by (done || by intros ?%(inj mk)). apply Ht.
Qed.

Lemma table_sim_delete t m u : table_sim t m → table_sim (delete u t) (delete (mk u) m).
Proof.
  intros Ht u'. destruct (decide (u = u')) as [->|Hne].
  - by rewrite !lookup_delete_eq.
  - rewrite !lookup_delete_ne by (done || by intros ?%(inj mk)). apply Ht.
Qed.

Lemma table_sim_empty_inv m : table_sim ∅ m → m = ∅.
Proof.
  intros Hm. apply map_eq. intros k. specialize (Hm (get k)).
  rewrite mk_get, !lookup_empty in *. by destruct (m !! k).
Qed.

Lemma table_sim_values t m :
  table_sim t m → ∃ vals, Forall2 R (map_to_list t).*2 vals ∧ vals ≡ₚ (map_to_list m).*2.
Proof.
  revert m. induction t as [|u row t Hu IH] using map_ind; intros m Hm.
  - rewrite (table_sim_empty_inv m Hm). exists []. by rewrite !map_to_list_empty.
  - pose proof (Hm u) as Hv. rewrite lookup_insert_eq in Hv.
    destruct (m !! mk u) as [v|] eqn:Hmu; [|done].
    destruct (IH (delete (mk u) m)) as (vals & Hvals & Hperm).
    { apply (table_sim_delete _ _ u) in Hm. by rewrite delete_insert_id in Hm. }
    destruct (Permutation_Forall2 (l1 := row :: (map_to_list t).*2)
                (l1' := (map_to_list (<[u := row]> t)).*2) (l2 := v :: vals) (P := R))
      as (l2 & Hl2 & HF); [by rewrite map_to_list_insert|by constructor|].
    exists l2. split; [done|]. rewrite <-(insert_delete_id m (mk u) v) by done.
    rewrite <-Hl2, map_to_list_insert by (by rewrite lookup_delete_eq). cbn. by rewrite Hperm.
Qed.

(** What a scan returns represents the map's values. *)
Lemma table_sim_scan `{SqlEngine} t m :
  table_sim t m → ∃ vals, Forall2 R (scan t) vals ∧ vals ≡ₚ (map_to_list m).*2.
Proof.
  intros (vals & HF & Hp)%table_sim_values.
  destruct (Permutation_Forall2 (l1' := scan t) (P := R) (symmetry (scan_perm t)) HF)
    as (l & Hl & HF'). exists l. split; [done|]. by rewrite <-Hl.
Qed.
End table_sim.

(** Sorting and reading commute with the representation. *)
Section represented_lists.
Context {Row V : Type} (R : Row → V → Prop).

Lemma insert_sorted_Forall2 (le1 : Row → Row → bool) (le2 : V → V → bool) a x l1 l2 :
  (∀ a b x y, R a x → R b y → le1 a b = le2 x y) →
  R a x → Forall2 R l1 l2 → Forall2 R (insert_sorted le1 a l1) (insert_sorted le2 x l2).
Proof.
  intros Hle Hax. induction 1 as [|b y l1 l2 Hby HF IH]; cbn; [by repeat constructor|].
  rewrite (Hle a b x y) by done. destruct (le2 x y); repeat constructor; auto.
Qed.

Lemma sort_by_Forall2 (le1 : Row → Row → bool) (le2 : V → V → bool) l1 l2 :
  (∀ a b x y, R a x → R b y → le1 a b = le2 x y) →
  Forall2 R l1 l2 → Forall2 R (sort_by le1 l1) (sort_by le2 l2).
Proof.
  intros Hle. induction 1 as [|a x l1 l2 Hax _ IH]; [constructor|].
  by apply insert_sorted_Forall2.
Qed.

Lemma collect_Forall2 {E} (read : Row → Result V E) l1 l2 :
  (∀ a x, R a x → read a = Ok x) → Forall2 R l1 l2 → collect (read <$> l1) = Ok l2.
Proof.
  intros Hread. induction 1 as [|a x l1 l2 Hax _ IH]; [done|].
  rewrite fmap_cons; cbn [collect]. rewrite (Hread a x Hax); cbn [res_bind]. by rewrite IH.
Qed.

Lemma read_Forall2 {E} (read : Row → Result V E) l1 l2 :
  (∀ a x, R a x → read a = Ok x) → Forall2 R l1 l2 → read <$> l1 = Ok <$> l2.
Proof. intros Hread. induction 1 as [|a x l1 l2 Hax _ IH]; cbn; [done|]. by rewrite (Hread a x), IH. Qed.
End represented_lists.
