(* ===== verification/SqliteRefinement.v ===== *)
(** * The SQLite backend implements the storage contracts

    Each SQLite repository simulates the in-memory repository of the same
    trait: a statement that fails leaves the represented content, a statement
    that succeeds does what the in-memory operation does, and queries answer
    from the represented content. The retention sweep deletes what its ages
    allow and nothing that is still open. *)

From S2P Require Import Prelude RustStr Names SharedTypes F64 CollectorTypes Observations Samples Incidents Engine Notifications Storage SqliteRows Sqlite.

(** Opening a table simulation at the row an operation is about. *)
Ltac sim_at H u :=
  let Hu := fresh "Hat" in
  pose proof (H u) as Hu; cbn in Hu;
  repeat match type of Hu with
  | context [match ?o with _ => _ end] => destruct o eqn:?; try done
  end.

#[local] Instance incident_id_inj : Inj (=) (=) IncidentId.mk.
Proof. by intros ?? [=]. Qed.
#[local] Instance attempt_id_inj : Inj (=) (=) NotificationAttemptId.mk.
Proof. by intros ?? [=]. Qed.
#[local] Instance observation_id_inj : Inj (=) (=) ObservationId.mk.
Proof. by intros ?? [=]. Qed.

(** ** Incidents *)

Section incidents.
Context `{UuidLib, SqlEngine, HashOrder, SerdeLaws Incident.t}.

Definition represents_incident (row : IncidentRow.t) (i : Incident.t) : Prop :=
  row_to_incident row = Ok i ∧
  IncidentRow.status row = incident_status_str (Incident.status i) ∧
  IncidentRow.opened_at row = Incident.opened_at i.

Definition incidents_sim (p : Pool.t) (m : MemoryIncidentRepository.t) : Prop :=
  table_sim IncidentId.mk represents_incident
    (Tables.incidents (Pool.tables p)) (MemoryIncidentRepository.inner m).

Lemma save_sim p m i :
  incidents_sim p m → storable_incident i →
  ∃ res p', SqliteIncidentRepository.save p i = Some (res, p') ∧
    match io_error (Pool.executed p) with
    | Some e => res = Err (IncidentRepoError.Backend e) ∧ incidents_sim p' m
    | None => res = Ok tt ∧ incidents_sim p' (MemoryIncidentRepository.save m i).2
    end.
Proof.
  intros Hsim (row & Hcols & Hread & Hid & Hst & Hop & _)%incident_round_trip.
  unfold SqliteIncidentRepository.save. rewrite Hcols; cbn. unfold execute.
  destruct (io_error _) as [e|]; cbn; eexists _, _; (split; [done|]); split; try done.
  unfold incidents_sim; cbn. rewrite Hid. destruct (Incident.id i) as [u] eqn:Hu.
  apply table_sim_insert; [apply _|done|by repeat split].
Qed.

Lemma get_sim p m id :
  incidents_sim p m → io_error (Pool.executed p) = None →
  SqliteIncidentRepository.get p id = MemoryIncidentRepository.get m id.
Proof.
  intros Hsim Hio. unfold SqliteIncidentRepository.get, fetch. rewrite Hio; cbn.
  destruct id as [u]. pose proof (Hsim u) as Hu. unfold MemoryIncidentRepository.get. cbn in *.
  destruct (_ !! u) as [row|], (_ !! IncidentId.mk u) as [i|]; try done.
  destruct Hu as [Hr _]. by rewrite Hr.
Qed.

Lemma load_open_sim p m :
  incidents_sim p m → io_error (Pool.executed p) = None →
  ∃ out mem, SqliteIncidentRepository.load_open p = Ok out ∧
    MemoryIncidentRepository.load_open m = Ok mem ∧ out ≡ₚ mem ∧
    StronglySorted (λ a b, Incident.opened_at a ≤ Incident.opened_at b)%Z out.
Proof.
  intros Hsim Hio. unfold SqliteIncidentRepository.load_open, fetch. rewrite Hio; cbn.
  destruct (table_sim_scan IncidentId.mk represents_incident IncidentId.get
              ltac:(by intros []) _ _ Hsim) as (vals & HF & Hp).
  eapply (Forall2_filter _ (λ r, IncidentRow.status r ≠ incident_status_str IncidentStatus.Resolved)
            (λ i, Incident.status i ≠ IncidentStatus.Resolved)) in HF.
  2: { intros r i (_ & -> & _). by destruct (Incident.status i). }
  eapply (sort_by_Forall2 _ SqliteIncidentRepository.row_le
            (λ a b, (Incident.opened_at a <=? Incident.opened_at b)%Z)) in HF.
  2: { intros a b x y (_ & _ & Ha) (_ & _ & Hb). unfold SqliteIncidentRepository.row_le. by rewrite Ha, Hb. }
  eexists _, _. split_and!; [|done|..].
  - eapply collect_Forall2; [|exact HF]. by intros a x [? _].
  - by rewrite !sort_by_perm, Hp, hash_values_perm.
  - eapply sorted_weaken; [|apply sort_by_sorted; [apply opened_at_le_total|apply opened_at_le_trans]].
    intros a b. apply Z.leb_le.
Qed.

(** C22: The SQLite incident repository refines the in-memory one. From any pool
    that represents a map of incidents: saving a storable incident either
    fails with the database's error and leaves the represented map, or
    succeeds and represents the map after the in-memory save; and when the
    query succeeds, [get] answers as the map does and [load_open] returns the
    incidents the in-memory repository returns, oldest first. A fresh database
    represents the empty map. *)
Theorem incident_repository_refines p m (Hsim : incidents_sim p m) :
  incidents_sim Pool.fresh MemoryIncidentRepository.new ∧
  (∀ i, storable_incident i →
     ∃ res p', SqliteIncidentRepository.save p i = Some (res, p') ∧
       match io_error (Pool.executed p) with
       | Some e => res = Err (IncidentRepoError.Backend e) ∧ incidents_sim p' m
       | None => res = Ok tt ∧ incidents_sim p' (MemoryIncidentRepository.save m i).2
       end) ∧
  (io_error (Pool.executed p) = None →
     (∀ id, SqliteIncidentRepository.get p id = MemoryIncidentRepository.get m id) ∧
     ∃ out mem, SqliteIncidentRepository.load_open p = Ok out ∧
       MemoryIncidentRepository.load_open m = Ok mem ∧ out ≡ₚ mem ∧
       StronglySorted (λ a b, Incident.opened_at a ≤ Incident.opened_at b)%Z out).
Proof.
  split_and!; [apply table_sim_empty|intros i Hi; by apply save_sim|].
  intros Hio. split; [intros id; by apply get_sim|by apply load_open_sim].
Qed.
End incidents.

(** ** Attempts *)

Section attempts.
Context `{StoreText, SqlEngine, HashOrder, SerdeLaws DeliveryOutcome.t, SerdeLaws ExternalMessageRef.t}.
Implicit Types (p : Pool.t) (m : MemoryNotificationAttemptRepository.t).

Definition attempts_sim p m : Prop :=
  table_sim NotificationAttemptId.mk represents_attempt
    (Tables.notification_attempts (Pool.tables p)) (MemoryNotificationAttemptRepository.inner m).

(** The reference a completion records. *)
Definition receipt_ref (receipt : DeliveryReceipt.t) : option ExternalMessageRef.t :=
  match DeliveryReceipt.outcome receipt with
  | DeliveryOutcome.Delivered external_ref => external_ref
  | _ => None
  end.

Record storable_completion (receipt : DeliveryReceipt.t) (next : option DateTime) : Prop := {
  sc_next : storable_instant_opt next;
  sc_completed_at : storable_instant (DeliveryReceipt.completed_at receipt);
  sc_outcome : serde_exact (DeliveryReceipt.outcome receipt);
  sc_external_ref : exact_opt (receipt_ref receipt);
}.

(** The two writes, as one operation of each backend. *)
Inductive attempt_op : Type :=
  | Insert (a : NotificationAttempt.t)
  | Complete (id : NotificationAttemptId.t) (receipt : DeliveryReceipt.t) (next : option DateTime).

Definition storable_op (op : attempt_op) : Prop :=
  match op with
  | Insert a => storable_attempt a
  | Complete _ receipt next => storable_completion receipt next
  end.

Definition sqlite_op p (op : attempt_op) : option (Result unit AttemptRepoError.t * Pool.t) :=
  match op with
  | Insert a => SqliteNotificationAttemptRepository.insert_pending p a
  | Complete id receipt next => SqliteNotificationAttemptRepository.complete p id receipt next
  end.

Definition memory_op m (op : attempt_op) :
    Result unit AttemptRepoError.t * MemoryNotificationAttemptRepository.t :=
  match op with
  | Insert a => MemoryNotificationAttemptRepository.insert_pending m a
  | Complete id receipt next => MemoryNotificationAttemptRepository.complete m id receipt next
  end.

Lemma insert_pending_sim p m a :
  attempts_sim p m → storable_attempt a →
  ∃ res p', SqliteNotificationAttemptRepository.insert_pending p a = Some (res, p') ∧
    match io_error (Pool.executed p) with
    | Some e => res = Err (AttemptRepoError.Backend e) ∧ attempts_sim p' m
    | None => res = (MemoryNotificationAttemptRepository.insert_pending m a).1 ∧
              attempts_sim p' (MemoryNotificationAttemptRepository.insert_pending m a).2
    end.
Proof.
  intros Hsim (row & Hcols & Hrep & Hid)%attempt_columns_represents.
  unfold SqliteNotificationAttemptRepository.insert_pending,
    MemoryNotificationAttemptRepository.insert_pending, execute, insert_row.
  rewrite Hcols; cbn. destruct (io_error _) as [e|]; [by eexists _, _|].
  destruct (NotificationAttempt.id a) as [u] eqn:Hu; cbn in Hid. rewrite Hid.
  pose proof (Hsim u) as Hat. destruct (_ !! u) as [row'|], (_ !! NotificationAttemptId.mk u); try done;
    cbn; (eexists _, _; split; [done|]); (split; [done|]); [done|].
  unfold attempts_sim; cbn. by apply table_sim_insert; [apply _|..].
Qed.

Lemma complete_represents row a receipt next o e :
  represents_attempt row a →
  deserialize_opt o = Ok (Some (DeliveryReceipt.outcome receipt)) →
  deserialize_opt e = Ok (receipt_ref receipt) →
  represents_attempt
    (SqliteNotificationAttemptRepository.set_completed
       (status_str (status_for_outcome (DeliveryReceipt.outcome receipt) (is_some next)))
       (Some (outcome_kind_str (DeliveryReceipt.outcome receipt))) o e next
       (DeliveryReceipt.completed_at receipt) row)
    (completed a receipt next).
Proof.
  intros (Hutf & Hn & o' & e' & -> & _ & _) Ho He. split_and!; [done..|].
  by exists o, e.
Qed.

Lemma complete_sim p m id receipt next :
  attempts_sim p m → storable_completion receipt next →
  ∃ res p', SqliteNotificationAttemptRepository.complete p id receipt next = Some (res, p') ∧
    match io_error (Pool.executed p) with
    | Some e => res = Err (AttemptRepoError.Backend e) ∧ attempts_sim p' m
    | None => res = (MemoryNotificationAttemptRepository.complete m id receipt next).1 ∧
              attempts_sim p' (MemoryNotificationAttemptRepository.complete m id receipt next).2
    end.
Proof.
  intros Hsim [Hnext Hat (o & Ho & Ho')%serde_round_trip (e & He & He')%serialize_opt_round_trip].
  unfold SqliteNotificationAttemptRepository.complete, serialize_outcome, serialize_external_ref,
    MemoryNotificationAttemptRepository.complete, execute; cbn.
  fold (receipt_ref receipt). rewrite Ho; cbn. rewrite He; cbn.
  rewrite (nanos_opt_some _ Hnext), (nanos_some _ Hat); cbn.
  destruct (io_error _) as [err|]; [by eexists _, _|].
  destruct id as [u]; cbn. pose proof (Hsim u) as Hrow.
  destruct (_ !! u) as [row|], (_ !! NotificationAttemptId.mk u) as [a|]; try done;
    cbn; (eexists _, _; split; [done|]); (split; [done|]); [|done].
  unfold attempts_sim; cbn. apply table_sim_insert; [apply _|done|].
  apply complete_represents; [done|cbn; by rewrite Ho'|done].
Qed.

(** What a query over the attempts returns, in terms of the represented map. *)
Lemma attempts_query p m (P : AttemptRow.t → Prop) (Q : NotificationAttempt.t → Prop)
    `{∀ r, Decision (P r), ∀ a, Decision (Q a)} le1 le2 :
  attempts_sim p m →
  (∀ r a, represents_attempt r a → P r ↔ Q a) →
  (∀ r r' a a', represents_attempt r a → represents_attempt r' a' → le1 r r' = le2 a a') →
  ∃ vals, vals ≡ₚ hash_values (MemoryNotificationAttemptRepository.inner m) ∧
    Forall2 represents_attempt
      (sort_by le1 (filter P (scan (Tables.notification_attempts (Pool.tables p)))))
      (sort_by le2 (filter Q vals)).
Proof.
  intros Hsim HPQ Hle.
  destruct (table_sim_scan NotificationAttemptId.mk represents_attempt NotificationAttemptId.get
              ltac:(by intros []) _ _ Hsim) as (vals & HF & Hp).
  exists vals. split; [by rewrite hash_values_perm|].
  apply sort_by_Forall2; [done|]. by eapply Forall2_filter.
Qed.

Lemma list_for_incident_sim p m id :
  attempts_sim p m → io_error (Pool.executed p) = None →
  ∃ out mem, SqliteNotificationAttemptRepository.list_for_incident p id = Ok out ∧
    MemoryNotificationAttemptRepository.list_for_incident m id = Ok mem ∧ out ≡ₚ mem ∧
    StronglySorted (λ a b, NotificationAttempt.attempted_at b
                           ≤ NotificationAttempt.attempted_at a)%Z out.
Proof.
  intros Hsim Hio. unfold SqliteNotificationAttemptRepository.list_for_incident, fetch.
  rewrite Hio; cbn.
  destruct (attempts_query p m (λ r, AttemptRow.incident_id r = IncidentId.get id)
    (λ a, NotificationAttempt.incident_id a = id)
    (λ a b, (AttemptRow.attempted_at b <=? AttemptRow.attempted_at a)%Z)
    (λ a b, (NotificationAttempt.attempted_at b <=? NotificationAttempt.attempted_at a)%Z))
    as (vals & Hp & HF); [done|..].
  { intros r a (_ & _ & o & e & -> & _). cbn. destruct (NotificationAttempt.incident_id a), id; cbn. naive_solver. }
  { by intros r r' a a' (_ & _ & ? & ? & -> & _) (_ & _ & ? & ? & -> & _). }
  eexists _, _. split_and!; [|done|..].
  - eapply collect_Forall2; [|exact HF]. apply represents_attempt_read.
  - by rewrite !sort_by_perm, Hp.
  - eapply sorted_weaken; [|apply sort_by_sorted].
    + intros a b. apply Z.leb_le.
    + intros a b. rewrite Z.leb_gt, Z.leb_le. lia.
    + intros a b c. rewrite !Z.leb_le. lia.
Qed.

(** Sorted lists with the same elements have the same sequence of keys. *)
Lemma sorted_keys (l1 l2 : list NotificationAttempt.t) :
  l1 ≡ₚ l2 →
  StronglySorted (λ a b, MemoryNotificationAttemptRepository.retry_le a b = true) l1 →
  StronglySorted (λ a b, MemoryNotificationAttemptRepository.retry_le a b = true) l2 →
  NotificationAttempt.next_retry_at <$> l1 = NotificationAttempt.next_retry_at <$> l2.
Proof.
  intros Hp Hs1 Hs2.
  set (key_le := λ x y : option Z, match x, y with
    | None, _ => True | Some _, None => False | Some a, Some b => (a ≤ b)%Z end).
  assert (AntiSymm (=) key_le).
  { intros [a|] [b|]; cbn; try done. intros. f_equal. lia. }
  assert (Hmap : ∀ l, StronglySorted (λ a b, MemoryNotificationAttemptRepository.retry_le a b = true) l →
            StronglySorted key_le (NotificationAttempt.next_retry_at <$> l)).
  { induction 1 as [|a l _ IH Ha]; cbn; constructor; [done|].
    apply Forall_fmap. eapply Forall_impl; [exact Ha|]. intros b.
    unfold MemoryNotificationAttemptRepository.retry_le, key_le; cbn.
    repeat case_match; try done. apply Z.leb_le. }
  eapply (StronglySorted_unique key_le); [by apply Hmap..|]. by rewrite Hp.
Qed.

Lemma list_retryable_sim p m now limit :
  attempts_sim p m → io_error (Pool.executed p) = None → storable_instant now →
  ∃ out mem, SqliteNotificationAttemptRepository.list_retryable p now limit = Some (Ok out) ∧
    MemoryNotificationAttemptRepository.list_retryable m now limit = Ok mem ∧
    NotificationAttempt.next_retry_at <$> out = NotificationAttempt.next_retry_at <$> mem ∧
    (∀ a, a ∈ out →
       (∃ id, MemoryNotificationAttemptRepository.inner m !! id = Some a) ∧
       NotificationAttempt.status a = NotificationDeliveryStatus.FailedTransient ∧
       MemoryNotificationAttemptRepository.due now a = true).
Proof.
  intros Hsim Hio Hnow. unfold SqliteNotificationAttemptRepository.list_retryable, fetch.
  rewrite (nanos_some _ Hnow); cbn. rewrite Hio; cbn.
  set (Q := λ a, NotificationAttempt.status a = NotificationDeliveryStatus.FailedTransient ∧
                 MemoryNotificationAttemptRepository.due now a = true).
  destruct (attempts_query p m
    (λ r, SqliteNotificationAttemptRepository.due now r = true) Q
    SqliteNotificationAttemptRepository.retry_le MemoryNotificationAttemptRepository.retry_le)
    as (vals & Hp & HF); [done|..].
  { intros r a (_ & _ & o & e & -> & _). unfold SqliteNotificationAttemptRepository.due, Q; cbn.
    rewrite andb_true_iff, String.eqb_eq. unfold MemoryNotificationAttemptRepository.due.
    by destruct (NotificationAttempt.status a); cbn; naive_solver. }
  { by intros r r' a a' (_ & _ & ? & ? & -> & _) (_ & _ & ? & ? & -> & _). }
  eexists _, _. split_and!; [|done|..].
  - f_equal. eapply collect_Forall2; [|by apply Forall2_take]. apply represents_attempt_read.
  - rewrite !fmap_take. f_equal. apply sorted_keys.
    + rewrite !sort_by_perm, Hp. rewrite list_filter_filter. unfold Q.
      erewrite list_filter_iff; [done|]. cbn. naive_solver.
    + apply sort_by_sorted; [apply retry_le_total|apply retry_le_trans].
    + apply sort_by_sorted; [apply retry_le_total|apply retry_le_trans].
  - intros a (k & Hk & _)%elem_of_take.
    apply list_elem_of_lookup_2 in Hk. rewrite sort_by_perm in Hk.
    apply list_elem_of_filter in Hk as [[??] Hin]. rewrite Hp in Hin.
    by apply elem_of_hash_values in Hin.
Qed.

(** C23: The SQLite attempt repository refines the in-memory one. From any pool
    that represents a map of attempts, a write of storable values never
    panics: when its statement fails it returns the database's error and the
    represented map is unchanged; otherwise it returns exactly the in-memory
    result (success, [Conflict] on a known id, [NotFound] on an unknown one)
    and represents the in-memory map after the operation. When the queries
    succeed, [list_for_incident] returns the in-memory rows, newest first, and
    [list_retryable] returns stored, transiently failed, due rows with the
    same sequence of retry times (rows tied on the retry time may differ at
    the limit). *)
Theorem attempt_repository_refines p m (Hsim : attempts_sim p m) :
  attempts_sim Pool.fresh MemoryNotificationAttemptRepository.new ∧
  (∀ op, storable_op op →
     ∃ res p', sqlite_op p op = Some (res, p') ∧
       match io_error (Pool.executed p) with
       | Some e => res = Err (AttemptRepoError.Backend e) ∧ attempts_sim p' m
       | None => res = (memory_op m op).1 ∧ attempts_sim p' (memory_op m op).2
       end) ∧
  (io_error (Pool.executed p) = None →
     (∀ id, ∃ out mem, SqliteNotificationAttemptRepository.list_for_incident p id = Ok out ∧
        MemoryNotificationAttemptRepository.list_for_incident m id = Ok mem ∧ out ≡ₚ mem ∧
        StronglySorted (λ a b, NotificationAttempt.attempted_at b
                               ≤ NotificationAttempt.attempted_at a)%Z out) ∧
     (∀ now limit, storable_instant now →
        ∃ out mem, SqliteNotificationAttemptRepository.list_retryable p now limit = Some (Ok out) ∧
          MemoryNotificationAttemptRepository.list_retryable m now limit = Ok mem ∧
          NotificationAttempt.next_retry_at <$> out = NotificationAttempt.next_retry_at <$> mem ∧
          (∀ a, a ∈ out →
             (∃ id, MemoryNotificationAttemptRepository.inner m !! id = Some a) ∧
             NotificationAttempt.status a = NotificationDeliveryStatus.FailedTransient ∧
             MemoryNotificationAttemptRepository.due now a = true))).
Proof.
  split_and!; [apply table_sim_empty| |].
  - intros [a|id receipt next]; [by apply insert_pending_sim|by apply complete_sim].
  - intros Hio. split; [intros id; by apply list_for_incident_sim|].
    intros now limit Hnow. by apply list_retryable_sim.
Qed.
End attempts.

(** ** Observations *)

Section observations.
Context `{UuidLaws, StoreText, SqlEngine}.
Context `{SerdeLaws IntegrationKind.t, SerdeLaws ObservationPayload.t, SerdeLaws Attributes.t}.
Implicit Types (p tx : Pool.t) (log batch : list Observation.t).

Definition represents_observation (row : ObservationRow.t) (o : Observation.t) : Prop :=
  row_to_observation row = Ok o ∧ ObservationRow.observed_at row = Observation.observed_at o.

(** The log, by identifier. *)
Definition log_map log : gmap ObservationId.t Observation.t :=
  list_to_map ((λ o, (Observation.id o, o)) <$> log).

(** The table holds a log of observations with distinct identifiers. *)
Definition log_sim p log : Prop :=
  NoDup (Observation.id <$> log) ∧
  table_sim ObservationId.mk represents_observation
    (Tables.observations (Pool.tables p)) (log_map log).

Lemma log_map_keys log : ((λ o, (Observation.id o, o)) <$> log).*1 = Observation.id <$> log.
Proof. by rewrite <-list_fmap_compose. Qed.

Lemma log_map_lookup_snoc log o :
  log_map log !! Observation.id o = None →
  NoDup (Observation.id <$> log) →
  NoDup (Observation.id <$> log ++ [o]) ∧
  log_map (log ++ [o]) = <[Observation.id o := o]> (log_map log).
Proof.
  intros Hnone Hnd. unfold log_map in *.
  apply not_elem_of_list_to_map_2 in Hnone. rewrite log_map_keys in Hnone.
  split.
  - rewrite fmap_app. apply NoDup_app. split_and!; [done| |by apply NoDup_singleton].
    cbn. intros i Hi ->%list_elem_of_singleton. done.
  - rewrite fmap_app; cbn. rewrite list_to_map_app. cbn. rewrite insert_empty.
    rewrite <-insert_union_singleton_r; [done|].
    apply not_elem_of_list_to_map_1. by rewrite log_map_keys.
Qed.

Lemma insert_one_sim tx log obs :
  log_sim tx log → storable_observation obs →
  ∃ res tx', SqliteObservationStore.insert_one tx obs = Some (res, tx') ∧
    Pool.executed tx' = S (Pool.executed tx) ∧
    (res = Ok tt ∧ log_sim tx' (log ++ [obs]) ∨
     (∃ e, res = Err e) ∧ (io_error (Pool.executed tx) = None → Observation.id obs ∈ Observation.id <$> log)).
Proof.
  intros [Hnd Hsim] (row & Hcols & Hread & Hid & Hat)%observation_round_trip.
  unfold SqliteObservationStore.insert_one, execute, insert_row. rewrite Hcols; cbn.
  destruct (io_error _) as [e|]; [eexists _, _; split; [done|]; split; [done|]; right; split; [by eauto|done]|].
  destruct (Observation.id obs) as [u] eqn:Hu; cbn in Hid. rewrite Hid.
  pose proof (Hsim u) as Hrow.
  destruct (_ !! u) as [row'|] eqn:E, (log_map log !! ObservationId.mk u) as [o|] eqn:E'; try done;
    cbn; (eexists _, _; split; [done|]); (split; [done|]).
  - right. split; [eauto|]. intros _. unfold log_map in E'.
    apply elem_of_list_to_map_2, list_elem_of_fmap in E' as (o' & [= Ho ->] & Hin).
    rewrite Ho. by apply list_elem_of_fmap_2.
  - left. split; [done|]. rewrite <-Hu in E'.
    destruct (log_map_lookup_snoc log obs E' Hnd) as [Hnd' Hmap]. split; [done|].
    rewrite Hmap, Hu. cbn. by apply table_sim_insert; [apply _|..].
Qed.

Lemma insert_all_sim batch tx log :
  log_sim tx log → Forall storable_observation batch →
  ∃ res tx', SqliteObservationStore.insert_all tx batch = Some (res, tx') ∧
    (res = Ok tt ∧ log_sim tx' (log ++ batch) ∧
       Pool.executed tx' = Pool.executed tx + length batch ∨
     (∃ e, res = Err e) ∧
       ((∀ n, n < length batch → io_error (Pool.executed tx + n) = None) →
        ¬ NoDup (Observation.id <$> log ++ batch))).
Proof.
  revert tx log. induction batch as [|obs batch IH]; intros tx log Hsim Hst; cbn.
  { eexists _, _. split; [done|]. left. rewrite app_nil_r. split_and!; [done..|lia]. }
  apply Forall_cons in Hst as [Hobs Hst].
  destruct (insert_one_sim tx log obs Hsim Hobs) as (res & tx' & -> & Hex & [[-> Hsim']|[[e ->] Hdup]]); cbn.
  - destruct (IH tx' (log ++ [obs]) Hsim' Hst) as (res & tx'' & Heq & Hres).
    rewrite Heq. eexists _, _. split; [done|]. rewrite <-(assoc_L (++)) in Hres. cbn in Hres.
    destruct Hres as [(-> & Hs & Hn)|[He Hn]]; [left; split_and!; [done..|lia]|right].
    split; [done|]. intros Hio. apply Hn. intros n Hlt. rewrite Hex.
    replace (S (Pool.executed tx) + n) with (Pool.executed tx + S n) by lia. apply Hio. lia.
  - eexists _, _. split; [done|]. right. split; [eauto|]. intros Hio.
    rewrite fmap_app. cbn. intros (_ & Hdisj & _)%NoDup_app.
    specialize (Hio 0). rewrite Nat.add_0_r in Hio.
    apply (Hdisj (Observation.id obs)); [apply Hdup, Hio; lia|by constructor].
Qed.

Lemma append_many_nonempty p batch :
  batch ≠ [] →
  SqliteObservationStore.append_many p batch =
  let '(begun, tx) := execute p (λ ts, Ok (tt, ts)) in
  match begun with
  | Err e => Some (Err (SqliteObservationStore.database e), tx)
  | Ok _ =>
      '(res, tx) ← SqliteObservationStore.insert_all tx batch;
      match res with
      | Err e => Some (Err e, SqliteObservationStore.rollback p tx)
      | Ok _ =>
          let '(committed, tx) := execute tx (λ ts, Ok (tt, ts)) in
          match committed with
          | Err e => Some (Err (SqliteObservationStore.database e),
                       SqliteObservationStore.rollback p tx)
          | Ok _ => Some (Ok tt, tx)
          end
      end
  end.
Proof. by destruct batch. Qed.

(** A statement without a row effect leaves the represented log. *)
Lemma log_sim_tables p p' log : Pool.tables p' = Pool.tables p → log_sim p log → log_sim p' log.
Proof. unfold log_sim. by intros ->. Qed.

Lemma append_many_sim p log batch :
  log_sim p log → Forall storable_observation batch →
  ∃ res p', SqliteObservationStore.append_many p batch = Some (res, p') ∧
    (res = Ok tt ∧ log_sim p' (log ++ batch) ∨
     (∃ e, res = Err e) ∧ log_sim p' log ∧ Pool.tables p' = Pool.tables p ∧
     ((∀ n, n < length batch + 2 → io_error (Pool.executed p + n) = None) →
      ¬ NoDup (Observation.id <$> log ++ batch))).
Proof.
  intros Hsim Hst. destruct (decide (batch = [])) as [->|Hne].
  { eexists _, _. split; [done|left]. by rewrite app_nil_r. }
  rewrite append_many_nonempty by done. clear Hne. destruct (execute p _) as [begun tx] eqn:E.
  destruct (execute_cases p _ _ _ E) as [Hex [(e & -> & Ht & Hbad)|(r & ts & -> & [= <- <-] & Ht & _)]].
  { eexists _, _. split; [done|]. right. split_and!; [by eauto|by eapply log_sim_tables|done|].
    intros Hio. specialize (Hio 0). rewrite Nat.add_0_r in Hio.
    specialize (Hbad (Hio ltac:(lia))). done. }
  destruct (insert_all_sim batch tx log) as (res & tx' & Heq & Hres);
    [by eapply log_sim_tables|done|].
  rewrite Heq; cbn. destruct Hres as [(-> & Hs & Hn)|[[e ->] Hn]].
  - destruct (execute tx' _) as [com tx''] eqn:E'.
    destruct (execute_cases tx' _ _ _ E') as [Hex' [(e & -> & Ht' & Hbad)|(r' & ts & -> & [= <- <-] & Ht' & _)]].
    + eexists _, _. split; [done|]. right. split_and!; [by eauto|done|done|].
      intros Hio. specialize (Hio (length batch + 1)). rewrite Hn, Hex in Hbad.
      replace (S (Pool.executed p) + length batch) with (Pool.executed p + (length batch + 1)) in Hbad by lia.
      specialize (Hbad (Hio ltac:(lia))). done.
    + eexists _, _. split; [done|]. left. split; [done|]. by eapply log_sim_tables.
  - eexists _, _. split; [done|]. right. split_and!; [by eauto|done|done|].
    intros Hio. apply Hn. intros n Hlt. rewrite Hex.
    replace (S (Pool.executed p) + n) with (Pool.executed p + S n) by lia. apply Hio. lia.
Qed.

Lemma log_map_values log :
  NoDup (Observation.id <$> log) → (map_to_list (log_map log)).*2 ≡ₚ log.
Proof.
  intros Hnd. unfold log_map. rewrite map_to_list_to_map by (by rewrite log_map_keys).
  rewrite <-list_fmap_compose. by rewrite list_fmap_id.
Qed.

Lemma iter_since_sim p log since :
  log_sim p log → io_error (Pool.executed p) = None → storable_instant since →
  ∃ out mem, SqliteObservationStore.iter_since p since = Some (Ok (Ok <$> out)) ∧
    MemoryObservationStore.iter_since (MemoryObservationStore.mk log) since = Ok (Ok <$> mem) ∧
    out ≡ₚ mem ∧
    StronglySorted (λ a b, Observation.observed_at a ≤ Observation.observed_at b)%Z out.
Proof.
  intros [Hnd Hsim] Hio Hsince. unfold SqliteObservationStore.iter_since, fetch.
  rewrite (nanos_some _ Hsince); cbn. rewrite Hio.
  destruct (table_sim_scan ObservationId.mk represents_observation ObservationId.get
              ltac:(by intros []) _ _ Hsim) as (vals & HF & Hp).
  rewrite (log_map_values log Hnd) in Hp.
  eapply (Forall2_filter _ (λ r, (since ≤ ObservationRow.observed_at r)%Z)
            (λ o, (since ≤ Observation.observed_at o)%Z)) in HF.
  2: { by intros r o [_ ->]. }
  eapply (sort_by_Forall2 _ SqliteObservationStore.row_le
            (λ a b, (Observation.observed_at a <=? Observation.observed_at b)%Z)) in HF.
  2: { intros a b x y (_ & Ha) (_ & Hb). unfold SqliteObservationStore.row_le. by rewrite Ha, Hb. }
  eexists _, _. split_and!; [|done|..].
  - do 2 f_equal. eapply read_Forall2; [|exact HF]. by intros a x [? _].
  - by rewrite !sort_by_perm, Hp.
  - eapply sorted_weaken; [|apply sort_by_sorted].
    + intros a b. apply Z.leb_le.
    + intros a b. rewrite Z.leb_gt, Z.leb_le. lia.
    + intros a b c. rewrite !Z.leb_le. lia.
Qed.

(** With distinct identifiers the first match is the only one. *)
Lemma find_log_map log id :
  NoDup (Observation.id <$> log) →
  List.find (λ o, bool_decide (Observation.id o = id)) log = log_map log !! id.
Proof.
  induction log as [|o log IH]; [done|]. cbn. intros [Hnin Hnd]%NoDup_cons.
  unfold log_map in *; cbn. case_bool_decide as Hid.
  - subst id. by rewrite lookup_insert_eq.
  - rewrite lookup_insert_ne by done. by apply IH.
Qed.

Lemma get_by_id_sim p log id :
  log_sim p log → io_error (Pool.executed p) = None →
  SqliteObservationStore.get_by_id p id =
  MemoryObservationStore.get_by_id (MemoryObservationStore.mk log) id.
Proof.
  intros [Hnd Hsim] Hio. unfold SqliteObservationStore.get_by_id, fetch,
    MemoryObservationStore.get_by_id. rewrite Hio; cbn. rewrite (find_log_map log id Hnd).
  destruct id as [u]; cbn. pose proof (Hsim u) as Hu.
  destruct (_ !! u) as [row|], (_ !! ObservationId.mk u) as [o|]; try done.
  destruct Hu as [Hr _]. cbn. by rewrite Hr.
Qed.

(** C24: The SQLite observation store refines the in-memory log. From a pool
    that represents a log with distinct identifiers: appending a batch of
    storable observations never panics and is atomic, so it represents the
    log with the whole batch appended, or returns an error and leaves every
    table as it was, the latter only if a statement failed or an identifier
    was used twice; and when the queries succeed, [iter_since] yields every
    logged observation at or after the given time, all decoded, in ascending
    time order, and [get_by_id] answers as the in-memory store does. *)
Theorem observation_store_refines p log (Hsim : log_sim p log) :
  log_sim Pool.fresh [] ∧
  (∀ batch, Forall storable_observation batch →
     ∃ res p', SqliteObservationStore.append_many p batch = Some (res, p') ∧
       (res = Ok tt ∧ log_sim p' (log ++ batch) ∨
        (∃ e, res = Err e) ∧ log_sim p' log ∧ Pool.tables p' = Pool.tables p ∧
        ((∀ n, n < length batch + 2 → io_error (Pool.executed p + n) = None) →
         ¬ NoDup (Observation.id <$> log ++ batch)))) ∧
  (io_error (Pool.executed p) = None →
     (∀ since, storable_instant since →
        ∃ out mem, SqliteObservationStore.iter_since p since = Some (Ok (Ok <$> out)) ∧
          MemoryObservationStore.iter_since (MemoryObservationStore.mk log) since = Ok (Ok <$> mem) ∧
          out ≡ₚ mem ∧
          StronglySorted (λ a b, Observation.observed_at a ≤ Observation.observed_at b)%Z out) ∧
     (∀ id, SqliteObservationStore.get_by_id p id =
            MemoryObservationStore.get_by_id (MemoryObservationStore.mk log) id)).
Proof.
  split_and!.
  - split; [constructor|apply table_sim_empty].
  - intros batch Hst. by apply append_many_sim.
  - intros Hio. split; [intros since Hs; by apply iter_since_sim|intros id; by apply get_by_id_sim].
Qed.
End observations.

(** ** Retention *)

Section retention.
Context `{SqlEngine}.
Implicit Types (p : Pool.t) (config : RetentionConfig.t).

(** A table after its part of a sweep that took effect if [ok]. *)
Definition swept {V} (age : option Duration) (now : Z) (expired : Z → V → bool) (ok : bool)
    (m : gmap Uuid.t V) : gmap Uuid.t V :=
  match age with
  | Some age => if ok then delete_where (expired (i64_wrapping_sub now (duration_nanos age))) m
                else m
  | None => m
  end.

Lemma sweep_table_cases age now delete p :
  ∃ ok, Pool.tables (sweep_table age now delete p) =
    (match age with
     | Some age => if ok : bool then delete (i64_wrapping_sub now (duration_nanos age)) (Pool.tables p)
                   else Pool.tables p
     | None => Pool.tables p
     end) ∧
  (io_error (Pool.executed p) = None → ok = true) ∧
  Pool.executed p ≤ Pool.executed (sweep_table age now delete p) ≤ S (Pool.executed p).
Proof.
  unfold sweep_table, execute. destruct age as [age|]; [|exists true; split_and!; [done..|lia|lia]].
  destruct (io_error _) as [e|]; [exists false|exists true]; cbn; split_and!; done || lia.
Qed.

Definition no_failure p : Prop := ∀ n, n < 4 → io_error (Pool.executed p + n) = None.

Lemma sweep_tables p config now p' :
  sweep p config now = Some p' →
  ∃ o i s a,
    Pool.tables p' = Tables.mk
      (swept (RetentionConfig.observations_max_age config) now observation_expired o
         (Tables.observations (Pool.tables p)))
      (swept (RetentionConfig.incidents_max_age config) now incident_expired i
         (Tables.incidents (Pool.tables p)))
      (swept (RetentionConfig.suppressions_grace config) now suppression_expired s
         (Tables.suppression_rules (Pool.tables p)))
      (swept (RetentionConfig.attempts_max_age config) now attempt_expired a
         (Tables.notification_attempts (Pool.tables p))) ∧
    (no_failure p → o = true ∧ i = true ∧ s = true ∧ a = true).
Proof.
  unfold sweep. destruct (nanos now) as [n|] eqn:En; cbn; [|done].
  assert (n = now) as -> by (unfold nanos in En; by case_match; simplify_eq).
  set (p1 := sweep_table _ _ delete_observations p). set (p2 := sweep_table _ _ _ p1).
  set (p3 := sweep_table _ _ _ p2). set (p4 := sweep_table _ _ _ p3). intros [= <-].
  destruct (sweep_table_cases (RetentionConfig.observations_max_age config) now delete_observations p)
    as (o & H1 & Ho & E1); fold p1 in H1, E1.
  destruct (sweep_table_cases (RetentionConfig.incidents_max_age config) now delete_incidents p1)
    as (i & H2 & Hi & E2); fold p2 in H2, E2.
  destruct (sweep_table_cases (RetentionConfig.suppressions_grace config) now delete_suppression_rules p2)
    as (s & H3 & Hsu & E3); fold p3 in H3, E3.
  destruct (sweep_table_cases (RetentionConfig.attempts_max_age config) now delete_attempts p3)
    as (a & H4 & Ha & E4); fold p4 in H4, E4.
  exists o, i, s, a. split.
  - transitivity (Pool.tables p4); [unfold execute; by destruct (io_error (Pool.executed p4))|].
    rewrite H4, H3, H2, H1. destruct (Pool.tables p).
    destruct config as [[] [] [] [] ?]; by destruct o, i, s, a.
  - intros Hio. split_and!; [apply Ho|apply Hi|apply Hsu|apply Ha].
    + by specialize (Hio 0 ltac:(lia)); rewrite Nat.add_0_r in Hio.
    + replace (Pool.executed p1) with (Pool.executed p + (Pool.executed p1 - Pool.executed p)) by lia.
      apply Hio. lia.
    + replace (Pool.executed p2) with (Pool.executed p + (Pool.executed p2 - Pool.executed p)) by lia.
      apply Hio. lia.
    + replace (Pool.executed p3) with (Pool.executed p + (Pool.executed p3 - Pool.executed p)) by lia.
      apply Hio. lia.
Qed.

Lemma delete_where_lookup {V} (expired : V → bool) (m : gmap Uuid.t V) u r :
  delete_where expired m !! u = Some r ↔ m !! u = Some r ∧ expired r = false.
Proof. unfold delete_where. by rewrite map_lookup_filter_Some. Qed.

(** A row is in the swept table if it was there and its age did not remove it. *)
Lemma swept_lookup {V} age now (expired : Z → V → bool) ok m u r :
  swept age now expired ok m !! u = Some r ↔
  m !! u = Some r ∧
  (∀ a, age = Some a → ok = true → expired (i64_wrapping_sub now (duration_nanos a)) r = false).
Proof.
  unfold swept. destruct age as [a|], ok; rewrite ?delete_where_lookup; naive_solver.
Qed.

Lemma swept_kept {V} age now (expired : Z → V → bool) ok m u r :
  m !! u = Some r →
  swept age now expired ok m !! u = Some r ∨
  ∃ a, age = Some a ∧ expired (i64_wrapping_sub now (duration_nanos a)) r = true.
Proof.
  intros Hm. destruct (swept age now expired ok m !! u) as [r'|] eqn:E.
  - apply swept_lookup in E as [E _]. left. congruence.
  - right. unfold swept in E. destruct age as [a|]; [|congruence]. destruct ok; [|congruence].
    exists a. split; [done|]. apply not_false_is_true. intros Hf.
    assert (delete_where (expired (i64_wrapping_sub now (duration_nanos a))) m !! u = Some r)
      by (by apply delete_where_lookup). congruence.
Qed.

Lemma wrapping_sub_age now age :
  (0 ≤ now ≤ i64_max)%Z → (0 ≤ age)%Z →
  i64_wrapping_sub now (duration_nanos age) = (now - duration_nanos age)%Z.
Proof.
  intros Hnow Hage. unfold i64_wrapping_sub, duration_nanos.
  destruct (Z.leb_spec age i64_max); rewrite Z.mod_small; lia.
Qed.

(** The bounds of the claim: a clock past 1970, ages that are durations. *)
Definition sane_ages config : Prop :=
  let nonneg o := match o with Some a => (0 ≤ a)%Z | None => True end in
  nonneg (RetentionConfig.observations_max_age config) ∧
  nonneg (RetentionConfig.incidents_max_age config) ∧
  nonneg (RetentionConfig.attempts_max_age config).

(** C35: A retention sweep keeps what it must and deletes what it may. Whatever
    statements fail, it invents no row; an observation is deleted only when an
    age is configured and it is older; an incident only when it was resolved
    and the resolution is older; an attempt only when it is older and not
    Pending. So open incidents and in-flight attempts survive every sweep.
    When no statement fails, nothing expired is left. *)
Theorem retention_sweep_spec p config now p' (Hsweep : sweep p config now = Some p')
    (Hnow : (0 ≤ now ≤ i64_max)%Z) (Hages : sane_ages config) :
  let t := Pool.tables p in let t' := Pool.tables p' in
  (∀ u r, Tables.observations t !! u = Some r →
     Tables.observations t' !! u = Some r ∨
     ∃ age, RetentionConfig.observations_max_age config = Some age ∧
       (ObservationRow.observed_at r < now - duration_nanos age)%Z) ∧
  (∀ u r, Tables.incidents t !! u = Some r →
     Tables.incidents t' !! u = Some r ∨
     ∃ age at_, RetentionConfig.incidents_max_age config = Some age ∧
       IncidentRow.resolved_at r = Some at_ ∧ (at_ < now - duration_nanos age)%Z) ∧
  (∀ u r, Tables.notification_attempts t !! u = Some r →
     Tables.notification_attempts t' !! u = Some r ∨
     ∃ age, RetentionConfig.attempts_max_age config = Some age ∧
       (AttemptRow.attempted_at r < now - duration_nanos age)%Z ∧
       AttemptRow.status r ≠ status_str NotificationDeliveryStatus.Pending) ∧
  (∀ u r, Tables.observations t' !! u = Some r → Tables.observations t !! u = Some r) ∧
  (∀ u r, Tables.incidents t' !! u = Some r → Tables.incidents t !! u = Some r) ∧
  (∀ u r, Tables.notification_attempts t' !! u = Some r →
     Tables.notification_attempts t !! u = Some r) ∧
  (no_failure p →
     (∀ u r age, Tables.observations t' !! u = Some r →
        RetentionConfig.observations_max_age config = Some age →
        (now - duration_nanos age ≤ ObservationRow.observed_at r)%Z) ∧
     (∀ u r age at_, Tables.incidents t' !! u = Some r →
        RetentionConfig.incidents_max_age config = Some age →
        IncidentRow.resolved_at r = Some at_ → (now - duration_nanos age ≤ at_)%Z) ∧
     (∀ u r age, Tables.notification_attempts t' !! u = Some r →
        RetentionConfig.attempts_max_age config = Some age →
        AttemptRow.status r ≠ status_str NotificationDeliveryStatus.Pending →
        (now - duration_nanos age ≤ AttemptRow.attempted_at r)%Z)).
Proof.
  destruct (sweep_tables p config now p' Hsweep) as (o & i & s & a & Heq & Hok). cbn zeta.
  rewrite Heq. destruct Hages as (Ho & Hi & Ha). cbn [Tables.observations Tables.incidents
    Tables.notification_attempts].
  split_and!.
  1,2,3: intros u r Hr; eapply swept_kept in Hr as [Hr|(age & Hage & Hr)]; [left; exact Hr|right];
    rewrite Hage in *; rewrite wrapping_sub_age in Hr by done.
  - exists age. split; [done|]. by apply Z.ltb_lt.
  - unfold incident_expired, older in Hr. destruct (IncidentRow.resolved_at r) as [t|]; [|done].
    exists age, t. split_and!; [done..|]. by apply Z.ltb_lt.
  - unfold attempt_expired in Hr. apply andb_prop in Hr as [Hlt Hst].
    exists age. split_and!; [done|by apply Z.ltb_lt|].
    intros Hp. by rewrite Hp in Hst.
  - intros u r Hr. by apply swept_lookup in Hr as [? _].
  - intros u r Hr. by apply swept_lookup in Hr as [? _].
  - intros u r Hr. by apply swept_lookup in Hr as [? _].
  - intros (-> & -> & -> & ->)%Hok. split_and!; intros u r age.
    + intros [_ Hr]%swept_lookup Hage. specialize (Hr age Hage eq_refl). rewrite Hage in Ho.
      rewrite wrapping_sub_age in Hr by done. by apply Z.ltb_ge.
    + intros at_ [_ Hr]%swept_lookup Hage Hat. specialize (Hr age Hage eq_refl). rewrite Hage in Hi.
      rewrite wrapping_sub_age in Hr by done. unfold incident_expired in Hr. rewrite Hat in Hr.
      by apply Z.ltb_ge.
    + intros [_ Hr]%swept_lookup Hage Hst. specialize (Hr age Hage eq_refl). rewrite Hage in Ha.
      rewrite wrapping_sub_age in Hr by done. unfold attempt_expired in Hr.
      apply andb_false_iff in Hr as [Hr|Hr]; [by apply Z.ltb_ge|].
      apply negb_false_iff, String.eqb_eq in Hr. done.
Qed.
End retention.

(** ** Concrete inputs *)

#[global] Instance sample_engine_sql : SqlEngine := {
  io_error _ := None;
  unique_text := "UNIQUE constraint failed";
  scan V m := (map_to_list m).*2;
  scan_perm V m := Permutation_refl _;
}.

(** A codec that keeps one value. *)
Definition sample_serde {T} (x : T) : SerdeJson T :=
  {| serde_to_string _ := Ok "{}"; serde_from_str _ := Ok x |}.

#[global] Program Instance sample_serde_laws {T} (x : T) : @SerdeLaws T (sample_serde x) :=
  {| serde_exact y := y = x |}.
Next Obligation. intros T x y ->. by exists "{}". Qed.

Definition sample_incident : Incident.t := {|
  Incident.id := IncidentId.mk (now_v7 7);
  Incident.fingerprint := sample_fingerprint;
  Incident.kind := IncidentFingerprint.kind sample_fingerprint;
  Incident.subject := sample_subject;
  Incident.severity := IncidentSeverity.Critical;
  Incident.status := IncidentStatus.Open;
  Incident.opened_at := 1700000000000000000;
  Incident.updated_at := 1700000000000000000;
  Incident.resolved_at := None;
  Incident.signal_observation_ids := [];
  Incident.evidence := [];
  Incident.summary := "no peers";
  Incident.evidence_summary := [];
|}.

Definition sample_attempt : NotificationAttempt.t := {|
  NotificationAttempt.id := NotificationAttemptId.mk (now_v7 8);
  NotificationAttempt.rule_id := NotificationRuleId.mk "critical-to-telegram";
  NotificationAttempt.incident_id := Incident.id sample_incident;
  NotificationAttempt.lifecycle_kind := IncidentNotificationEventKind.Opened;
  NotificationAttempt.target_kind := TargetKind.Telegram;
  NotificationAttempt.target_summary := "telegram:chat_id=1";
  NotificationAttempt.status := NotificationDeliveryStatus.Pending;
  NotificationAttempt.attempt_number := 1;
  NotificationAttempt.parent_attempt_id := None;
  NotificationAttempt.next_retry_at := None;
  NotificationAttempt.outcome := None;
  NotificationAttempt.external_ref := None;
  NotificationAttempt.attempted_at := 1700000000000000000;
  NotificationAttempt.completed_at := None;
|}.

Definition sample_observation : Observation.t :=
  sample_health 9 1700000000000000000 HealthStatus.Ok.

#[local] Instance incident_serde : SerdeJson Incident.t := sample_serde sample_incident.
#[local] Instance outcome_serde : SerdeJson DeliveryOutcome.t :=
  sample_serde (DeliveryOutcome.Delivered None).
#[local] Instance ref_serde : SerdeJson ExternalMessageRef.t :=
  sample_serde (ExternalMessageRef.Telegram (TelegramChatId.mk 1) 2).
#[local] Instance integration_serde : SerdeJson IntegrationKind.t :=
  sample_serde (CollectorRef.integration sample_collector).
#[local] Instance payload_serde : SerdeJson ObservationPayload.t :=
  sample_serde (Observation.payload sample_observation).
#[local] Instance attributes_serde : SerdeJson Attributes.t := sample_serde no_attributes.

Lemma subject_round_trip_witness :
  subject_from_pair "bitcoin_peer" "btc-main/peer-1" =
    Ok (EntityRef.BitcoinPeer sample_node (BitcoinPeerId.mk "peer-1")).
Proof.
  exact (proj2 (subject_round_trip (EntityRef.BitcoinPeer sample_node (BitcoinPeerId.mk "peer-1")))
           eq_refl).
Defined.

Lemma incident_repository_refines_witness :
  ∃ res p', SqliteIncidentRepository.save Pool.fresh sample_incident = Some (res, p') ∧
    res = Ok tt ∧
    incidents_sim p' (MemoryIncidentRepository.save MemoryIncidentRepository.new sample_incident).2.
Proof.
  refine (proj1 (proj2 (incident_repository_refines Pool.fresh MemoryIncidentRepository.new _))
            sample_incident _); [apply table_sim_empty|by split].
Defined.

Lemma attempt_repository_refines_witness :
  ∃ res p', sqlite_op Pool.fresh (Insert sample_attempt) = Some (res, p') ∧
    res = Ok tt ∧ attempts_sim p' (memory_op MemoryNotificationAttemptRepository.new
                                     (Insert sample_attempt)).2.
Proof.
  refine (proj1 (proj2 (attempt_repository_refines Pool.fresh
            MemoryNotificationAttemptRepository.new _)) (Insert sample_attempt) _);
    [apply table_sim_empty|by repeat split].
Defined.

Lemma observation_store_refines_witness :
  ∃ res p', SqliteObservationStore.append_many Pool.fresh [sample_observation] = Some (res, p') ∧
    (res = Ok tt ∧ log_sim p' ([] ++ [sample_observation]) ∨
     (∃ e, res = Err e) ∧ log_sim p' [] ∧ Pool.tables p' = Pool.tables Pool.fresh ∧
     ((∀ n, n < 3 → io_error (0 + n) = None) →
      ¬ NoDup (Observation.id <$> [] ++ [sample_observation]))).
Proof.
  refine (proj1 (proj2 (observation_store_refines Pool.fresh [] _)) [sample_observation] _).
  - split; [constructor|apply table_sim_empty].
  - repeat constructor.
Defined.

Lemma retention_sweep_spec_witness :
  let config := RetentionConfig.mk (Some (from_secs 60)) None None None (from_secs 60) in
  let p := Pool.mk (Tables.mk {[Uuid.mk 1 := ObservationRow.mk (Uuid.mk 1) 5 None "" "" (Uuid.mk 0)
                      "" "" "" "" "" "" ""]} ∅ ∅ ∅) 0 in
  ∃ p', sweep p config 1700000000000000000 = Some p' ∧
    ∀ u r, Tables.observations (Pool.tables p') !! u = Some r →
           Tables.observations (Pool.tables p) !! u = Some r.
Proof.
  cbn zeta. eexists. split; [vm_compute; reflexivity|].
  refine (proj1 (proj2 (proj2 (proj2 (retention_sweep_spec _
    (RetentionConfig.mk (Some (from_secs 60)) None None None (from_secs 60))
    1700000000000000000 _ _ _ _))))); [vm_compute; reflexivity|lia|].
  unfold sane_ages, from_secs; cbn. lia.
Defined.
