(* ===== verification/SqliteStores.v ===== *)
(** * The consumer over SQLite

    The SQLite backend as an implementation of the storage classes, and what a
    restart finds in the database of a consumer. A value of [SqliteIncidents]
    or [SqliteLog] is a pool together with what was written to it: the
    operations are those of [Sqlite] on the pool, the content only serves the
    laws. A panic of a writer (a time outside the range of nanoseconds) ends
    the task that called it; it is remembered, and its answer is of no
    account. *)

From S2P Require Import Prelude RustStr Names SharedTypes CollectorTypes Observations Samples ReadModels Store Incidents Kinds Engine BitcoinRules Notifications Storage Senders Worker Consumer SqliteRows Sqlite SqliteRefinement.

(** ** Incidents *)

Module SqliteIncidents.
Record t : Type := mk {
  pool : Pool.t;
  saved : MemoryIncidentRepository.t;
  panicked : bool;
}.

Definition fresh : t := mk Pool.fresh MemoryIncidentRepository.new false.

Section repository.
Context `{UuidLib, SqlEngine, HashOrder, SerdeLaws Incident.t}.

Definition save (d : t) (i : Incident.t) : Result unit IncidentRepoError.t * t :=
  match SqliteIncidentRepository.save (pool d) i with
  | None => (Err (IncidentRepoError.Backend "panicked"), mk (pool d) (saved d) true)
  | Some (Ok _, p) => (Ok (), mk p (MemoryIncidentRepository.save (saved d) i).2 (panicked d))
  | Some (Err e, p) => (Err e, mk p (saved d) (panicked d))
  end.

#[global] Instance repository : IncidentRepository t := {|
  Storage.load_open d := SqliteIncidentRepository.load_open (pool d);
  Storage.save := save;
  Storage.get d := SqliteIncidentRepository.get (pool d);
|}.

(** The database holds what was saved. *)
Definition keeps (d : t) : Prop := panicked d = false ∧ incidents_sim (pool d) (saved d).

#[global] Program Instance repository_laws : IncidentRepositoryLaws t := {|
  incidents d := MemoryIncidentRepository.inner (saved d);
  keeps_incidents := keeps;
|}.
Next Obligation.
  intros d i d'; cbn. unfold save. destruct (SqliteIncidentRepository.save _ _) as [[[[]|] p]|]; by intros [= <-].
Qed.
Next Obligation.
  intros d i e d'; cbn. unfold save. destruct (SqliteIncidentRepository.save _ _) as [[[[]|] p]|]; by intros [= <- <-].
Qed.
Next Obligation.
  intros d l [_ Hsim] Hl; cbn in *.
  destruct (io_error (Pool.executed (pool d))) as [e|] eqn:Hio.
  { unfold SqliteIncidentRepository.load_open, fetch in Hl. by rewrite Hio in Hl. }
  destruct (load_open_sim _ _ Hsim Hio) as (out & mem & Ho & [= <-] & Hp & _).
  rewrite Hl in Ho. injection Ho as ->. by rewrite Hp, sort_by_perm, hash_values_perm.
Qed.
Next Obligation.
  intros d id o [_ Hsim] Hg; cbn in *.
  destruct (io_error (Pool.executed (pool d))) as [e|] eqn:Hio.
  { unfold SqliteIncidentRepository.get, fetch in Hg. by rewrite Hio in Hg. }
  rewrite (get_sim _ _ _ Hsim Hio) in Hg. by injection Hg as <-.
Qed.

Lemma fresh_incidents_keep : keeps fresh.
Proof. split; [done|apply table_sim_empty]. Qed.

Lemma save_keeps d i res d' :
  keeps d → storable_incident i → save d i = (res, d') → keeps d'.
Proof.
  intros [Hp Hsim] Hi. unfold save.
  destruct (save_sim _ _ _ Hsim Hi) as (r & p' & -> & Hr).
  destruct (io_error _) as [e|]; destruct Hr as [-> Hs]; intros [= _ <-]; by split.
Qed.

(** The same database behind another connection. *)
Lemma reopened_keeps d p :
  keeps d → Pool.tables p = Pool.tables (pool d) → keeps (mk p (saved d) (panicked d)).
Proof. intros [Hp Hsim] Ht. split; [done|]. unfold incidents_sim; cbn. by rewrite Ht. Qed.
End repository.
End SqliteIncidents.

(** ** The observation log *)

Module SqliteLog.
Record t : Type := mk {
  pool : Pool.t;
  written : list Observation.t;
  panicked : bool;
}.

Definition fresh : t := mk Pool.fresh [] false.

Section store.
Context `{UuidLaws, StoreText, SqlEngine}.
Context `{SerdeLaws IntegrationKind.t, SerdeLaws ObservationPayload.t, SerdeLaws Attributes.t}.

Definition append_many (d : t) (batch : list Observation.t) : Result unit StoreError.t * t :=
  match SqliteObservationStore.append_many (pool d) batch with
  | None => (Err (StoreError.Io "panicked"), mk (pool d) (written d) true)
  | Some (Ok _, p) => (Ok (), mk p (written d ++ batch) (panicked d))
  | Some (Err e, p) => (Err e, mk p (written d) (panicked d))
  end.

Definition iter_since (d : t) (since : DateTime) :
    Result (list (Result Observation.t StoreError.t)) StoreError.t :=
  default (Err (StoreError.Io "panicked")) (SqliteObservationStore.iter_since (pool d) since).

#[global] Instance store : ObservationStore t := {|
  Storage.append_many := append_many;
  Storage.iter_since := iter_since;
  Storage.get_by_id d := SqliteObservationStore.get_by_id (pool d);
|}.

Definition keeps (d : t) : Prop := panicked d = false ∧ log_sim (pool d) (written d).

#[global] Program Instance store_laws : ObservationStoreLaws t :=
  {| logged := written; keeps_log := keeps |}.
Next Obligation.
  intros d batch d'; cbn. unfold append_many.
  destruct (SqliteObservationStore.append_many _ _) as [[[[]|] p]|]; by intros [= <-].
Qed.
Next Obligation.
  intros d batch e d'; cbn. unfold append_many.
  destruct (SqliteObservationStore.append_many _ _) as [[[[]|] p]|]; by intros [= <- <-].
Qed.
Next Obligation.
  intros d id o [_ Hsim] Hg; cbn in *.
  destruct (io_error (Pool.executed (pool d))) as [e|] eqn:Hio.
  { unfold SqliteObservationStore.get_by_id, fetch in Hg. by rewrite Hio in Hg. }
  rewrite (get_by_id_sim _ _ _ Hsim Hio) in Hg. by injection Hg as <-.
Qed.

Lemma fresh_log_keeps : keeps fresh.
Proof. split; [done|]. split; [constructor|apply table_sim_empty]. Qed.

Lemma append_keeps d batch res d' :
  keeps d → Forall storable_observation batch → append_many d batch = (res, d') → keeps d'.
Proof.
  intros [Hp Hsim] Hb. unfold append_many.
  destruct (append_many_sim _ _ _ Hsim Hb) as (r & p' & -> & [[-> Hs]|([e ->] & Hs & _)]);
    intros [= _ <-]; by split.
Qed.
End store.
End SqliteLog.

(** ** What a consumer saves *)

#[local] Arguments IncidentEngine.handle : simpl never.

Section saved_incidents.
Context `{UuidLib, DebugLib, SerdeLaws Incident.t} {S R A : Type}.
Context `{ObservationStore S, IncidentRepository R, NotificationAttemptRepository A}.
#[local] Abbreviation consumer := (consumer (S := S) (R := R) (A := A)).
Implicit Types (c : consumer) (e : IncidentEngine.t).

(** serde keeps every incident: its derived codec is exact. *)
Hypothesis incidents_exact : ∀ i : Incident.t, serde_exact i.

(** The open incidents fit the columns. *)
Definition engine_storable e : Prop :=
  map_Forall (λ _ i, storable_incident i) (IncidentEngine.open_incidents e).

Lemma handle_storable e cmd now n r e' n' :
  engine_storable e → storable_instant now →
  IncidentEngine.handle e cmd now n = Some (r, e', n') →
  engine_storable e' ∧ Forall storable_incident (omap touched (events_of r)).
Proof.
  unfold engine_storable. intros Hst Hnow (m & -> & Ho)%handle_inv; cbn.
  destruct cmd as [d| |]; [|by destruct Ho as ((? & ->) & -> & _); split..].
  destruct Ho as [err Hv|floor Hef _|Hef Hi i|i Hef Hi new i'|i Hef Hi i'|Hef Hi]; cbn; try by split.
  - assert (storable_incident i) by by split.
    split; [by apply map_Forall_insert_2|by constructor].
  - assert (storable_incident i') by (destruct (Hst _ _ Hi); by split).
    split; [by apply map_Forall_insert_2|]. by case_match; apply Forall_singleton.
  - assert (storable_incident i') by (destruct (Hst _ _ Hi); by split).
    split; [by apply map_Forall_delete|by constructor].
Qed.

(** An invariant of the repository that storable saves keep. *)
Variable P : R → Prop.
Hypothesis saves_keep : ∀ r i res r', P r → storable_incident i → save r i = (res, r') → P r'.

Lemma save_attempts_keep fuel k err r i res r' tr :
  P r → storable_incident i → save_attempts fuel k err r i = Some (res, r', tr) → P r'.
Proof.
  intros Hr Hi. revert k err r res r' tr Hr.
  induction fuel as [|fuel IH]; intros k err r res r' tr Hr; cbn.
  { destruct err; cbn; [|done]. by intros [= _ <- _]. }
  destruct (save r i) as [res1 r1] eqn:E. apply saves_keep in E; [|done..].
  destruct res1; [by intros [= _ <- _]|].
  destruct (save_attempts fuel _ _ r1 i) as [[[res2 r2] tr2]|] eqn:E2; cbn; [|done].
  intros [= _ <- _]. by eapply IH.
Qed.

Lemma events_keep events now c c' :
  P (incident_repo c) → Forall storable_incident (omap touched events) →
  process_engine_events events now c = Some c' → engine c' = engine c ∧ P (incident_repo c').
Proof.
  revert c. induction events as [|event events IH]; intros c Hc Hev; cbn; [by intros [= <-]|].
  destruct (process_engine_event event now c) as [c1|] eqn:E; cbn; [|done].
  assert (engine c1 = engine c ∧ P (incident_repo c1)) as [He1 Hc1].
  { destruct event as [obs|i|l|kind conf floor]; cbn [process_engine_event] in E.
    - destruct (append _ obs) as [res store]. injection E as <-.
      by destruct res, (ReadModelStore.apply _ obs).
    - destruct (save_incident_with_retry _ i) as [[[res r'] tr]|] eqn:Es; cbn in E; [|done].
      apply save_attempts_keep in Es; [|done|by inversion Hev]. injection E as <-. by destruct res.
    - injection E as <-. destruct (dispatch_lifecycle_frame l now c) as [[] _]. split; congruence.
    - by injection E as <-. }
  intros Hc'. apply IH in Hc' as [? ?]; [split; congruence|done|].
  cbn in Hev. destruct (touched event); [by inversion Hev|done].
Qed.

Lemma drafts_keep drafts now c c' :
  P (incident_repo c) → engine_storable (engine c) → storable_instant now →
  handle_drafts drafts now c = Some c' → P (incident_repo c') ∧ engine_storable (engine c').
Proof.
  intros Hc He Hnow. revert c Hc He. induction drafts as [|d drafts IH]; intros c Hc He; cbn;
    [by intros [= <-]|].
  destruct (IncidentEngine.handle _ _ _ _) as [[[res e] n]|] eqn:Hh; cbn; [|done].
  destruct (handle_storable _ _ _ _ _ _ _ He Hnow Hh) as [He' Hev].
  destruct res as [evs|err]; cbn; [|by apply IH].
  destruct (process_engine_events evs now _) as [c1|] eqn:E; cbn; [|done].
  apply events_keep in E as [He1 Hc1]; [|done..]. apply IH; [done|by rewrite He1].
Qed.

(** Over a run whose clocks the columns can hold, every save is storable. *)
Lemma run_keep batches c c' :
  P (incident_repo c) → engine_storable (engine c) →
  Forall (λ b : ObservationBatch.t * DateTime * Instant, storable_instant b.1.2) batches →
  run batches c = Some c' → P (incident_repo c') ∧ engine_storable (engine c').
Proof.
  intros Hc He Hb. revert c Hc He. induction Hb as [|[[b now] m] batches Hnow _ IH]; intros c Hc He; cbn;
    [by intros [= <-]|].
  destruct (process_batch b now m c) as [c1|] eqn:E; cbn; [|done].
  assert (P (incident_repo c1) ∧ engine_storable (engine c1)) as [Hc1 He1]; [|by apply IH].
  revert E. unfold process_batch. case_match; [|by intros [= <-]].
  pose proof (persist_and_apply_frame (observations_from_batch b) c) as Hf.
  destruct (persist_and_apply _ c) as [c2 ok]. destruct Hf as (_ & He2 & Hr2 & _).
  cbn in He2, Hr2. rewrite <-He2 in He. rewrite <-Hr2 in Hc.
  destruct ok; cbn; [|by intros [= <-]].
  destruct (evaluate_rules _ _) as [[drafts rules'] tr]. by apply drafts_keep.
Qed.
End saved_incidents.

(** ** Restart *)

Section restart.
Context `{UuidLaws, DebugLib, SqlEngine, HashOrder, SerdeLaws Incident.t} {S A : Type}.
Context `{ObservationStore S, NotificationAttemptRepository A}.

(** C3: The incidents survive a restart. A consumer over the SQLite repository,
    started on a database that mirrors its engine and run on batches taken at
    times within the range of the columns, never panics in a writer; and if no
    save was given up on, then opening the same tables again and loading the
    open incidents, whenever that query succeeds, rebuilds exactly the engine
    that was running, whichever statements failed and were retried on the
    way. *)
Theorem sqlite_restart batches
    (c : consumer (S := S) (R := SqliteIncidents.t) (A := A)) :
  (∀ i : Incident.t, serde_exact i) →
  write_through c → SqliteIncidents.keeps (incident_repo c) → engine_storable (engine c) →
  Forall (λ b : ObservationBatch.t * DateTime * Instant, storable_instant b.1.2) batches →
  ∃ c', run batches c = Some c' ∧ SqliteIncidents.panicked (incident_repo c') = false ∧
    (saves_ok c' → ∀ p l,
       Pool.tables p = Pool.tables (SqliteIncidents.pool (incident_repo c')) →
       SqliteIncidentRepository.load_open p = Ok l →
       IncidentEngine.new (IncidentEngine.kinds (engine c')) (IncidentEngine.sidecar_id (engine c'))
         (IncidentEngine.signal_source (engine c')) l = Some (engine c')).
Proof.
  intros Hexact Hw Hk He Hb. destruct (run_steps batches c) as (c' & Hr & Hs). exists c'.
  destruct (run_keep Hexact SqliteIncidents.keeps) with (batches := batches) (c := c) (c' := c')
    as [Hk' _]; [intros d i res d'; apply SqliteIncidents.save_keeps|done..|].
  split_and!; [done|apply Hk'|]. intros Hok p l Hp Hl.
  destruct (steps_write_through _ _ Hs Hok) as [_ Hw']. specialize (Hw' Hw).
  apply engine_new_open; [by destruct Hw'|].
  pose proof (SqliteIncidents.reopened_keeps _ _ Hk' Hp) as Hkp.
  pose (d := SqliteIncidents.mk p (SqliteIncidents.saved (incident_repo c'))
               (SqliteIncidents.panicked (incident_repo c'))).
  apply (write_through_reload (set_incident_repo c' d)); [|exact Hkp|exact Hl].
  exact Hw'.
Qed.
End restart.

(** ** Concrete inputs *)

(** A codec that keeps every value of a countable type. *)
Definition countable_serde {T} `{Countable T} : SerdeJson T := {|
  serde_to_string x := Ok (pos_digits (encode x));
  serde_from_str s := ok_or (digits_pos s ≫= decode) "not a value";
|}.

#[local] Program Instance countable_serde_laws {T} `{Countable T} : @SerdeLaws T countable_serde :=
  {| serde_exact _ := True |}.
Next Obligation.
  intros T ? ? x _. exists (pos_digits (encode x)). split; [done|]. cbn.
  rewrite digits_pos_digits; cbn. by rewrite decode_encode.
Qed.

#[local] Instance severity_countable : Countable IncidentSeverity.t.
Proof.
  apply (inj_countable' (λ s, match s with
    | IncidentSeverity.Info => None
    | IncidentSeverity.Warning => Some false
    | IncidentSeverity.Critical => Some true
    end) (λ o, match o with
    | None => IncidentSeverity.Info
    | Some false => IncidentSeverity.Warning
    | Some true => IncidentSeverity.Critical
    end)).
  by intros [].
Defined.

#[local] Instance status_countable : Countable IncidentStatus.t.
Proof.
  apply (inj_countable' (λ s, match s with
    | IncidentStatus.Open => (false, false)
    | IncidentStatus.Acknowledged => (false, true)
    | IncidentStatus.Resolved => (true, false)
    | IncidentStatus.Suppressed => (true, true)
    end) (λ p, match p with
    | (false, false) => IncidentStatus.Open
    | (false, true) => IncidentStatus.Acknowledged
    | (true, false) => IncidentStatus.Resolved
    | (true, true) => IncidentStatus.Suppressed
    end)).
  by intros [].
Defined.

#[local] Instance incident_eq_dec : EqDecision Incident.t.
Proof. solve_decision. Defined.

#[local] Instance incident_countable : Countable Incident.t.
Proof.
  apply (inj_countable' (λ i, (Incident.id i, Incident.fingerprint i, Incident.kind i,
      Incident.subject i, Incident.severity i, Incident.status i, Incident.opened_at i,
      Incident.updated_at i, Incident.resolved_at i, Incident.signal_observation_ids i,
      Incident.evidence i, Incident.summary i, Incident.evidence_summary i))
    (λ '(a, b, c, d, e, f, g, h, i, j, k, l, m), Incident.mk a b c d e f g h i j k l m)).
  by intros [].
Defined.

#[local] Instance every_incident_serde : SerdeJson Incident.t := countable_serde.

(** The sample consumer on an empty database. *)
Definition sqlite_consumer : consumer (S := MemoryObservationStore.t)
    (R := SqliteIncidents.t) (A := MemoryNotificationAttemptRepository.t) := {|
  rules := [panicking_rule; box (BitcoinNoPeersRule.with_debounce 0)];
  read_models := sample_read_models;
  engine := sample_engine;
  notification_rules := [sample_rule];
  notif_tx := Channel.mk [] None;
  observation_store := MemoryObservationStore.new;
  incident_repo := SqliteIncidents.fresh;
  attempts_repo := MemoryNotificationAttemptRepository.new;
  draws := 100;
  trace := [];
|}.

(** One incident is open, and is found open after the restart. *)
Lemma sqlite_restart_witness :
  ∃ c' l, run (take 1 sample_batches) sqlite_consumer = Some c' ∧
    SqliteIncidentRepository.load_open (SqliteIncidents.pool (incident_repo c')) = Ok l ∧
    length l = 1 ∧
    IncidentEngine.new (IncidentEngine.kinds (engine c')) (IncidentEngine.sidecar_id (engine c'))
      (IncidentEngine.signal_source (engine c')) l = Some (engine c').
Proof.
  destruct (sqlite_restart (take 1 sample_batches) sqlite_consumer) as (c' & Hr & _ & Hc).
  - intros i. exact I.
  - split; cbn; [apply map_Forall_empty|done..].
  - apply SqliteIncidents.fresh_incidents_keep.
  - apply map_Forall_empty.
  - repeat constructor.
  - destruct (is_some_with (λ c, only_panics (trace c) &&
      match SqliteIncidentRepository.load_open (SqliteIncidents.pool (incident_repo c)) with
      | Ok l => length l =? 1
      | Err _ => false
      end) (run (take 1 sample_batches) sqlite_consumer)) as (c1 & Hc1 & Hb);
      [vm_compute; reflexivity|].
    rewrite Hr in Hc1. injection Hc1 as <-. apply andb_prop in Hb as [Ht Hl].
    destruct (SqliteIncidentRepository.load_open _) as [l|e] eqn:E; [|done].
    exists c', l. split; [exact Hr|]. split; [exact E|]. split; [by apply Nat.eqb_eq|].
    apply (Hc (λ id e, only_panics_not _ (Trace.SaveExhausted id e) Ht eq_refl)
      (SqliteIncidents.pool (incident_repo c'))); [reflexivity|exact E].
Defined.
