(* ===== verification/Schema.v ===== *)
(** * The SQL schema: [migrations/0001_initial.sql]

    The four STRICT tables with their columns and indices as data, the check a
    STRICT table makes of the values bound to it, and the rows of the
    repositories as named bindings of SQL values. [TableRow] is what a row
    type promises: the table it belongs to, the bindings of its INSERT and the
    [try_get]s that read it back. The writers of [Sqlite] never meet a
    constraint other than a primary key: every row of a reachable database is
    one its table accepts, is stored under its own key and is read back. *)

From S2P Require Import Prelude RustStr Names SharedTypes F64 CollectorTypes Observations Samples Incidents Notifications Storage SqliteRows Sqlite SqliteRefinement.

(** ** Values, columns, tables *)

Module SqlValue.
Inductive t : Type :=
  | Null
  | Integer (n : Z)
  | Text (s : string)
  | Blob (bytes : string).
End SqlValue.

Module SqlType.
Inductive t : Type := INTEGER | TEXT | BLOB.
End SqlType.

Module Column.
Record t : Type := mk {
  name : string;
  type : SqlType.t;
  not_null : bool;
  primary_key : bool;
}.
End Column.

Module Table.
Record t : Type := mk { name : string; columns : list Column.t }.
End Table.

(** An index orders each of its columns: [true] is DESC. *)
Module Index.
Record t : Type := mk { name : string; on : string; columns : list (string * bool) }.
End Index.

(** [PRIMARY KEY], [NOT NULL] and neither. *)
Definition key (ty : SqlType.t) (n : string) : Column.t := Column.mk n ty false true.
Definition required (ty : SqlType.t) (n : string) : Column.t := Column.mk n ty true false.
Definition nullable (ty : SqlType.t) (n : string) : Column.t := Column.mk n ty false false.

Definition observations_table : Table.t := Table.mk "observations" [
  key SqlType.BLOB "id";
  required SqlType.INTEGER "observed_at";
  nullable SqlType.INTEGER "received_at";
  required SqlType.TEXT "subject_kind";
  required SqlType.TEXT "subject_id";
  required SqlType.BLOB "sidecar_id";
  required SqlType.TEXT "collector_id";
  required SqlType.TEXT "integration";
  required SqlType.TEXT "instance_label";
  required SqlType.TEXT "origin";
  required SqlType.TEXT "payload_kind";
  required SqlType.TEXT "payload_json";
  required SqlType.TEXT "attributes_json"]%string.

Definition incidents_table : Table.t := Table.mk "incidents" [
  key SqlType.BLOB "id";
  required SqlType.TEXT "fingerprint";
  required SqlType.TEXT "kind";
  required SqlType.TEXT "subject_kind";
  required SqlType.TEXT "subject_id";
  required SqlType.TEXT "severity";
  required SqlType.TEXT "status";
  required SqlType.INTEGER "opened_at";
  required SqlType.INTEGER "updated_at";
  nullable SqlType.INTEGER "resolved_at";
  required SqlType.TEXT "incident_json"]%string.

Definition suppression_rules_table : Table.t := Table.mk "suppression_rules" [
  key SqlType.BLOB "id";
  required SqlType.TEXT "fingerprint";
  nullable SqlType.INTEGER "until";
  required SqlType.TEXT "reason";
  required SqlType.TEXT "actor";
  required SqlType.INTEGER "created_at"]%string.

Definition notification_attempts_table : Table.t := Table.mk "notification_attempts" [
  key SqlType.BLOB "id";
  required SqlType.BLOB "rule_id";
  required SqlType.BLOB "incident_id";
  required SqlType.TEXT "lifecycle_kind";
  required SqlType.TEXT "target_kind";
  required SqlType.TEXT "target_summary";
  required SqlType.TEXT "status";
  required SqlType.INTEGER "attempt_number";
  nullable SqlType.BLOB "parent_attempt_id";
  nullable SqlType.INTEGER "next_retry_at";
  nullable SqlType.TEXT "outcome_kind";
  nullable SqlType.TEXT "outcome_json";
  nullable SqlType.TEXT "external_ref_json";
  required SqlType.INTEGER "attempted_at";
  nullable SqlType.INTEGER "completed_at"]%string.

Definition schema : list Table.t :=
  [observations_table; incidents_table; suppression_rules_table; notification_attempts_table].

Definition indices : list Index.t := [
  Index.mk "idx_obs_observed_at" "observations" [("observed_at", true)];
  Index.mk "idx_obs_subject" "observations"
    [("subject_kind", false); ("subject_id", false); ("observed_at", true)];
  Index.mk "idx_obs_payload_kind" "observations" [("payload_kind", false); ("observed_at", true)];
  Index.mk "idx_inc_fingerprint" "incidents" [("fingerprint", false)];
  Index.mk "idx_inc_status" "incidents" [("status", false)];
  Index.mk "idx_inc_resolved_at" "incidents" [("resolved_at", false)];
  Index.mk "idx_supp_fingerprint" "suppression_rules" [("fingerprint", false); ("until", false)];
  Index.mk "idx_supp_until" "suppression_rules" [("until", false)];
  Index.mk "idx_attempts_incident_id" "notification_attempts" [("incident_id", false)];
  Index.mk "idx_attempts_rule_id" "notification_attempts" [("rule_id", false)];
  Index.mk "idx_attempts_status_next_retry" "notification_attempts"
    [("status", false); ("next_retry_at", false)];
  Index.mk "idx_attempts_attempted_at" "notification_attempts" [("attempted_at", true)]]%string.

(** ** What a STRICT table accepts *)

(** A value of the declared storage class; an INTEGER is a signed 64-bit
    one. SQLite first tries a lossless conversion, which none of the values
    of this schema needs. *)
Definition has_type (ty : SqlType.t) (v : SqlValue.t) : bool :=
  match ty, v with
  | SqlType.INTEGER, SqlValue.Integer n => in_i64 n
  | SqlType.TEXT, SqlValue.Text _ => true
  | SqlType.BLOB, SqlValue.Blob _ => true
  | _, _ => false
  end.

(** A primary key of a STRICT table is NOT NULL as well. *)
Definition column_accepts (c : Column.t) (v : SqlValue.t) : bool :=
  match v with
  | SqlValue.Null => negb (Column.not_null c || Column.primary_key c)
  | v => has_type (Column.type c) v
  end.

(** The named values of an INSERT. *)
Definition Bindings : Type := list (string * SqlValue.t).

Fixpoint lookup_binding (n : string) (b : Bindings) : option SqlValue.t :=
  match b with
  | [] => None
  | (m, v) :: b' => if String.eqb n m then Some v else lookup_binding n b'
  end.

(** A column without a binding is stored as NULL. *)
Definition stored_value (b : Bindings) (c : Column.t) : SqlValue.t :=
  default SqlValue.Null (lookup_binding (Column.name c) b).

(** Every binding names a column, and every column accepts what it is given. *)
Definition accepts (t : Table.t) (b : Bindings) : bool :=
  forallb (λ '(n, _), existsb (λ c, String.eqb n (Column.name c)) (Table.columns t)) b &&
  forallb (λ c, column_accepts c (stored_value b c)) (Table.columns t).

(** ** Rust values as SQL values: [sqlx::Encode] and [sqlx::Decode] *)

(** The sixteen bytes a [Uuid] is bound as. *)
Class UuidBytes : Type := {
  uuid_bytes : Uuid.t → string;
  uuid_from_bytes : string → option Uuid.t;
}.

Class UuidBytesLaws `{UuidBytes} : Prop := {
  uuid_bytes_round_trip u : uuid_from_bytes (uuid_bytes u) = Some u;
}.

(** [Vec<u8>]. *)
Module Bytes.
Record t : Type := mk { get : string }.
End Bytes.

Class SqlCodec (T : Type) : Type := {
  to_sql : T → SqlValue.t;
  of_sql : SqlValue.t → option T;
  sql_round_trip x : of_sql (to_sql x) = Some x;
}.

Definition as_text (v : SqlValue.t) : option string :=
  match v with SqlValue.Text s => Some s | _ => None end.
Definition as_i64 (v : SqlValue.t) : option Z :=
  match v with SqlValue.Integer n => Some n | _ => None end.
Definition as_blob (v : SqlValue.t) : option string :=
  match v with SqlValue.Blob s => Some s | _ => None end.

#[global] Program Instance string_codec : SqlCodec string :=
  {| to_sql := SqlValue.Text; of_sql := as_text |}.
Solve All Obligations with done.

#[global] Program Instance i64_codec : SqlCodec Z :=
  {| to_sql := SqlValue.Integer; of_sql := as_i64 |}.
Solve All Obligations with done.

#[global] Program Instance bytes_codec : SqlCodec Bytes.t :=
  {| to_sql b := SqlValue.Blob (Bytes.get b); of_sql v := Bytes.mk <$> as_blob v |}.
Next Obligation. by intros []. Qed.

#[global] Program Instance uuid_codec `{UuidBytesLaws} : SqlCodec Uuid.t :=
  {| to_sql u := SqlValue.Blob (uuid_bytes u); of_sql v := s ← as_blob v; uuid_from_bytes s |}.
Next Obligation. intros. apply uuid_bytes_round_trip. Qed.

(** A value that is never bound as NULL. *)
Class NonNull (T : Type) `{SqlCodec T} : Prop :=
  to_sql_non_null (x : T) : to_sql x ≠ SqlValue.Null.

#[global] Instance string_non_null : NonNull string.
Proof. done. Qed.
#[global] Instance i64_non_null : NonNull Z.
Proof. done. Qed.
#[global] Instance bytes_non_null : NonNull Bytes.t.
Proof. done. Qed.
#[global] Instance uuid_non_null `{UuidBytesLaws} : NonNull Uuid.t.
Proof. done. Qed.

(** [Option<T>]: NULL is [None]. *)
Definition opt_to_sql {T} `{SqlCodec T} (o : option T) : SqlValue.t :=
  match o with Some x => to_sql x | None => SqlValue.Null end.
Definition opt_of_sql {T} `{SqlCodec T} (v : SqlValue.t) : option (option T) :=
  match v with SqlValue.Null => Some None | v => Some <$> of_sql v end.

#[global] Program Instance option_codec {T} `{NonNull T} : SqlCodec (option T) :=
  {| to_sql := opt_to_sql; of_sql := opt_of_sql |}.
Next Obligation.
  intros T ? ? [x|]; [|done]. pose proof (to_sql_non_null x) as Hx.
  pose proof (sql_round_trip x) as Hr. unfold opt_to_sql, opt_of_sql.
  destruct (to_sql x); try done; by rewrite Hr.
Qed.

(** [row.try_get(name)]. *)
Definition try_get {T} `{SqlCodec T} (b : Bindings) (n : string) : option T :=
  v ← lookup_binding n b; of_sql v.

(** ** The rows of the repositories *)

(** What a row type promises: its table, its key, the bindings of its INSERT,
    the columns read back, and when its values fit the schema. *)
Class TableRow (Row : Type) : Type := {
  row_table : Table.t;
  row_id : Row → Uuid.t;
  insert_bindings : Row → Bindings;
  read_row : Bindings → option Row;
  row_fits : Row → bool;
}.

(** The named values a table keeps of an INSERT. *)
Definition stored (t : Table.t) (b : Bindings) : Bindings :=
  (λ c, (Column.name c, stored_value b c)) <$> Table.columns t.

Class TableRowLaws (Row : Type) `{TableRow Row, UuidBytesLaws} : Prop := {
  row_accepted (r : Row) : accepts row_table (insert_bindings r) = row_fits r;
  row_read (r : Row) : read_row (stored row_table (insert_bindings r)) = Some r;
  row_keyed (r : Row) : try_get (stored row_table (insert_bindings r)) "id" = Some (row_id r);
}.

Definition opt_in_i64 (o : option Z) : bool :=
  match o with Some n => in_i64 n | None => true end.

Section rows.
Context `{UuidBytesLaws}.

(** The binds of [append_many]. *)
Definition observation_bindings (r : ObservationRow.t) : Bindings := [
  ("id", to_sql (ObservationRow.id r));
  ("observed_at", to_sql (ObservationRow.observed_at r));
  ("received_at", to_sql (ObservationRow.received_at r));
  ("subject_kind", to_sql (ObservationRow.subject_kind r));
  ("subject_id", to_sql (ObservationRow.subject_id r));
  ("sidecar_id", to_sql (ObservationRow.sidecar_id r));
  ("collector_id", to_sql (ObservationRow.collector_id r));
  ("integration", to_sql (ObservationRow.integration r));
  ("instance_label", to_sql (ObservationRow.instance_label r));
  ("origin", to_sql (ObservationRow.origin r));
  ("payload_kind", to_sql (ObservationRow.payload_kind r));
  ("payload_json", to_sql (ObservationRow.payload_json r));
  ("attributes_json", to_sql (ObservationRow.attributes_json r))]%string.

(** The [try_get]s of [row_to_observation], with the kind of the payload, which
    it leaves unread. *)
Definition read_observation_row (b : Bindings) : option ObservationRow.t :=
  id ← try_get b "id";
  observed_at ← try_get b "observed_at";
  received_at ← try_get b "received_at";
  subject_kind ← try_get b "subject_kind";
  subject_id ← try_get b "subject_id";
  sidecar_id ← try_get b "sidecar_id";
  collector_id ← try_get b "collector_id";
  integration ← try_get b "integration";
  instance_label ← try_get b "instance_label";
  origin ← try_get b "origin";
  payload_kind ← try_get b "payload_kind";
  payload_json ← try_get b "payload_json";
  attributes_json ← try_get b "attributes_json";
  Some (ObservationRow.mk id observed_at received_at subject_kind subject_id sidecar_id
    collector_id integration instance_label origin payload_kind payload_json attributes_json).

#[global] Instance observation_table_row : TableRow ObservationRow.t := {|
  row_table := observations_table;
  row_id := ObservationRow.id;
  insert_bindings := observation_bindings;
  read_row := read_observation_row;
  row_fits r := in_i64 (ObservationRow.observed_at r) && opt_in_i64 (ObservationRow.received_at r);
|}.

(** The binds of [save]. *)
Definition incident_bindings (r : IncidentRow.t) : Bindings := [
  ("id", to_sql (IncidentRow.id r));
  ("fingerprint", to_sql (IncidentRow.fingerprint r));
  ("kind", to_sql (IncidentRow.kind r));
  ("subject_kind", to_sql (IncidentRow.subject_kind r));
  ("subject_id", to_sql (IncidentRow.subject_id r));
  ("severity", to_sql (IncidentRow.severity r));
  ("status", to_sql (IncidentRow.status r));
  ("opened_at", to_sql (IncidentRow.opened_at r));
  ("updated_at", to_sql (IncidentRow.updated_at r));
  ("resolved_at", to_sql (IncidentRow.resolved_at r));
  ("incident_json", to_sql (IncidentRow.incident_json r))]%string.

(** Every column of an incident; the repository itself reads the JSON one. *)
Definition read_incident_row (b : Bindings) : option IncidentRow.t :=
  id ← try_get b "id";
  fingerprint ← try_get b "fingerprint";
  kind ← try_get b "kind";
  subject_kind ← try_get b "subject_kind";
  subject_id ← try_get b "subject_id";
  severity ← try_get b "severity";
  status ← try_get b "status";
  opened_at ← try_get b "opened_at";
  updated_at ← try_get b "updated_at";
  resolved_at ← try_get b "resolved_at";
  incident_json ← try_get b "incident_json";
  Some (IncidentRow.mk id fingerprint kind subject_kind subject_id severity status
    opened_at updated_at resolved_at incident_json).

#[global] Instance incident_table_row : TableRow IncidentRow.t := {|
  row_table := incidents_table;
  row_id := IncidentRow.id;
  insert_bindings := incident_bindings;
  read_row := read_incident_row;
  row_fits r := in_i64 (IncidentRow.opened_at r) && in_i64 (IncidentRow.updated_at r) &&
                opt_in_i64 (IncidentRow.resolved_at r);
|}.

(** The binds of [insert_pending]; the rule id is bound as bytes. *)
Definition attempt_bindings (r : AttemptRow.t) : Bindings := [
  ("id", to_sql (AttemptRow.id r));
  ("rule_id", to_sql (Bytes.mk (AttemptRow.rule_id r)));
  ("incident_id", to_sql (AttemptRow.incident_id r));
  ("lifecycle_kind", to_sql (AttemptRow.lifecycle_kind r));
  ("target_kind", to_sql (AttemptRow.target_kind r));
  ("target_summary", to_sql (AttemptRow.target_summary r));
  ("status", to_sql (AttemptRow.status r));
  ("attempt_number", to_sql (AttemptRow.attempt_number r));
  ("parent_attempt_id", to_sql (AttemptRow.parent_attempt_id r));
  ("next_retry_at", to_sql (AttemptRow.next_retry_at r));
  ("outcome_kind", to_sql (AttemptRow.outcome_kind r));
  ("outcome_json", to_sql (AttemptRow.outcome_json r));
  ("external_ref_json", to_sql (AttemptRow.external_ref_json r));
  ("attempted_at", to_sql (AttemptRow.attempted_at r));
  ("completed_at", to_sql (AttemptRow.completed_at r))]%string.

(** The [try_get]s of [row_to_attempt], with the kind of the outcome, which it
    leaves unread. *)
Definition read_attempt_row (b : Bindings) : option AttemptRow.t :=
  id ← try_get b "id";
  rule_id ← try_get b "rule_id";
  incident_id ← try_get b "incident_id";
  lifecycle_kind ← try_get b "lifecycle_kind";
  target_kind ← try_get b "target_kind";
  target_summary ← try_get b "target_summary";
  status ← try_get b "status";
  attempt_number ← try_get b "attempt_number";
  parent_attempt_id ← try_get b "parent_attempt_id";
  next_retry_at ← try_get b "next_retry_at";
  outcome_kind ← try_get b "outcome_kind";
  outcome_json ← try_get b "outcome_json";
  external_ref_json ← try_get b "external_ref_json";
  attempted_at ← try_get b "attempted_at";
  completed_at ← try_get b "completed_at";
  Some (AttemptRow.mk id (Bytes.get rule_id) incident_id lifecycle_kind target_kind
    target_summary status attempt_number parent_attempt_id next_retry_at outcome_kind
    outcome_json external_ref_json attempted_at completed_at).

#[global] Instance attempt_table_row : TableRow AttemptRow.t := {|
  row_table := notification_attempts_table;
  row_id := AttemptRow.id;
  insert_bindings := attempt_bindings;
  read_row := read_attempt_row;
  row_fits r := in_i64 (AttemptRow.attempt_number r) && opt_in_i64 (AttemptRow.next_retry_at r) &&
                in_i64 (AttemptRow.attempted_at r) && opt_in_i64 (AttemptRow.completed_at r);
|}.

(** A value bound to a nullable column. *)
Lemma nullable_accepts {T} `{NonNull T} ty n (o : option T) :
  column_accepts (nullable ty n) (to_sql o) =
    match o with Some x => has_type ty (to_sql x) | None => true end.
Proof.
  destruct o as [x|]; [|done]. cbn. pose proof (to_sql_non_null x).
  by destruct (to_sql x).
Qed.
End rows.

Section row_laws.
Context `{UuidBytesLaws}.

Lemma try_get_here {T} `{SqlCodec T} n (x : T) b : try_get ((n, to_sql x) :: b) n = Some x.
Proof. unfold try_get; cbn. rewrite String.eqb_refl; cbn. apply sql_round_trip. Qed.

(** Reading under another name than that of the first binding. *)
Lemma try_get_next {T} `{SqlCodec T} n m v b :
  String.eqb n m = false → try_get ((m, v) :: b) n = try_get (T := T) b n.
Proof. unfold try_get; cbn. by intros ->. Qed.

Ltac read_columns :=
  repeat first [ rewrite try_get_here; cbn [mbind option_bind]
               | rewrite try_get_next by reflexivity ].

Ltac open_row r := destruct r; cbn -[in_i64 try_get to_sql].

#[global] Instance observation_row_laws : TableRowLaws ObservationRow.t.
Proof.
  split; intros r.
  - destruct r as [? ? [] ? ? ? ? ? ? ? ? ? ?]; cbn -[in_i64]; by rewrite ?andb_true_r.
  - unfold row_table, insert_bindings, read_row, observation_table_row, read_observation_row.
    open_row r. by read_columns.
  - open_row r. by read_columns.
Qed.

#[global] Instance incident_row_laws : TableRowLaws IncidentRow.t.
Proof.
  split; intros r.
  - destruct r as [? ? ? ? ? ? ? ? ? [] ?]; cbn -[in_i64];
      rewrite ?andb_true_r; by rewrite ?andb_assoc.
  - unfold row_table, insert_bindings, read_row, incident_table_row, read_incident_row.
    open_row r. by read_columns.
  - open_row r. by read_columns.
Qed.

#[global] Instance attempt_row_laws : TableRowLaws AttemptRow.t.
Proof.
  split; intros r.
  - destruct r as [? ? ? ? ? ? ? ? [] [] [] [] [] ? []]; cbn -[in_i64];
      rewrite ?andb_true_r; by rewrite ?andb_assoc.
  - unfold row_table, insert_bindings, read_row, attempt_table_row, read_attempt_row.
    open_row r. by read_columns.
  - open_row r. by read_columns.
Qed.
End row_laws.

(** ** The database under its writers *)

(** Every row is one the schema admits, under its own primary key. *)
Definition table_ok {Row} `{TableRow Row} (m : gmap Uuid.t Row) : Prop :=
  map_Forall (λ u r, row_id r = u ∧ row_fits r = true) m.

Section tables.
Context `{UuidBytesLaws, UuidLib, StoreText, SqlEngine}.
Context `{SerdeJson IntegrationKind.t, SerdeJson ObservationPayload.t, SerdeJson Attributes.t}.
Context `{SerdeJson Incident.t, SerdeJson DeliveryOutcome.t, SerdeJson ExternalMessageRef.t}.

Record tables_ok (ts : Tables.t) : Prop := {
  ok_observations : table_ok (Tables.observations ts);
  ok_incidents : table_ok (Tables.incidents ts);
  ok_attempts : table_ok (Tables.notification_attempts ts);
  (** No statement of the source writes a suppression rule. *)
  ok_suppression_rules : Tables.suppression_rules ts = ∅;
}.

(** The statements of the repositories that change the database. *)
Inductive db_step : Pool.t → Pool.t → Prop :=
  | StepAppend p batch res p' :
      SqliteObservationStore.append_many p batch = Some (res, p') → db_step p p'
  | StepSave p incident res p' :
      SqliteIncidentRepository.save p incident = Some (res, p') → db_step p p'
  | StepInsertPending p attempt res p' :
      is_u32 (NotificationAttempt.attempt_number attempt) →
      SqliteNotificationAttemptRepository.insert_pending p attempt = Some (res, p') →
      db_step p p'
  | StepComplete p id receipt next_retry_at res p' :
      SqliteNotificationAttemptRepository.complete p id receipt next_retry_at = Some (res, p') →
      db_step p p'
  | StepSweep p config now p' : sweep p config now = Some p' → db_step p p'.
End tables.

Section invariant.
Context `{UuidBytesLaws, UuidLib, StoreText, SqlEngine}.
Context `{SerdeJson IntegrationKind.t, SerdeJson ObservationPayload.t, SerdeJson Attributes.t}.
Context `{SerdeJson Incident.t, SerdeJson DeliveryOutcome.t, SerdeJson ExternalMessageRef.t}.

Lemma nanos_in_i64 t n : nanos t = Some n → in_i64 n = true.
Proof. unfold nanos. case_match; by intros [= <-]. Qed.

Lemma nanos_opt_in_i64 o n : nanos_opt o = Some n → opt_in_i64 n = true.
Proof.
  destruct o as [t|]; cbn; [|by intros [= <-]].
  destruct (nanos t) as [n'|] eqn:E; cbn; [|done].
  intros [= <-]; cbn. by eapply nanos_in_i64.
Qed.

Lemma observation_columns_fit obs row :
  observation_columns obs = Some (Ok row) → row_fits row = true.
Proof.
  unfold observation_columns. split_matches; [|done].
  intros (o & Ho & (r & Hr & [= <-])%bind_Some)%bind_Some; cbn -[in_i64].
  by rewrite (nanos_in_i64 _ _ Ho), (nanos_opt_in_i64 _ _ Hr).
Qed.

Lemma incident_columns_fit i row :
  incident_columns i = Some (Ok row) → row_fits row = true.
Proof.
  unfold incident_columns. split_matches; [|done].
  intros (o & Ho & (u & Hu & (r & Hr & [= <-])%bind_Some)%bind_Some)%bind_Some; cbn -[in_i64].
  by rewrite (nanos_in_i64 _ _ Ho), (nanos_in_i64 _ _ Hu), (nanos_opt_in_i64 _ _ Hr).
Qed.

Lemma u32_in_i64 n : is_u32 n → in_i64 n = true.
Proof. unfold is_u32, in_i64. intros. apply andb_true_iff; lia. Qed.

Lemma attempt_columns_fit a row :
  is_u32 (NotificationAttempt.attempt_number a) →
  attempt_columns a = Some (Ok row) → row_fits row = true.
Proof.
  intros Hn. unfold attempt_columns. destruct (let? '_ := _ in _) as [[[? ?] ?]|]; [|done].
  intros (next & Hr & (at_ & Ho & (done_ & Hc & [= <-])%bind_Some)%bind_Some)%bind_Some; cbn -[in_i64].
  by rewrite (u32_in_i64 _ Hn), (nanos_opt_in_i64 _ _ Hr), (nanos_in_i64 _ _ Ho),
    (nanos_opt_in_i64 _ _ Hc).
Qed.

Lemma table_ok_insert `{TableRow Row} (m : gmap Uuid.t Row) u r :
  table_ok m → row_id r = u → row_fits r = true → table_ok (<[u := r]> m).
Proof. intros. by apply map_Forall_insert_2. Qed.

Lemma table_ok_delete_where `{TableRow Row} (m : gmap Uuid.t Row) expired :
  table_ok m → table_ok (delete_where expired m).
Proof. intros Hm u r [? _]%map_lookup_filter_Some. by apply Hm. Qed.

(** A statement that keeps the tables well-formed keeps the pool so. *)
Lemma execute_ok {R} (P : Tables.t → Prop) p
    (stmt : Tables.t → Result (R * Tables.t) SqlxError.t) res p' :
  execute p stmt = (res, p') → P (Pool.tables p) →
  (∀ r ts, stmt (Pool.tables p) = Ok (r, ts) → P ts) → P (Pool.tables p').
Proof.
  intros (_ & [(? & _ & -> & _)|(r & ts & _ & Hs & -> & _)])%execute_cases ? HP;
    [done|by eapply HP].
Qed.

Lemma insert_one_ok tx obs res tx' :
  SqliteObservationStore.insert_one tx obs = Some (res, tx') →
  tables_ok (Pool.tables tx) → tables_ok (Pool.tables tx').
Proof.
  unfold SqliteObservationStore.insert_one.
  intros ([row|e] & Hc & Hs)%bind_Some Hok; [|by simplify_eq].
  destruct (execute _ _) as [r tx''] eqn:E. simplify_eq.
  eapply execute_ok; [exact E|done|]. intros r' ts. unfold insert_row.
  destruct (_ !! _) eqn:?; [done|]. intros [= <- <-].
  destruct Hok. split; try done; cbn.
  apply table_ok_insert; [done..|by eapply observation_columns_fit].
Qed.

Lemma insert_all_ok batch : ∀ tx res tx',
  SqliteObservationStore.insert_all tx batch = Some (res, tx') →
  tables_ok (Pool.tables tx) → tables_ok (Pool.tables tx').
Proof.
  induction batch as [|obs batch IH]; intros tx res tx'; [by intros [= <- <-]|].
  intros ([[u|e] tx''] & Hone & Hrest)%bind_Some Hok;
    pose proof (insert_one_ok _ _ _ _ Hone Hok); [by eapply IH|by simplify_eq].
Qed.

Lemma append_many_ok p batch res p' :
  SqliteObservationStore.append_many p batch = Some (res, p') →
  tables_ok (Pool.tables p) → tables_ok (Pool.tables p').
Proof.
  intros Ha Hok. unfold SqliteObservationStore.append_many in Ha.
  destruct batch as [|obs batch]; [by simplify_eq|].
  destruct (execute p _) as [[u|e] tx] eqn:E1;
    (assert (tables_ok (Pool.tables tx));
      [eapply execute_ok; [exact E1|done|by intros ? ? [= _ <-]]|]);
    [|by simplify_eq].
  apply bind_Some in Ha as ([[u'|e] tx'] & Hi & Ha); [|by simplify_eq].
  apply insert_all_ok in Hi; [|done].
  destruct (execute tx' _) as [[u''|e] tx''] eqn:E2; [|by simplify_eq].
  assert (tables_ok (Pool.tables tx'')); [|by simplify_eq].
  eapply execute_ok; [exact E2|done|by intros ? ? [= _ <-]].
Qed.

Lemma save_ok p i res p' :
  SqliteIncidentRepository.save p i = Some (res, p') →
  tables_ok (Pool.tables p) → tables_ok (Pool.tables p').
Proof.
  unfold SqliteIncidentRepository.save.
  intros ([row|e] & Hc & Hs)%bind_Some Hok; [|by simplify_eq].
  destruct (execute _ _) as [r p''] eqn:E. simplify_eq.
  eapply execute_ok; [exact E|done|]. intros r' ts [= <- <-].
  destruct Hok. split; try done; cbn.
  apply table_ok_insert; [done..|by eapply incident_columns_fit].
Qed.

Lemma insert_pending_ok p a res p' :
  is_u32 (NotificationAttempt.attempt_number a) →
  SqliteNotificationAttemptRepository.insert_pending p a = Some (res, p') →
  tables_ok (Pool.tables p) → tables_ok (Pool.tables p').
Proof.
  unfold SqliteNotificationAttemptRepository.insert_pending.
  intros Hn ([row|e] & Hc & Hs)%bind_Some Hok; [|by simplify_eq].
  destruct (execute _ _) as [r p''] eqn:E. simplify_eq.
  eapply execute_ok; [exact E|done|]. intros r' ts. unfold insert_row.
  destruct (_ !! _) eqn:?; [done|]. intros [= <- <-].
  destruct Hok. split; try done; cbn.
  apply table_ok_insert; [done..|by eapply attempt_columns_fit].
Qed.

Lemma complete_ok p id receipt next res p' :
  SqliteNotificationAttemptRepository.complete p id receipt next = Some (res, p') →
  tables_ok (Pool.tables p) → tables_ok (Pool.tables p').
Proof.
  unfold SqliteNotificationAttemptRepository.complete. intros Hs Hok.
  destruct (let? '_ := _ in _) as [[[? ?] ?]|]; [|by simplify_eq].
  apply bind_Some in Hs as (n & Hn & (c & Hc & Hs)%bind_Some).
  destruct (execute _ _) as [r p''] eqn:E.
  assert (p'' = p') as -> by (clear - Hs; by destruct r as [[|]|]; simplify_eq/=).
  eapply execute_ok; [exact E|done|]. intros r' ts; cbv beta.
  destruct (Tables.notification_attempts (Pool.tables p) !! NotificationAttemptId.get id)
    as [row|] eqn:Hrow; intros [= <- <-]; [|done].
  destruct Hok as [? ? Ha ?]. split; try done; cbn.
  destruct (Ha _ _ Hrow) as [Hid Hfit]. apply table_ok_insert; [done|done|].
  revert Hfit; cbn -[in_i64]. rewrite (nanos_opt_in_i64 _ _ Hn), (nanos_in_i64 _ _ Hc).
  rewrite !andb_true_iff. naive_solver.
Qed.

Lemma sweep_table_ok age now delete p :
  (∀ cutoff ts, tables_ok ts → tables_ok (delete cutoff ts)) →
  tables_ok (Pool.tables p) → tables_ok (Pool.tables (sweep_table age now delete p)).
Proof.
  intros Hd Hok. unfold sweep_table. destruct age as [age|]; [|done].
  destruct (execute _ _) as [r p''] eqn:E. cbn.
  eapply execute_ok; [exact E|done|]. intros r' ts [= <- <-]. by apply Hd.
Qed.

Lemma deletes_ok cutoff ts :
  tables_ok ts →
  tables_ok (delete_observations cutoff ts) ∧ tables_ok (delete_incidents cutoff ts) ∧
  tables_ok (delete_suppression_rules cutoff ts) ∧ tables_ok (delete_attempts cutoff ts).
Proof.
  intros [? ? ? Hempty].
  split_and!; split; try done; try by apply table_ok_delete_where.
  cbn. rewrite Hempty. apply map_filter_empty.
Qed.

Lemma sweep_ok p config now p' :
  sweep p config now = Some p' → tables_ok (Pool.tables p) → tables_ok (Pool.tables p').
Proof.
  unfold sweep. intros (n & _ & [= <-])%bind_Some Hok.
  destruct (execute _ _) as [r p''] eqn:E. cbn.
  eapply execute_ok; [exact E| |intros r' ts [= _ <-]];
    repeat (apply sweep_table_ok; [intros; by apply deletes_ok|]); done.
Qed.

Lemma fresh_ok : tables_ok (Pool.tables Pool.fresh).
Proof. split; done. Qed.

Lemma db_step_ok p p' : db_step p p' → tables_ok (Pool.tables p) → tables_ok (Pool.tables p').
Proof.
  intros []; eauto using append_many_ok, save_ok, insert_pending_ok, complete_ok, sweep_ok.
Qed.

Lemma reachable_ok p : rtc db_step Pool.fresh p → tables_ok (Pool.tables p).
Proof.
  assert (∀ q, rtc db_step q p → tables_ok (Pool.tables q) → tables_ok (Pool.tables p)) as Hq.
  { induction 1; eauto using db_step_ok. }
  intros Hr. apply (Hq _ Hr), fresh_ok.
Qed.

(** What a well-formed table guarantees of each of its rows. *)
Definition admits {Row} `{TableRow Row} (m : gmap Uuid.t Row) : Prop :=
  ∀ u r, m !! u = Some r →
    accepts row_table (insert_bindings r) = true ∧
    try_get (stored row_table (insert_bindings r)) "id" = Some u ∧
    read_row (stored row_table (insert_bindings r)) = Some r.

Lemma table_ok_admits `{!TableRow Row, !TableRowLaws Row} (m : gmap Uuid.t Row) :
  table_ok m → admits m.
Proof.
  intros Hm u r Hr. destruct (Hm _ _ Hr) as [<- Hfit].
  split_and!; [by rewrite row_accepted|apply row_keyed|apply row_read].
Qed.

(** C21: The repositories never violate the schema. Whatever sequence of
    appends, saves, attempt inserts, completions and retention sweeps ran on a
    fresh database, with any statement failing, every row of [observations],
    [incidents] and [notification_attempts] is one its STRICT table accepts
    (each column gets a value of its declared type, an INTEGER a signed 64-bit
    one, and no NOT NULL column or primary key is NULL), is stored under its
    own [id], and the columns read back by name are the row that was bound.
    The table [suppression_rules] stays empty: no statement writes it. *)
Theorem reachable_rows_conform p :
  rtc db_step Pool.fresh p →
  admits (Tables.observations (Pool.tables p)) ∧
  admits (Tables.incidents (Pool.tables p)) ∧
  admits (Tables.notification_attempts (Pool.tables p)) ∧
  Tables.suppression_rules (Pool.tables p) = ∅.
Proof.
  intros [? ? ? ?]%reachable_ok. split_and!; try by apply table_ok_admits. done.
Qed.
End invariant.

(** ** The schema itself *)

Definition find_table (n : string) : option Table.t :=
  find (λ t, String.eqb n (Table.name t)) schema.

Definition distinct (l : list string) : bool := bool_decide (NoDup l).

Definition indexes (i : Index.t) : bool :=
  match find_table (Index.on i) with
  | Some t => forallb (λ '(n, _), existsb (λ c, String.eqb n (Column.name c)) (Table.columns t))
                (Index.columns i)
  | None => false
  end.

(** Names are distinct, every table has one primary key, and every index
    orders columns of a table of the schema. *)
Definition schema_wf : bool :=
  distinct (Table.name <$> schema) && distinct (Index.name <$> indices) &&
  forallb (λ t, distinct (Column.name <$> Table.columns t) &&
                (length (filter (λ c, Column.primary_key c = true) (Table.columns t)) =? 1))
    schema &&
  forallb indexes indices.

Lemma schema_is_wf : schema_wf = true.
Proof. vm_compute. reflexivity. Qed.

(** ** Concrete inputs *)

#[local] Instance sample_uuid_bytes : UuidBytes :=
  {| uuid_bytes := uuid_to_string; uuid_from_bytes := uuid_parse_str |}.
#[local] Instance sample_uuid_bytes_laws : UuidBytesLaws.
Proof. split. apply uuid_parse_to_string. Qed.
#[local] Existing Instances incident_serde outcome_serde ref_serde integration_serde payload_serde
  attributes_serde.

Lemma reachable_rows_conform_witness :
  ∃ res p, SqliteNotificationAttemptRepository.insert_pending Pool.fresh sample_attempt
             = Some (res, p) ∧
    Tables.notification_attempts (Pool.tables p) ≠ ∅ ∧
    admits (Tables.notification_attempts (Pool.tables p)).
Proof.
  eexists _, _. split_and!; [vm_compute; reflexivity|done|].
  refine (proj1 (proj2 (proj2 (reachable_rows_conform _ (rtc_once _ _
    (StepInsertPending _ sample_attempt _ _ _ _)))))); [by split|vm_compute; reflexivity].
Defined.
