(* ===== verification/Api.v ===== *)
(** * The operator API: [api/mod.rs], [api/dto.rs], [api/error.rs],
    [api/handlers/*.rs]

    Four read-only endpoints over the repositories. axum is outside: which
    pattern of the router a request matched, and what its capture holds, is an
    input, and a response is its status with the value that is serialized as
    its body. [serde_json::to_value] of a payload is a parameter. *)

From S2P Require Import Prelude RustStr Names SharedTypes CollectorTypes Observations Samples Incidents Engine Storage SqliteRows Worker Consumer.

(** ** DTOs *)

Module SubjectDto.
Inductive t : Type :=
  | Sidecar (id : Uuid.t)
  | Host (id : string)
  | BitcoinNode (id : string)
  | BitcoinPeer (node_id peer_id : string)
  | LndNode (id : string)
  | LndPeer (node_id peer_id : string)
  | LndChannel (node_id channel_id : string)
  | LndInvoice (node_id invoice_id : string).

Definition from (e : EntityRef.t) : t :=
  match e with
  | EntityRef.Sidecar i => Sidecar (SidecarId.get i)
  | EntityRef.Host i => Host (HostId.get i)
  | EntityRef.BitcoinNode i => BitcoinNode (BitcoinNodeId.get i)
  | EntityRef.BitcoinPeer n p => BitcoinPeer (BitcoinNodeId.get n) (BitcoinPeerId.get p)
  | EntityRef.LndNode i => LndNode (LndNodeId.get i)
  | EntityRef.LndPeer n p => LndPeer (LndNodeId.get n) (LndPeerId.get p)
  | EntityRef.LndChannel n c => LndChannel (LndNodeId.get n) (LndChannelId.get c)
  | EntityRef.LndInvoice n i => LndInvoice (LndNodeId.get n) (LndInvoiceId.get i)
  end.
End SubjectDto.

Module DbHealthDto.
Record t : Type := mk { reachable : bool; latency_ms : option Z }.
End DbHealthDto.

Module HealthDto.
Record t : Type := mk {
  sidecar_id : Uuid.t;
  version : string;
  uptime_seconds : Z;
  latest_heartbeat_at : option DateTime;
  db : DbHealthDto.t;
}.
End HealthDto.

Module IncidentSummaryDto.
Record t : Type := mk {
  id : Uuid.t;
  fingerprint : string;
  kind : string;
  subject : SubjectDto.t;
  severity : IncidentSeverity.t;
  status : IncidentStatus.t;
  opened_at : DateTime;
  updated_at : DateTime;
  summary : string;
}.

Definition from `{UuidLib} (i : Incident.t) : t := {|
  id := IncidentId.get (Incident.id i);
  fingerprint := IncidentFingerprint.as_key (Incident.fingerprint i);
  kind := IncidentKind.as_str (Incident.kind i);
  subject := SubjectDto.from (Incident.subject i);
  severity := Incident.severity i;
  status := Incident.status i;
  opened_at := Incident.opened_at i;
  updated_at := Incident.updated_at i;
  summary := Incident.summary i;
|}.
End IncidentSummaryDto.

Module IncidentListDto.
Record t : Type := mk { count : nat; incidents : list IncidentSummaryDto.t }.
End IncidentListDto.

Module IncidentDetailDto.
Record t : Type := mk {
  id : Uuid.t;
  fingerprint : string;
  kind : string;
  subject : SubjectDto.t;
  severity : IncidentSeverity.t;
  status : IncidentStatus.t;
  opened_at : DateTime;
  updated_at : DateTime;
  resolved_at : option DateTime;
  signal_observation_ids : list Uuid.t;
  evidence : list Uuid.t;
  summary : string;
  evidence_summary : list string;
}.

Definition from `{UuidLib} (i : Incident.t) : t := {|
  id := IncidentId.get (Incident.id i);
  fingerprint := IncidentFingerprint.as_key (Incident.fingerprint i);
  kind := IncidentKind.as_str (Incident.kind i);
  subject := SubjectDto.from (Incident.subject i);
  severity := Incident.severity i;
  status := Incident.status i;
  opened_at := Incident.opened_at i;
  updated_at := Incident.updated_at i;
  resolved_at := Incident.resolved_at i;
  signal_observation_ids := ObservationId.get <$> Incident.signal_observation_ids i;
  evidence := (λ e, ObservationId.get (EvidenceRef.get e)) <$> Incident.evidence i;
  summary := Incident.summary i;
  evidence_summary := Incident.evidence_summary i;
|}.
End IncidentDetailDto.

(** [serde_json::to_value] of an observation's payload: a JSON value or the
    text of the error. *)
Class PayloadValue : Type := {
  json_value : Type;
  to_value : ObservationPayload.t → Result json_value string;
}.

Module EvidenceSourceDto.
Record t : Type := mk { collector_id : string; sidecar_id : Uuid.t }.
End EvidenceSourceDto.

Module EvidenceObservationDto.
Section dto.
Context `{PayloadValue}.

Record t : Type := mk {
  observation_id : Uuid.t;
  observed_at : DateTime;
  subject : SubjectDto.t;
  source : EvidenceSourceDto.t;
  origin : string;
  payload : json_value;
}.

Definition from_observation (obs : Observation.t) : Result t string :=
  let? payload := to_value (Observation.payload obs) in
  Ok {|
    observation_id := ObservationId.get (Observation.id obs);
    observed_at := Observation.observed_at obs;
    subject := SubjectDto.from (Observation.subject obs);
    source := {|
      EvidenceSourceDto.collector_id :=
        CollectorId.get (CollectorRef.id (ObservationSource.collector (Observation.source obs)));
      EvidenceSourceDto.sidecar_id :=
        SidecarId.get (ObservationSource.sidecar_id (Observation.source obs));
    |};
    origin := ObservationOrigin.as_str (Observation.origin obs);
    payload := payload;
  |}.
End dto.
End EvidenceObservationDto.

Module IncidentEvidenceDto.
Record t `{PayloadValue} : Type := mk {
  incident_id : Uuid.t;
  evidence : list EvidenceObservationDto.t;
}.
End IncidentEvidenceDto.

(** ** Errors *)

Module ApiError.
Inductive t : Type :=
  | NotFound (what : string)
  | BadRequest (what : string)
  | Storage (e : IncidentRepoError.t)
  | ObservationStore (e : StoreError.t)
  | Serialization (e : string)
  | Internal (what : string).

(** [RepoError] and [StoreError] as texts. *)
Definition repo_text `{UuidLib} (e : IncidentRepoError.t) : string :=
  match e with
  | IncidentRepoError.Backend e => "backend: " +:+ e
  | IncidentRepoError.Conflict id => "conflict on incident " +:+ debug_incident_id id
  | IncidentRepoError.NotFound id => "incident not found: " +:+ debug_incident_id id
  end.

Definition store_text (e : StoreError.t) : string :=
  match e with
  | StoreError.Io e => "io: " +:+ e
  | StoreError.Database e => "database: " +:+ e
  | StoreError.Serialization e => "serialization: " +:+ e
  | StoreError.Corruption what => "corruption: " +:+ what
  | StoreError.NotInitialized => "not initialized"
  end.

Definition to_string `{UuidLib} (e : t) : string :=
  match e with
  | NotFound what => "not found: " +:+ what
  | BadRequest what => "bad request: " +:+ what
  | Storage e => "storage error: " +:+ repo_text e
  | ObservationStore e => "observation store error: " +:+ store_text e
  | Serialization e => "serialization: " +:+ e
  | Internal what => "internal: " +:+ what
  end.

(** The status and the tag of [into_response]. *)
Definition classify (e : t) : Z * string :=
  match e with
  | NotFound _ => (404%Z, "not_found")
  | BadRequest _ => (400%Z, "bad_request")
  | Storage _ | ObservationStore _ | Internal _ => (500%Z, "internal_error")
  | Serialization _ => (500%Z, "internal_error")
  end.
End ApiError.

(** The server's task: [server::run]. Binding and serving are the system's;
    serving returns once the shutdown broadcast was received. *)
Module ServerError.
Inductive t : Type :=
  | Bind (addr source : string)
  | Serve (source : string).

Definition to_string (e : t) : string :=
  match e with
  | Bind addr source => "api bind on " +:+ addr +:+ ": " +:+ source
  | Serve source => "api serve: " +:+ source
  end.
End ServerError.

Definition server_run (bind : string) (bound served : Result unit string) :
    Result unit ServerError.t :=
  let? _ := map_err (ServerError.Bind bind) bound in
  map_err ServerError.Serve served.

Module ApiErrorBody.
Record t : Type := mk { error : string; detail : string }.
End ApiErrorBody.

(** ** Handlers *)

Module Endpoint.
Inductive t : Type := Health | ListOpen | Detail | Evidence.
#[global] Instance eq_dec : EqDecision t.
Proof. solve_decision. Defined.
End Endpoint.

(** The router's table. *)
Definition build_router : list (string * Endpoint.t) :=
  [("/health", Endpoint.Health);
   ("/incidents/open", Endpoint.ListOpen);
   ("/incidents/:id", Endpoint.Detail);
   ("/incidents/:id/evidence", Endpoint.Evidence)].

Section api.
Context `{UuidLib, StoreText, PayloadValue} {S R A : Type}.
Context `{ObservationStore S, IncidentRepository R, NotificationAttemptRepository A}.

Record ApiDeps : Type := mk_deps {
  sidecar_id : SidecarId.t;
  sidecar_version : string;
  started_at : Instant;
  incident_repo : R;
  observation_store : S;
  attempts_repo : A;
}.

(** The monotonic clock as the health handler reads it: at its start, after
    the probe, and for the uptime. *)
Record Clock : Type := mk_clock { started : Instant; probed : Instant; at_reply : Instant }.

Inductive Body : Type :=
  | HealthBody (b : HealthDto.t)
  | ListBody (b : IncidentListDto.t)
  | DetailBody (b : IncidentDetailDto.t)
  | EvidenceBody (b : IncidentEvidenceDto.t)
  | ErrorBody (b : ApiErrorBody.t)
  (** axum's own answer to a request no route matched. *)
  | NoRoute.

Record Response : Type := mk_response { status : Z; body : Body }.

(** [impl IntoResponse for ApiError]. *)
Definition into_response (e : ApiError.t) : Response :=
  let '(status, tag) := ApiError.classify e in
  mk_response status (ErrorBody {|
    ApiErrorBody.error := tag;
    ApiErrorBody.detail := ApiError.to_string e;
  |}).

Definition as_millis (d : Duration) : Z := (d / 1000000)%Z.
Definition as_secs (d : Duration) : Z := (d / 1000000000)%Z.

(** [u64::try_from(_).unwrap_or(u64::MAX)]. *)
Definition u64_or_max (n : Z) : Z := if (n <=? u64_max)%Z then n else u64_max.

Definition health (d : ApiDeps) (clock : Clock) : Response :=
  let db_result := load_open (incident_repo d) in
  let latency_ms := u64_or_max (as_millis (saturating_duration_since (probed clock) (started clock))) in
  let '(status, db) :=
    match db_result with
    | Ok _ => (200%Z, DbHealthDto.mk true (Some latency_ms))
    | Err _ => (503%Z, DbHealthDto.mk false None)
    end in
  let uptime := as_secs (saturating_duration_since (at_reply clock) (started_at d)) in
  mk_response status (HealthBody {|
    HealthDto.sidecar_id := SidecarId.get (sidecar_id d);
    HealthDto.version := sidecar_version d;
    HealthDto.uptime_seconds := uptime;
    HealthDto.latest_heartbeat_at := None;
    HealthDto.db := db;
  |}).

(** [sort_by_key(|i| Reverse(i.opened_at))]. *)
Definition newest_first (a b : Incident.t) : bool :=
  (Incident.opened_at b <=? Incident.opened_at a)%Z.

Definition list_open (d : ApiDeps) : Result IncidentListDto.t ApiError.t :=
  let? incidents := map_err ApiError.Storage (load_open (incident_repo d)) in
  let incidents := sort_by newest_first incidents in
  let summaries := IncidentSummaryDto.from <$> incidents in
  Ok (IncidentListDto.mk (length summaries) summaries).

Definition parse_incident_id (s : string) : Result IncidentId.t string :=
  let? u := ok_or (uuid_parse_str s) (uuid_error s) in
  Ok (IncidentId.mk u).

(** The first lines of [detail] and [evidence]. *)
Definition find_incident (d : ApiDeps) (id : string) : Result Incident.t ApiError.t :=
  let? parsed := map_err (λ e, ApiError.BadRequest ("invalid incident id: " +:+ e))
    (parse_incident_id id) in
  let? found := map_err ApiError.Storage (get (incident_repo d) parsed) in
  ok_or found (ApiError.NotFound ("incident " +:+ id +:+ " not found")).

Definition detail (d : ApiDeps) (id : string) : Result IncidentDetailDto.t ApiError.t :=
  let? incident := find_incident d id in
  Ok (IncidentDetailDto.from incident).

(** The loop over [incident.evidence]. *)
Fixpoint collect_evidence (d : ApiDeps) (refs : list EvidenceRef.t) :
    Result (list EvidenceObservationDto.t) ApiError.t :=
  match refs with
  | [] => Ok []
  | evidence_ref :: refs =>
      let? found := map_err ApiError.ObservationStore
        (get_by_id (observation_store d) (EvidenceRef.get evidence_ref)) in
      match found with
      | Some obs =>
          let? dto := map_err ApiError.Serialization
            (EvidenceObservationDto.from_observation obs) in
          let? observations := collect_evidence d refs in
          Ok (dto :: observations)
      | None => collect_evidence d refs
      end
  end.

Definition evidence (d : ApiDeps) (id : string) : Result IncidentEvidenceDto.t ApiError.t :=
  let? incident := find_incident d id in
  let? observations := collect_evidence d (Incident.evidence incident) in
  Ok (IncidentEvidenceDto.mk _ (IncidentId.get (Incident.id incident)) observations).

Definition json {T} (wrap : T → Body) (r : Result T ApiError.t) : Response :=
  match r with
  | Ok b => mk_response 200 (wrap b)
  | Err e => into_response e
  end.

(** A request whose path matched a pattern, with what the capture holds. *)
Definition respond (d : ApiDeps) (clock : Clock) (matched : option (string * option string)) :
    Response :=
  match matched with
  | None => mk_response 404 NoRoute
  | Some (pattern, capture) =>
      match List.find (λ r, String.eqb r.1 pattern) build_router, capture with
      | Some (_, Endpoint.Health), _ => health d clock
      | Some (_, Endpoint.ListOpen), _ => json ListBody (list_open d)
      | Some (_, Endpoint.Detail), Some id => json DetailBody (detail d id)
      | Some (_, Endpoint.Evidence), Some id => json EvidenceBody (evidence d id)
      | _, _ => mk_response 404 NoRoute
      end
  end.
End api.

(** ** Facts *)

Lemma subject_dto_inj : Inj (=) (=) SubjectDto.from.
Proof.
  intros e e' Heq; destruct e as [[]|[]|[]|[] []|[]|[] []|[] []|[] []],
    e' as [[]|[]|[]|[] []|[]|[] []|[] []|[] []]; naive_solver.
Qed.

Lemma parse_incident_id_text `{UuidLaws, StoreText} id :
  parse_incident_id (uuid_to_string (IncidentId.get id)) = Ok id.
Proof. unfold parse_incident_id. rewrite uuid_parse_to_string. by destruct id. Qed.

Lemma newest_first_total a b : newest_first a b = false → newest_first b a = true.
Proof. unfold newest_first. rewrite Z.leb_gt, Z.leb_le. lia. Qed.

Lemma newest_first_trans a b c :
  newest_first a b = true → newest_first b c = true → newest_first a c = true.
Proof. unfold newest_first. rewrite !Z.leb_le. lia. Qed.

Section facts.
Context `{UuidLaws, StoreText, PayloadValue} {S R A : Type}.
Context `{ObservationStore S, !ObservationStoreLaws S}.
Context `{IncidentRepository R, !IncidentRepositoryLaws R, NotificationAttemptRepository A}.
Implicit Types (d : ApiDeps (S := S) (R := R) (A := A)).

(** What the observation store holds under an identifier. *)
Definition logged_as d (id : ObservationId.t) : option Observation.t :=
  List.find (λ o, bool_decide (Observation.id o = id)) (logged (observation_store d)).

Lemma find_incident_text d id :
  keeps_incidents (incident_repo d) →
  match find_incident d (uuid_to_string (IncidentId.get id)) with
  | Ok i => incidents (incident_repo d) !! id = Some i
  | Err (ApiError.Storage e) => get (incident_repo d) id = Err e
  | Err (ApiError.NotFound _) => incidents (incident_repo d) !! id = None
  | Err _ => False
  end.
Proof.
  intros Hkeeps. unfold find_incident. rewrite parse_incident_id_text; cbn.
  destruct (get (incident_repo d) id) as [o|e] eqn:Hg; cbn; [|done].
  apply (get_ok _ _ _ Hkeeps) in Hg. by destruct o.
Qed.

(** Why the evidence of an incident cannot be shown. *)
Inductive evidence_failure d (refs : list EvidenceRef.t) : ApiError.t → Prop :=
  | failure_store r e :
      r ∈ refs → get_by_id (observation_store d) (EvidenceRef.get r) = Err e →
      evidence_failure d refs (ApiError.ObservationStore e)
  | failure_value r obs e :
      r ∈ refs → logged_as d (EvidenceRef.get r) = Some obs →
      to_value (Observation.payload obs) = Err e →
      evidence_failure d refs (ApiError.Serialization e).

Lemma evidence_failure_cons d r refs e :
  evidence_failure d refs e → evidence_failure d (r :: refs) e.
Proof. destruct 1; econstructor; try done; by apply list_elem_of_further. Qed.

Lemma collect_evidence_spec d refs :
  keeps_log (observation_store d) →
  match collect_evidence d refs with
  | Ok dtos => Forall2 (λ obs dto, EvidenceObservationDto.from_observation obs = Ok dto)
      (omap (λ r, logged_as d (EvidenceRef.get r)) refs) dtos
  | Err e => evidence_failure d refs e
  end.
Proof.
  intros Hkeeps. induction refs as [|r refs IH]; cbn; [constructor|].
  destruct (get_by_id (observation_store d) (EvidenceRef.get r)) as [o|e] eqn:Hg; cbn.
  2:{ eapply failure_store; [by left|done]. }
  apply (get_by_id_ok _ _ _ Hkeeps) in Hg. fold (logged_as d (EvidenceRef.get r)) in Hg. rewrite <-Hg.
  destruct o as [obs|]; cbn; [|case_match; [done|by apply evidence_failure_cons]].
  destruct (EvidenceObservationDto.from_observation obs) as [dto|e] eqn:Hd; cbn.
  - destruct (collect_evidence d refs); cbn; [by constructor|by apply evidence_failure_cons].
  - eapply failure_value; [by left|done|].
    unfold EvidenceObservationDto.from_observation in Hd. by destruct (to_value _); simplify_eq/=.
Qed.

(** C17: The incident endpoints answer from the repositories. While the
    backends keep what was written, and for the text of an
    identifier, both answer 404 when the repository holds no such incident and
    500 when it cannot be read; otherwise the detail is that of the stored
    incident, and the evidence lists, in the incident's order, every evidence
    observation the store still holds, those swept being left out, unless one
    of them cannot be read or written out, which fails the whole request. A
    text that is no identifier is a 400 of both. *)
Theorem incident_endpoints_spec d clock id bad :
  let ask pattern capture := respond d clock (Some (pattern, Some capture)) in
  let text := uuid_to_string (IncidentId.get id) in
  keeps_incidents (incident_repo d) → keeps_log (observation_store d) →
  (∀ e, get (incident_repo d) id = Err e →
     ask "/incidents/:id" text = into_response (ApiError.Storage e) ∧
     ask "/incidents/:id/evidence" text = into_response (ApiError.Storage e)) ∧
  (∀ o, get (incident_repo d) id = Ok o →
     match incidents (incident_repo d) !! id with
     | None =>
         status (ask "/incidents/:id" text) = 404%Z ∧
         status (ask "/incidents/:id/evidence" text) = 404%Z
     | Some i =>
         ask "/incidents/:id" text = mk_response 200 (DetailBody (IncidentDetailDto.from i)) ∧
         ((∃ dtos,
             ask "/incidents/:id/evidence" text =
               mk_response 200 (EvidenceBody {|
                 IncidentEvidenceDto.incident_id := IncidentId.get (Incident.id i);
                 IncidentEvidenceDto.evidence := dtos;
               |}) ∧
             Forall2 (λ obs dto, EvidenceObservationDto.from_observation obs = Ok dto)
               (omap (λ r, logged_as d (EvidenceRef.get r)) (Incident.evidence i)) dtos) ∨
          ∃ e, evidence_failure d (Incident.evidence i) e ∧
            ask "/incidents/:id/evidence" text = into_response e ∧
            status (into_response e) = 500%Z)
     end) ∧
  (uuid_parse_str bad = None →
     status (ask "/incidents/:id" bad) = 400%Z ∧
     status (ask "/incidents/:id/evidence" bad) = 400%Z).
Proof.
  intros ask text Hki Hkl. unfold ask, respond; cbn. split_and!.
  - intros e He. unfold detail, evidence, find_incident, text.
    rewrite parse_incident_id_text; cbn. by rewrite He.
  - intros o Ho. unfold detail, evidence.
    assert (find_incident d text = ok_or o (ApiError.NotFound ("incident " +:+ text +:+ " not found")))
      as ->.
    { unfold find_incident, text. rewrite parse_incident_id_text; cbn. by rewrite Ho. }
    apply (get_ok _ _ _ Hki) in Ho as <-. destruct o as [i|]; cbn; [|done]. split; [done|].
    pose proof (collect_evidence_spec d (Incident.evidence i) Hkl) as Hc.
    destruct (collect_evidence d (Incident.evidence i)) as [dtos|e]; cbn; [left; eauto|].
    right. exists e. split_and!; [done..|]. by destruct Hc.
  - intros Hbad. unfold detail, evidence, find_incident, parse_incident_id. by rewrite Hbad.
Qed.

(** The health endpoint tells whether the incidents can be read. *)
Lemma health_status d clock :
  status (health d clock) = (if is_ok (load_open (incident_repo d)) then 200 else 503)%Z.
Proof. unfold health. by destruct (load_open (incident_repo d)). Qed.

(** C16: The operator sees the engine. After a run of the consumer from a
    mirrored state on which no save was given up, over a backend that keeps
    what was saved, [/incidents/open] either
    answers that the storage cannot be read or lists exactly the incidents the
    engine has open, counted, newest first; and each of them is found under
    its identifier with the state the engine has it in. *)
Theorem operator_sees_engine `{DebugLib} batches
    (c c' : consumer (S := S) (R := R) (A := A)) d :
  write_through c → run batches c = Some c' → saves_ok c' →
  incident_repo d = Consumer.incident_repo c' → keeps_incidents (incident_repo d) →
  let open := (map_to_list (IncidentEngine.open_incidents (engine c'))).*2 in
  match list_open d with
  | Ok dto =>
      IncidentListDto.count dto = length open ∧
      ∃ l, l ≡ₚ open ∧ IncidentListDto.incidents dto = IncidentSummaryDto.from <$> l ∧
        StronglySorted (λ a b, Incident.opened_at b ≤ Incident.opened_at a)%Z l
  | Err e => ∃ e', e = ApiError.Storage e'
  end ∧
  ∀ i, i ∈ open →
    match detail d (uuid_to_string (IncidentId.get (Incident.id i))) with
    | Ok dto => dto = IncidentDetailDto.from i
    | Err e => ∃ e', e = ApiError.Storage e'
    end.
Proof.
  intros Hw Hr Hok Hd Hkeeps open.
  destruct (run_steps batches c) as (c1 & Hr' & Hs). simplify_eq.
  destruct (steps_write_through _ _ Hs Hok) as [_ Hw']. specialize (Hw' Hw).
  pose proof Hkeeps as Hkeeps'. rewrite Hd in Hkeeps'. split.
  - unfold list_open. rewrite Hd.
    destruct (load_open (Consumer.incident_repo c')) as [l|e] eqn:Hl; cbn; [|eauto].
    pose proof (write_through_reload _ _ Hw' Hkeeps' Hl) as Hp.
    assert (sort_by newest_first l ≡ₚ open) as Hperm by by rewrite sort_by_perm.
    split; [by rewrite length_fmap, (Permutation_length Hperm)|].
    exists (sort_by newest_first l). split_and!; [done..|].
    eapply sorted_weaken; [|by apply sort_by_sorted; [apply newest_first_total|apply newest_first_trans]].
    intros a b. unfold newest_first. by rewrite Z.leb_le.
  - intros i Hi. apply list_elem_of_fmap in Hi as ([fp i'] & -> & Hin%elem_of_map_to_list). cbn.
    pose proof (mirror_stored _ _ _ Hw' fp i' Hin) as Hst. rewrite <-Hd in Hst.
    pose proof (find_incident_text d (Incident.id i') Hkeeps) as Hf. unfold detail.
    destruct (find_incident d _) as [i|[]]; cbn; simplify_eq; eauto; done.
Qed.
End facts.

(** ** Concrete inputs *)

#[local] Instance sample_payload_value : PayloadValue :=
  {| json_value := ObservationPayload.t; to_value p := Ok p |}.

Definition sample_api (c : consumer (S := MemoryObservationStore.t)
    (R := MemoryIncidentRepository.t) (A := MemoryNotificationAttemptRepository.t)) :
    ApiDeps (S := MemoryObservationStore.t) (R := MemoryIncidentRepository.t)
      (A := MemoryNotificationAttemptRepository.t) := {|
  sidecar_id := sample_sidecar;
  sidecar_version := "0.1.0";
  started_at := 0;
  incident_repo := Consumer.incident_repo c;
  observation_store := Consumer.observation_store c;
  attempts_repo := Consumer.attempts_repo c;
|}.

Definition sample_clock : Clock := mk_clock 0 0 0.

(** An empty repository. *)
Lemma incident_endpoints_spec_witness :
  status (respond (sample_api sample_consumer) sample_clock
    (Some ("/incidents/:id", Some (uuid_to_string (now_v7 0))))) = 404%Z.
Proof.
  destruct (incident_endpoints_spec (sample_api sample_consumer)
    sample_clock (IncidentId.mk (now_v7 0)) "") as (_ & Hg & _); [exact I..|].
  by destruct (Hg None eq_refl).
Defined.

(** The first sample batch opens one incident. *)
Lemma operator_sees_engine_witness :
  ∃ c' l, run (take 1 sample_batches) sample_consumer = Some c' ∧
    list_open (sample_api c') = Ok (IncidentListDto.mk 1 (IncidentSummaryDto.from <$> l)) ∧
    l ≡ₚ (map_to_list (IncidentEngine.open_incidents (engine c'))).*2.
Proof.
  assert (Hw : write_through sample_consumer).
  { split; cbn; [apply map_Forall_empty|done..]. }
  destruct (is_some_with (λ c, only_panics (trace c) &&
    match list_open (sample_api c) with
    | Ok dto => IncidentListDto.count dto =? 1
    | Err _ => false
    end) (run (take 1 sample_batches) sample_consumer)) as (c' & Hr & Hb);
    [vm_compute; reflexivity|].
  apply andb_prop in Hb as [Ht Hc].
  destruct (operator_sees_engine (take 1 sample_batches) sample_consumer c' (sample_api c') Hw Hr)
    as [Hl _]; [intros id e; by apply only_panics_not|done|exact I|].
  destruct (list_open (sample_api c')) as [[n s]|e] eqn:Ho; [|done].
  apply Nat.eqb_eq in Hc. destruct Hl as (_ & l & Hp & Hs & _). cbn in Hc, Hs. subst n s.
  by exists c', l.
Defined.
