(* ===== verification/Notifier.v ===== *)
(** * The concurrent notifier: [notifications/orchestrator.rs],
    [notifications/targets/*/render.rs], [config.rs]

    [dispatch] delivers one message to every matching rule at once. The futures
    joined by [join_all] share nothing but the outside, which each sees through
    its own sequence of answers: the [i]-th future runs against the [i]-th
    view of the network and the clock. *)

From S2P Require Import Prelude RustStr Names SharedTypes Observations Samples Incidents Engine Notifications Storage Senders Worker Consumer.

(** ** Configuration of the sinks *)

Module DiscordSeverityPalette.
Record t : Type := mk { info : Z; warning : Z; critical : Z; resolved : Z }.

Definition default : t := mk 0x3498DB 0xF39C12 0xE74C3C 0x2ECC71.
End DiscordSeverityPalette.

Module DiscordNotificationConfig.
Record t : Type := mk {
  min_severity : IncidentSeverity.t;
  lifecycle_events : list IncidentNotificationEventKind.t;
  default_username : option string;
  default_avatar_url : option string;
  color_palette : DiscordSeverityPalette.t;
}.
End DiscordNotificationConfig.

Module TelegramNotificationConfig.
Record t : Type := mk {
  bot_token : string;
  pairing_enabled : bool;
  parse_mode : TelegramParseMode.t;
  min_severity : IncidentSeverity.t;
  lifecycle_events : list IncidentNotificationEventKind.t;
}.
End TelegramNotificationConfig.

Module TelegramService.
Record t : Type := mk { sender : TelegramSender.t; config : TelegramNotificationConfig.t }.
End TelegramService.

(** The Discord sender holds an HTTP client and nothing else. *)
Module DiscordService.
Record t : Type := mk { config : DiscordNotificationConfig.t }.
End DiscordService.

(** ** Renderers *)

Module discord.
Definition pick_color (event : IncidentLifecycleEvent.t) (palette : DiscordSeverityPalette.t) : Z :=
  match event with
  | IncidentLifecycleEvent.Resolved _ => DiscordSeverityPalette.resolved palette
  | _ =>
      match Incident.severity (IncidentLifecycleEvent.incident event) with
      | IncidentSeverity.Info => DiscordSeverityPalette.info palette
      | IncidentSeverity.Warning => DiscordSeverityPalette.warning palette
      | IncidentSeverity.Critical => DiscordSeverityPalette.critical palette
      end
  end.

Definition build_fields (message : NotificationMessage.t) : list DiscordEmbedField.t :=
  match NotificationMessage.affected_component message with
  | Some c => [{| DiscordEmbedField.name := "Affected"; DiscordEmbedField.value := c;
                  DiscordEmbedField.inline := true |}]
  | None => []
  end ++
  match NotificationMessage.diagnostic_summary message with
  | Some d => [{| DiscordEmbedField.name := "Diagnostic"; DiscordEmbedField.value := d;
                  DiscordEmbedField.inline := false |}]
  | None => []
  end.

Definition render (message : NotificationMessage.t) (config : DiscordNotificationConfig.t) :
    DiscordPayload.t :=
  let color := pick_color (NotificationMessage.incident_lifecycle_event message)
                 (DiscordNotificationConfig.color_palette config) in
  {|
    DiscordPayload.content := None;
    DiscordPayload.username := DiscordNotificationConfig.default_username config;
    DiscordPayload.avatar_url := DiscordNotificationConfig.default_avatar_url config;
    DiscordPayload.embeds := [{|
      DiscordEmbed.title := Some (NotificationMessage.title message);
      DiscordEmbed.description := Some (NotificationMessage.summary message);
      DiscordEmbed.url := None;
      DiscordEmbed.color := Some color;
      DiscordEmbed.timestamp := Some (NotificationMessage.occurred_at message);
      DiscordEmbed.footer := None;
      DiscordEmbed.author := None;
      DiscordEmbed.fields := build_fields message;
    |}];
    DiscordPayload.allowed_mentions := Some DiscordAllowedMentions.none;
  |}.
End discord.

Module telegram.
Definition format_body (message : NotificationMessage.t) : string :=
  let body := NotificationMessage.title message +:+ "

" +:+ NotificationMessage.summary message in
  let body := match NotificationMessage.affected_component message with
              | Some c => body +:+ "

Affected: " +:+ c
              | None => body
              end in
  match NotificationMessage.diagnostic_summary message with
  | Some d => body +:+ "

Diagnostic: " +:+ d
  | None => body
  end.

Definition render (message : NotificationMessage.t) (config : TelegramNotificationConfig.t) :
    TelegramPayload.t := {|
  TelegramPayload.text := format_body message;
  TelegramPayload.parse_mode := TelegramNotificationConfig.parse_mode config;
  TelegramPayload.disable_notification := None;
  TelegramPayload.reply_to_message_id := None;
  TelegramPayload.reply_markup := None;
|}.
End telegram.

(** The derived [Serialize] of an instant. *)
Class ChronoSerde : Type := { serde_datetime : DateTime → string }.

Module webhook.
Definition event_kind_name (k : IncidentNotificationEventKind.t) : string :=
  match k with
  | IncidentNotificationEventKind.Opened => "Opened"
  | IncidentNotificationEventKind.Escalated => "Escalated"
  | IncidentNotificationEventKind.Resolved => "Resolved"
  end.

Definition render `{UuidLib, ChronoSerde} (message : NotificationMessage.t) : WebhookPayload.t :=
  let event := NotificationMessage.incident_lifecycle_event message in
  let event_kind := IncidentLifecycleEvent.notification_kind event in
  let incident := IncidentLifecycleEvent.incident event in
  WebhookPayload.mk (Json.Object [
    ("event", Json.Str (event_kind_name event_kind));
    ("incident_id", Json.Str (uuid_to_string (IncidentId.get (Incident.id incident))));
    ("kind", Json.Str (IncidentKind.as_str (Incident.kind incident)));
    ("severity", Json.Str (debug_severity (Incident.severity incident)));
    ("title", Json.Str (NotificationMessage.title message));
    ("summary", Json.Str (NotificationMessage.summary message));
    ("affected_component", Json.of_option (NotificationMessage.affected_component message));
    ("diagnostic_summary", Json.of_option (NotificationMessage.diagnostic_summary message));
    ("occurred_at", Json.Str (serde_datetime (NotificationMessage.occurred_at message)))]).
End webhook.

(** ** The notifier *)

Module Notifier.
Record t : Type := mk {
  rules : list NotificationRule.t;
  telegram : option TelegramService.t;
  discord : option DiscordService.t;
}.
End Notifier.

Section notifier.
Context {H : Type} `{Net H, HttpLib, ChronoLib, JsonLib, UuidLib, ChronoSerde}.

Definition deliver (n : Notifier.t) (target : NotificationTarget.t)
    (message : NotificationMessage.t) (h : H) : option (DeliveryReceipt.t * H) :=
  let '(started_at, h) := utc_now h in
  match target with
  | NotificationTarget.Discord t =>
      match Notifier.discord n with
      | Some svc => DiscordSender.send t (discord.render message (DiscordService.config svc)) h
      | None => Some (not_configured_receipt started_at h)
      end
  | NotificationTarget.Telegram t =>
      match Notifier.telegram n with
      | Some svc =>
          TelegramSender.send (TelegramService.sender svc) t
            (telegram.render message (TelegramService.config svc)) h
      | None => Some (not_configured_receipt started_at h)
      end
  | NotificationTarget.Webhook t => WebhookSender.send t (webhook.render message) h
  end.

(** [join_all]: the results in the order of the futures; a panic of one is the
    panic of all. *)
Fixpoint join_all {A} (futures : list (H → option (A * H))) (views : list H) : option (list A) :=
  match futures, views with
  | [], _ => Some []
  | future :: futures, h :: views =>
      '(a, _) ← future h;
      l ← join_all futures views;
      Some (a :: l)
  | _ :: _, [] => None
  end.

Definition dispatch (n : Notifier.t) (event : IncidentLifecycleEvent.t)
    (message : NotificationMessage.t) (views : list H) :
    option (list (NotificationRuleId.t * DeliveryReceipt.t)) :=
  let matching := filter (λ r, NotificationRule.matches r event = true) (Notifier.rules n) in
  let futures := (λ rule h,
    '(receipt, h) ← deliver n (NotificationRule.target rule) message h;
    Some ((NotificationRule.id rule, receipt), h)) <$> matching in
  join_all futures views.
End notifier.

(** ** Facts *)

Section facts.
Context {H : Type} `{Net H, HttpLib, ChronoLib, JsonLib, UuidLib, ChronoSerde}.

Definition permanent_not_configured : DeliveryOutcome.t :=
  DeliveryOutcome.Permanent PermanentError.NotConfigured.

(** Whether the notifier has a sender for a target. *)
Definition configured (n : Notifier.t) (target : NotificationTarget.t) : bool :=
  match target with
  | NotificationTarget.Webhook _ => true
  | NotificationTarget.Telegram _ => is_some (Notifier.telegram n)
  | NotificationTarget.Discord _ => is_some (Notifier.discord n)
  end.

(** What a delivery in one view of the outside comes to. *)
Definition delivered_in (n : Notifier.t) (message : NotificationMessage.t)
    (rule : NotificationRule.t) (h : H) (entry : NotificationRuleId.t * DeliveryReceipt.t) : Prop :=
  entry.1 = NotificationRule.id rule ∧
  (∃ h', deliver n (NotificationRule.target rule) message h = Some (entry.2, h')) ∧
  (configured n (NotificationRule.target rule) = false →
   DeliveryReceipt.outcome entry.2 = permanent_not_configured).

Lemma deliver_unconfigured n target message h :
  configured n target = false →
  ∃ r h', deliver n target message h = Some (r, h') ∧
    DeliveryReceipt.outcome r = permanent_not_configured.
Proof.
  unfold deliver, configured, not_configured_receipt. destruct (utc_now h) as [t0 h1].
  destruct target; [destruct (Notifier.discord n)|destruct (Notifier.telegram n)|]; cbn; try done;
    intros _; destruct (utc_now h1) as [t1 h2]; eauto.
Qed.

(** Only a Telegram delivery can panic. *)
Lemma deliver_panic n target message h :
  deliver n target message h = None →
  ∃ t, target = NotificationTarget.Telegram t ∧ configured n target = true.
Proof.
  unfold deliver, configured, WebhookSender.send, DiscordSender.send, with_receipt.
  destruct (utc_now h) as [t0 h1].
  unfold not_configured_receipt. destruct (utc_now h1) as [t1 h2]. destruct target as [t|t|t].
  - destruct (Notifier.discord n); cbn; [|done].
    destruct (discord_do_send t _ h2) as [o h3]. by destruct (utc_now h3).
  - destruct (Notifier.telegram n); [eauto|done].
  - cbn. destruct (webhook_do_send t _ h2) as [o h3]. by destruct (utc_now h3).
Qed.

(** C33: The notifier answers for every matching rule. With one view of the
    outside per delivery, [dispatch] returns a receipt for each enabled rule
    that matches the event and for no other, in the order of the rules: what
    the rule's own delivery comes to in its view, which is the permanent
    not-configured error when its sink is not configured. It fails as a whole,
    losing the receipts of the others, only if the delivery of a matching
    Telegram rule panics. *)
Theorem notifier_dispatch_spec n event message views :
  let matching := filter (λ r, NotificationRule.matches r event = true) (Notifier.rules n) in
  length matching ≤ length views →
  match dispatch n event message views with
  | Some out =>
      length out = length matching ∧
      ∀ i rule, matching !! i = Some rule →
        ∃ h entry, views !! i = Some h ∧ out !! i = Some entry ∧
          delivered_in n message rule h entry
  | None =>
      ∃ i rule h t, matching !! i = Some rule ∧ views !! i = Some h ∧
        NotificationRule.target rule = NotificationTarget.Telegram t ∧
        configured n (NotificationRule.target rule) = true ∧
        deliver n (NotificationRule.target rule) message h = None
  end.
Proof.
  intros matching. unfold dispatch. fold matching. generalize matching. clear matching.
  intros matching. revert views. induction matching as [|rule matching IH]; intros views Hlen; cbn.
  { split; [done|]. by intros i ?. }
  destruct views as [|h views]; cbn in *; [lia|].
  destruct (deliver n (NotificationRule.target rule) message h) as [[r h']|] eqn:Hd; cbn.
  2:{ destruct (deliver_panic _ _ _ _ Hd) as (t & Ht & Hc). by exists 0, rule, h, t. }
  specialize (IH views ltac:(lia)). destruct (join_all _ views) as [out|]; cbn.
  - destruct IH as [Hl IH]. split; [cbn; lia|]. intros [|i] rule' Hi; cbn in *; [|eauto].
    injection Hi as <-. exists h, (NotificationRule.id rule, r). split_and!; [done..|].
    split_and!; [done|by exists h'|]. intros Hc.
    destruct (deliver_unconfigured n _ message h Hc) as (r1 & h1 & Hd' & Ho). by simplify_eq/=.
  - destruct IH as (i & rule' & h1 & t & IH). by exists (S i), rule', h1, t.
Qed.

(** The text of a Telegram message is the title and the summary as they are,
    whatever the parse mode: nothing escapes the markup characters of HTML. *)
Lemma telegram_text_verbatim chat mode message senders sender h :
  NotifierSenders.telegram senders = Some sender →
  Worker.dispatch senders (NotificationTarget.Telegram (TelegramTarget.mk chat mode)) message h =
  TelegramSender.send sender (TelegramTarget.mk chat mode) {|
    TelegramPayload.text := NotificationMessage.title message +:+ "

" +:+ NotificationMessage.summary message;
    TelegramPayload.parse_mode := mode;
    TelegramPayload.disable_notification := None;
    TelegramPayload.reply_to_message_id := None;
    TelegramPayload.reply_markup := None;
  |} (utc_now h).2.
Proof. intros Hs. unfold Worker.dispatch. rewrite Hs. by destruct (utc_now h). Qed.

(** A fresh embed names the event's severity by its colour, and a resolution
    by its own. *)
Lemma discord_color message config :
  ∃ e, DiscordPayload.embeds (discord.render message config) = [e] ∧
    (∀ i, NotificationMessage.incident_lifecycle_event message = IncidentLifecycleEvent.Resolved i →
       DiscordEmbed.color e =
         Some (DiscordSeverityPalette.resolved (DiscordNotificationConfig.color_palette config))).
Proof. eexists. split; [done|]. intros i. cbn. by intros ->. Qed.
End facts.

(** ** A concrete input: a notifier without a Telegram service *)

#[global] Instance sample_chrono_serde : ChronoSerde := {| serde_datetime _ := "1970-01-01T00:00:00Z" |}.

Definition sample_notifier : Notifier.t := Notifier.mk [sample_rule] None None.

Definition sample_event : IncidentLifecycleEvent.t :=
  NotificationDispatch.event sample_dispatch.

Lemma notifier_dispatch_spec_witness :
  ∃ r, dispatch sample_notifier sample_event (compose_notification_message sample_event 0)
         [sample_net ""] = Some [(NotificationRule.id sample_rule, r)] ∧
    DeliveryReceipt.outcome r = permanent_not_configured.
Proof.
  pose proof (notifier_dispatch_spec sample_notifier sample_event
    (compose_notification_message sample_event 0) [sample_net ""] ltac:(vm_compute; lia)) as Hs.
  cbn zeta in Hs.
  assert (Hm : filter (λ r, NotificationRule.matches r sample_event = true)
                 (Notifier.rules sample_notifier) = [sample_rule]) by (vm_compute; reflexivity).
  rewrite Hm in Hs. destruct (dispatch _ _ _ _) as [out|].
  - destruct Hs as [Hl Hs]. destruct (Hs 0 sample_rule eq_refl) as (h & [k r] & _ & Ho & Hk & _ & Hc).
    cbn in *. destruct out as [|e [|]]; [done| |done]. cbn in Ho. injection Ho as ->. subst k.
    exists r. split; [done|]. by apply Hc.
  - destruct Hs as (i & rule & h & t & Hi & _ & Ht & Hc & _).
    destruct i as [|i]; [|by destruct i]. cbn in Hi. injection Hi as <-. done.
Defined.
