(* ===== verification/Delivery.v ===== *)
(** * From the incident to the delivered message: the consumer and the
    notification worker over one audit log

    The two tasks share the notification channel and the attempts repository.
    [dstep] interleaves them: a step of the consumer, or the worker taking the
    next dispatch and working through its targets, or the worker's end, which
    closes the channel. The worker only writes to rows of the dispatch it
    took and the consumer only adds rows, so the finer interleavings of their
    awaits give the same rows. *)

From S2P Require Import Prelude RustStr Names SharedTypes Samples ReadModels Store Incidents Kinds Engine BitcoinRules Notifications Storage Senders Worker Consumer.

Section delivery.
Context {H : Type} `{Net H, HttpLib, ChronoLib, JsonLib, UuidLib, DebugLib} {S R A : Type}.
Context `{ObservationStore S, IncidentRepository R, NotificationAttemptRepository A}.
#[local] Abbreviation consumer := (consumer (S := S) (R := R) (A := A)).
Implicit Types (c : consumer).

(** The consumer, with the channel it sends on and the shared repository; how
    many dispatches the worker has taken; the outside as the worker sees it;
    the worker. *)
Record delivery : Type := mk_delivery {
  pipeline : consumer;
  taken : nat;
  outside : H;
  courier : Worker.status;
}.

(** The repository after the worker wrote to it. *)
Definition with_attempts c (repo : A) : consumer := set_attempts_repo c repo (draws c).

(** The receiving end of the channel is dropped. *)
Definition hang_up c : consumer :=
  set_notif_tx c (Channel.mk (Channel.sent (notif_tx c)) (Some 0)).

(** A worker that a sender's panic ended has dropped its end as well. *)
Definition after_delivery (ok : bool) c : consumer := if ok then c else hang_up c.

Inductive dstep (senders : NotifierSenders.t) : delivery → delivery → Prop :=
  | d_consume c c' k h w :
      cstep c c' → dstep senders (mk_delivery c k h w) (mk_delivery c' k h w)
  | d_deliver c k h d repo' h' ok :
      Channel.sent (notif_tx c) !! k = Some d →
      process_dispatch senders d (attempts_repo c) h = (repo', h', ok) →
      dstep senders (mk_delivery c k h Running)
        (mk_delivery (after_delivery ok (with_attempts c repo')) (Datatypes.S k) h'
           (if ok then Running else Panicked))
  | d_stop c k h :
      dstep senders (mk_delivery c k h Running) (mk_delivery (hang_up c) k h Stopped).
End delivery.

Section facts.
Context {H : Type} `{Net H, HttpLib, ChronoLib, JsonLib, UuidLib, DebugLib} {S R A : Type}.
Context `{ObservationStore S, IncidentRepository R}.
Context `{NotificationAttemptRepository A, !NotificationAttemptRepositoryLaws A}.
#[local] Abbreviation consumer := (consumer (S := S) (R := R) (A := A)).
#[local] Abbreviation delivery := (delivery (H := H) (S := S) (R := R) (A := A)).
Implicit Types (c : consumer) (s : delivery) (d : NotificationDispatch.t) (r : A).
Variable senders : NotifierSenders.t.

(** A receipt some delivery of the message to the target came to. *)
Definition delivered message target (receipt : DeliveryReceipt.t) : Prop :=
  ∃ h h' : H, dispatch senders target message h = Some (receipt, h').

(** A repository that completes every row it has. *)
Definition completes : Prop :=
  ∀ r id receipt, is_Some (rows r !! id) → (complete r id receipt None).1 = Ok ().

(** ** One dispatch *)

Definition written message target (a a' : NotificationAttempt.t) : Prop :=
  ∃ receipt, delivered message target receipt ∧ a' = completed a receipt None.

Lemma complete_row r id receipt a :
  rows r !! id = Some a →
  (∀ id', id' ≠ id → rows (complete r id receipt None).2 !! id' = rows r !! id') ∧
  (rows (complete r id receipt None).2 !! id = Some a ∧
     (complete r id receipt None).1 ≠ Ok () ∨
   rows (complete r id receipt None).2 !! id = Some (completed a receipt None)).
Proof.
  intros Ha. destruct (complete r id receipt None) as [[[]|e] r'] eqn:E; cbn.
  - apply complete_ok in E as (a' & Ha' & ->). simplify_eq. split.
    + intros id' Hne. by rewrite lookup_insert_ne.
    + right. by rewrite lookup_insert_eq.
  - apply complete_err in E. rewrite E. split; [done|]. by left.
Qed.

Lemma targets_written message targets r h r' h' ok :
  process_targets senders message targets r h = (r', h', ok) →
  NoDup targets.*1 → (∀ id, id ∈ targets.*1 → is_Some (rows r !! id)) →
  (∀ id, id ∉ targets.*1 → rows r' !! id = rows r !! id) ∧
  ∀ id target a, (id, target) ∈ targets → rows r !! id = Some a →
    (rows r' !! id = Some a ∧ (completes → ok = false)) ∨
    ∃ a', written message target a a' ∧ rows r' !! id = Some a'.
Proof.
  revert r h. induction targets as [|[id0 target0] targets IH]; intros r h; cbn.
  { intros [= <- <- <-] _ _. split; [done|]. by intros id target a ?%elem_of_nil. }
  destruct (dispatch senders target0 message h) as [[receipt h1]|] eqn:Hd.
  2:{ intros [= <- <- <-] _ _. split; [done|]. intros id target a _ Ha. by left. }
  intros Hp [Hnin Hnd]%NoDup_cons Hin.
  destruct (Hin id0 (list_elem_of_here _ _)) as [a0 Ha0].
  destruct (complete_row r id0 receipt a0 Ha0) as [Hother Hrow].
  assert (completes → (complete r id0 receipt None).1 = Ok ()) as Hok
    by (intros Hall; apply Hall; by eexists).
  destruct (complete r id0 receipt None) as [res r1]; cbn in *.
  destruct (IH r1 h1) as [Hout Hrows]; [done..| |].
  { intros id Hid. rewrite Hother by (intros ->; done). apply Hin. by right. }
  split.
  - intros id [Hne Hid]%not_elem_of_cons. by rewrite Hout, Hother.
  - intros id target a Hit Ha. apply elem_of_cons in Hit as [[= -> ->]|Hit].
    + simplify_eq. rewrite Hout by done. destruct Hrow as [[Hr Hbad]|Hr]; [left|right].
      * split; [done|]. intros Hall%Hok. done.
      * exists (completed a0 receipt None). split; [|done]. exists receipt. split; [|done]. by exists h, h1.
    + assert (id ≠ id0) as Hne.
      { intros ->. apply Hnin. by apply (list_elem_of_fmap_2 fst) in Hit. }
      rewrite <-(Hother id Hne) in Ha. by apply Hrows.
Qed.

(** ** Targets of different dispatches *)

Lemma target_ids_in ds k d id :
  ds !! k = Some d → id ∈ (NotificationDispatch.targets d).*1 → id ∈ target_ids ds.
Proof.
  intros Hd Hid. unfold target_ids. apply list_elem_of_bind. exists d.
  split; [done|by eapply list_elem_of_lookup_2].
Qed.

Lemma target_ids_lookup ds k d :
  NoDup (target_ids ds) → ds !! k = Some d → NoDup (NotificationDispatch.targets d).*1.
Proof.
  revert k. induction ds as [|d0 ds IH]; intros k; [done|].
  intros (Hd & _ & Hds)%NoDup_app Hk. destruct k as [|k]; cbn in Hk; [by simplify_eq|by eapply IH].
Qed.

Lemma target_ids_apart ds i j d d' id :
  NoDup (target_ids ds) → ds !! i = Some d → ds !! j = Some d' →
  id ∈ (NotificationDispatch.targets d).*1 → id ∈ (NotificationDispatch.targets d').*1 → i = j.
Proof.
  revert i j. induction ds as [|d0 ds IH]; intros i j; [done|].
  intros (_ & Hdisj & Hds)%NoDup_app Hi Hj Hid Hid'.
  destruct i as [|i], j as [|j]; cbn in Hi, Hj; simplify_eq.
  - done.
  - destruct (Hdisj id Hid). by eapply target_ids_in.
  - destruct (Hdisj id Hid'). by eapply target_ids_in.
  - f_equal. by eapply IH.
Qed.

(** ** The audit log of a reachable state *)

#[local] Abbreviation sent s := (Channel.sent (notif_tx (pipeline s))).
#[local] Abbreviation log_row s id := (rows (attempts_repo (pipeline s)) !! id).

(** The row of a target of the [k]-th dispatch: as inserted, which after the
    dispatch was taken means that the worker died on it (or could not complete
    the row); or closed with a delivery of its message to its target. *)
Definition row_state s k d (p : NotificationAttemptId.t * NotificationTarget.t) : Prop :=
  ∃ rule now n, let a := pending_attempt rule (NotificationDispatch.event d) now n in
    rule ∈ notification_rules (pipeline s) ∧
    NotificationRule.matches rule (NotificationDispatch.event d) = true ∧
    NotificationRule.target rule = p.2 ∧
    (log_row s p.1 = Some a ∧
       (completes → k < taken s → courier s = Panicked ∧ taken s = Datatypes.S k) ∨
     k < taken s ∧ ∃ a', written (NotificationDispatch.message d) p.2 a a' ∧
       log_row s p.1 = Some a').

Record audit s : Prop := {
  au_taken : taken s ≤ length (sent s);
  au_nodup : NoDup (target_ids (sent s));
  au_rows k d : sent s !! k = Some d →
    NotificationDispatch.targets d ≠ [] ∧ Forall (row_state s k d) (NotificationDispatch.targets d);
}.

Lemma row_state_row s k d p : row_state s k d p → is_Some (log_row s p.1).
Proof. intros (? & ? & ? & _ & _ & _ & [[-> _]|(_ & ? & _ & ->)]); by eexists. Qed.

Lemma audit_row s k d id :
  audit s → sent s !! k = Some d → id ∈ (NotificationDispatch.targets d).*1 → is_Some (log_row s id).
Proof.
  intros Ha Hd (p & -> & Hp)%list_elem_of_fmap. destruct (au_rows _ Ha k d Hd) as [_ Hf].
  rewrite Forall_forall in Hf. by eapply row_state_row, Hf.
Qed.

(** A step that keeps the row, and what is known of the worker, keeps its state. *)
Lemma row_state_kept s s' k d p :
  row_state s k d p → notification_rules (pipeline s') = notification_rules (pipeline s) →
  (∀ a, log_row s p.1 = Some a → log_row s' p.1 = Some a) →
  taken s ≤ taken s' →
  ((courier s = Panicked → courier s' = Panicked ∧ taken s' = taken s) ∧ (k < taken s' → k < taken s)) →
  row_state s' k d p.
Proof.
  intros (rule & now & n & Hr & Hm & Ht & Hrow) Hrules Hkept Hle [Hpan Hk].
  exists rule, now, n. rewrite Hrules. split_and!; [done..|].
  destruct Hrow as [[Hrow Hc]|(Hlt & a' & Hw & Hrow)].
  - left. split; [by apply Hkept|]. intros Hall Hlt. destruct (Hc Hall (Hk Hlt)) as [Hp Heq].
    destruct (Hpan Hp) as [? ->]. done.
  - right. split; [lia|]. exists a'. split; [done|]. by apply Hkept.
Qed.

Lemma audit_consume c c' k h w :
  cstep c c' → audit (mk_delivery c k h w) → audit (mk_delivery c' k h w).
Proof.
  intros Hs Ha. destruct (steps_audited _ _ (rtc_once _ _ Hs))
    as (Hrules & Hgrow & ds & Hsent & Hback & Hnd & Hnew).
  pose proof (au_taken _ Ha) as Hle. cbn in Hle. split; cbn; rewrite ?Hsent.
  - rewrite length_app. lia.
  - rewrite target_ids_app. apply NoDup_app. split_and!; [apply (au_nodup _ Ha)| |done].
    intros id Hin Hid%Hnew. unfold target_ids in Hin.
    apply list_elem_of_bind in Hin as (d & Hin & [j Hj]%list_elem_of_lookup).
    destruct (audit_row _ _ _ _ Ha Hj Hin) as [a Hrow]. cbn in Hrow. congruence.
  - intros j d Hj. apply lookup_app_Some in Hj as [Hj|[Hge Hj]].
    + destruct (au_rows _ Ha j d Hj) as [Hne Hf]. split; [done|].
      eapply Forall_impl; [exact Hf|]. intros p Hp. eapply row_state_kept; [exact Hp|done|..]; cbn.
      * intros a Hrow. by eapply lookup_weaken.
      * done.
      * by split.
    + rewrite Forall_forall in Hback. apply list_elem_of_lookup_2, Hback in Hj as (_ & Hne & Hf).
      split; [done|]. eapply Forall_impl; [exact Hf|].
      intros p (rule & n & now & Hr & Hm & Ht & Hrow). exists rule, now, n.
      split_and!; [done..|]. left. split; [done|]. cbn. lia.
Qed.

Lemma audit_stop c k h :
  audit (mk_delivery c k h Running) → audit (mk_delivery (hang_up c) k h Stopped).
Proof.
  intros [Hle Hnd Hrows]. split; [done..|]. intros j d Hj.
  destruct (Hrows j d Hj) as [Hne Hf]. split; [done|]. eapply Forall_impl; [exact Hf|].
  intros p Hp. by eapply row_state_kept.
Qed.

Lemma audit_deliver c k h d repo' h' ok :
  Channel.sent (notif_tx c) !! k = Some d →
  process_dispatch senders d (attempts_repo c) h = (repo', h', ok) →
  audit (mk_delivery c k h Running) →
  audit (mk_delivery (after_delivery ok (with_attempts c repo')) (Datatypes.S k) h'
           (if ok then Running else Panicked)).
Proof.
  intros Hd Hp Ha. pose proof (au_nodup _ Ha) as Hnd. cbn in Hnd.
  destruct (targets_written _ _ _ _ _ _ _ Hp) as [Hout Hin].
  { by eapply target_ids_lookup. }
  { intros id Hid. by eapply (audit_row _ k d id Ha). }
  assert (Channel.sent (notif_tx (after_delivery ok (with_attempts c repo')))
    = Channel.sent (notif_tx c)) as Hsent by by destruct ok.
  assert (attempts_repo (after_delivery ok (with_attempts c repo')) = repo') as Hrepo by by destruct ok.
  assert (notification_rules (after_delivery ok (with_attempts c repo')) = notification_rules c)
    as Hrules by by destruct ok.
  split; cbn; rewrite ?Hsent; [by eapply lookup_lt_Some|done|]. intros j d' Hj.
  destruct (au_rows _ Ha j d' Hj) as [Hne Hf]. split; [done|].
  rewrite Forall_forall in Hf |- *. intros [id target] Hit. specialize (Hf _ Hit).
  assert (id ∈ (NotificationDispatch.targets d').*1) as Hid by by apply (list_elem_of_fmap_2 fst) in Hit.
  destruct (decide (j = k)) as [->|Hjk].
  - simplify_eq. destruct Hf as (rule & now & n & Hr & Hm & Ht & [[Hrow _]|[Hlt _]]); cbn in *; [|lia].
    exists rule, now, n; cbn. rewrite Hrules, Hrepo. split_and!; [done..|].
    destruct (Hin id target _ Hit Hrow) as [[Hsame Hok]|(a' & Hw & Hrow')].
    + left. split; [done|]. intros Hall _. by rewrite (Hok Hall).
    + right. split; [lia|]. by exists a'.
  - eapply row_state_kept; [exact Hf|done|..]; cbn; [|lia|split; [done|lia]].
    intros a. rewrite Hrepo, Hout; [done|].
    intros Hid'. apply Hjk. by eapply target_ids_apart.
Qed.

Lemma audit_step s s' : dstep senders s s' → audit s → audit s'.
Proof. destruct 1; [by apply audit_consume|by eapply audit_deliver|apply audit_stop]. Qed.

Lemma audit_reachable s s' : rtc (dstep senders) s s' → audit s → audit s'.
Proof. induction 1 as [|s1 s2 s3 H12 _ IH]; [done|]. intros Ha. by eapply IH, audit_step. Qed.

Lemma rules_reachable s s' :
  rtc (dstep senders) s s' → notification_rules (pipeline s') = notification_rules (pipeline s).
Proof.
  induction 1 as [|s1 s2 s3 H12 _ IH]; [done|]. rewrite IH.
  destruct H12 as [c c' k h w Hs| c k h d r h' []|]; cbn; try done.
  by destruct (steps_audited _ _ (rtc_once _ _ Hs)).
Qed.

(** C4: The audit log tells what was delivered. Let the consumer and the worker
    run from an empty channel, interleaved in any way, with storage and network
    failing as they like. Every target of every dispatch sent belongs to a
    configured rule that matches the event and has a row; the row is Pending,
    as inserted, until the worker takes the dispatch; from then on it is as
    inserted or closed with the receipt of a delivery of that message to that
    target. If the repository completes the rows it has, it is closed for every
    dispatch taken, except for the one on which a sender panicked. *)
Theorem notifications_audited c (h : H) s :
  Channel.sent (notif_tx c) = [] → rtc (dstep senders) (mk_delivery c 0 h Running) s →
  ∀ k d id target, sent s !! k = Some d → (id, target) ∈ NotificationDispatch.targets d →
  ∃ rule now n, let a := pending_attempt rule (NotificationDispatch.event d) now n in
    let closed := ∃ receipt, delivered (NotificationDispatch.message d) target receipt ∧
                    log_row s id = Some (completed a receipt None) in
    rule ∈ notification_rules c ∧
    NotificationRule.matches rule (NotificationDispatch.event d) = true ∧
    NotificationRule.target rule = target ∧
    (taken s ≤ k → log_row s id = Some a) ∧
    (k < taken s → log_row s id = Some a ∨ closed) ∧
    (completes → k < taken s → courier s ≠ Panicked ∨ Datatypes.S k < taken s → closed).
Proof.
  intros Hempty Hs k d id target Hd Hin.
  assert (audit (mk_delivery c 0 h Running)) as Ha.
  { split; cbn; rewrite Hempty; [done|constructor|done]. }
  apply (audit_reachable _ _ Hs) in Ha. destruct (au_rows _ Ha k d Hd) as [_ Hf].
  rewrite Forall_forall in Hf.
  destruct (Hf _ Hin) as (rule & now & n & Hr & Hm & Ht & Hrow). exists rule, now, n.
  rewrite (rules_reachable _ _ Hs) in Hr. cbn in Hr, Hrow. split_and!; [done..| | |].
  - intros Hk. destruct Hrow as [[Hrow _]|[Hlt _]]; [done|lia].
  - intros _. destruct Hrow as [[Hrow _]|(_ & a' & (receipt & Hdel & ->) & Hrow)]; [by left|eauto].
  - intros Hall Hk Hcase. destruct Hrow as [[_ Hc]|(_ & a' & (receipt & Hdel & ->) & Hrow)]; [|eauto].
    destruct (Hc Hall Hk) as [Hp Heq]. destruct Hcase; [done|lia].
Qed.

(** A worker that runs gets through what was sent, unless a sender panics. *)
Lemma worker_catches_up c k (h : H) :
  k ≤ length (Channel.sent (notif_tx c)) →
  ∃ s, rtc (dstep senders) (mk_delivery c k h Running) s ∧ sent s = Channel.sent (notif_tx c) ∧
    (courier s = Running ∧ taken s = length (sent s) ∨ courier s = Panicked).
Proof.
  intros Hk. remember (length (Channel.sent (notif_tx c)) - k) as n eqn:Hn.
  revert c k h Hk Hn. induction n as [|n IH]; intros c k h Hk Hn.
  { eexists. split; [apply rtc_refl|]. cbn. split; [done|left]. split; [done|lia]. }
  destruct (lookup_lt_is_Some_2 (Channel.sent (notif_tx c)) k) as [d Hd]; [lia|].
  destruct (process_dispatch senders d (attempts_repo c) h) as [[r' h'] ok] eqn:Hp.
  pose proof (d_deliver senders c k h d r' h' ok Hd Hp) as Hstep. destruct ok.
  - destruct (IH (with_attempts c r') (Datatypes.S k) h') as (s & Hs & Hsent & Hend); cbn; [lia..|].
    exists s. split_and!; [by eapply rtc_l|done|done].
  - eexists. split; [by apply rtc_once|]. split; [done|by right].
Qed.

(** A run of the consumer, as steps of the two. *)
Lemma consume_rtc c c' k (h : H) w :
  rtc cstep c c' → rtc (dstep senders) (mk_delivery c k h w) (mk_delivery c' k h w).
Proof. induction 1; [done|]. eapply rtc_l; [by apply d_consume|done]. Qed.
End facts.

Lemma memory_completes `{HashOrder} : completes (A := MemoryNotificationAttemptRepository.t).
Proof.
  intros r id receipt [a Ha]. cbn in *. unfold MemoryNotificationAttemptRepository.complete.
  by rewrite Ha.
Qed.

(** ** Concrete inputs *)

(** The consumer opens an incident, the worker tells Telegram. *)
Lemma notifications_audited_witness :
  ∃ s d id target, rtc (dstep sample_senders)
      (mk_delivery sample_consumer 0 (sample_net "m42") Running) s ∧
    Channel.sent (notif_tx (pipeline s)) !! 0 = Some d ∧
    (id, target) ∈ NotificationDispatch.targets d ∧
    ∃ a receipt, rows (attempts_repo (pipeline s)) !! id = Some (completed a receipt None).
Proof.
  destruct (is_some_with (λ c, match Channel.sent (notif_tx c) with
      | [d] => match NotificationDispatch.targets d with
               | [_] => (process_dispatch sample_senders d (attempts_repo c) (sample_net "m42")).2
               | _ => false
               end
      | _ => false
      end) (run (take 1 sample_batches) sample_consumer)) as (c & Hr & Hb); [vm_compute; reflexivity|].
  destruct (run_steps (take 1 sample_batches) sample_consumer) as (c' & Hr' & Hs).
  rewrite Hr in Hr'. injection Hr' as <-.
  destruct (Channel.sent (notif_tx c)) as [|d [|]] eqn:Hd; [discriminate| |discriminate].
  destruct (NotificationDispatch.targets d) as [|[id target] [|]] eqn:Ht; [discriminate| |discriminate].
  destruct (process_dispatch sample_senders d (attempts_repo c) (sample_net "m42"))
    as [[r h] ok] eqn:Hp. cbn in Hb. subst ok.
  assert (Hreach : rtc (dstep sample_senders) (mk_delivery sample_consumer 0 (sample_net "m42") Running)
    (mk_delivery (with_attempts c r) 1 h Running)).
  { eapply rtc_r; [by apply consume_rtc|].
    apply (d_deliver sample_senders c 0 _ d r h true); [by rewrite Hd|exact Hp]. }
  exists (mk_delivery (with_attempts c r) 1 h Running), d, id, target.
  split; [exact Hreach|]. split; [cbn; by rewrite Hd|]. split; [rewrite Ht; by left|].
  destruct (notifications_audited sample_senders sample_consumer (sample_net "m42") _ eq_refl Hreach
    0 d id target) as (rule & now & n & _ & _ & _ & _ & _ & Hc).
  - cbn. by rewrite Hd.
  - rewrite Ht. by left.
  - destruct Hc as (receipt & _ & Hrow); [apply memory_completes|cbn; lia|by left|].
    exists (pending_attempt rule (NotificationDispatch.event d) now n), receipt. exact Hrow.
Defined.
