(* ===== verification/Watch.v ===== *)
(** * Following one rule through the pipeline

    A consumer runs many rules. This file follows one of them over a sequence
    of batches about one node whose wanted states keep a condition: the read
    models then show the rule what the batches said, the other rules leave its
    kind alone, and what the rule drafts drives the engine. A rule whose entry
    behaves like an automaton under that condition has its alarm open as soon
    as the automaton has fired ([watch_run]). *)

From S2P Require Import Prelude RustStr Names SharedTypes CollectorTypes Observations ReadModels Store Incidents Kinds Engine Notifications Storage Worker Consumer Dispatches.

(** ** Rules that leave a kind alone *)

(** A boxed rule that never drafts a kind, whatever it is shown. *)
Definition avoids (k : IncidentKind.t) (b : BoxedRule) : Prop :=
  ∃ P : BoxedRule → Prop, P b ∧
    ∀ b ctx, P b → P (catch_unwind b ctx).2 ∧
      Forall (λ d, IncidentSignalDraft.kind d ≠ k) (rule_drafts ctx b).

Lemma avoids_step k b ctx :
  avoids k b → avoids k (catch_unwind b ctx).2 ∧
    Forall (λ d, IncidentSignalDraft.kind d ≠ k) (rule_drafts ctx b).
Proof.
  intros (P & Hb & HP). destruct (HP b ctx Hb) as [Hb' Hd]. split; [|done]. by exists P.
Qed.

Lemma avoids_box {T} `{DiagnosticRule T} k (r : T) :
  (∀ r ctx ds, (evaluate r ctx).1 = Ok ds → Forall (λ d, IncidentSignalDraft.kind d ≠ k) ds) →
  avoids k (box r).
Proof.
  intros Hk. exists (λ b, ∃ r, b = box r). split; [by exists r|].
  intros _ ctx [r' ->]. unfold rule_drafts, catch_unwind; cbn.
  specialize (Hk r' ctx). destruct (evaluate r' ctx) as [res r2]; cbn in *. split; [by exists r2|].
  destruct res; [by apply Hk|constructor].
Qed.

Lemma drafted_kind (k k' : IncidentKind.t) (f : SignalStatus.t → IncidentSignalDraft.t) l :
  k' ≠ k → (∀ s, IncidentSignalDraft.kind (f s) = k') →
  Forall (λ d, IncidentSignalDraft.kind d ≠ k) (f <$> l).
Proof. intros Hk Hf. induction l; cbn; constructor; [|done]. by rewrite Hf. Qed.

Lemma compute_fingerprint_subject d :
  IncidentFingerprint.subject (compute_fingerprint d) = IncidentSignalDraft.subject d.
Proof. done. Qed.

Lemma drafted_subject (s : EntityRef.t) (d : IncidentSignalDraft.t)
    (f : SignalStatus.t → IncidentSignalDraft.t) l :
  s ≠ IncidentSignalDraft.subject d → (∀ st, IncidentSignalDraft.subject (f st) = s) →
  Forall (λ d', compute_fingerprint d' ≠ compute_fingerprint d) (f <$> l).
Proof.
  intros Hs Hf. induction l as [|st l IH]; cbn; constructor; [|done]. intros Heq. apply Hs.
  by rewrite <-(Hf st), <-(compute_fingerprint_subject d), <-Heq.
Qed.

(** ** What the read models hold of a key *)

Definition state_at (rm : ReadModelStore.t) (key : EntityRef.t * StateName.t) :
    option (Projected.t StateObservation.t) :=
  StateProjection.by_key (ReadModelStore.state rm) !! key.

(** Whatever is held under a key satisfies [P], and what an observation would
    have held there. *)
Definition reads (key : EntityRef.t * StateName.t) (P : Projected.t StateObservation.t → Prop)
    (rm : ReadModelStore.t) : Prop :=
  ∀ p, state_at rm key = Some p → P p.

Definition writes (key : EntityRef.t * StateName.t) (P : Projected.t StateObservation.t → Prop)
    (obs : Observation.t) : Prop :=
  ∀ s, ObservationPayload.State s = Observation.payload obs →
    (Observation.subject obs, StateObservation.name s) = key → P (Projected.of_observation s obs).

(** Something observed at a time or later is held under a key. *)
Definition holds_since (key : EntityRef.t * StateName.t) (since : DateTime) (rm : ReadModelStore.t) :
    Prop :=
  ∃ p, state_at rm key = Some p ∧ (since ≤ Projected.observed_at p)%Z.

Lemma state_at_apply rm obs rm' key :
  ReadModelStore.apply rm obs = Ok rm' →
  state_at rm' key = state_at rm key ∨
  ∃ s, ObservationPayload.State s = Observation.payload obs ∧
    (Observation.subject obs, StateObservation.name s) = key ∧
    state_at rm' key = Some (from_option (λ e, newer e (Projected.of_observation s obs))
                               (Projected.of_observation s obs) (state_at rm key)).
Proof.
  unfold ReadModelStore.apply, state_at. destruct (Observation.payload obs) eqn:Hp;
    try (intros [= <-]; by left);
    try (destruct (apply_obs _ obs); cbn; [intros [= <-]|intros [=]]; by left).
  unfold apply_obs, StateProjection.projection, StateProjection.apply. rewrite Hp; cbn.
  intros [= <-]; cbn. rewrite lookup_insert_latest. case_decide as Hk; [subst key|by left].
  right. by exists o.
Qed.

(** The survivor is one of the two, and as new as either. *)
Lemma newer_either {V} (e p : Projected.t V) (P : Projected.t V → Prop) : P e → P p → P (newer e p).
Proof. unfold newer. by case_match. Qed.

Lemma newer_observed {V} (e p : Projected.t V) :
  (Projected.observed_at e ≤ Projected.observed_at (newer e p))%Z ∧
  (Projected.observed_at p ≤ Projected.observed_at (newer e p))%Z.
Proof.
  unfold newer. destruct (Z.leb_spec (Projected.observed_at p) (Projected.observed_at e)); lia.
Qed.

Lemma reads_apply key P rm obs rm' :
  ReadModelStore.apply rm obs = Ok rm' → writes key P obs → reads key P rm → reads key P rm'.
Proof.
  intros [Heq|(s & Hs & Hk & Heq)]%(λ H, state_at_apply _ _ _ key H) Hw Hr p; rewrite Heq; [apply Hr|].
  intros [= <-]. specialize (Hw s Hs Hk). specialize (Hr).
  destruct (state_at rm key) as [e|] eqn:He; cbn; [|done]. by apply newer_either; [apply Hr|].
Qed.

Lemma holds_kept key since rm obs rm' :
  ReadModelStore.apply rm obs = Ok rm' → holds_since key since rm → holds_since key since rm'.
Proof.
  unfold holds_since.
  intros [->|(s & _ & _ & ->)]%(λ H, state_at_apply _ _ _ key H) (p & Hp & Ht); [by exists p|].
  rewrite Hp; cbn. eexists. split; [done|].
  destruct (newer_observed p (Projected.of_observation s obs)) as [? _]. lia.
Qed.

Lemma apply_state_written rm obs s :
  Observation.payload obs = ObservationPayload.State s →
  ∃ rm', ReadModelStore.apply rm obs = Ok rm' ∧
    holds_since (Observation.subject obs, StateObservation.name s) (Observation.observed_at obs) rm'.
Proof.
  intros Hp. unfold ReadModelStore.apply, apply_obs, StateProjection.projection, StateProjection.apply.
  rewrite Hp; cbn. eexists. split; [done|]. unfold holds_since, state_at; cbn.
  rewrite lookup_insert_latest. rewrite decide_True by done. eexists. split; [done|].
  destruct (StateProjection.by_key _ !! _) as [e|]; cbn; [|done].
  by destruct (newer_observed e (Projected.of_observation s obs)) as [_ ?].
Qed.

#[local] Arguments IncidentEngine.handle : simpl never.
#[local] Arguments ReadModelStore.apply : simpl never.

Section pipeline.
Context `{UuidLib, DebugLib} {S R A : Type}.
Context `{ObservationStore S, IncidentRepository R, NotificationAttemptRepository A}.
#[local] Abbreviation consumer := (consumer (S := S) (R := R) (A := A)).
Implicit Types (c : consumer).

Lemma persist_reads key P l c :
  Forall (writes key P) l → reads key P (read_models c) →
  reads key P (read_models (persist_and_apply l c).1).
Proof.
  intros Hl. revert c. induction Hl as [|obs l Hobs _ IH]; intros c Hr; cbn; [done|].
  destruct (append (observation_store c) obs) as [[[]|e] store]; [|done].
  destruct (ReadModelStore.apply (read_models c) obs) as [rm|e] eqn:Ha; [|by apply IH].
  apply IH; cbn. by eapply reads_apply.
Qed.

Lemma persist_kept key since l c :
  holds_since key since (read_models c) →
  holds_since key since (read_models (persist_and_apply l c).1).
Proof.
  revert c. induction l as [|obs l IH]; intros c Hc; cbn; [done|].
  destruct (append (observation_store c) obs) as [[[]|e] store]; [|done].
  destruct (ReadModelStore.apply (read_models c) obs) as [rm|e] eqn:Ha; [|by apply IH].
  apply IH; cbn. by eapply holds_kept.
Qed.

(** Storage that accepts every observation. *)
Definition appends_succeed : Prop :=
  ∀ (s : S) batch, ∃ s', append_many s batch = (Ok (), s').

Lemma persist_written l c obs s :
  appends_succeed → obs ∈ l → Observation.payload obs = ObservationPayload.State s →
  holds_since (Observation.subject obs, StateObservation.name s) (Observation.observed_at obs)
    (read_models (persist_and_apply l c).1).
Proof.
  intros Ha Hin Hp. revert c. induction l as [|obs' l IH]; intros c; cbn.
  { by apply elem_of_nil in Hin. }
  unfold append. destruct (Ha (observation_store c) [obs']) as [store ->].
  apply elem_of_cons in Hin as [->|Hin].
  - destruct (apply_state_written (read_models c) obs' s Hp) as (rm & -> & Hrm). by apply persist_kept.
  - destruct (ReadModelStore.apply (read_models c) obs') as [rm|e]; by apply IH.
Qed.

Lemma persist_ok l c : appends_succeed → (persist_and_apply l c).2 = true.
Proof.
  intros Ha. revert c. induction l as [|obs l IH]; intros c; cbn; [done|].
  unfold append. destruct (Ha (observation_store c) [obs]) as [store ->]. apply IH.
Qed.

(** *** The engine under drafts of other kinds *)

Lemma event_core event now c c' :
  process_engine_event event now c = Some c' →
  engine c' = engine c ∧
  ∀ key, (∀ obs s, event = IncidentEvent.SignalRecorded obs →
            Observation.payload obs ≠ ObservationPayload.State s) →
    state_at (read_models c') key = state_at (read_models c) key.
Proof.
  destruct event as [obs|i|l|kind conf floor]; cbn [process_engine_event].
  - destruct (append _ obs) as [res store]. intros [= <-]. split.
    + by destruct res, (ReadModelStore.apply _ obs).
    + intros key Hobs.
      destruct (ReadModelStore.apply (read_models _) obs) as [rm|e] eqn:Ha; cbn; [|by destruct res].
      destruct (state_at_apply _ _ _ key Ha) as [->|(s & Hs & _)]; [by destruct res|].
      symmetry in Hs. by apply Hobs in Hs.
  - destruct (save_incident_with_retry _ i) as [[[res r'] tr]|]; cbn; [|done].
    intros [= <-]. by destruct res.
  - intros [= <-]. by destruct (dispatch_lifecycle_frame l now c) as [[_ -> -> _ _ _ _] _].
  - by intros [= <-].
Qed.

(** An event of the engine never carries a state. *)
Definition stateless (event : IncidentEvent.t) : Prop :=
  ∀ obs s, event = IncidentEvent.SignalRecorded obs →
    Observation.payload obs ≠ ObservationPayload.State s.

Lemma events_core events now c c' :
  Forall stateless events → process_engine_events events now c = Some c' →
  engine c' = engine c ∧ ∀ key, state_at (read_models c') key = state_at (read_models c) key.
Proof.
  intros Hev. revert c. induction Hev as [|event events He _ IH]; intros c; cbn; [by intros [= <-]|].
  destruct (process_engine_event event now c) as [c1|] eqn:E; cbn; [|done].
  intros [He' Hk]%IH. destruct (event_core _ _ _ _ E) as [He1 Hk1].
  split; [congruence|]. intros key. rewrite Hk. by apply Hk1.
Qed.

Lemma handle_stateless e d now n r e' n' :
  IncidentEngine.handle e (IncidentCommand.RecordSignal d) now n = Some (r, e', n') →
  Forall stateless (events_of r).
Proof.
  intros (m & _ & Ho)%handle_inv; cbn in Ho.
  assert (stateless (IncidentEvent.SignalRecorded (IncidentEngine.build_signal_observation e d now n)))
    as Hs by (intros obs s [= <-]; done).
  destruct Ho; cbn; try case_match; rewrite ?Forall_cons, ?Forall_nil;
    split_and?; done || by intros ??.
Qed.

(** What a draft does to the open severity of a fingerprint. *)
Definition drive (r : KindRegistry.t) (fp : IncidentFingerprint.t)
    (cur : option IncidentSeverity.t) (d : IncidentSignalDraft.t) : option IncidentSeverity.t :=
  match Lifecycle.effect r (IncidentCommand.RecordSignal d) with
  | Some (fp', s) => if decide (fp' = fp) then (Lifecycle.step cur s).1 else cur
  | None => cur
  end.

(** The lifecycle events drafts make for a fingerprint. *)
Definition tells (r : KindRegistry.t) (fp : IncidentFingerprint.t)
    (cur : option IncidentSeverity.t) (d : IncidentSignalDraft.t) : list Lifecycle.event :=
  match Lifecycle.effect r (IncidentCommand.RecordSignal d) with
  | Some (fp', s) => if decide (fp' = fp) then (Lifecycle.step cur s).2 else []
  | None => []
  end.

Fixpoint told (r : KindRegistry.t) (fp : IncidentFingerprint.t)
    (cur : option IncidentSeverity.t) (ds : list IncidentSignalDraft.t) : list Lifecycle.event :=
  match ds with
  | [] => []
  | d :: ds => tells r fp cur d ++ told r fp (drive r fp cur d) ds
  end.

Lemma told_app r fp cur ds ds' :
  told r fp cur (ds ++ ds') = told r fp cur ds ++ told r fp (foldl (drive r fp) cur ds) ds'.
Proof.
  revert cur. induction ds as [|d ds IH]; intros cur; [done|]. cbn. by rewrite IH, app_assoc.
Qed.

Lemma effect_fingerprint r d fp s :
  Lifecycle.effect r (IncidentCommand.RecordSignal d) = Some (fp, s) → fp = compute_fingerprint d.
Proof.
  unfold Lifecycle.effect. destruct (is_ok _); [|done].
  destruct (KindRegistry.lookup _ _) as [spec|]; cbn; [|done].
  destruct (IncidentSignalDraft.status d); [case_match; [done|]|]; by intros [= <- _].
Qed.

(** A clear resolves what is open. *)
Lemma drive_clear r fp d cur :
  Lifecycle.effect r (IncidentCommand.RecordSignal d) = Some (fp, Lifecycle.Clear) →
  drive r fp cur d = None ∧
  told r fp cur [d] = from_option (λ s, [Lifecycle.Resolved s]) [] cur.
Proof.
  intros He. cbn. unfold drive, tells. rewrite He, !decide_True by done. by destruct cur.
Qed.

Lemma told_others r fp ds cur :
  Forall (λ d, compute_fingerprint d ≠ fp) ds → told r fp cur ds = [].
Proof.
  intros Hds. revert cur. induction Hds as [|d ds Hd _ IH]; intros cur; cbn; [done|].
  rewrite IH, app_nil_r. unfold tells. destruct (Lifecycle.effect _ _) as [[fp' s]|] eqn:He; [|done].
  rewrite decide_False; [done|]. intros ->. by apply Hd, eq_sym, (effect_fingerprint r d fp s).
Qed.

Lemma drive_other r fp d cur : compute_fingerprint d ≠ fp → drive r fp cur d = cur.
Proof.
  intros Hne. unfold drive. destruct (Lifecycle.effect _ _) as [[fp' s]|] eqn:He; [|done].
  rewrite decide_False; [done|]. intros ->. by apply Hne, eq_sym, (effect_fingerprint r d fp s).
Qed.

Lemma drive_others r fp ds cur :
  Forall (λ d, compute_fingerprint d ≠ fp) ds → foldl (drive r fp) cur ds = cur.
Proof. intros Hds. revert cur. induction Hds; intros cur; cbn; [done|]. by rewrite drive_other. Qed.

Lemma kinds_differ fp ds :
  Forall (λ d, IncidentSignalDraft.kind d ≠ IncidentFingerprint.kind fp) ds →
  Forall (λ d, compute_fingerprint d ≠ fp) ds.
Proof. intros Hds. eapply Forall_impl; [exact Hds|]. intros d Hk Heq. apply Hk. by rewrite <-Heq. Qed.

Lemma drafts_core ds now c c' :
  engine_ok (engine c) → handle_drafts ds now c = Some c' →
  engine_ok (engine c') ∧
  IncidentEngine.kinds (engine c') = IncidentEngine.kinds (engine c) ∧
  (∀ key, state_at (read_models c') key = state_at (read_models c) key) ∧
  ∀ fp, open_severity (engine c') fp =
      foldl (drive (IncidentEngine.kinds (engine c)) fp) (open_severity (engine c) fp) ds ∧
    lifecycle_for fp (engine_answers (draft_handings ds now c))
    = told (IncidentEngine.kinds (engine c)) fp (open_severity (engine c) fp) ds.
Proof.
  revert c. induction ds as [|d ds IH]; intros c Hok; cbn [handle_drafts draft_handings];
    [by intros [= <-]|].
  destruct (IncidentEngine.handle _ _ _ _) as [[[res e] n]|] eqn:Hh; cbn; [|done].
  pose proof (handle_ok _ _ _ _ _ _ _ Hok Hh) as Hok1.
  pose proof (handle_kinds _ _ _ _ _ _ _ Hh) as Hkinds.
  pose proof (handle_stateless _ _ _ _ _ _ _ Hh) as Hst.
  assert (∀ fp, open_severity e fp
      = drive (IncidentEngine.kinds (engine c)) fp (open_severity (engine c) fp) d ∧
    lifecycle_for fp (events_of res)
      = tells (IncidentEngine.kinds (engine c)) fp (open_severity (engine c) fp) d) as Hsev.
  { intros fp. pose proof (handle_lifecycle _ _ _ _ _ _ _ fp Hok Hh) as Hl. unfold drive, tells.
    destruct (Lifecycle.effect _ _) as [[fp' s]|]; [case_decide; [by rewrite <-Hl|]|];
      by injection Hl. }
  destruct res as [evs|err]; cbn.
  - destruct (process_engine_events evs now _) as [c1|] eqn:E; cbn; [|done].
    apply events_core in E as [He1 Hk1]; [|done]. cbn in He1, Hk1.
    intros Hc'. apply IH in Hc' as (? & Hk & Hs & Hv); [|by rewrite He1].
    rewrite He1 in Hk, Hv. split_and!; [done|congruence|by intros key; rewrite Hs, Hk1|].
    intros fp. destruct (Hv fp) as [Hv1 Hv2], (Hsev fp) as [Hs1 Hs2].
    rewrite Hv1, engine_answers_cons, lifecycle_for_app, Hv2, Hkinds; cbn [Handing.answer].
    by rewrite Hs2, Hs1.
  - intros Hc'. apply IH in Hc' as (? & Hk & Hs & Hv); [|done]. cbn in Hk, Hs, Hv.
    split_and!; [done|congruence|done|]. intros fp.
    destruct (Hv fp) as [Hv1 Hv2], (Hsev fp) as [Hs1 Hs2].
    rewrite Hv1, engine_answers_cons, lifecycle_for_app, Hv2, Hkinds; cbn [Handing.answer].
    by rewrite Hs2, Hs1.
Qed.

(** A run keeps what its observations cannot break. *)
Lemma pass_reads key P b now m c c' :
  Forall (writes key P) (observations_from_batch b) → reads key P (read_models c) →
  engine_ok (engine c) → process_batch b now m c = Some c' →
  reads key P (read_models c') ∧ engine_ok (engine c').
Proof.
  intros Hb Hr Hok. unfold process_batch. set (l := observations_from_batch b) in *.
  destruct (Observation.subject <$> head l) as [s|]; [|by intros [= <-]].
  pose proof (persist_reads key P l c Hb Hr) as Hr1.
  pose proof (persist_and_apply_frame l c) as (_ & He1 & _).
  destruct (persist_and_apply l c) as [c1 ok]. cbn in *.
  destruct ok; cbn; [|by intros [= <-]; rewrite He1].
  destruct (evaluate_rules _ _) as [[drafts rules'] tr].
  intros (? & _ & Hs & _)%drafts_core; [|cbn; by rewrite He1]. split; [|done].
  intros p. rewrite Hs. apply Hr1.
Qed.

Lemma run_reads key P passes c c' :
  Forall (λ p, Forall (writes key P) (observations_from_batch p.1.1)) passes →
  reads key P (read_models c) → engine_ok (engine c) → run passes c = Some c' →
  reads key P (read_models c').
Proof.
  intros Hb. revert c. induction Hb as [|[[b now] m] passes Hb _ IH]; intros c Hr Hok; cbn in *.
  { by intros [= <-]. }
  destruct (process_batch b now m c) as [c1|] eqn:E; cbn; [|done].
  destruct (pass_reads _ _ _ _ _ _ _ Hb Hr Hok E). by apply IH.
Qed.
End pipeline.

(** ** One rule among others *)

Section rule.
Context `{UuidLib, DebugLib} {S R A : Type}.
Context `{ObservationStore S, IncidentRepository R, NotificationAttemptRepository A}.
#[local] Abbreviation consumer := (consumer (S := S) (R := R) (A := A)).
Context {T : Type} `{DiagnosticRule T}.
Implicit Types (c : consumer) (rule : T).

(** The node, and the states of it that are wanted, each with a condition. *)
Variables (subject : EntityRef.t) (wanted : list (StateName.t * (StateObservation.t → Prop))).
(** What the rule drafts when it fires, and how the registry takes it. *)
Variables (alarm : IncidentSignalDraft.t) (kinds : KindRegistry.t).

#[local] Abbreviation fp := (compute_fingerprint alarm).
#[local] Abbreviation kind := (IncidentSignalDraft.kind alarm).

(** From when on the conditions hold, if not always: what was observed before
    may contradict them. *)
Variable since : option DateTime.

Definition recent (observed_at : DateTime) : Prop := from_option (λ t, t ≤ observed_at)%Z True since.
Definition allowed (Q : StateObservation.t → Prop) (p : Projected.t StateObservation.t) : Prop :=
  recent (Projected.observed_at p) → Q (Projected.value p).

(** Nothing recent that the read models hold contradicts the conditions. *)
Definition models_agree (rm : ReadModelStore.t) : Prop :=
  ∀ name Q, (name, Q) ∈ wanted → reads (subject, name) (allowed Q) rm.

(** The read models show every wanted state. *)
Definition models_show (rm : ReadModelStore.t) : Prop :=
  ∀ name Q, (name, Q) ∈ wanted →
    ∃ p, state_at rm (subject, name) = Some p ∧ Q (Projected.value p).

(** A batch about the node that carries every wanted state, as wanted. *)
Record batch_agrees (b : ObservationBatch.t) : Prop := {
  ba_some : observations_from_batch b ≠ [];
  ba_subject : Forall (λ o, Observation.subject o = subject) (observations_from_batch b);
  ba_recent : Forall (λ o, recent (Observation.observed_at o)) (observations_from_batch b);
  ba_wanted name Q : (name, Q) ∈ wanted →
    Forall (writes (subject, name) (λ p, Q (Projected.value p))) (observations_from_batch b) ∧
    ∃ o s, o ∈ observations_from_batch b ∧ Observation.payload o = ObservationPayload.State s ∧
      StateObservation.name s = name;
}.

(** A batch about others. *)
Definition batch_foreign (b : ObservationBatch.t) : Prop :=
  Forall (λ o, Observation.subject o ≠ subject) (observations_from_batch b).

(** What the rules are shown of a batch. *)
Definition shown (b : ObservationBatch.t) c : ReadModelStore.t :=
  read_models (persist_and_apply (observations_from_batch b) c).1.

Lemma agreeing_shown b c :
  appends_succeed (S := S) → batch_agrees b → models_agree (read_models c) →
  models_agree (shown b c) ∧ models_show (shown b c).
Proof.
  intros Happ [_ Hs Hr Hw] Hagree. set (l := observations_from_batch b) in *.
  assert (models_agree (shown b c)) as Hagree1.
  { intros name Q Hin. destruct (Hw name Q Hin) as [Hf _]. apply persist_reads; [|by apply Hagree].
    eapply Forall_impl; [exact Hf|]. intros o Ho s Hp Hk _. by apply (Ho s). }
  split; [done|]. intros name Q Hin. destruct (Hw name Q Hin) as (_ & o & s & Ho & Hp & Hn).
  destruct (persist_written l c o s Happ Ho Hp) as (p & Hp' & Ht). rewrite Forall_forall in Hs, Hr.
  rewrite (Hs o Ho), Hn in Hp'. exists p. split; [done|]. apply (Hagree1 name Q Hin p Hp').
  specialize (Hr o Ho). unfold recent in *. destruct since; cbn in *; [lia|done].
Qed.

Lemma foreign_shown b c :
  batch_foreign b → models_agree (read_models c) → models_agree (shown b c).
Proof.
  intros Hb Hagree name Q Hin. apply persist_reads; [|by apply Hagree].
  eapply Forall_impl; [exact Hb|]. intros o Ho s _ [= Heq _]. done.
Qed.

Definition drafts_of rule ctx : list IncidentSignalDraft.t :=
  match (evaluate rule ctx).1 with Ok ds => ds | Err _ => [] end.

(** A pass of the consumer over a batch, around the rule's own step. *)
Lemma rule_pass c b now m c' pre rule post s :
  appends_succeed (S := S) →
  rules c = pre ++ box rule :: post → Forall (avoids kind) (pre ++ post) →
  engine_ok (engine c) → Observation.subject <$> head (observations_from_batch b) = Some s →
  process_batch b now m c = Some c' →
  let ctx := diagnostic_context (shown b c) s now m in
  (∃ pre' post', rules c' = pre' ++ box (evaluate rule ctx).2 :: post' ∧
     Forall (avoids kind) (pre' ++ post')) ∧
  engine_ok (engine c') ∧ IncidentEngine.kinds (engine c') = IncidentEngine.kinds (engine c) ∧
  (∀ key, state_at (read_models c') key = state_at (shown b c) key) ∧
  open_severity (engine c') fp =
    foldl (drive (IncidentEngine.kinds (engine c)) fp) (open_severity (engine c) fp)
      (drafts_of rule ctx) ∧
  lifecycle_for fp (engine_answers (batch_handings b now m c))
  = told (IncidentEngine.kinds (engine c)) fp (open_severity (engine c) fp) (drafts_of rule ctx).
Proof.
  intros Happ Hrules Hav Hok Hhead. unfold process_batch, batch_handings, shown.
  set (l := observations_from_batch b) in *. rewrite Hhead.
  pose proof (persist_and_apply_frame l c) as (Hr1 & He1 & _).
  pose proof (persist_ok l c Happ) as Hk.
  destruct (persist_and_apply l c) as [c1 ok]. cbn in *. subst ok; cbn.
  set (ctx := diagnostic_context (read_models c1) s now m).
  pose proof (evaluate_rules_spec (rules c1) ctx) as Hev.
  destruct (evaluate_rules (rules c1) ctx) as [[drafts rules'] tr]. cbn in Hev.
  injection Hev as -> ->. intros Hd.
  pose proof (handle_drafts_rules _ _ _ _ Hd) as Hr'.
  apply drafts_core in Hd as (Hok' & Hkinds & Hstate & Hsev); cbn in *; [|by rewrite He1].
  destruct (Hsev fp) as [Hsev1 Htold]. clear Hsev.
  rewrite Hr1, Hrules, !fmap_app, fmap_cons in Hr'.
  rewrite Forall_app in Hav. destruct Hav as [Hpre Hpost].
  assert (∀ x, Forall (avoids kind) x →
    Forall (λ d, compute_fingerprint d ≠ fp) (x ≫= rule_drafts ctx)) as Hother.
  { intros x Hx. apply kinds_differ, Forall_bind. eapply Forall_impl; [exact Hx|].
    intros y Hy. by apply (avoids_step _ y ctx). }
  assert (rule_drafts ctx (box rule) = drafts_of rule ctx) as Hown.
  { unfold rule_drafts, drafts_of, catch_unwind; cbn. by destruct (evaluate rule ctx) as [[]]. }
  split_and!; [|done|congruence|done|..].
  - exists ((λ b, (catch_unwind b ctx).2) <$> pre), ((λ b, (catch_unwind b ctx).2) <$> post). split.
    + rewrite Hr'. do 2 f_equal. unfold catch_unwind; cbn. by destruct (evaluate rule ctx).
    + rewrite Forall_app, !Forall_fmap. split.
      * eapply Forall_impl; [exact Hpre|]. intros x Hx. by apply (avoids_step _ x ctx).
      * eapply Forall_impl; [exact Hpost|]. intros x Hx. by apply (avoids_step _ x ctx).
  - rewrite Hsev1, He1, Hr1, Hrules, bind_app, bind_cons, !foldl_app.
    rewrite (drive_others _ _ (pre ≫= _)), (drive_others _ _ (post ≫= _)) by by apply Hother.
    by rewrite Hown.
  - rewrite Htold, He1, Hr1, Hrules, bind_app, bind_cons, !told_app.
    rewrite (drive_others _ _ (pre ≫= _)), (told_others _ _ (pre ≫= _)),
      (told_others _ _ (post ≫= _)) by by apply Hother.
    by rewrite Hown, app_nil_r.
Qed.

(** ** The rule's entry as an automaton *)

(** The states of the automaton, how a pass over the node at a time moves it
    and what the rule then drafts, at which times a pass may come, and the
    rules it describes. A pass over others leaves it where it is. *)
Context {Q : Type}.
Variables (move : Q → Instant → Q) (output : Q → Instant → list IncidentSignalDraft.t)
  (may : Q → Instant → Prop) (describes : Q → T → Prop).

Record describes_passes : Prop := {
  own_pass q rule rm now m : describes q rule → may q m → models_show rm →
    let ctx := diagnostic_context rm subject now m in
    describes (move q m) (evaluate rule ctx).2 ∧ drafts_of rule ctx = output q m;
  foreign_pass q rule rm now m s : describes q rule → may q m → s ≠ subject →
    let ctx := diagnostic_context rm s now m in
    describes q (evaluate rule ctx).2 ∧
    Forall (λ d, compute_fingerprint d ≠ fp) (drafts_of rule ctx);
}.
Hypothesis described : describes_passes.

(** Storage takes the observations. *)
Hypothesis stored : appends_succeed (S := S).

(** The rule among others that leave its kind alone, its entry described. *)
Record watched (q : Q) c : Prop := {
  w_rules : ∃ pre rule post, rules c = pre ++ box rule :: post ∧
    Forall (avoids kind) (pre ++ post) ∧ describes q rule;
  w_engine : engine_ok (engine c);
  w_kinds : IncidentEngine.kinds (engine c) = kinds;
  w_models : models_agree (read_models c);
}.

Lemma watched_own q c b now m c' :
  watched q c → may q m → batch_agrees b → process_batch b now m c = Some c' →
  watched (move q m) c' ∧
  open_severity (engine c') fp = foldl (drive kinds fp) (open_severity (engine c) fp) (output q m) ∧
  lifecycle_for fp (engine_answers (batch_handings b now m c))
  = told kinds fp (open_severity (engine c) fp) (output q m).
Proof.
  intros [(pre & rule & post & Hrules & Hav & Hq) Hok Hkinds Hrm] Hmay Hb Hp.
  destruct (agreeing_shown b c stored Hb Hrm) as [Hagree Hshow].
  assert (Observation.subject <$> head (observations_from_batch b) = Some subject) as Hhead.
  { destruct Hb as [Hne Hs _]. destruct Hs; [done|]. cbn. by f_equal. }
  destruct (rule_pass _ _ _ _ _ _ _ _ _ stored Hrules Hav Hok Hhead Hp)
    as ((pre' & post' & Hr' & Hav') & Hok' & Hk' & Hst & Hsev & Htold).
  destruct (own_pass described q rule (shown b c) now m Hq Hmay Hshow) as [Hq' Hd].
  rewrite Hd, Hkinds in Hsev, Htold.
  split; [split; [by eexists _, _, _|done|congruence|]|done].
  intros name P Hin p. rewrite Hst. by apply Hagree.
Qed.

Lemma watched_foreign q c b now m c' :
  watched q c → may q m → batch_foreign b → process_batch b now m c = Some c' →
  watched q c' ∧ open_severity (engine c') fp = open_severity (engine c) fp ∧
  lifecycle_for fp (engine_answers (batch_handings b now m c)) = [].
Proof.
  intros Hw Hmay Hb Hp. destruct (Observation.subject <$> head (observations_from_batch b))
    as [s|] eqn:Hhead.
  - destruct Hw as [(pre & rule & post & Hrules & Hav & Hq) Hok Hkinds Hrm].
    assert (s ≠ subject) as Hne by (destruct Hb; [done|by injection Hhead as <-]).
    destruct (rule_pass _ _ _ _ _ _ _ _ _ stored Hrules Hav Hok Hhead Hp)
      as ((pre' & post' & Hr' & Hav') & Hok' & Hk' & Hst & Hsev & Htold).
    destruct (foreign_pass described q rule (shown b c) now m s Hq Hmay Hne) as [Hq' Hd].
    split; [split; [by eexists _, _, _|done|congruence|]
      |by rewrite Hsev, Htold, drive_others, told_others].
    intros name P Hin p. rewrite Hst. by apply foreign_shown.
  - destruct (observations_from_batch b) eqn:Ho; [|done].
    unfold process_batch, batch_handings in *. rewrite Ho in *. cbn in *. by injection Hp as <-.
Qed.

(** Passes over the node (marked) and over others, at times they may come. *)
Fixpoint paced (q : Q) (times : list (bool * Instant)) : Prop :=
  match times with
  | [] => True
  | (own, m) :: times => may q m ∧ paced (if own then move q m else q) times
  end.

Definition own_times (times : list (bool * Instant)) : list Instant :=
  (filter (λ p, p.1 = true) times).*2.

(** Everything that is drafted over the passes. *)
Fixpoint outputs (q : Q) (times : list Instant) : list IncidentSignalDraft.t :=
  match times with
  | [] => []
  | m :: times => output q m ++ outputs (move q m) times
  end.

(** A pass as its mark and time say. *)
Definition pass_fits (p : bool * Instant) (pass : ObservationBatch.t * DateTime * Instant) : Prop :=
  p.2 = pass.2 ∧ if p.1 then batch_agrees pass.1.1 else batch_foreign pass.1.1.

Lemma watch_run times passes q c :
  watched q c → paced q times → Forall2 pass_fits times passes →
  ∃ c', run passes c = Some c' ∧ watched (foldl move q (own_times times)) c' ∧
    open_severity (engine c') fp
    = foldl (drive kinds fp) (open_severity (engine c) fp) (outputs q (own_times times)) ∧
    lifecycle_for fp (engine_answers (run_handings passes c))
    = told kinds fp (open_severity (engine c) fp) (outputs q (own_times times)).
Proof.
  intros Hw Hpace Hb. revert q c Hw Hpace.
  induction Hb as [|[own m] [[b now] m'] times passes [Heq Hb] _ IH]; intros q c Hw Hpace;
    cbn in *; [by exists c|]. subst m'. destruct Hpace as [Hmay Hpace].
  destruct (process_batch_steps b now m c) as (c1 & Hc1 & _). rewrite Hc1; cbn. destruct own.
  - destruct (watched_own q c b now m c1) as (Hw1 & Hsev & Htold); [done..|].
    destruct (IH (move q m) c1 Hw1 Hpace) as (c' & Hc' & Hw' & Hsev' & Htold'). exists c'.
    split_and!; [done|exact Hw'| |].
    + change (open_severity (engine c') fp = foldl (drive kinds fp) (open_severity (engine c) fp)
        (output q m ++ outputs (move q m) (own_times times))). by rewrite foldl_app, <-Hsev.
    + rewrite engine_answers_app, lifecycle_for_app, Htold, Htold', Hsev. symmetry.
      exact (told_app kinds fp _ (output q m) (outputs (move q m) (own_times times))).
  - destruct (watched_foreign q c b now m c1) as (Hw1 & Hsev & Htold); [done..|].
    destruct (IH q c1 Hw1 Hpace) as (c' & Hc' & Hw' & Hsev' & Htold'). exists c'.
    split_and!; [done|exact Hw'|by rewrite <-Hsev|].
    by rewrite engine_answers_app, lifecycle_for_app, Htold, Htold', Hsev.
Qed.
End rule.

(** ** Rules that raise one alarm *)

Section alarm.
Context {Q : Type}.
Variables (move : Q → Instant → Q) (fired : Q → bool) (alarm : IncidentSignalDraft.t)
  (kinds : KindRegistry.t) (severity : IncidentSeverity.t).
#[local] Abbreviation fp := (compute_fingerprint alarm).

(** The alarm is drafted when the automaton fires, and not again while it has. *)
Definition once (q : Q) (m : Instant) : list IncidentSignalDraft.t :=
  if negb (fired q) && fired (move q m) then [alarm] else [].

Lemma outputs_alarms q times : Forall (.= alarm) (outputs move once q times).
Proof.
  revert q. induction times as [|m times IH]; intros q; cbn; [done|].
  apply Forall_app. split; [|done]. unfold once. destruct (_ && _); by repeat constructor.
Qed.

Lemma outputs_fired q times :
  fired q = false → fired (foldl move q times) = true → outputs move once q times ≠ [].
Proof.
  revert q. induction times as [|m times IH]; intros q Hq; cbn; [by rewrite Hq|].
  intros Hf. unfold once at 1. rewrite Hq; cbn. destruct (fired (move q m)) eqn:Hm; [done|].
  by apply IH.
Qed.

(** Driven by alarms, an incident at least as severe is open. *)
Lemma drive_alarms cur ds :
  Lifecycle.effect kinds (IncidentCommand.RecordSignal alarm) = Some (fp, Lifecycle.Raise severity) →
  Forall (.= alarm) ds → ds ≠ [] →
  ∃ s, foldl (drive kinds fp) cur ds = Some s ∧ severity_rank severity ≤ severity_rank s.
Proof.
  intros Hreg Hds. revert cur. induction Hds as [|d ds -> _ IH]; intros cur Hne; cbn; [done|].
  destruct ds as [|d ds]; [|by apply IH]. cbn. unfold drive. rewrite Hreg, decide_True by done.
  destruct cur as [s|]; cbn; eexists; (split; [done|]); [rewrite max_severity_rank; lia|done].
Qed.
(** Driven by alarms from nothing, an incident is opened, and nothing else happens. *)
Lemma told_alarms ds :
  Lifecycle.effect kinds (IncidentCommand.RecordSignal alarm) = Some (fp, Lifecycle.Raise severity) →
  Forall (.= alarm) ds → ds ≠ [] → told kinds fp None ds = [Lifecycle.Opened severity].
Proof.
  intros Hreg Hds Hne. destruct Hds as [|d ds -> Hds]; [done|]. clear Hne.
  assert (told kinds fp (Some severity) ds = []) as Hrest.
  { induction Hds as [|d ds -> _ IH]; [done|]. cbn. unfold drive, tells.
    rewrite Hreg, decide_True by done. cbn -[Nat.ltb].
    assert (max_severity severity severity = severity) as -> by by destruct severity.
    by rewrite Nat.ltb_irrefl, decide_True. }
  cbn. unfold drive, tells. rewrite Hreg, decide_True by done. cbn. by rewrite decide_True, Hrest.
Qed.
End alarm.
