(* ===== verification/Pairing.v ===== *)
(** * Telegram pairing: [notifications/targets/telegram/types.rs]

    Pairing codes with their normal form, their display form and their keyed
    hash, and the records of chats paired with the sidecar. A string is the
    list of its characters (code points); the Unicode tables of [char] are the
    class [CharLib], of which the ASCII part is used. [None] is the panic of a
    slice that cuts a character. *)

From S2P Require Import Prelude RustStr SharedTypes Incidents Notifications.

(** ** Data *)

Module TelegramUserId.
Record t : Type := mk { get : Z }.
End TelegramUserId.

Module TelegramSubscriptionId.
Record t : Type := mk { get : Uuid.t }.
End TelegramSubscriptionId.

Module TelegramPairingChallengeId.
Record t : Type := mk { get : Uuid.t }.
End TelegramPairingChallengeId.

Module TelegramChatKind.
Inductive t : Type := Private | Group | Supergroup | Channel.
End TelegramChatKind.

Module TelegramSubscription.
Record t : Type := mk {
  id : TelegramSubscriptionId.t;
  challenge_id : TelegramPairingChallengeId.t;
  chat_id : TelegramChatId.t;
  chat_kind : TelegramChatKind.t;
  chat_title : option string;
  user_id : option TelegramUserId.t;
  username : option string;
  min_severity : IncidentSeverity.t;
  lifecycle_events : list IncidentNotificationEventKind.t;
  enabled : bool;
  created_at : DateTime;
}.
End TelegramSubscription.

Module TelegramCommand.
Inductive t : Type :=
  | Start (code : string)
  | TestAlert
  | Status
  | Help
  | Unpair.
End TelegramCommand.

(** ** Characters *)

Abbreviation char := N (only parsing).

Class CharLib : Type := {
  is_whitespace : char → bool;
  to_uppercase : char → list char;
}.

(** The ASCII part of the tables. *)
Class CharLaws `{CharLib} : Prop := {
  is_whitespace_ascii c : (c < 128)%N →
    is_whitespace c = ((9 <=? c)%N && (c <=? 13)%N) || (c =? 32)%N;
  to_uppercase_ascii c : (c < 128)%N →
    to_uppercase c = [if ((97 <=? c)%N && (c <=? 122)%N) then (c - 32)%N else c];
}.

(** The bytes a character takes in UTF-8. *)
Definition len_utf8 (c : char) : nat :=
  if (c <? 0x80)%N then 1 else if (c <? 0x800)%N then 2 else if (c <? 0x10000)%N then 3 else 4.

Definition byte_len (s : list char) : nat := sum_list_with len_utf8 s.

(** [&s[..n]] and [&s[n..]]. *)
Fixpoint split_at_byte (n : nat) (s : list char) : option (list char * list char) :=
  match n, s with
  | 0, _ => Some ([], s)
  | _, [] => None
  | _, c :: s' =>
      if len_utf8 c <=? n then
        '(l, r) ← split_at_byte (n - len_utf8 c) s'; Some (c :: l, r)
      else None
  end.

Definition dash : char := 45%N.

(** ** Codes *)

Module PairingCode.
Section code.
Context `{CharLib}.

Record t : Type := mk { get : list char }.

Fixpoint trim_start (s : list char) : list char :=
  match s with
  | c :: s' => if is_whitespace c then trim_start s' else s
  | [] => []
  end.

Definition trim (s : list char) : list char := reverse (trim_start (reverse (trim_start s))).

Definition keep (c : char) : bool := negb (c =? dash)%N && negb (is_whitespace c).

Definition normalize (raw : list char) : t :=
  mk (List.flat_map to_uppercase (List.filter keep (trim raw))).

(** [b"ABCDEFGHJKMNPQRSTUVWXYZ23456789"]. *)
Definition CHARSET : list char :=
  [65; 66; 67; 68; 69; 70; 71; 72; 74; 75; 77; 78; 80; 81; 82; 83; 84; 85; 86; 87; 88; 89; 90;
   50; 51; 52; 53; 54; 55; 56; 57]%N.

(** The eight indices drawn from the generator, each below [CHARSET.len()]. *)
Definition generate (draws : list nat) : option t := mk <$> mapM (λ i, CHARSET !! i) draws.

Definition formatted (code : t) : option (list char) :=
  if byte_len (get code) =? 8 then
    '(l, r) ← split_at_byte 4 (get code); Some (l ++ [dash] ++ r)
  else Some (get code).
End code.
End PairingCode.

(** [Hmac::<Sha256>] keyed with the secret, in hexadecimal. *)
Class HmacLib : Type := { hmac_sha256_hex : string → list N → string }.

Module PairingCodeHash.
Record t : Type := mk { get : string }.

Definition from_code `{HmacLib} (secret : string) (code : PairingCode.t) : t :=
  mk (hmac_sha256_hex secret (PairingCode.get code)).

(** [ct_eq] on the bytes. *)
Definition eq (a b : t) : bool := String.eqb (get a) (get b).
End PairingCodeHash.

Module TelegramPairingChallenge.
Record t : Type := mk {
  id : TelegramPairingChallengeId.t;
  code_hash : PairingCodeHash.t;
  created_at : DateTime;
  expires_at : DateTime;
  consumed_at : option DateTime;
}.
End TelegramPairingChallenge.

(** ** Facts *)

Section facts.
Context `{CharLaws}.
Import PairingCode.

(** Capital letters and digits. *)
Definition code_char (c : char) : bool :=
  ((48 <=? c)%N && (c <=? 57)%N) || ((65 <=? c)%N && (c <=? 90)%N).

Lemma charset_code_char : forallb code_char CHARSET = true.
Proof. vm_compute. reflexivity. Qed.

Lemma code_char_bounds c : code_char c = true → (48 <= c < 128)%N ∧ c ≠ dash.
Proof.
  unfold code_char, dash. rewrite orb_true_iff, !andb_true_iff, !N.leb_le. lia.
Qed.

Lemma code_char_keep c : code_char c = true → keep c = true ∧ is_whitespace c = false.
Proof.
  intros Hc. pose proof (code_char_bounds c Hc) as [Hb Hd]. unfold keep.
  rewrite is_whitespace_ascii by lia.
  destruct (N.eqb_spec c dash), (N.leb_spec c 13), (N.eqb_spec c 32); try done; try lia.
Qed.

Lemma code_char_upper c : code_char c = true → to_uppercase c = [c].
Proof.
  intros Hc. pose proof (code_char_bounds c Hc) as [Hb _]. rewrite to_uppercase_ascii by lia.
  unfold code_char in Hc. rewrite orb_true_iff, !andb_true_iff, !N.leb_le in Hc.
  destruct (N.leb_spec 97 c); [lia|done].
Qed.

Lemma code_char_len c : code_char c = true → len_utf8 c = 1.
Proof.
  intros Hc. pose proof (code_char_bounds c Hc) as [Hb _]. unfold len_utf8.
  by destruct (N.ltb_spec c 0x80); [|lia].
Qed.

Lemma code_normal l :
  Forall (λ c, code_char c = true) l → List.flat_map to_uppercase (List.filter keep l) = l.
Proof.
  induction 1 as [|c l Hc _ IH]; [done|]. cbn.
  destruct (code_char_keep c Hc) as [-> _]. cbn. by rewrite code_char_upper, IH.
Qed.

Lemma trim_start_code c l : code_char c = true → trim_start (c :: l) = c :: l.
Proof. intros Hc. cbn. by destruct (code_char_keep c Hc) as [_ ->]. Qed.

Lemma trim_start_space l r :
  Forall (λ c, is_whitespace c = true) l → trim_start (l ++ r) = trim_start r.
Proof. induction 1 as [|c l Hc _ IH]; cbn; [done|]. by rewrite Hc. Qed.

Lemma code_normal_dashed a b :
  Forall (λ c, code_char c = true) a → Forall (λ c, code_char c = true) b →
  List.flat_map to_uppercase (List.filter keep (a ++ [dash] ++ b)) = a ++ b.
Proof.
  intros Ha Hb. rewrite !List.filter_app, !List.flat_map_app.
  by rewrite (code_normal a Ha), (code_normal b Hb).
Qed.

(** Around a text that begins and ends with a code character, only white
    space is trimmed. *)
Lemma trim_around l s r a b :
  Forall (λ c, is_whitespace c = true) l → Forall (λ c, is_whitespace c = true) r →
  head s = Some a → last s = Some b → code_char a = true → code_char b = true →
  trim (l ++ s ++ r) = s.
Proof.
  intros Hl Hr Hh Ht Ha Hb. unfold trim. rewrite trim_start_space by done.
  destruct s as [|a' s]; [done|]. cbn in Hh. injection Hh as ->.
  change ((a :: s) ++ r) with (a :: s ++ r). rewrite trim_start_code by done.
  change (a :: s ++ r) with ((a :: s) ++ r).
  rewrite reverse_app, trim_start_space by by apply Forall_reverse.
  apply last_Some in Ht as [s' ->]. rewrite reverse_app, reverse_singleton. cbn [app].
  rewrite trim_start_code by done.
  change (b :: reverse s') with ([b] ++ reverse s'). by rewrite reverse_app, reverse_involutive.
Qed.

Lemma code_ends s :
  s ≠ [] → Forall (λ c, code_char c = true) s →
  ∃ a b, head s = Some a ∧ last s = Some b ∧ code_char a = true ∧ code_char b = true.
Proof.
  intros Hne Hs. rewrite Forall_forall in Hs.
  destruct (last s) as [b|] eqn:Hb; [|by apply last_None in Hb].
  destruct s as [|a s]; [done|]. exists a, b. split_and!; [done..|by apply Hs; left|].
  by apply Hs, last_Some_elem_of.
Qed.

Lemma split_at_byte_code n l :
  Forall (λ c, code_char c = true) l → n ≤ length l →
  split_at_byte n l = Some (take n l, drop n l).
Proof.
  intros Hl. revert n. induction Hl as [|c l Hc _ IH]; intros [|n] Hn; cbn in *; try done; [lia|].
  rewrite code_char_len by done. cbn. by rewrite Nat.sub_0_r, IH by lia.
Qed.

Lemma byte_len_code l : Forall (λ c, code_char c = true) l → byte_len l = length l.
Proof.
  unfold byte_len. induction 1 as [|c l Hc _ IH]; cbn; [done|].
  by rewrite code_char_len, IH.
Qed.

(** A generated code survives its display form: the operator may type it back
    with the dash or without, and with white space around it. *)
Theorem pairing_code_round_trip draws l r :
  length draws = 8 → Forall (λ i, i < length CHARSET) draws →
  Forall (λ c, is_whitespace c = true) l → Forall (λ c, is_whitespace c = true) r →
  ∃ code shown, generate draws = Some code ∧ length (get code) = 8 ∧
    formatted code = Some shown ∧ length shown = 9 ∧
    normalize (l ++ shown ++ r) = code ∧ normalize (l ++ get code ++ r) = code.
Proof.
  intros Hlen Hdraws Hl Hr.
  assert (∃ s, Forall2 (λ i c, CHARSET !! i = Some c) draws s ∧
    Forall (λ c, code_char c = true) s) as (s & Hs & Hcode).
  { clear Hlen. induction Hdraws as [|i draws Hi _ (s & Hs & Hcs)]; [by exists []|].
    destruct (lookup_lt_is_Some_2 _ _ Hi) as [c Hc]. exists (c :: s).
    split; constructor; try done.
    pose proof charset_code_char as Hall. rewrite forallb_forall in Hall.
    apply Hall. apply list_elem_of_In. by eapply list_elem_of_lookup_2. }
  pose proof (Forall2_length _ _ _ Hs) as Hlen'. rewrite Hlen in Hlen'. symmetry in Hlen'.
  apply mapM_Some_2 in Hs.
  unfold generate. rewrite Hs. cbn.
  exists (mk s), (take 4 s ++ [dash] ++ drop 4 s).
  assert (Hne : ∃ a b, head s = Some a ∧ last s = Some b ∧ code_char a = true ∧ code_char b = true).
  { apply code_ends; [by intros ->|done]. }
  destruct Hne as (a & b & Hh & Ht & Ha & Hb).
  split_and!; [done|done| | | |].
  - unfold formatted; cbn [get]. rewrite byte_len_code, Hlen' by done.
    by rewrite split_at_byte_code by (done || lia).
  - by rewrite !length_app, length_take, length_drop, Hlen'.
  - unfold normalize. f_equal. erewrite trim_around; [|done|done| | |exact Ha|exact Hb].
    + rewrite code_normal_dashed by (by apply Forall_take || by apply Forall_drop).
      by rewrite take_drop.
    + do 8 (destruct s as [|? s]; [done|]). done.
    + rewrite <-Ht. rewrite <-(take_drop 4 s) at 3.
      rewrite (assoc_L (++)), !(last_app _ (drop 4 s)).
      destruct (last (drop 4 s)) eqn:Hd; [done|]. apply last_None in Hd.
      apply (f_equal length) in Hd. rewrite length_drop, Hlen' in Hd. done.
  - unfold normalize. f_equal. cbn [get]. erewrite trim_around; [|done|done|exact Hh|exact Ht|done..].
    by apply code_normal.
Qed.

(** A code of eight bytes that is not ASCII: the cut at the fourth byte falls
    inside a character. *)
Lemma formatted_panics a b c d r :
  code_char a = true → code_char b = true → code_char c = true →
  len_utf8 d = 2 → byte_len r = 3 → formatted (mk (a :: b :: c :: d :: r)) = None.
Proof.
  intros Ha Hb Hc Hd Hr. unfold formatted. cbn [get].
  assert (byte_len (a :: b :: c :: d :: r) = 8) as ->.
  { unfold byte_len in *. cbn. rewrite !code_char_len, Hd, Hr by done. done. }
  cbn. rewrite !code_char_len by done. cbn. by rewrite Hd.
Qed.
End facts.

(** ** Concrete inputs *)

(** The ASCII tables, and one capital letter beyond them. *)
#[global] Instance sample_char_lib : CharLib := {|
  is_whitespace c := ((9 <=? c)%N && (c <=? 13)%N) || (c =? 32)%N;
  to_uppercase c :=
    if (c =? 0xE9)%N then [0xC9%N]
    else [if ((97 <=? c)%N && (c <=? 122)%N) then (c - 32)%N else c];
|}.

#[global] Instance sample_char_laws : CharLaws.
Proof.
  split; cbn; [done|]. intros c Hc. by destruct (N.eqb_spec c 0xE9); [lia|].
Qed.

(** The index of each character of [ABCDEFGH], in that order. *)
Lemma pairing_code_round_trip_witness :
  ∃ code shown, PairingCode.generate [0; 1; 2; 3; 4; 5; 6; 7] = Some code ∧
    PairingCode.formatted code = Some shown ∧
    PairingCode.normalize ([32%N] ++ shown ++ [10%N]) = code.
Proof.
  destruct (pairing_code_round_trip [0; 1; 2; 3; 4; 5; 6; 7] [32%N] [10%N])
    as (code & shown & Hg & _ & Hf & _ & Hn & _);
    [done|by repeat constructor; cbn; lia|by repeat constructor|by repeat constructor|].
  by exists code, shown.
Defined.

(** An operator's [abcédef] normalizes to a code whose display panics. *)
Lemma normalized_panics :
  PairingCode.formatted (PairingCode.normalize [97; 98; 99; 0xE9; 100; 101; 102]%N) = None.
Proof. vm_compute. reflexivity. Qed.
