(* ===== verification/Collectors.v ===== *)
(** * What collectors share: [collectors/helpers.rs], [collectors/registry.rs],
    [collectors/traits.rs]

    The node registry, the probe clock helpers, and the context and batch
    builders both pollers write out in the same way. The wall clock is an
    input: a timed call is its start, its end and its outcome. *)

From S2P Require Import Prelude RustStr Names SharedTypes F64 CollectorTypes Observations Samples.

(** ** The registry *)

Module BitcoinRpcAuth.
Inductive t : Type :=
  | UserPass (user pass : string)
  | CookieFile (path : string).
End BitcoinRpcAuth.

Module BitcoinNodeConnection.
Record t : Type := mk {
  rpc_url : string;
  rpc_auth : BitcoinRpcAuth.t;
  zmq_endpoint : option string;
}.
End BitcoinNodeConnection.

Module LndNodeConnection.
Record t : Type := mk {
  grpc_endpoint : string;
  rest_endpoint : option string;
  macaroon : string;
  tls_cert_path : string;
}.
End LndNodeConnection.

Module HostConnection.
Record t : Type := mk {}.
End HostConnection.

Module NodeRegistry.
Record t : Type := mk_registry {
  bitcoin_nodes : gmap BitcoinNodeId.t BitcoinNodeConnection.t;
  lnd_nodes : gmap LndNodeId.t LndNodeConnection.t;
  hosts : gmap HostId.t HostConnection.t;
}.

Definition default : t := mk_registry ∅ ∅ ∅.
End NodeRegistry.

(** ** Helpers *)

(** [timed]: the wall clock before and after a future, and its output. *)
Module Timed.
Record t (A : Type) : Type := mk { start : DateTime; finish : DateTime; output : A }.
Arguments mk {A}.
Arguments start {A}.
Arguments finish {A}.
Arguments output {A}.
End Timed.

Definition empty_attrs : Attributes.t := Attributes.mk ∅.

(** [None] is the panic of the inner [unwrap]. *)
Definition safe_probe_window (started_at completed_at : DateTime) : option ProbeWindow.t :=
  match ProbeWindow.new started_at completed_at with
  | Ok w => Some w
  | Err _ =>
      match ProbeWindow.new completed_at completed_at with
      | Ok w => Some w
      | Err _ => None
      end
  end.

Definition duration_ms (from to : DateTime) : option Z :=
  let ms := num_milliseconds (to - from) in
  if (ms <? 0)%Z then None else Some (as_u64 ms).

(** ** Observations and batches of a collector *)

Definition obs_context (descriptor : CollectorDescriptor.t) (sidecar_id : SidecarId.t)
    (subject : EntityRef.t) (observed_at : DateTime) : ObservationContext.t := {|
  ObservationContext.source := {|
    ObservationSource.sidecar_id := sidecar_id;
    ObservationSource.collector := CollectorDescriptor.as_ref descriptor;
  |};
  ObservationContext.subject := subject;
  ObservationContext.observed_at := observed_at;
  ObservationContext.origin := ObservationOrigin.Collected;
|}.

Definition build_batch `{UuidLib} (descriptor : CollectorDescriptor.t) (sidecar_id : SidecarId.t)
    (window : ProbeWindow.t) (result : ProbeResult.t) (n : nat) : ObservationBatch.t := {|
  ObservationBatch.id := ObservationBatchId.new n;
  ObservationBatch.collector := CollectorDescriptor.as_ref descriptor;
  ObservationBatch.sidecar_id := sidecar_id;
  ObservationBatch.window := window;
  ObservationBatch.result := result;
|}.

(** The first failure of a pass: its health target, its clock and its error. *)
Record Failure (E : Type) : Type := mk_failure {
  failed_target : string;
  failed_start : DateTime;
  failed_finish : DateTime;
  failed_error : E;
}.
Arguments mk_failure {E}.
Arguments failed_target {E}.
Arguments failed_start {E}.
Arguments failed_finish {E}.
Arguments failed_error {E}.

(** [failed]: the batch of a pass with a failure. [None] is the panic of the
    health target's [expect] or of the window. *)
Definition failed_batch `{UuidLib} {E} (kind_of : E → CollectionErrorKind.t)
    (text_of : E → string) (descriptor : CollectorDescriptor.t) (sidecar_id : SidecarId.t)
    (started_at batch_end : DateTime) (partials : list Observation.t) (f : Failure E) (n : nat) :
    option ObservationBatch.t :=
  let message := text_of (failed_error f) in
  target ← match HealthTargetId.parse (failed_target f) with
           | Ok target => Some target
           | Err _ => None
           end;
  let health := {|
    HealthCheckObservation.target := target;
    HealthCheckObservation.status := HealthStatus.Critical;
    HealthCheckObservation.latency_ms := duration_ms (failed_start f) (failed_finish f);
    HealthCheckObservation.message := Some message;
    HealthCheckObservation.error := None;
  |} in
  window ← safe_probe_window started_at (Z.max batch_end (failed_finish f));
  Some (build_batch descriptor sidecar_id window
    (ProbeResult.Failed health partials
       (CollectionError.mk (kind_of (failed_error f)) message)) n).

(** A pass without a failure. *)
Definition ok_batch `{UuidLib} (descriptor : CollectorDescriptor.t) (sidecar_id : SidecarId.t)
    (started_at ended_at : DateTime) (observations : list Observation.t) (n : nat) :
    option ObservationBatch.t :=
  window ← safe_probe_window started_at ended_at;
  Some (build_batch descriptor sidecar_id window (ProbeResult.Ok observations) n).

(** ** One pass of a poller *)

(** What a pass has gathered: the observations, the first failure and the
    UUIDs drawn. *)
Record pass (E : Type) : Type := mk_pass {
  partials : list Observation.t;
  first_failure : option (Failure E);
  drawn : nat;
}.
Arguments mk_pass {E}.
Arguments partials {E}.
Arguments first_failure {E}.
Arguments drawn {E}.

(** [partials.push] of an observation that draws its identifier. *)
Definition push {E} (obs : nat → Observation.t) (acc : pass E) : pass E :=
  mk_pass (partials acc ++ [obs (drawn acc)]) (first_failure acc) (S (drawn acc)).

(** [if first_failure.is_none()]. *)
Definition record_failure {E} (f : Failure E) (acc : pass E) : pass E :=
  mk_pass (partials acc)
    (match first_failure acc with Some f0 => Some f0 | None => Some f end) (drawn acc).

(** The health observation of a call that succeeded. *)
Definition ok_health `{UuidLib} (ctx : ObservationContext.t) (target : string)
    (s e : DateTime) : nat → Observation.t :=
  Observation.health ctx (HealthTargetId.from_well_known target) HealthStatus.Ok
    (duration_ms s e) None None empty_attrs.

(** The stanza of one call: a state and a health observation on success. *)
Definition absorb `{UuidLib} {T E} (descriptor : CollectorDescriptor.t)
    (sidecar_id : SidecarId.t) (subject : EntityRef.t) (target : string)
    (to_state : T → StateObservation.t) (r : Timed.t (Result T E)) (acc : pass E) : pass E :=
  let s := Timed.start r in let e := Timed.finish r in
  let ctx := obs_context descriptor sidecar_id subject s in
  match Timed.output r with
  | Ok info =>
      let acc := push (Observation.state ctx (to_state info) empty_attrs) acc in
      push (ok_health ctx target s e) acc
  | Err err => record_failure (mk_failure target s e err) acc
  end.

(** The sink of a subscription collector. *)
Module SinkError.
Inductive t : Type := Closed.
End SinkError.

(** ** The traits *)

(** A collector that is polled: [Answer] is what the outside returns during
    one poll and [n] the UUIDs drawn so far. [poll] takes [&self], yet leaves
    the collector with what its cells hold afterwards; [None] is a panic. *)
Class PollingCollector (C : Type) : Type := {
  Answer : Type;
  descriptor : C → CollectorDescriptor.t;
  poll : C → CollectionContext.t → Answer → nat → C * option ObservationBatch.t;
}.

(** What the supervisor and the consumer count on: a poll returns, with a
    batch of this collector and this sidecar over an ordered window, and the
    collector keeps its descriptor. *)
Class PollingCollectorLaws (C : Type) `{PollingCollector C} : Prop := {
  poll_returns c ctx a n : ∃ c' b, poll c ctx a n = (c', Some b) ∧
    descriptor c' = descriptor c ∧
    ObservationBatch.collector b = CollectorDescriptor.as_ref (descriptor c) ∧
    ObservationBatch.sidecar_id b = CollectionContext.sidecar_id ctx ∧
    (ProbeWindow.started_at (ObservationBatch.window b)
       ≤ ProbeWindow.completed_at (ObservationBatch.window b))%Z;
}.

(** ** Facts *)

(** The window of a probe: ordered, ending at the completion; a clock that
    went backwards collapses it. *)
Lemma safe_probe_window_spec s c :
  ∃ w, safe_probe_window s c = Some w ∧
    ProbeWindow.completed_at w = c ∧ ProbeWindow.started_at w = Z.min s c ∧
    (ProbeWindow.started_at w ≤ ProbeWindow.completed_at w)%Z.
Proof.
  unfold safe_probe_window, ProbeWindow.new. rewrite Z.ltb_irrefl.
  destruct (Z.ltb_spec c s); eexists; (split; [done|]); cbn; lia.
Qed.

(** Latencies are whole milliseconds, absent when the clock went backwards. *)
Lemma duration_ms_spec s e :
  (e - s < 2 ^ 63)%Z →
  match duration_ms s e with
  | Some ms => (ms * 1000000 ≤ Z.max 0 (e - s) < (ms + 1) * 1000000)%Z
  | None => (e - s ≤ - 1000000)%Z
  end.
Proof.
  intros Hlt. unfold duration_ms, num_milliseconds, as_u64.
  pose proof (Z.quot_rem' (e - s) 1000000) as Hqr.
  pose proof (Z.rem_bound_abs (e - s) 1000000 ltac:(lia)) as Hr.
  assert (0 ≤ e - s → 0 ≤ Z.rem (e - s) 1000000)%Z as Hp by (intros; by apply Z.rem_nonneg).
  assert (e - s ≤ 0 → Z.rem (e - s) 1000000 ≤ 0)%Z as Hn by (intros; by apply Z.rem_nonpos).
  destruct (Z.ltb_spec (Z.quot (e - s) 1000000) 0) as [Hneg|Hpos]; [lia|].
  rewrite Z.mod_small by lia. lia.
Qed.

(** The result a pass amounts to. *)
Definition result_of {E} (kind_of : E → CollectionErrorKind.t) (text_of : E → string)
    (acc : pass E) : ProbeResult.t :=
  match first_failure acc with
  | None => ProbeResult.Ok (partials acc)
  | Some f => ProbeResult.Failed {|
      HealthCheckObservation.target := HealthTargetId.mk (failed_target f);
      HealthCheckObservation.status := HealthStatus.Critical;
      HealthCheckObservation.latency_ms := duration_ms (failed_start f) (failed_finish f);
      HealthCheckObservation.message := Some (text_of (failed_error f));
      HealthCheckObservation.error := None;
    |} (partials acc) (CollectionError.mk (kind_of (failed_error f)) (text_of (failed_error f)))
  end.

(** The end of a pass, either way. *)
Lemma batch_some `{UuidLib} {E} kind_of text_of d sid s e (acc : pass E) n :
  (∀ f, first_failure acc = Some f →
     HealthTargetId.parse (failed_target f) = Ok (HealthTargetId.mk (failed_target f))) →
  ∃ b, match first_failure acc with
       | Some f => failed_batch kind_of text_of d sid s e (partials acc) f n
       | None => ok_batch d sid s e (partials acc) n
       end = Some b ∧
    ObservationBatch.collector b = CollectorDescriptor.as_ref d ∧
    ObservationBatch.sidecar_id b = sid ∧
    (ProbeWindow.started_at (ObservationBatch.window b)
       ≤ ProbeWindow.completed_at (ObservationBatch.window b))%Z ∧
    ObservationBatch.result b = result_of kind_of text_of acc.
Proof.
  intros Hparse. unfold result_of. destruct (first_failure acc) as [f|].
  - unfold failed_batch. rewrite (Hparse f) by done; cbn.
    destruct (safe_probe_window_spec s (Z.max e (failed_finish f))) as (w & -> & _ & _ & Hw); cbn.
    by eexists.
  - unfold ok_batch. destruct (safe_probe_window_spec s e) as (w & -> & _ & _ & Hw); cbn.
    by eexists.
Qed.

(** The part of an observation a pass decides. *)
Definition entry (o : Observation.t) : EntityRef.t * ObservationPayload.t :=
  (Observation.subject o, Observation.payload o).

Definition collected_by (d : CollectorDescriptor.t) (sid : SidecarId.t) (o : Observation.t) : Prop :=
  Observation.source o = ObservationSource.mk sid (CollectorDescriptor.as_ref d) ∧
  Observation.origin o = ObservationOrigin.Collected.

(** The payload of the health observation of a call that succeeded. *)
Definition ok_health_payload (target : string) (s e : DateTime) : ObservationPayload.t :=
  ObservationPayload.Health {|
    HealthCheckObservation.target := HealthTargetId.mk target;
    HealthCheckObservation.status := HealthStatus.Ok;
    HealthCheckObservation.latency_ms := duration_ms s e;
    HealthCheckObservation.message := None;
    HealthCheckObservation.error := None;
  |}.

(** The payloads and the failure of one call, read off its result. *)
Definition payloads_of {T E} (target : string) (to_state : T → StateObservation.t)
    (r : Timed.t (Result T E)) : list ObservationPayload.t :=
  match Timed.output r with
  | Ok info =>
      [ObservationPayload.State (to_state info);
       ok_health_payload target (Timed.start r) (Timed.finish r)]
  | Err _ => []
  end.

Definition failure_of {T E} (target : string) (r : Timed.t (Result T E)) : list (Failure E) :=
  match Timed.output r with
  | Ok _ => []
  | Err e => [mk_failure target (Timed.start r) (Timed.finish r) e]
  end.

(** What a stanza adds is observed when its call began. *)
Lemma absorb_observed `{UuidLib} {T E} (P : DateTime → Prop) d sid subject target
    (f : T → StateObservation.t) (r : Timed.t (Result T E)) (acc : pass E) :
  P (Timed.start r) → Forall (λ o, P (Observation.observed_at o)) (partials acc) →
  Forall (λ o, P (Observation.observed_at o)) (partials (absorb d sid subject target f r acc)).
Proof.
  intros Hr Hacc. unfold absorb. destruct (Timed.output r); cbn; [|done].
  by repeat (apply Forall_app; split); [|constructor..].
Qed.

(** What holds of a pass that started at draw [n0]. *)
Record gathered `{UuidLib} (d : CollectorDescriptor.t) (sid : SidecarId.t) (n0 : nat) {E}
    (acc : pass E) (entries : list (EntityRef.t * ObservationPayload.t))
    (failures : list (Failure E)) : Prop := {
  g_entries : entry <$> partials acc = entries;
  g_failure : first_failure acc = head failures;
  g_drawn : drawn acc = n0 + length (partials acc);
  g_ids : Observation.id <$> partials acc = ObservationId.new <$> seq n0 (length (partials acc));
  g_source : Forall (collected_by d sid) (partials acc);
}.

Section gathered_lemmas.
Context `{UuidLib} {E : Type} (d : CollectorDescriptor.t) (sid : SidecarId.t) (n0 : nat).
Implicit Types (acc : pass E).

Lemma gathered_nil : gathered d sid n0 (mk_pass (E := E) [] None n0) [] [].
Proof. by split; cbn. Qed.

Lemma gathered_push acc es fs subject at_ payload :
  gathered d sid n0 acc es fs →
  gathered d sid n0
    (push (λ n, Observation.of_payload (obs_context d sid subject at_) empty_attrs n payload) acc)
    (es ++ [(subject, payload)]) fs.
Proof.
  intros [He Hf Hd Hi Hs]. split; cbn; [by rewrite fmap_app, He|done|rewrite length_app; cbn; lia| |].
  - rewrite fmap_app, Hi, length_app, seq_app, fmap_app; cbn. by rewrite Hd.
  - apply Forall_app. split; [done|]. by repeat constructor.
Qed.

Lemma gathered_failure acc es fs f :
  gathered d sid n0 acc es fs → gathered d sid n0 (record_failure f acc) es (fs ++ [f]).
Proof. intros [He Hf Hd Hi Hs]. split; cbn; try done. rewrite Hf. by destruct fs. Qed.

Lemma gathered_absorb {T} subject target to_state (r : Timed.t (Result T E)) acc es fs :
  gathered d sid n0 acc es fs →
  gathered d sid n0 (absorb d sid subject target to_state r acc)
    (es ++ (pair subject <$> payloads_of target to_state r)) (fs ++ failure_of target r).
Proof.
  intros Hg. unfold absorb, payloads_of, failure_of. destruct (Timed.output r) as [info|e].
  - rewrite app_nil_r. cbn [fmap list_fmap].
    rewrite (cons_middle (subject, ObservationPayload.State _)), (assoc_L (++)).
    apply gathered_push. by apply gathered_push.
  - rewrite app_nil_r. by apply gathered_failure.
Qed.
End gathered_lemmas.

Lemma draws_NoDup `{UuidLaws} n k : NoDup (ObservationId.new <$> seq n k).
Proof. apply NoDup_fmap_2; [|apply NoDup_seq]. intros x y [=Hxy]. by apply now_v7_inj. Qed.

(** The observations a result carries. *)
Definition carried (r : ProbeResult.t) : list Observation.t :=
  match r with
  | ProbeResult.Ok observations => observations
  | ProbeResult.Failed _ partial_observations _ => partial_observations
  end.
