(* ===== verification/BitcoinPoller.v ===== *)
(** * The Bitcoin Core poller: [collectors/bitcoin_core/rpc_client.rs],
    [collectors/bitcoin_core/rpc.rs]

    [call] is one JSON-RPC exchange: the network's answer within the timeout
    is an input, and the cookie file and the decoders are parameters. [poll]
    is one pass: the four calls run concurrently, draw their request numbers
    in the order the [join!] first polls them and are processed in spec
    order. *)

From stdpp Require Import pretty.
From S2P Require Import Prelude RustStr Names SharedTypes F64 CollectorTypes Observations Samples Senders Collectors.

(** ** Messages *)

Module RpcError.
Inductive t : Type :=
  | Network (e : string)
  | Timeout
  | HttpStatus (status : Z)
  | BitcoindError (code : Z) (message : string)
  | Decode (e : string)
  | Auth
  | IdMismatch (expected got : string).

Definition collection_error_kind (e : t) : CollectionErrorKind.t :=
  match e with
  | Network _ => CollectionErrorKind.Unreachable
  | Timeout => CollectionErrorKind.Timeout
  | Auth => CollectionErrorKind.AuthenticationFailed
  | HttpStatus _ => CollectionErrorKind.ProtocolError
  | BitcoindError _ _ => CollectionErrorKind.InvalidResponse
  | Decode _ => CollectionErrorKind.DecodeError
  | IdMismatch _ _ => CollectionErrorKind.ProtocolError
  end.

(** The derived [Display]. *)
Definition to_string (e : t) : string :=
  match e with
  | Network e => "network error: " +:+ e
  | Timeout => "timed out"
  | HttpStatus status => "http status " +:+ pretty status
  | BitcoindError code message => "bitcoind returned error " +:+ pretty code +:+ ": " +:+ message
  | Decode e => "decode error: " +:+ e
  | Auth => "authentication failed"
  | IdMismatch expected got => "JSON-RPC id mismatch: expected " +:+ expected +:+ ", got " +:+ got
  end.
End RpcError.

Module RpcRequest.
Record t : Type := mk { jsonrpc : string; id : string; method : string; params : list Json.t }.
End RpcRequest.

Module RpcErrorEnvelope.
Record t : Type := mk { code : Z; message : string }.
End RpcErrorEnvelope.

Module RpcResponse.
Record t (T : Type) : Type := mk {
  result : option T;
  error : option RpcErrorEnvelope.t;
  id : option Json.t;
}.
Arguments mk {T}.
Arguments result {T}.
Arguments error {T}.
Arguments id {T}.
End RpcResponse.

Module GetBlockchainInfoResponse.
Record t : Type := mk {
  chain : string;
  blocks : Z;
  headers : Z;
  bestblockhash : option string;
  verificationprogress : f64;
  initialblockdownload : bool;
  pruned : bool;
  size_on_disk : Z;
}.
End GetBlockchainInfoResponse.

Module GetMempoolInfoResponse.
Record t : Type := mk { loaded : bool; size : Z; bytes : Z; usage : Z; maxmempool : Z }.
End GetMempoolInfoResponse.

Module GetNetworkInfoResponse.
Record t : Type := mk {
  version : Z;
  subversion : string;
  protocolversion : Z;
  connections : Z;
  connections_in : option Z;
  connections_out : option Z;
  networkactive : option bool;
}.
End GetNetworkInfoResponse.

Module PeerInfoEntry.
Record t : Type := mk {
  inbound : bool;
  addr : option string;
  subver : option string;
  connection_type : option string;
}.
End PeerInfoEntry.

Abbreviation GetPeerInfoResponse := (list PeerInfoEntry.t).

(** [serde_json::from_slice] into the envelope of a response type, and the
    text of a JSON value. *)
Class RpcJson : Type := {
  decode_blockchain_info : string → Result (RpcResponse.t GetBlockchainInfoResponse.t) string;
  decode_mempool_info : string → Result (RpcResponse.t GetMempoolInfoResponse.t) string;
  decode_network_info : string → Result (RpcResponse.t GetNetworkInfoResponse.t) string;
  decode_peer_info : string → Result (RpcResponse.t GetPeerInfoResponse) string;
  value_to_string : Json.t → string;
}.

(** The file system as far as the cookie file goes. *)
Class CookieFs : Type := { read_to_string : string → option string }.

(** ** The client *)

Module BitcoinRpcClient.
Record t : Type := mk_client {
  url : string;
  auth : BitcoinRpcAuth.t;
  timeout : Duration;
  (** The next request number, shared by the clones of the client. *)
  rpc_seq : Z;
}.

Definition new (url : string) (auth : BitcoinRpcAuth.t) (timeout : Duration) : t :=
  mk_client url auth timeout 1.
End BitcoinRpcClient.

(** What comes back within the timeout: nothing, a transport error, or a
    response whose body may in turn be late or broken. *)
Module HttpAnswer.
Inductive body : Type :=
  | BodyElapsed
  | BodyError (e : string)
  | Bytes (s : string).

Inductive t : Type :=
  | Elapsed
  | Failed (e : string)
  | Response (status : Z) (b : body).
End HttpAnswer.

(** [serde_json::Value::as_str]. *)
Definition as_str (v : Json.t) : option string :=
  match v with
  | Json.Str s => Some s
  | _ => None
  end.

Section client.
Context `{RpcJson, CookieFs}.

Definition resolve_auth (auth : BitcoinRpcAuth.t) : Result (string * string) RpcError.t :=
  match auth with
  | BitcoinRpcAuth.UserPass user pass => Ok (user, pass)
  | BitcoinRpcAuth.CookieFile path =>
      let? raw := ok_or (read_to_string path) RpcError.Auth in
      ok_or (split_once ":" (trim raw)) RpcError.Auth
  end.

Definition request_id (seq : Z) : string := "bithound-" +:+ pretty seq.

Definition request (method : string) (seq : Z) : RpcRequest.t :=
  RpcRequest.mk "1.0" (request_id seq) method [].

(** The envelope of a 2xx body. *)
Definition open_envelope {T} (id : string) (envelope : RpcResponse.t T) : Result T RpcError.t :=
  let response_id := RpcResponse.id envelope ≫= as_str in
  if negb (bool_decide (response_id = Some id)) then
    Err (RpcError.IdMismatch id
      (default "<missing>" (value_to_string <$> RpcResponse.id envelope)))
  else
    match RpcResponse.error envelope with
    | Some err => Err (RpcError.BitcoindError (RpcErrorEnvelope.code err)
                    (RpcErrorEnvelope.message err))
    | None => ok_or (RpcResponse.result envelope)
                (RpcError.BitcoindError 0 "missing result in JSON-RPC envelope")
    end.

Definition call {T} (decode : string → Result (RpcResponse.t T) string)
    (auth : BitcoinRpcAuth.t) (seq : Z) (answer : HttpAnswer.t) : Result T RpcError.t :=
  let id := request_id seq in
  let? _ := resolve_auth auth in
  match answer with
  | HttpAnswer.Elapsed => Err RpcError.Timeout
  | HttpAnswer.Failed e => Err (RpcError.Network e)
  | HttpAnswer.Response status body =>
      if (status =? 401)%Z || (status =? 403)%Z then Err RpcError.Auth
      else if negb (in_range 200 299 status) then Err (RpcError.HttpStatus status)
      else
        match body with
        | HttpAnswer.BodyElapsed => Err RpcError.Timeout
        | HttpAnswer.BodyError e => Err (RpcError.Network e)
        | HttpAnswer.Bytes body =>
            let? envelope := map_err RpcError.Decode (decode body) in
            open_envelope id envelope
        end
  end.

Definition get_blockchain_info := call decode_blockchain_info.
Definition get_mempool_info := call decode_mempool_info.
Definition get_network_info := call decode_network_info.
Definition get_peer_info := call decode_peer_info.
End client.

(** [fetch_add(1)] on an [AtomicU64]. *)
Definition next_seq (seq : Z) : Z := ((seq + 1) mod 2 ^ 64)%Z.

(** ** Responses as states *)

Definition blockchain_state (r : GetBlockchainInfoResponse.t) : BitcoinBlockchainState.t := {|
  BitcoinBlockchainState.chain := GetBlockchainInfoResponse.chain r;
  BitcoinBlockchainState.blocks := GetBlockchainInfoResponse.blocks r;
  BitcoinBlockchainState.headers := GetBlockchainInfoResponse.headers r;
  BitcoinBlockchainState.best_block_hash := GetBlockchainInfoResponse.bestblockhash r;
  BitcoinBlockchainState.verification_progress :=
    GetBlockchainInfoResponse.verificationprogress r;
  BitcoinBlockchainState.initial_block_download :=
    GetBlockchainInfoResponse.initialblockdownload r;
  BitcoinBlockchainState.pruned := GetBlockchainInfoResponse.pruned r;
  BitcoinBlockchainState.size_on_disk_bytes := GetBlockchainInfoResponse.size_on_disk r;
|}.

Definition mempool_state (r : GetMempoolInfoResponse.t) : BitcoinMempoolState.t := {|
  BitcoinMempoolState.loaded := GetMempoolInfoResponse.loaded r;
  BitcoinMempoolState.tx_count := GetMempoolInfoResponse.size r;
  BitcoinMempoolState.bytes := GetMempoolInfoResponse.bytes r;
  BitcoinMempoolState.usage_bytes := GetMempoolInfoResponse.usage r;
  BitcoinMempoolState.max_mempool_bytes := GetMempoolInfoResponse.maxmempool r;
|}.

Definition network_state (r : GetNetworkInfoResponse.t) : BitcoinNetworkState.t := {|
  BitcoinNetworkState.version := GetNetworkInfoResponse.version r;
  BitcoinNetworkState.subversion := GetNetworkInfoResponse.subversion r;
  BitcoinNetworkState.protocol_version := GetNetworkInfoResponse.protocolversion r;
  BitcoinNetworkState.connections := GetNetworkInfoResponse.connections r;
  BitcoinNetworkState.connections_in := GetNetworkInfoResponse.connections_in r;
  BitcoinNetworkState.connections_out := GetNetworkInfoResponse.connections_out r;
  BitcoinNetworkState.network_active := GetNetworkInfoResponse.networkactive r;
|}.

Definition count_where {A} (P : A → bool) (l : list A) : Z :=
  Z.of_nat (length (filter (λ x, P x = true) l)).

Definition is_block_relay_only (p : PeerInfoEntry.t) : bool :=
  match PeerInfoEntry.connection_type p with
  | Some ty => String.eqb ty "block-relay-only"
  | None => false
  end.

Definition peer_summary_state (peers : GetPeerInfoResponse) : BitcoinPeerSummaryState.t :=
  let peer_count := Z.of_nat (length peers) in
  let inbound_count := count_where PeerInfoEntry.inbound peers in
  let outbound_count := (peer_count - inbound_count)%Z in
  let connection_type_supported :=
    bool_decide (peers ≠ []) && existsb (λ p, is_some (PeerInfoEntry.connection_type p)) peers in
  let block_relay_only_count :=
    if connection_type_supported then Some (count_where is_block_relay_only peers) else None in
  {|
    BitcoinPeerSummaryState.peer_count := peer_count;
    BitcoinPeerSummaryState.inbound_count := Some inbound_count;
    BitcoinPeerSummaryState.outbound_count := Some outbound_count;
    BitcoinPeerSummaryState.block_relay_only_count := block_relay_only_count;
  |}.

(** ** The collector *)

Module CollectorBuildError.
Inductive t : Type :=
  | InvalidUrl (e : string)
  | WrongTargetKind (target : CollectorTarget.t).
End CollectorBuildError.

(** [reqwest::Url::parse]: the text of its error. *)
Class UrlLib : Type := { url_parse_error : string → option string }.

Module BitcoinCoreRpcCollectorConfig.
Record t : Type := mk { timeout_per_rpc : Duration }.
Definition default : t := mk (from_secs 5).
End BitcoinCoreRpcCollectorConfig.

Module BitcoinCoreRpcCollector.
Record t : Type := mk {
  descriptor : CollectorDescriptor.t;
  node_id : BitcoinNodeId.t;
  client : BitcoinRpcClient.t;
}.

Definition new `{UrlLib} (descriptor : CollectorDescriptor.t)
    (connection : BitcoinNodeConnection.t) (config : BitcoinCoreRpcCollectorConfig.t) :
    Result t CollectorBuildError.t :=
  match url_parse_error (BitcoinNodeConnection.rpc_url connection) with
  | Some e => Err (CollectorBuildError.InvalidUrl
                (BitcoinNodeConnection.rpc_url connection +:+ ": " +:+ e))
  | None =>
      match CollectorDescriptor.target descriptor with
      | CollectorTarget.BitcoinNode id => Ok {|
          descriptor := descriptor;
          node_id := id;
          client := BitcoinRpcClient.new (BitcoinNodeConnection.rpc_url connection)
                      (BitcoinNodeConnection.rpc_auth connection)
                      (BitcoinCoreRpcCollectorConfig.timeout_per_rpc config);
        |}
      | other => Err (CollectorBuildError.WrongTargetKind other)
      end
  end.
End BitcoinCoreRpcCollector.

Section poll.
Context `{UuidLib, RpcJson, CookieFs}.

(** The answers of one pass and its clock. *)
Record Answers : Type := mk_answers {
  started_at : DateTime;
  blockchain_answer : Timed.t HttpAnswer.t;
  mempool_answer : Timed.t HttpAnswer.t;
  network_answer : Timed.t HttpAnswer.t;
  peers_answer : Timed.t HttpAnswer.t;
  ended_at : DateTime;
}.

Definition timed_call {T} (f : HttpAnswer.t → T) (a : Timed.t HttpAnswer.t) : Timed.t T :=
  Timed.mk (Timed.start a) (Timed.finish a) (f (Timed.output a)).

(** The four results of the [join!], with their request numbers. *)
Definition fetch_all (client : BitcoinRpcClient.t) (a : Answers) :
    Timed.t (Result GetBlockchainInfoResponse.t RpcError.t) *
    Timed.t (Result GetMempoolInfoResponse.t RpcError.t) *
    Timed.t (Result GetNetworkInfoResponse.t RpcError.t) *
    Timed.t (Result GetPeerInfoResponse RpcError.t) :=
  let auth := BitcoinRpcClient.auth client in
  let seq0 := BitcoinRpcClient.rpc_seq client in
  let seq1 := next_seq seq0 in let seq2 := next_seq seq1 in let seq3 := next_seq seq2 in
  (timed_call (get_blockchain_info auth seq0) (blockchain_answer a),
   timed_call (get_mempool_info auth seq1) (mempool_answer a),
   timed_call (get_network_info auth seq2) (network_answer a),
   timed_call (get_peer_info auth seq3) (peers_answer a)).

(** The client the four calls leave, and the collector with it. *)
Definition requested (client : BitcoinRpcClient.t) : BitcoinRpcClient.t :=
  BitcoinRpcClient.mk_client (BitcoinRpcClient.url client) (BitcoinRpcClient.auth client)
    (BitcoinRpcClient.timeout client)
    (next_seq (next_seq (next_seq (next_seq (BitcoinRpcClient.rpc_seq client))))).

Definition polled_once (c : BitcoinCoreRpcCollector.t) : BitcoinCoreRpcCollector.t := {|
  BitcoinCoreRpcCollector.descriptor := BitcoinCoreRpcCollector.descriptor c;
  BitcoinCoreRpcCollector.node_id := BitcoinCoreRpcCollector.node_id c;
  BitcoinCoreRpcCollector.client := requested (BitcoinCoreRpcCollector.client c);
|}.

Definition gather (c : BitcoinCoreRpcCollector.t) (sidecar_id : SidecarId.t) (a : Answers)
    (n : nat) : pass RpcError.t :=
  let '(bc, mp, nw, pi) := fetch_all (BitcoinCoreRpcCollector.client c) a in
  let d := BitcoinCoreRpcCollector.descriptor c in
  let subject := EntityRef.BitcoinNode (BitcoinCoreRpcCollector.node_id c) in
  let acc := mk_pass [] None n in
  let acc := absorb d sidecar_id subject bitcoin_rpc_health.HEALTH_BLOCKCHAIN
               (λ r, StateObservation.BitcoinBlockchain (blockchain_state r)) bc acc in
  let acc := absorb d sidecar_id subject bitcoin_rpc_health.HEALTH_MEMPOOL
               (λ r, StateObservation.BitcoinMempool (mempool_state r)) mp acc in
  let acc := absorb d sidecar_id subject bitcoin_rpc_health.HEALTH_NETWORK
               (λ r, StateObservation.BitcoinNetwork (network_state r)) nw acc in
  absorb d sidecar_id subject bitcoin_rpc_health.HEALTH_PEERS
    (λ r, StateObservation.BitcoinPeerSummary (peer_summary_state r)) pi acc.

(** [poll]: the collector with its counter advanced, and the batch. *)
Definition poll (c : BitcoinCoreRpcCollector.t) (ctx : CollectionContext.t) (a : Answers)
    (n : nat) : BitcoinCoreRpcCollector.t * option ObservationBatch.t :=
  let sidecar_id := CollectionContext.sidecar_id ctx in
  let d := BitcoinCoreRpcCollector.descriptor c in
  let acc := gather c sidecar_id a n in
  (polled_once c,
   match first_failure acc with
   | Some f =>
       failed_batch RpcError.collection_error_kind RpcError.to_string d sidecar_id
         (started_at a) (ended_at a) (partials acc) f (drawn acc)
   | None => ok_batch d sidecar_id (started_at a) (ended_at a) (partials acc) (drawn acc)
   end).

(** ** What a pass yields *)

(** The payloads and the failures of a pass, in spec order. *)
Definition pass_payloads (c : BitcoinCoreRpcCollector.t) (a : Answers) : list ObservationPayload.t :=
  let '(bc, mp, nw, pi) := fetch_all (BitcoinCoreRpcCollector.client c) a in
  payloads_of bitcoin_rpc_health.HEALTH_BLOCKCHAIN
    (λ r, StateObservation.BitcoinBlockchain (blockchain_state r)) bc ++
  payloads_of bitcoin_rpc_health.HEALTH_MEMPOOL
    (λ r, StateObservation.BitcoinMempool (mempool_state r)) mp ++
  payloads_of bitcoin_rpc_health.HEALTH_NETWORK
    (λ r, StateObservation.BitcoinNetwork (network_state r)) nw ++
  payloads_of bitcoin_rpc_health.HEALTH_PEERS
    (λ r, StateObservation.BitcoinPeerSummary (peer_summary_state r)) pi.

Definition pass_failures (c : BitcoinCoreRpcCollector.t) (a : Answers) : list (Failure RpcError.t) :=
  let '(bc, mp, nw, pi) := fetch_all (BitcoinCoreRpcCollector.client c) a in
  failure_of bitcoin_rpc_health.HEALTH_BLOCKCHAIN bc ++
  failure_of bitcoin_rpc_health.HEALTH_MEMPOOL mp ++
  failure_of bitcoin_rpc_health.HEALTH_NETWORK nw ++
  failure_of bitcoin_rpc_health.HEALTH_PEERS pi.

Lemma gather_spec c sid a n :
  gathered (BitcoinCoreRpcCollector.descriptor c) sid n (gather c sid a n)
    (pair (EntityRef.BitcoinNode (BitcoinCoreRpcCollector.node_id c)) <$> pass_payloads c a)
    (pass_failures c a).
Proof.
  unfold gather, pass_payloads, pass_failures.
  destruct (fetch_all _ a) as [[[bc mp] nw] pi].
  rewrite !fmap_app, !(assoc_L (++)). do 3 apply gathered_absorb.
  apply (gathered_absorb _ _ _ _ _ _ _ _ [] []). apply gathered_nil.
Qed.

(** The calls of a pass, in spec order. *)
Definition calls (a : Answers) : list (Timed.t HttpAnswer.t) :=
  [blockchain_answer a; mempool_answer a; network_answer a; peers_answer a].

(** What a pass observes is observed when one of its calls began. *)
Lemma gather_observed (P : DateTime → Prop) c sid a n :
  Forall (λ x, P (Timed.start x)) (calls a) →
  Forall (λ o, P (Observation.observed_at o)) (partials (gather c sid a n)).
Proof.
  unfold calls. rewrite !Forall_cons. intros (Hb & Hm & Hn & Hp & _).
  unfold gather, fetch_all. by repeat apply absorb_observed.
Qed.

Lemma pass_failures_target c a f :
  f ∈ pass_failures c a → failed_target f ∈ bitcoin_rpc_health.HEALTH_TARGETS.
Proof.
  unfold pass_failures. destruct (fetch_all _ a) as [[[bc mp] nw] pi].
  rewrite !elem_of_app. unfold failure_of. intros [Hf|[Hf|[Hf|Hf]]]; case_match;
    (apply list_elem_of_singleton in Hf as -> || by apply elem_of_nil in Hf);
    cbn; set_solver.
Qed.

Lemma health_target_parses t :
  t ∈ bitcoin_rpc_health.HEALTH_TARGETS → HealthTargetId.parse t = Ok (HealthTargetId.mk t).
Proof.
  unfold bitcoin_rpc_health.HEALTH_TARGETS. rewrite !elem_of_cons, elem_of_nil.
  intros [->|[->|[->|[->|[]]]]]; reflexivity.
Qed.

(** Every success contributes two observations, every failure none. *)
Lemma pass_counts c a : length (pass_payloads c a) + 2 * length (pass_failures c a) = 8.
Proof.
  unfold pass_payloads, pass_failures. destruct (fetch_all _ a) as [[[bc mp] nw] pi].
  rewrite !length_app. unfold payloads_of, failure_of. repeat case_match; cbn; lia.
Qed.

(** The batch of a pass is that of what it gathered. *)
Lemma poll_some c ctx a n :
  ∃ b, poll c ctx a n = (polled_once c, Some b) ∧
    ObservationBatch.collector b = CollectorDescriptor.as_ref (BitcoinCoreRpcCollector.descriptor c) ∧
    ObservationBatch.sidecar_id b = CollectionContext.sidecar_id ctx ∧
    (ProbeWindow.started_at (ObservationBatch.window b)
       ≤ ProbeWindow.completed_at (ObservationBatch.window b))%Z ∧
    ObservationBatch.result b =
      result_of RpcError.collection_error_kind RpcError.to_string
        (gather c (CollectionContext.sidecar_id ctx) a n).
Proof.
  unfold poll. cbv zeta. edestruct @batch_some as (b & -> & Hspec); [|by exists b].
  intros f Hf. destruct (gather_spec c (CollectionContext.sidecar_id ctx) a n) as [_ Hff _ _ _].
  apply health_target_parses, (pass_failures_target c a).
  destruct (pass_failures c a); cbn in *; simplify_eq; constructor.
Qed.

(** C25: One pass of the Bitcoin poller. Whatever the node, the network and the
    clock do, [poll] returns a batch (it never panics) with an ordered window
    and leaves the client's request counter four further; the batch's
    observations are, in spec order, a state and a health observation
    for each call that succeeded, all of the collector's node and stamped with
    identifiers of their own. The result is [Ok] exactly when no call failed,
    with eight observations; otherwise it is [Failed] with a critical health
    entry for the first failed call in spec order, whose error gives the kind
    and the message. *)
Theorem bitcoin_poll_spec `{!UuidLaws} c ctx a n :
  ∃ b, poll c ctx a n = (polled_once c, Some b) ∧
    (ProbeWindow.started_at (ObservationBatch.window b)
       ≤ ProbeWindow.completed_at (ObservationBatch.window b))%Z ∧
    let obs := carried (ObservationBatch.result b) in
    entry <$> obs =
      pair (EntityRef.BitcoinNode (BitcoinCoreRpcCollector.node_id c)) <$> pass_payloads c a ∧
    Forall (collected_by (BitcoinCoreRpcCollector.descriptor c)
              (CollectionContext.sidecar_id ctx)) obs ∧
    NoDup (Observation.id <$> obs) ∧
    match pass_failures c a with
    | [] => ObservationBatch.result b = ProbeResult.Ok obs ∧ length obs = 8
    | f :: _ =>
        ObservationBatch.result b = ProbeResult.Failed {|
          HealthCheckObservation.target := HealthTargetId.mk (failed_target f);
          HealthCheckObservation.status := HealthStatus.Critical;
          HealthCheckObservation.latency_ms := duration_ms (failed_start f) (failed_finish f);
          HealthCheckObservation.message := Some (RpcError.to_string (failed_error f));
          HealthCheckObservation.error := None;
        |} obs (CollectionError.mk (RpcError.collection_error_kind (failed_error f))
                  (RpcError.to_string (failed_error f))) ∧
        length obs < 8
    end.
Proof.
  destruct (poll_some c ctx a n) as (b & Hb & _ & _ & Hw & Hr). exists b.
  pose proof (gather_spec c (CollectionContext.sidecar_id ctx) a n) as [Hp Hf _ Hi Hs].
  rewrite Hr. unfold result_of. rewrite Hf.
  set (acc := gather _ _ a n) in *.
  assert (length (partials acc) = length (pass_payloads c a)) as Hlen.
  { apply (f_equal length) in Hp. by rewrite !length_fmap in Hp. }
  assert (NoDup (Observation.id <$> partials acc)) by (rewrite Hi; apply draws_NoDup).
  pose proof (pass_counts c a) as Hcount.
  destruct (pass_failures c a); cbn in *; split_and!; try done; lia.
Qed.

#[global] Instance bitcoin_polling : PollingCollector BitcoinCoreRpcCollector.t := {|
  Collectors.Answer := Answers;
  Collectors.descriptor := BitcoinCoreRpcCollector.descriptor;
  Collectors.poll := poll;
|}.

#[global] Instance bitcoin_polling_laws : PollingCollectorLaws BitcoinCoreRpcCollector.t.
Proof.
  split. intros c ctx a n. destruct (poll_some c ctx a n) as (b & ? & ? & ? & ? & _).
  by exists (polled_once c), b.
Qed.
End poll.

(** ** One call *)

Section call_facts.
Context `{RpcJson, CookieFs}.

Lemma request_id_inj : Inj (=) (=) request_id.
Proof.
  intros n m Heq. unfold request_id in Heq. rewrite !string_app_cons, !string_app_nil_l in Heq.
  apply (inj pretty). by simplify_eq.
Qed.

#[local] Arguments request_id : simpl never.

Lemma open_envelope_ok {T} id (env : RpcResponse.t T) v :
  open_envelope id env = Ok v ↔
  RpcResponse.id env = Some (Json.Str id) ∧ RpcResponse.error env = None ∧
  RpcResponse.result env = Some v.
Proof.
  unfold open_envelope. case_bool_decide as Hid; cbn.
  - assert (RpcResponse.id env = Some (Json.Str id)) as Hid'.
    { destruct (RpcResponse.id env) as [[]|]; cbn in Hid; naive_solver. }
    destruct (RpcResponse.error env); [naive_solver|].
    destruct (RpcResponse.result env); cbn; naive_solver.
  - split; [done|]. intros (Hi & _). rewrite Hi in Hid. done.
Qed.

(** An answer counts only when it is the answer to this request. [call]
    returns a value exactly when the credentials resolve and a response with
    a 2xx status arrives whose body arrives, decodes, echoes this call's
    request id as a string, carries no error and carries that value. The same
    answer given to a call with another request number is rejected as an id
    mismatch, so no two calls of a client accept the same response. *)
Theorem rpc_answer_matched {T} (decode : string → Result (RpcResponse.t T) string) auth seq
    answer v :
  (call decode auth seq answer = Ok v ↔
   ∃ credentials status body env,
     resolve_auth auth = Ok credentials ∧
     answer = HttpAnswer.Response status (HttpAnswer.Bytes body) ∧
     (200 ≤ status ≤ 299)%Z ∧ decode body = Ok env ∧
     RpcResponse.id env = Some (Json.Str (request_id seq)) ∧
     RpcResponse.error env = None ∧ RpcResponse.result env = Some v) ∧
  (∀ seq', call decode auth seq answer = Ok v → seq' ≠ seq →
     ∃ got, call decode auth seq' answer = Err (RpcError.IdMismatch (request_id seq') got)).
Proof.
  assert (call decode auth seq answer = Ok v ↔
   ∃ credentials status body env,
     resolve_auth auth = Ok credentials ∧
     answer = HttpAnswer.Response status (HttpAnswer.Bytes body) ∧
     (200 ≤ status ≤ 299)%Z ∧ decode body = Ok env ∧
     RpcResponse.id env = Some (Json.Str (request_id seq)) ∧
     RpcResponse.error env = None ∧ RpcResponse.result env = Some v) as Hiff.
  { unfold call. destruct (resolve_auth auth) as [cred|e]; cbn; [|naive_solver].
    destruct answer as [|e|status [|e|body]];
      try (by split; [done|intros (?&?&?&?&?&[=]&_)]).
    all: unfold in_range; destruct (Z.eqb_spec status 401), (Z.eqb_spec status 403); cbn;
      try (split; [done|]; intros (?&?&?&?&?&[= <- ?]&?&?); lia).
    all: destruct (Z.leb_spec 200 status), (Z.leb_spec status 299); cbn;
      try (split; [done|]; intros (?&?&?&?&?&[= <- ?]&?&?); lia);
      try (by split; [done|intros (?&?&?&?&?&[=]&_)]).
    destruct (decode body) as [env|e] eqn:Hd; cbn; [|split; [done|]; intros (?&?&?&?&?&[= <- <-]&?&?&?); congruence].
    rewrite open_envelope_ok. split; [|intros (?&?&?&env'&?&[= <- <-]&?&Hd'&?&?&?); rewrite Hd in Hd'; injection Hd' as <-; done].
    intros (? & ? & ?). exists cred, status, body, env. repeat (split; [done || lia|]). done. }
  split; [exact Hiff|]. intros seq' (cred & status & body & env & Hc & -> & Hst & Hd & Hid & _)%Hiff Hne.
  unfold call, open_envelope. rewrite Hc; cbn.
  unfold in_range. destruct (Z.eqb_spec status 401), (Z.eqb_spec status 403); [lia..|]; cbn.
  destruct (Z.leb_spec 200 status), (Z.leb_spec status 299); [|lia..]; cbn. rewrite Hd; cbn.
  rewrite Hid; cbn. case_bool_decide as Heq; [|by eexists].
  apply (inj Some), request_id_inj in Heq. congruence.
Qed.
End call_facts.

(** The four calls of a pass have four request numbers. *)
Lemma next_seq_distinct seq :
  (0 ≤ seq < 2 ^ 64)%Z →
  NoDup [seq; next_seq seq; next_seq (next_seq seq); next_seq (next_seq (next_seq seq))].
Proof.
  intros Hs. unfold next_seq. rewrite !Zplus_mod_idemp_l.
  assert (∀ k, 0 ≤ k < 4 → (seq + k) mod 2 ^ 64 =
    if decide (seq + k < 2 ^ 64) then seq + k else seq + k - 2 ^ 64)%Z as Hm.
  { intros k Hk. case_decide; [by rewrite Z.mod_small by lia|].
    rewrite <-(Z.mod_small (seq + k - 2 ^ 64) (2 ^ 64)) by lia.
    rewrite <-(Z_mod_plus_full (seq + k - 2 ^ 64) 1 (2 ^ 64)). f_equal. lia. }
  rewrite <-!Z.add_assoc, !Hm by lia. rewrite !NoDup_cons, !elem_of_cons, !elem_of_nil.
  repeat case_decide; split_and!; try (by constructor); lia.
Qed.

(** The peer summary splits the peers: inbound and outbound add up to the
    count, without underflow, and the block-relay-only count is present
    exactly when some peer states its connection type. *)
Lemma peer_summary_spec peers :
  let s := peer_summary_state peers in
  BitcoinPeerSummaryState.peer_count s = Z.of_nat (length peers) ∧
  (∃ i o, BitcoinPeerSummaryState.inbound_count s = Some i ∧
     BitcoinPeerSummaryState.outbound_count s = Some o ∧
     (0 ≤ i ∧ 0 ≤ o ∧ i + o = BitcoinPeerSummaryState.peer_count s)%Z) ∧
  match BitcoinPeerSummaryState.block_relay_only_count s with
  | Some b => (0 ≤ b ≤ BitcoinPeerSummaryState.peer_count s)%Z ∧
              Exists (λ p, PeerInfoEntry.connection_type p ≠ None) peers
  | None => Forall (λ p, PeerInfoEntry.connection_type p = None) peers
  end.
Proof.
  cbn. assert (∀ P : PeerInfoEntry.t → bool, (0 ≤ count_where P peers ≤ Z.of_nat (length peers))%Z) as Hc.
  { intros P. unfold count_where. pose proof (length_filter (λ x, P x = true) peers). lia. }
  split_and!; [done| |].
  - pose proof (Hc PeerInfoEntry.inbound). eexists _, _. split_and!; [done..|lia|lia|lia].
  - case_bool_decide as Hne; cbn.
    + destruct (existsb _ peers) eqn:E.
      * split; [apply Hc|]. apply existsb_exists in E as (p & Hin & Hp).
        apply Exists_exists. exists p. rewrite list_elem_of_In. split; [done|].
        by destruct (PeerInfoEntry.connection_type p).
      * apply Forall_forall. intros p Hin%list_elem_of_In.
        destruct (PeerInfoEntry.connection_type p) eqn:Hp; [|done].
        assert (existsb (λ p, is_some (PeerInfoEntry.connection_type p)) peers = true); [|congruence].
        apply existsb_exists. exists p. by rewrite Hp.
    + by subst.
Qed.

(** ** Concrete inputs *)

(** A decoder that accepts any body as one envelope. *)
Definition sample_envelope {T} (seq : Z) (v : T) : RpcResponse.t T :=
  RpcResponse.mk (Some v) None (Some (Json.Str (request_id seq))).

(** The envelope of a node that is told the number in the response's body. *)
Definition echoed_envelope {T} (number : string) (v : T) : RpcResponse.t T :=
  RpcResponse.mk (Some v) None (Some (Json.Str ("bithound-" +:+ number))).

#[global] Instance sample_rpc_json : RpcJson := {|
  decode_blockchain_info _ := Ok (sample_envelope 1 (GetBlockchainInfoResponse.mk "main" 100 100
    None (S754_zero false) false false 0));
  decode_mempool_info _ := Ok (sample_envelope 2 (GetMempoolInfoResponse.mk true 0 0 0 0));
  decode_network_info _ := Ok (sample_envelope 3 (GetNetworkInfoResponse.mk 1 "" 1 0 None (Some 0%Z) (Some true)));
  decode_peer_info _ := Ok (sample_envelope 4 []);
  value_to_string _ := "";
|}.

#[global] Instance sample_cookie_fs : CookieFs := {| read_to_string _ := None |}.

Definition sample_bitcoin_collector : BitcoinCoreRpcCollector.t := {|
  BitcoinCoreRpcCollector.descriptor := {|
    CollectorDescriptor.id := CollectorId.mk "bitcoin-rpc";
    CollectorDescriptor.integration := IntegrationKind.BitcoinCoreRpc (from_secs 30);
    CollectorDescriptor.target := CollectorTarget.BitcoinNode sample_node;
    CollectorDescriptor.instance_label := "main";
    CollectorDescriptor.description := None;
  |};
  BitcoinCoreRpcCollector.node_id := sample_node;
  BitcoinCoreRpcCollector.client :=
    BitcoinRpcClient.new "http://localhost:8332" (BitcoinRpcAuth.UserPass "u" "p") (from_secs 5);
|}.

Definition sample_collection_context : CollectionContext.t := {|
  CollectionContext.sidecar_id := sample_sidecar;
  CollectionContext.collector_id := CollectorId.mk "bitcoin-rpc";
  CollectionContext.target := CollectorTarget.BitcoinNode sample_node;
  CollectionContext.now := 0;
  CollectionContext.run_id := CollectionRunId.mk (now_v7 0);
|}.

Definition answered (at_ : DateTime) : Timed.t HttpAnswer.t :=
  Timed.mk at_ (at_ + from_millis 7) (HttpAnswer.Response 200 (HttpAnswer.Bytes "{}")).
(** A body that says the request's number. *)
Definition echo (at_ : DateTime) (number : Z) : Timed.t HttpAnswer.t :=
  Timed.mk at_ (at_ + from_millis 7) (HttpAnswer.Response 200 (HttpAnswer.Bytes (pretty number))).
Definition unanswered (at_ : DateTime) : Timed.t HttpAnswer.t :=
  Timed.mk at_ (at_ + from_secs 5) HttpAnswer.Elapsed.

(** The mempool call times out: six observations and one failure. *)
Definition sample_answers : Answers :=
  mk_answers 1000 (answered 1000) (unanswered 1000) (answered 1000) (answered 1000) 9000.

Example sample_poll_batch :
  (λ b, length (carried (ObservationBatch.result b))) <$>
    (poll sample_bitcoin_collector sample_collection_context sample_answers 0).2 = Some 6.
Proof. vm_compute. reflexivity. Qed.

Lemma bitcoin_poll_spec_witness :
  ∃ b, poll sample_bitcoin_collector sample_collection_context sample_answers 0 =
      (polled_once sample_bitcoin_collector, Some b) ∧
    (ProbeWindow.started_at (ObservationBatch.window b)
       ≤ ProbeWindow.completed_at (ObservationBatch.window b))%Z.
Proof.
  destruct (bitcoin_poll_spec sample_bitcoin_collector sample_collection_context sample_answers 0)
    as (b & Hb & Hw & _).
  by exists b.
Defined.
