(* ===== verification/LndPoller.v ===== *)
(** * The LND poller: [collectors/lnd/grpc_client.rs], [collectors/lnd/grpc_poll.rs]

    The transport is tonic's: one RPC is its answer within the timeout. The
    message types are generated from [collectors/lnd/proto/lightning.proto],
    cut here to the fields the poller reads. [poll] is one pass: three calls
    run concurrently, the peers are turned into a lookup before the channels
    are processed. Sums of balances wrap as in a release build. *)

From stdpp Require Import pretty.
From S2P Require Import Prelude RustStr Names SharedTypes F64 CollectorTypes Observations Samples Collectors.

(** ** Messages *)

Module GetInfoResponse.
Record t : Type := mk {
  version : string;
  identity_pubkey : string;
  alias : string;
  num_pending_channels : Z;
  num_active_channels : Z;
  num_inactive_channels : Z;
  num_peers : Z;
  block_height : Z;
  synced_to_chain : bool;
  synced_to_graph : bool;
}.
End GetInfoResponse.

Module LnChannel.
Record t : Type := mk {
  active : bool;
  remote_pubkey : string;
  channel_point : string;
  chan_id : Z;
  capacity : Z;
  local_balance : Z;
  remote_balance : Z;
  commit_fee : Z;
  unsettled_balance : Z;
  csv_delay : Z;
  private : bool;
  initiator : bool;
  lifetime : Z;
}.
End LnChannel.

Module ListChannelsResponse.
Record t : Type := mk { channels : list LnChannel.t }.
End ListChannelsResponse.

Module LnPeer.
Record t : Type := mk { pub_key : string }.
End LnPeer.

Module ListPeersResponse.
Record t : Type := mk { peers : list LnPeer.t }.
End ListPeersResponse.

(** [tonic::Code], and its derived [Debug]. *)
Module Code.
Inductive t : Type :=
  | Ok | Cancelled | Unknown | InvalidArgument | DeadlineExceeded | NotFound
  | AlreadyExists | PermissionDenied | ResourceExhausted | FailedPrecondition
  | Aborted | OutOfRange | Unimplemented | Internal | Unavailable | DataLoss
  | Unauthenticated.

Definition debug (c : t) : string :=
  match c with
  | Ok => "Ok" | Cancelled => "Cancelled" | Unknown => "Unknown"
  | InvalidArgument => "InvalidArgument" | DeadlineExceeded => "DeadlineExceeded"
  | NotFound => "NotFound" | AlreadyExists => "AlreadyExists"
  | PermissionDenied => "PermissionDenied" | ResourceExhausted => "ResourceExhausted"
  | FailedPrecondition => "FailedPrecondition" | Aborted => "Aborted"
  | OutOfRange => "OutOfRange" | Unimplemented => "Unimplemented" | Internal => "Internal"
  | Unavailable => "Unavailable" | DataLoss => "DataLoss"
  | Unauthenticated => "Unauthenticated"
  end.
End Code.

(** [impl Debug for std::time::Duration]: the fraction's digits down to the
    last one that is not zero. *)
Fixpoint fraction_digits (width : nat) (divisor frac : Z) : string :=
  match width with
  | 0 => ""
  | S width =>
      if (frac <=? 0)%Z then ""
      else pretty (frac / divisor)%Z +:+ fraction_digits width (divisor / 10) (frac mod divisor)
  end.

Definition fmt_decimal (integer frac divisor : Z) : string :=
  pretty integer +:+
  (if (frac =? 0)%Z then "" else "." +:+ fraction_digits 9 divisor frac).

Definition debug_duration (d : Duration) : string :=
  if (1000000000 <=? d)%Z then
    fmt_decimal (d / 1000000000) (d mod 1000000000) 100000000 +:+ "s"
  else if (1000000 <=? d)%Z then fmt_decimal (d / 1000000) (d mod 1000000) 100000 +:+ "ms"
  else if (1000 <=? d)%Z then fmt_decimal (d / 1000) (d mod 1000) 100 +:+ "µs"
  else fmt_decimal d 0 1 +:+ "ns".

(** ** The client *)

Module ClientBuildError.
Inductive t : Type :=
  | TlsCertRead (path source : string)
  | MissingScheme (endpoint : string)
  | InvalidEndpoint (endpoint reason : string)
  | TlsConfig (e : string)
  | MacaroonInvalid.
End ClientBuildError.

Module LndRpcError.
Inductive t : Type :=
  | Status (code : Code.t) (message : string)
  | Transport (e : string)
  | Decode (e : string)
  | Timeout (d : Duration)
  | MacaroonInvalid.

Definition collection_error_kind (e : t) : CollectionErrorKind.t :=
  match e with
  | Timeout _ => CollectionErrorKind.Timeout
  | Decode _ => CollectionErrorKind.DecodeError
  | MacaroonInvalid => CollectionErrorKind.Misconfigured
  | Transport _ => CollectionErrorKind.Unreachable
  | Status code _ =>
      match code with
      | Code.Unavailable => CollectionErrorKind.Unreachable
      | Code.DeadlineExceeded => CollectionErrorKind.Timeout
      | Code.Unauthenticated => CollectionErrorKind.AuthenticationFailed
      | Code.PermissionDenied => CollectionErrorKind.PermissionDenied
      | Code.FailedPrecondition => CollectionErrorKind.Misconfigured
      | Code.Internal => CollectionErrorKind.Internal
      | Code.Unimplemented => CollectionErrorKind.UnsupportedVersion
      | Code.ResourceExhausted => CollectionErrorKind.RateLimited
      | Code.InvalidArgument => CollectionErrorKind.InvalidResponse
      | _ => CollectionErrorKind.Internal
      end
  end.

(** The derived [Display]. *)
Definition to_string `{DebugLib} (e : t) : string :=
  match e with
  | Status code message =>
      "tonic status: code=" +:+ Code.debug code +:+ " message=" +:+ debug_str message
  | Transport e => "transport error: " +:+ e
  | Decode e => "response decode failed: " +:+ e
  | Timeout d => "timeout after " +:+ debug_duration d
  | MacaroonInvalid => "macaroon metadata value invalid"
  end.
End LndRpcError.

(** The file system, and what tonic and [hex] accept: each check gives the
    text of its error, if any. A channel is known by its endpoint and roots. *)
Class GrpcLib : Type := {
  fs_read : string → Result string string;
  uri_error : string → option string;
  tls_config_error : string → option string;
  metadata_value_ok : string → bool;
  hex_encode : string → string;
}.

Module LndGrpcClient.
Record t : Type := mk_client {
  channel : string * string;
  macaroon_hex : string;
  timeout : Duration;
}.

Definition new `{GrpcLib} (endpoint tls_cert_path macaroon : string) (timeout : Duration) :
    Result t ClientBuildError.t :=
  if negb (starts_with "https://" endpoint) then Err (ClientBuildError.MissingScheme endpoint)
  else
    let? pem := map_err (ClientBuildError.TlsCertRead tls_cert_path) (fs_read tls_cert_path) in
    match uri_error endpoint with
    | Some reason => Err (ClientBuildError.InvalidEndpoint endpoint reason)
    | None =>
        match tls_config_error pem with
        | Some e => Err (ClientBuildError.TlsConfig e)
        | None =>
            let macaroon_hex_plain := hex_encode macaroon in
            if negb (metadata_value_ok macaroon_hex_plain) then
              Err ClientBuildError.MacaroonInvalid
            else Ok (mk_client (endpoint, pem) macaroon_hex_plain timeout)
        end
    end.
End LndGrpcClient.

(** What comes back within the timeout. *)
Module GrpcAnswer.
Inductive t (A : Type) : Type :=
  | Elapsed
  | Status (code : Code.t) (message : string)
  | Response (message : A).
Arguments Elapsed {A}.
Arguments Status {A}.
Arguments Response {A}.
End GrpcAnswer.

Section client.
Context `{GrpcLib}.

Definition stamp_macaroon (c : LndGrpcClient.t) : Result (string * string) LndRpcError.t :=
  let value := LndGrpcClient.macaroon_hex c in
  if metadata_value_ok value then Ok ("macaroon", value) else Err LndRpcError.MacaroonInvalid.

(** The body [get_info], [list_channels] and [list_peers] write out each. *)
Definition rpc {A} (c : LndGrpcClient.t) (answer : GrpcAnswer.t A) : Result A LndRpcError.t :=
  let? _ := stamp_macaroon c in
  match answer with
  | GrpcAnswer.Elapsed => Err (LndRpcError.Timeout (LndGrpcClient.timeout c))
  | GrpcAnswer.Status code message => Err (LndRpcError.Status code message)
  | GrpcAnswer.Response response => Ok response
  end.

Definition get_info : LndGrpcClient.t → GrpcAnswer.t GetInfoResponse.t → _ := rpc.
Definition list_channels : LndGrpcClient.t → GrpcAnswer.t ListChannelsResponse.t → _ := rpc.
Definition list_peers : LndGrpcClient.t → GrpcAnswer.t ListPeersResponse.t → _ := rpc.
End client.

(** ** Responses as states *)

Definition none_if_empty (s : string) : option string :=
  if String.eqb s "" then None else Some s.

Definition node_state_from (info : GetInfoResponse.t) : LndNodeState.t := {|
  LndNodeState.identity_pubkey := GetInfoResponse.identity_pubkey info;
  LndNodeState.alias := none_if_empty (GetInfoResponse.alias info);
  LndNodeState.version := none_if_empty (GetInfoResponse.version info);
  LndNodeState.num_active_channels := GetInfoResponse.num_active_channels info;
  LndNodeState.num_inactive_channels := Some (GetInfoResponse.num_inactive_channels info);
  LndNodeState.num_pending_channels := GetInfoResponse.num_pending_channels info;
  LndNodeState.num_peers := GetInfoResponse.num_peers info;
  LndNodeState.block_height := GetInfoResponse.block_height info;
  LndNodeState.synced_to_chain := GetInfoResponse.synced_to_chain info;
  LndNodeState.synced_to_graph := Some (GetInfoResponse.synced_to_graph info);
|}.

(** [i64] addition of a release build. *)
Definition i64_wrapping_add (a b : Z) : Z := ((a + b - i64_min) mod 2 ^ 64 + i64_min)%Z.

(** [.max(0) as u64]. *)
Definition clamp_u64 (n : Z) : Z := as_u64 (Z.max n 0).

(** The accumulators of the loop. *)
Record Totals : Type := mk_totals {
  active : Z;
  inactive : Z;
  total_capacity_sat : Z;
  local_balance_sat : Z;
  remote_balance_sat : Z;
  unsettled_balance_sat : Z;
}.

Definition add_channel (acc : Totals) (c : LnChannel.t) : Totals := {|
  active := if LnChannel.active c then (active acc + 1)%Z else active acc;
  inactive := if LnChannel.active c then inactive acc else (inactive acc + 1)%Z;
  total_capacity_sat := i64_wrapping_add (total_capacity_sat acc) (LnChannel.capacity c);
  local_balance_sat := i64_wrapping_add (local_balance_sat acc) (LnChannel.local_balance c);
  remote_balance_sat := i64_wrapping_add (remote_balance_sat acc) (LnChannel.remote_balance c);
  unsettled_balance_sat :=
    i64_wrapping_add (unsettled_balance_sat acc) (LnChannel.unsettled_balance c);
|}.

Definition channel_summary_from (resp : ListChannelsResponse.t) : LndChannelSummaryState.t :=
  let acc := foldl add_channel (mk_totals 0 0 0 0 0 0) (ListChannelsResponse.channels resp) in {|
  LndChannelSummaryState.active_channels := active acc;
  LndChannelSummaryState.inactive_channels := inactive acc;
  LndChannelSummaryState.pending_channels := 0;
  LndChannelSummaryState.total_capacity_sat := Some (clamp_u64 (total_capacity_sat acc));
  LndChannelSummaryState.local_balance_sat := clamp_u64 (local_balance_sat acc);
  LndChannelSummaryState.remote_balance_sat := clamp_u64 (remote_balance_sat acc);
  LndChannelSummaryState.unsettled_balance_sat := Some (clamp_u64 (unsettled_balance_sat acc));
|}.

Definition channel_state_from (c : LnChannel.t) (peer_online : option bool) : LndChannelState.t := {|
  LndChannelState.remote_pubkey := LnChannel.remote_pubkey c;
  LndChannelState.capacity_sat := clamp_u64 (LnChannel.capacity c);
  LndChannelState.local_balance_sat := clamp_u64 (LnChannel.local_balance c);
  LndChannelState.remote_balance_sat := clamp_u64 (LnChannel.remote_balance c);
  LndChannelState.active := LnChannel.active c;
  LndChannelState.private := LnChannel.private c;
  LndChannelState.initiator := LnChannel.initiator c;
  LndChannelState.csv_delay := LnChannel.csv_delay c;
  LndChannelState.commit_fee_sat := clamp_u64 (LnChannel.commit_fee c);
  LndChannelState.lifetime_seconds := clamp_u64 (LnChannel.lifetime c);
  LndChannelState.last_update_height := None;
  LndChannelState.short_channel_id :=
    if (LnChannel.chan_id c =? 0)%Z then None else Some (pretty (LnChannel.chan_id c));
  LndChannelState.peer_online := peer_online;
|}.

Definition connected_peer_set (resp : ListPeersResponse.t) : gset string :=
  list_to_set (LnPeer.pub_key <$> ListPeersResponse.peers resp).

(** ** The collector *)

Module LndBuildError.
Inductive t : Type :=
  | WrongTargetKind (target : CollectorTarget.t)
  | Client (e : ClientBuildError.t).
End LndBuildError.

Module LndGrpcPollingCollectorConfig.
Record t : Type := mk { timeout_per_rpc : Duration }.
Definition default : t := mk (from_secs 5).
End LndGrpcPollingCollectorConfig.

Module LndGrpcPollingCollector.
Record t : Type := mk {
  descriptor : CollectorDescriptor.t;
  node_id : LndNodeId.t;
  client : LndGrpcClient.t;
}.

Definition new `{GrpcLib} (descriptor : CollectorDescriptor.t)
    (connection : LndNodeConnection.t) (config : LndGrpcPollingCollectorConfig.t) :
    Result t LndBuildError.t :=
  let? node_id := match CollectorDescriptor.target descriptor with
                  | CollectorTarget.LndNode id => Ok id
                  | other => Err (LndBuildError.WrongTargetKind other)
                  end in
  let? client := map_err LndBuildError.Client
    (LndGrpcClient.new (LndNodeConnection.grpc_endpoint connection)
       (LndNodeConnection.tls_cert_path connection) (LndNodeConnection.macaroon connection)
       (LndGrpcPollingCollectorConfig.timeout_per_rpc config)) in
  Ok (mk descriptor node_id client).
End LndGrpcPollingCollector.

(** The health targets of [collectors/lnd/grpc_poll.rs]. *)
Module lnd_rpc_health.
Definition HEALTH_GET_INFO : string := "lnd.rpc.get_info".
Definition HEALTH_LIST_CHANNELS : string := "lnd.rpc.list_channels".
Definition HEALTH_LIST_PEERS : string := "lnd.rpc.list_peers".
Definition HEALTH_TARGETS : list string :=
  [HEALTH_GET_INFO; HEALTH_LIST_CHANNELS; HEALTH_LIST_PEERS].
End lnd_rpc_health.

Section poll.
Context `{UuidLib, DebugLib, GrpcLib}.

(** The answers of one pass and its clock. *)
Record LndAnswers : Type := mk_lnd_answers {
  started_at : DateTime;
  info_answer : Timed.t (GrpcAnswer.t GetInfoResponse.t);
  channels_answer : Timed.t (GrpcAnswer.t ListChannelsResponse.t);
  peers_answer : Timed.t (GrpcAnswer.t ListPeersResponse.t);
  ended_at : DateTime;
}.

Definition timed_rpc {A B} (f : A → B) (a : Timed.t A) : Timed.t B :=
  Timed.mk (Timed.start a) (Timed.finish a) (f (Timed.output a)).

(** The three results of the [join!]. *)
Definition fetch_all (client : LndGrpcClient.t) (a : LndAnswers) :
    Timed.t (Result GetInfoResponse.t LndRpcError.t) *
    Timed.t (Result ListChannelsResponse.t LndRpcError.t) *
    Timed.t (Result ListPeersResponse.t LndRpcError.t) :=
  (timed_rpc (get_info client) (info_answer a),
   timed_rpc (list_channels client) (channels_answer a),
   timed_rpc (list_peers client) (peers_answer a)).

Definition obs_context_for_node (c : LndGrpcPollingCollector.t) (sidecar_id : SidecarId.t)
    (observed_at : DateTime) : ObservationContext.t :=
  obs_context (LndGrpcPollingCollector.descriptor c) sidecar_id
    (EntityRef.LndNode (LndGrpcPollingCollector.node_id c)) observed_at.

Definition obs_context_for_channel (c : LndGrpcPollingCollector.t) (sidecar_id : SidecarId.t)
    (channel_id : LndChannelId.t) (observed_at : DateTime) : ObservationContext.t :=
  obs_context (LndGrpcPollingCollector.descriptor c) sidecar_id
    (EntityRef.LndChannel (LndGrpcPollingCollector.node_id c) channel_id) observed_at.

(** The body of [for channel in &resp.channels]. *)
Definition push_channel (c : LndGrpcPollingCollector.t) (sidecar_id : SidecarId.t)
    (s : DateTime) (list_peers_failed : bool) (connected_peer_pubkeys : gset string)
    (acc : pass LndRpcError.t) (channel : LnChannel.t) : pass LndRpcError.t :=
  if String.eqb (LnChannel.channel_point channel) "" then acc
  else
    let channel_id := LndChannelId.mk (LnChannel.channel_point channel) in
    let peer_online :=
      if list_peers_failed then None
      else Some (bool_decide (LnChannel.remote_pubkey channel ∈ connected_peer_pubkeys)) in
    push (Observation.state (obs_context_for_channel c sidecar_id channel_id s)
            (StateObservation.LndChannel (channel_state_from channel peer_online)) empty_attrs) acc.

Definition gather (c : LndGrpcPollingCollector.t) (sidecar_id : SidecarId.t) (a : LndAnswers)
    (n : nat) : pass LndRpcError.t :=
  let '(gi, lc, lp) := fetch_all (LndGrpcPollingCollector.client c) a in
  let acc := absorb (LndGrpcPollingCollector.descriptor c) sidecar_id
               (EntityRef.LndNode (LndGrpcPollingCollector.node_id c))
               lnd_rpc_health.HEALTH_GET_INFO
               (λ info, StateObservation.LndNode (node_state_from info)) gi
               (mk_pass [] None n) in
  let list_peers_failed := negb (is_ok (Timed.output lp)) in
  let connected_peer_pubkeys :=
    match Timed.output lp with
    | Ok resp => connected_peer_set resp
    | Err _ => ∅
    end in
  let s := Timed.start lc in let e := Timed.finish lc in
  let acc :=
    match Timed.output lc with
    | Ok resp =>
        let acc := push (Observation.state (obs_context_for_node c sidecar_id s)
          (StateObservation.LndChannelSummary (channel_summary_from resp)) empty_attrs) acc in
        let acc := foldl (push_channel c sidecar_id s list_peers_failed connected_peer_pubkeys)
          acc (ListChannelsResponse.channels resp) in
        push (ok_health (obs_context_for_node c sidecar_id s)
          lnd_rpc_health.HEALTH_LIST_CHANNELS s e) acc
    | Err err => record_failure (mk_failure lnd_rpc_health.HEALTH_LIST_CHANNELS s e err) acc
    end in
  let lp_s := Timed.start lp in let lp_e := Timed.finish lp in
  match Timed.output lp with
  | Ok _ => push (ok_health (obs_context_for_node c sidecar_id lp_s)
              lnd_rpc_health.HEALTH_LIST_PEERS lp_s lp_e) acc
  | Err err => record_failure (mk_failure lnd_rpc_health.HEALTH_LIST_PEERS lp_s lp_e err) acc
  end.

(** [poll]: the batch, or a panic. *)
(** [failed]: the batch of a pass whose first failure is [f]. *)
Definition failed (c : LndGrpcPollingCollector.t) (sidecar_id : SidecarId.t)
    (started_at batch_end : DateTime) (partials : list Observation.t) (f : Failure LndRpcError.t)
    (n : nat) : option ObservationBatch.t :=
  failed_batch LndRpcError.collection_error_kind LndRpcError.to_string
    (LndGrpcPollingCollector.descriptor c) sidecar_id started_at batch_end partials f n.

Definition poll (c : LndGrpcPollingCollector.t) (ctx : CollectionContext.t) (a : LndAnswers)
    (n : nat) : option ObservationBatch.t :=
  let sidecar_id := CollectionContext.sidecar_id ctx in
  let d := LndGrpcPollingCollector.descriptor c in
  let acc := gather c sidecar_id a n in
  match first_failure acc with
  | Some f =>
      failed c sidecar_id (started_at a) (ended_at a) (partials acc) f (drawn acc)
  | None => ok_batch d sidecar_id (started_at a) (ended_at a) (partials acc) (drawn acc)
  end.

(** ** What a pass yields *)

(** A channel is reported under its funding outpoint, online when its peer is
    among the connected ones; unknown when the peers are unknown. *)
Definition channel_entry (node : LndNodeId.t) (peers : option (list string)) (ch : LnChannel.t) :
    option (EntityRef.t * ObservationPayload.t) :=
  if String.eqb (LnChannel.channel_point ch) "" then None
  else Some (EntityRef.LndChannel node (LndChannelId.mk (LnChannel.channel_point ch)),
    ObservationPayload.State (StateObservation.LndChannel (channel_state_from ch
      ((λ l, bool_decide (LnChannel.remote_pubkey ch ∈ l)) <$> peers)))).

Definition online_peers (r : Result ListPeersResponse.t LndRpcError.t) : option (list string) :=
  match r with
  | Ok resp => Some (LnPeer.pub_key <$> ListPeersResponse.peers resp)
  | Err _ => None
  end.

(** The entries and the failures of a pass, in the order they are gathered. *)
Definition pass_entries (c : LndGrpcPollingCollector.t) (a : LndAnswers) :
    list (EntityRef.t * ObservationPayload.t) :=
  let '(gi, lc, lp) := fetch_all (LndGrpcPollingCollector.client c) a in
  let node := LndGrpcPollingCollector.node_id c in
  let healthy target (s e : DateTime) := (EntityRef.LndNode node, ok_health_payload target s e) in
  (pair (EntityRef.LndNode node) <$>
     payloads_of lnd_rpc_health.HEALTH_GET_INFO
       (λ info, StateObservation.LndNode (node_state_from info)) gi) ++
  match Timed.output lc with
  | Ok resp =>
      [(EntityRef.LndNode node, ObservationPayload.State
          (StateObservation.LndChannelSummary (channel_summary_from resp)))] ++
      omap (channel_entry node (online_peers (Timed.output lp)))
        (ListChannelsResponse.channels resp) ++
      [healthy lnd_rpc_health.HEALTH_LIST_CHANNELS (Timed.start lc) (Timed.finish lc)]
  | Err _ => []
  end ++
  match Timed.output lp with
  | Ok _ => [healthy lnd_rpc_health.HEALTH_LIST_PEERS (Timed.start lp) (Timed.finish lp)]
  | Err _ => []
  end.

Definition pass_failures (c : LndGrpcPollingCollector.t) (a : LndAnswers) :
    list (Failure LndRpcError.t) :=
  let '(gi, lc, lp) := fetch_all (LndGrpcPollingCollector.client c) a in
  failure_of lnd_rpc_health.HEALTH_GET_INFO gi ++
  failure_of lnd_rpc_health.HEALTH_LIST_CHANNELS lc ++
  failure_of lnd_rpc_health.HEALTH_LIST_PEERS lp.

Lemma gathered_channels c sid s (r : Result ListPeersResponse.t LndRpcError.t) n0 chs : ∀ acc es fs,
  gathered (LndGrpcPollingCollector.descriptor c) sid n0 acc es fs →
  gathered (LndGrpcPollingCollector.descriptor c) sid n0
    (foldl (push_channel c sid s (negb (is_ok r))
       match r with Ok resp => connected_peer_set resp | Err _ => ∅ end) acc chs)
    (es ++ omap (channel_entry (LndGrpcPollingCollector.node_id c) (online_peers r)) chs) fs.
Proof.
  induction chs as [|ch chs IH]; cbn; intros acc es fs Hg; [by rewrite app_nil_r|].
  unfold channel_entry at 1, push_channel at 2.
  destruct (String.eqb _ _); [by apply IH|].
  rewrite cons_middle, (assoc_L (++)). apply IH.
  replace (if negb (is_ok r) then None else _)
    with ((λ l, bool_decide (LnChannel.remote_pubkey ch ∈ l)) <$> online_peers r);
    [by apply gathered_push|].
  destruct r as [resp|e]; cbn; [|done]. f_equal. apply bool_decide_ext.
  unfold connected_peer_set. by rewrite elem_of_list_to_set.
Qed.

Lemma lnd_gather_spec c sid a n :
  gathered (LndGrpcPollingCollector.descriptor c) sid n (gather c sid a n)
    (pass_entries c a) (pass_failures c a).
Proof.
  unfold gather, pass_entries, pass_failures.
  destruct (fetch_all _ a) as [[gi lc] lp].
  set (acc0 := absorb _ _ _ _ _ gi _).
  assert (gathered (LndGrpcPollingCollector.descriptor c) sid n acc0
    (pair (EntityRef.LndNode (LndGrpcPollingCollector.node_id c)) <$>
       payloads_of lnd_rpc_health.HEALTH_GET_INFO
         (λ info, StateObservation.LndNode (node_state_from info)) gi)
    (failure_of lnd_rpc_health.HEALTH_GET_INFO gi)) as Hg.
  { apply (gathered_absorb _ _ _ _ _ _ _ _ [] []), gathered_nil. }
  clearbody acc0. revert Hg. generalize (failure_of lnd_rpc_health.HEALTH_GET_INFO gi) as fs.
  generalize (pair (EntityRef.LndNode (LndGrpcPollingCollector.node_id c)) <$>
    payloads_of lnd_rpc_health.HEALTH_GET_INFO
      (λ info, StateObservation.LndNode (node_state_from info)) gi) as es.
  intros es fs Hg. set (acc1 := match Timed.output lc with Ok _ => _ | Err _ => _ end).
  set (es1 := match Timed.output lc with Ok _ => _ | Err _ => _ end).
  assert (gathered (LndGrpcPollingCollector.descriptor c) sid n acc1 (es ++ es1)
    (fs ++ failure_of lnd_rpc_health.HEALTH_LIST_CHANNELS lc)) as Hg1.
  { unfold acc1, es1, failure_of. destruct (Timed.output lc) as [resp|e].
    - rewrite app_nil_r, !(assoc_L (++)). apply gathered_push, gathered_channels.
      by apply gathered_push.
    - rewrite app_nil_r. by apply gathered_failure. }
  clearbody acc1 es1. rewrite !(assoc_L (++)). unfold failure_of at 2.
  destruct (Timed.output lp); rewrite app_nil_r; [by apply gathered_push|by apply gathered_failure].
Qed.

Lemma lnd_pass_failures_target c a f :
  f ∈ pass_failures c a → failed_target f ∈ lnd_rpc_health.HEALTH_TARGETS.
Proof.
  unfold pass_failures. destruct (fetch_all _ a) as [[gi lc] lp].
  rewrite !elem_of_app. unfold failure_of. intros [Hf|[Hf|Hf]]; case_match;
    (apply list_elem_of_singleton in Hf as -> || by apply elem_of_nil in Hf);
    cbn; set_solver.
Qed.

Lemma lnd_health_target_parses t :
  t ∈ lnd_rpc_health.HEALTH_TARGETS → HealthTargetId.parse t = Ok (HealthTargetId.mk t).
Proof.
  unfold lnd_rpc_health.HEALTH_TARGETS. rewrite !elem_of_cons, elem_of_nil.
  intros [->|[->|[->|[]]]]; reflexivity.
Qed.

(** The batch of a pass is that of what it gathered. *)
Lemma lnd_poll_some c ctx a n :
  ∃ b, poll c ctx a n = Some b ∧
    ObservationBatch.collector b = CollectorDescriptor.as_ref (LndGrpcPollingCollector.descriptor c) ∧
    ObservationBatch.sidecar_id b = CollectionContext.sidecar_id ctx ∧
    (ProbeWindow.started_at (ObservationBatch.window b)
       ≤ ProbeWindow.completed_at (ObservationBatch.window b))%Z ∧
    ObservationBatch.result b =
      result_of LndRpcError.collection_error_kind LndRpcError.to_string
        (gather c (CollectionContext.sidecar_id ctx) a n).
Proof.
  unfold poll. apply batch_some. intros f Hf.
  destruct (lnd_gather_spec c (CollectionContext.sidecar_id ctx) a n) as [_ Hff _ _ _].
  apply lnd_health_target_parses, (lnd_pass_failures_target c a).
  destruct (pass_failures c a); cbn in *; simplify_eq; constructor.
Qed.

(** C26: One pass of the LND poller. Whatever the node, the network and the
    clock do, [poll] returns a batch (it never panics) with an ordered window,
    whose observations are of the collector's node and its channels, stamped
    with identifiers of their own: the node's state, the channel summary, one
    state per channel that has a funding outpoint, and a health entry per call
    that succeeded. A failed peer listing leaves the channels reported, with
    their peer's presence unknown. The result is [Ok] exactly when no call
    failed; otherwise it is [Failed] with a critical health entry for the first
    failed call (info, channels, peers), whose error gives kind and message. *)
Theorem lnd_poll_spec `{!UuidLaws} c ctx a n :
  ∃ b, poll c ctx a n = Some b ∧
    (ProbeWindow.started_at (ObservationBatch.window b)
       ≤ ProbeWindow.completed_at (ObservationBatch.window b))%Z ∧
    let obs := carried (ObservationBatch.result b) in
    entry <$> obs = pass_entries c a ∧
    Forall (collected_by (LndGrpcPollingCollector.descriptor c)
              (CollectionContext.sidecar_id ctx)) obs ∧
    NoDup (Observation.id <$> obs) ∧
    match pass_failures c a with
    | [] => ObservationBatch.result b = ProbeResult.Ok obs
    | f :: _ =>
        ObservationBatch.result b = ProbeResult.Failed {|
          HealthCheckObservation.target := HealthTargetId.mk (failed_target f);
          HealthCheckObservation.status := HealthStatus.Critical;
          HealthCheckObservation.latency_ms := duration_ms (failed_start f) (failed_finish f);
          HealthCheckObservation.message := Some (LndRpcError.to_string (failed_error f));
          HealthCheckObservation.error := None;
        |} obs (CollectionError.mk (LndRpcError.collection_error_kind (failed_error f))
                  (LndRpcError.to_string (failed_error f)))
    end.
Proof.
  destruct (lnd_poll_some c ctx a n) as (b & Hb & _ & _ & Hw & Hr). exists b.
  pose proof (lnd_gather_spec c (CollectionContext.sidecar_id ctx) a n) as [Hp Hf _ Hi Hs].
  rewrite Hr. unfold result_of. rewrite Hf.
  assert (NoDup (Observation.id <$>
    partials (gather c (CollectionContext.sidecar_id ctx) a n))) by (rewrite Hi; apply draws_NoDup).
  destruct (pass_failures c a); cbn; by split_and!.
Qed.

#[global] Instance lnd_polling : PollingCollector LndGrpcPollingCollector.t := {|
  Collectors.Answer := LndAnswers;
  Collectors.descriptor := LndGrpcPollingCollector.descriptor;
  Collectors.poll c ctx a n := (c, poll c ctx a n);
|}.

#[global] Instance lnd_polling_laws : PollingCollectorLaws LndGrpcPollingCollector.t.
Proof.
  split. intros c ctx a n. destruct (lnd_poll_some c ctx a n) as (b & Hb & ? & ? & ? & _).
  exists c, b. cbn. by rewrite Hb.
Qed.
End poll.

(** ** The channel summary *)

Definition sum_of (f : LnChannel.t → Z) (l : list LnChannel.t) : Z := foldr (λ c n, (f c + n)%Z) 0%Z l.

(** Wrapped sums of terms are the wrap of the sum. *)
Definition wrap_i64 (n : Z) : Z := ((n - i64_min) mod 2 ^ 64 + i64_min)%Z.

Lemma wrap_i64_small n : is_i64 n → wrap_i64 n = n.
Proof. unfold is_i64, wrap_i64. intros ?. rewrite Z.mod_small by lia. lia. Qed.

Lemma wrapping_add_wrap a b : i64_wrapping_add (wrap_i64 a) b = wrap_i64 (a + b).
Proof.
  unfold i64_wrapping_add, wrap_i64. f_equal.
  replace ((a - i64_min) mod 2 ^ 64 + i64_min + b - i64_min)%Z
    with ((a - i64_min) mod 2 ^ 64 + b)%Z by lia.
  rewrite Zplus_mod_idemp_l. f_equal. lia.
Qed.

Lemma add_channels_spec l : ∀ act inact cap loc rem uns,
  foldl add_channel (mk_totals act inact (wrap_i64 cap) (wrap_i64 loc) (wrap_i64 rem) (wrap_i64 uns)) l =
  let actives := Z.of_nat (length (filter (λ c, LnChannel.active c = true) l)) in
  mk_totals (act + actives) (inact + (Z.of_nat (length l) - actives))
    (wrap_i64 (cap + sum_of LnChannel.capacity l)) (wrap_i64 (loc + sum_of LnChannel.local_balance l))
    (wrap_i64 (rem + sum_of LnChannel.remote_balance l))
    (wrap_i64 (uns + sum_of LnChannel.unsettled_balance l)).
Proof.
  induction l as [|c l IH]; intros act inact cap loc rem uns.
  - cbn [foldl sum_of foldr filter list_filter length]. rewrite !Z.add_0_r. done.
  - cbn [foldl]. unfold add_channel at 2; cbn [active inactive total_capacity_sat
      local_balance_sat remote_balance_sat unsettled_balance_sat].
    rewrite !wrapping_add_wrap, IH. cbn zeta. rewrite filter_cons.
    unfold sum_of; cbn [foldr length].
    destruct (LnChannel.active c); case_decide; try done; cbn [length];
      (f_equal; first [lia|f_equal; lia]).
Qed.

(** The summary counts every channel once, and its balances are the sums of
    the channels' whenever these fit an [i64] and are not negative. *)
Lemma channel_summary_spec resp :
  let l := ListChannelsResponse.channels resp in
  let s := channel_summary_from resp in
  let ok n := (0 ≤ n ≤ i64_max)%Z in
  (LndChannelSummaryState.active_channels s + LndChannelSummaryState.inactive_channels s)%Z
    = Z.of_nat (length l) ∧
  (ok (sum_of LnChannel.capacity l) →
     LndChannelSummaryState.total_capacity_sat s = Some (sum_of LnChannel.capacity l)) ∧
  (ok (sum_of LnChannel.local_balance l) →
     LndChannelSummaryState.local_balance_sat s = sum_of LnChannel.local_balance l) ∧
  (ok (sum_of LnChannel.remote_balance l) →
     LndChannelSummaryState.remote_balance_sat s = sum_of LnChannel.remote_balance l) ∧
  (ok (sum_of LnChannel.unsettled_balance l) →
     LndChannelSummaryState.unsettled_balance_sat s = Some (sum_of LnChannel.unsettled_balance l)).
Proof.
  cbn zeta. unfold channel_summary_from.
  pose proof (add_channels_spec (ListChannelsResponse.channels resp) 0 0 0 0 0 0) as Hs.
  rewrite (wrap_i64_small 0) in Hs by (unfold is_i64; lia). rewrite Hs; cbn.
  assert (∀ n, (0 ≤ n ≤ i64_max)%Z → clamp_u64 (wrap_i64 n) = n) as Hc.
  { intros n Hn. rewrite wrap_i64_small by (unfold is_i64; lia).
    unfold clamp_u64, as_u64. rewrite Z.mod_small; lia. }
  split_and!; [lia|..]; intros Hn; by rewrite ?Hc.
Qed.

(** ** Concrete inputs *)

#[global] Instance sample_grpc_lib : GrpcLib := {|
  fs_read _ := Ok "pem"; uri_error _ := None; tls_config_error _ := None;
  metadata_value_ok _ := true; hex_encode s := s;
|}.

Definition sample_lnd_collector : LndGrpcPollingCollector.t := {|
  LndGrpcPollingCollector.descriptor := {|
    CollectorDescriptor.id := CollectorId.mk "lnd-grpc";
    CollectorDescriptor.integration := IntegrationKind.LndGrpcPoll (from_secs 30);
    CollectorDescriptor.target := CollectorTarget.LndNode sample_lnd;
    CollectorDescriptor.instance_label := "main";
    CollectorDescriptor.description := None;
  |};
  LndGrpcPollingCollector.node_id := sample_lnd;
  LndGrpcPollingCollector.client :=
    LndGrpcClient.mk_client ("https://localhost:10009", "pem") "00" (from_secs 5);
|}.

Definition sample_lnd_context : CollectionContext.t := {|
  CollectionContext.sidecar_id := sample_sidecar;
  CollectionContext.collector_id := CollectorId.mk "lnd-grpc";
  CollectionContext.target := CollectorTarget.LndNode sample_lnd;
  CollectionContext.now := 0;
  CollectionContext.run_id := CollectionRunId.mk (now_v7 0);
|}.

Definition sample_channel (point peer : string) : LnChannel.t := {|
  LnChannel.active := true; LnChannel.remote_pubkey := peer;
  LnChannel.channel_point := point; LnChannel.chan_id := 7; LnChannel.capacity := 100;
  LnChannel.local_balance := 60; LnChannel.remote_balance := 40; LnChannel.commit_fee := 1;
  LnChannel.unsettled_balance := 0; LnChannel.csv_delay := 144; LnChannel.private := false;
  LnChannel.initiator := true; LnChannel.lifetime := 9;
|}.

(** Two channels, one still pending, and a peer listing that times out. *)
Definition sample_lnd_answers : LndAnswers := {|
  started_at := 0;
  info_answer := Timed.mk 0 5 (GrpcAnswer.Response
    (GetInfoResponse.mk "0.18" "02ab" "" 0 1 0 1 100 true true));
  channels_answer := Timed.mk 0 6 (GrpcAnswer.Response
    (ListChannelsResponse.mk [sample_channel "txid:0" "02cd"; sample_channel "" "02ef"]));
  peers_answer := Timed.mk 0 (from_secs 5) GrpcAnswer.Elapsed;
  ended_at := from_secs 5;
|}.

Example sample_lnd_poll :
  (λ b, (length (carried (ObservationBatch.result b)),
         match ObservationBatch.result b with
         | ProbeResult.Failed h _ e =>
             Some (CollectionError.kind e, CollectionError.message e)
         | ProbeResult.Ok _ => None
         end)) <$>
    poll sample_lnd_collector sample_lnd_context sample_lnd_answers 0 =
  Some (5, Some (CollectionErrorKind.Timeout, "timeout after 5s")).
Proof. vm_compute. reflexivity. Qed.

Example sample_duration_debug :
  debug_duration 5500000000 = "5.5s" ∧ debug_duration 100020000 = "100.02ms" ∧
  debug_duration 0 = "0ns" ∧ debug_duration 1000000001 = "1.000000001s".
Proof. by vm_compute. Qed.

Lemma lnd_poll_spec_witness :
  ∃ b, poll sample_lnd_collector sample_lnd_context sample_lnd_answers 0 = Some b ∧
    (ProbeWindow.started_at (ObservationBatch.window b)
       ≤ ProbeWindow.completed_at (ObservationBatch.window b))%Z.
Proof.
  destruct (lnd_poll_spec sample_lnd_collector sample_lnd_context sample_lnd_answers 0)
    as (b & Hb & Hw & _).
  by exists b.
Defined.
