(* ===== verification/Supervisor.v ===== *)
(** * The supervisor of the collectors: [runtime/supervisor.rs]

    One task per collector, as a step relation. A task's own steps are the
    branches of its [select!]s and the awaits between them; the clock, the
    shutdown broadcast and the consumer's end are steps of the outside. When
    two branches are ready either may be taken, as [select!] does. A broadcast
    receiver is the flag "the message is in it": the message reaches the
    receivers that exist when it is sent, and [resubscribe] makes one that has
    seen nothing. Every poll is made on the collector the one before it left;
    [returned] records what the polls returned, to be held against what was
    sent. *)

From S2P Require Import Prelude RustStr Names SharedTypes F64 CollectorTypes Observations Samples Collectors.

(** ** Backoff *)

Definition BACKOFF_SCHEDULE_SECS : list Z := [10; 30; 60; 300]%Z.
Definition BACKOFF_RESET_AFTER : Duration := from_secs 300.

(** After a run of length [elapsed]: how long to wait, and the next index.
    [None] is the panic of the index. *)
Definition next_backoff (backoff_idx : nat) (elapsed : Duration) : option (Duration * nat) :=
  let backoff_idx := if (BACKOFF_RESET_AFTER <=? elapsed)%Z then 0 else backoff_idx in
  secs ← BACKOFF_SCHEDULE_SECS !! backoff_idx;
  Some (from_secs secs, (backoff_idx + 1) `min` (length BACKOFF_SCHEDULE_SECS - 1)).

(** The waits after runs of the given lengths. *)
Fixpoint waits (backoff_idx : nat) (runs : list Duration) : option (list Duration) :=
  match runs with
  | [] => Some []
  | elapsed :: runs =>
      '(wait, backoff_idx) ← next_backoff backoff_idx elapsed;
      rest ← waits backoff_idx runs;
      Some (wait :: rest)
  end.

(** ** A polling collector's task *)

Module Phase.
Inductive t : Type :=
  (** Between the top of the loop and the creation of the inner loop's receiver. *)
  | Spawning
  (** The inner loop: at its [select!], in [poll], in [send]. [shutdown] is
      the inner receiver. *)
  | Selecting (started_at next_tick : Instant) (shutdown : bool)
  | Polling (started_at next_tick : Instant) (shutdown : bool)
  | Sending (started_at next_tick : Instant) (shutdown : bool) (batch : ObservationBatch.t)
  | Backoff (deadline : Instant)
  | Exited
  (** The task itself panicked. *)
  | Aborted.

(** The broadcast reaches the inner receiver, when there is one. *)
Definition signal (p : t) : t :=
  match p with
  | Selecting s k _ => Selecting s k true
  | Polling s k _ => Polling s k true
  | Sending s k _ b => Sending s k true b
  | p => p
  end.
End Phase.

Module InnerExit.
Inductive t : Type := Shutdown | ConsumerGone | CollectorReturned.
End InnerExit.

Record task {C : Type} : Type := mk_task {
  clock : Instant;
  (** The shutdown broadcast was sent, and sits in the outer receiver. *)
  signalled : bool;
  pending : bool;
  consumer_alive : bool;
  backoff_idx : nat;
  phase : Phase.t;
  (** The polls of the current run, and all batches accepted by the channel. *)
  polls : list Instant;
  sent : list ObservationBatch.t;
  (** All batches [poll] returned, and the collector as they left it. *)
  returned : list ObservationBatch.t;
  current : C;
}.
Arguments task : clear implicits.
Arguments mk_task {C}.

Section operations.
Context {C : Type}.
Implicit Types t : task C.

Definition set_phase (p : Phase.t) t : task C :=
  mk_task (clock t) (signalled t) (pending t) (consumer_alive t) (backoff_idx t) p
    (polls t) (sent t) (returned t) (current t).
Definition set_clock (now : Instant) t : task C :=
  mk_task now (signalled t) (pending t) (consumer_alive t) (backoff_idx t) (phase t)
    (polls t) (sent t) (returned t) (current t).

(** [supervise_polling] when its future is first polled. *)
Definition start (collector : C) (now : Instant) : task C :=
  mk_task now false false true 0 Phase.Spawning [] [] [] collector.

(** [shutdown_tx.send(())]. *)
Definition signal t : task C :=
  mk_task (clock t) true true (consumer_alive t) (backoff_idx t) (Phase.signal (phase t))
    (polls t) (sent t) (returned t) (current t).

(** A poll is over. *)
Definition poll_done (batches : list ObservationBatch.t) (collector : C) t : task C :=
  mk_task (clock t) (signalled t) (pending t) (consumer_alive t) (backoff_idx t) (phase t)
    (polls t) (sent t) (returned t ++ batches) collector.

Definition consumer_gone t : task C :=
  mk_task (clock t) (signalled t) (pending t) false (backoff_idx t) (phase t)
    (polls t) (sent t) (returned t) (current t).

(** The tail of the outer loop, after a panic or a return. *)
Definition respawn_later (started_at : Instant) t : task C :=
  match next_backoff (backoff_idx t) (saturating_duration_since (clock t) started_at) with
  | Some (wait, idx) =>
      mk_task (clock t) (signalled t) (pending t) (consumer_alive t) idx
        (Phase.Backoff (clock t + wait)) (polls t) (sent t) (returned t) (current t)
  | None => set_phase Phase.Aborted t
  end.

(** [match outcome]: [None] is a caught panic. *)
Definition inner_ended (outcome : option InnerExit.t) (started_at : Instant) t : task C :=
  match outcome with
  | Some InnerExit.Shutdown | Some InnerExit.ConsumerGone => set_phase Phase.Exited t
  | Some InnerExit.CollectorReturned | None => respawn_later started_at t
  end.
End operations.

(** The timer of [tokio::time::interval] with [MissedTickBehavior::Skip]: the
    tick after one due at [deadline] and taken at [now]. *)
Class Ticker : Type := { next_timeout : Instant → Instant → Duration → Instant }.
Class TickerLaws `{Ticker} : Prop := {
  next_timeout_spaced deadline now period :
    (0 < period → deadline ≤ now → deadline + period ≤ next_timeout deadline now period)%Z;
}.

Section polling.
Context {C : Type} `{UuidLib, PollingCollector C, Ticker}.
(** The collector as it was built: the loop reads its descriptor. *)
Context (sidecar_id : SidecarId.t) (collector : C).

Definition polling_interval : Duration :=
  let interval_chrono :=
    default (from_secs 10)
      (IntegrationKind.interval (CollectorDescriptor.integration (descriptor collector))) in
  (* [to_std] *)
  if (interval_chrono <? 0)%Z then from_secs 10 else interval_chrono.

(** The top of the outer loop: the inner loop gets a new receiver and a timer,
    whose constructor panics on a zero period and which is due at once. *)
Definition spawn (t : task C) : task C :=
  let started_at := clock t in
  let t := mk_task (clock t) (signalled t) (pending t) (consumer_alive t) (backoff_idx t)
             (Phase.Selecting started_at started_at false) [] (sent t) (returned t) (current t) in
  if (polling_interval =? 0)%Z then inner_ended None started_at t else t.

Definition poll_context (now : DateTime) (run : nat) : CollectionContext.t := {|
  CollectionContext.sidecar_id := sidecar_id;
  CollectionContext.collector_id := CollectorDescriptor.id (descriptor collector);
  CollectionContext.target := CollectorDescriptor.target (descriptor collector);
  CollectionContext.now := now;
  CollectionContext.run_id := CollectionRunId.mk (now_v7 run);
|}.

(** A step of the task. *)
Inductive task_step (t : task C) : task C → Prop :=
  | step_spawn :
      phase t = Phase.Spawning → task_step t (spawn t)
  | step_inner_shutdown s k :
      phase t = Phase.Selecting s k true →
      task_step t (inner_ended (Some InnerExit.Shutdown) s t)
  | step_tick s k r :
      phase t = Phase.Selecting s k r → (k ≤ clock t)%Z →
      task_step t (mk_task (clock t) (signalled t) (pending t) (consumer_alive t) (backoff_idx t)
        (Phase.Polling s (next_timeout k (clock t) polling_interval) r)
        (polls t ++ [clock t]) (sent t) (returned t) (current t))
  | step_polled s k r now run a n collector' batch :
      phase t = Phase.Polling s k r →
      poll (current t) (poll_context now run) a n = (collector', Some batch) →
      task_step t (set_phase (Phase.Sending s k r batch)
        (poll_done [batch] collector' t))
  | step_poll_panic s k r now run a n collector' :
      phase t = Phase.Polling s k r →
      poll (current t) (poll_context now run) a n = (collector', None) →
      task_step t (inner_ended None s (poll_done [] collector' t))
  | step_sent s k r batch :
      phase t = Phase.Sending s k r batch → consumer_alive t = true →
      task_step t (mk_task (clock t) (signalled t) (pending t) (consumer_alive t) (backoff_idx t)
        (Phase.Selecting s k r) (polls t) (sent t ++ [batch]) (returned t) (current t))
  | step_refused s k r batch :
      phase t = Phase.Sending s k r batch → consumer_alive t = false →
      task_step t (inner_ended (Some InnerExit.ConsumerGone) s t)
  | step_backoff_shutdown d :
      phase t = Phase.Backoff d → pending t = true →
      task_step t (set_phase Phase.Exited t)
  | step_wake d :
      phase t = Phase.Backoff d → (d ≤ clock t)%Z →
      task_step t (set_phase Phase.Spawning t).

(** A step of the outside. *)
Inductive env_step (t : task C) : task C → Prop :=
  | env_clock now : (clock t ≤ now)%Z → env_step t (set_clock now t)
  | env_signal : signalled t = false → env_step t (signal t)
  | env_consumer_gone : env_step t (consumer_gone t).

Definition step (t t' : task C) : Prop := task_step t t' ∨ env_step t t'.

Definition reachable (t : task C) : Prop := ∃ now, rtc step (start collector now) t.
End polling.

(** ** A subscription collector's task *)

Module SubPhase.
Inductive t : Type :=
  | Running (started_at : Instant)
  | Backoff (deadline : Instant)
  | Exited
  | Aborted.
End SubPhase.

Record sub_task : Type := mk_sub {
  sub_clock : Instant;
  sub_signalled : bool;
  sub_pending : bool;
  sub_backoff_idx : nat;
  sub_phase : SubPhase.t;
}.

Definition sub_start (now : Instant) : sub_task := mk_sub now false false 0 (SubPhase.Running now).

Definition set_sub_phase (p : SubPhase.t) (t : sub_task) : sub_task :=
  mk_sub (sub_clock t) (sub_signalled t) (sub_pending t) (sub_backoff_idx t) p.

Definition sub_returned (started_at : Instant) (t : sub_task) : sub_task :=
  match next_backoff (sub_backoff_idx t)
          (saturating_duration_since (sub_clock t) started_at) with
  | Some (wait, idx) =>
      mk_sub (sub_clock t) (sub_signalled t) (sub_pending t) idx
        (SubPhase.Backoff (sub_clock t + wait))
  | None => set_sub_phase SubPhase.Aborted t
  end.

(** The one receiver is selected on both while the collector runs and while
    the task waits; [run] returning [Ok] or [Err] is the same step. *)
Inductive sub_step (t : sub_task) : sub_task → Prop :=
  | sub_shutdown_running s :
      sub_phase t = SubPhase.Running s → sub_pending t = true →
      sub_step t (set_sub_phase SubPhase.Exited t)
  | sub_shutdown_waiting d :
      sub_phase t = SubPhase.Backoff d → sub_pending t = true →
      sub_step t (set_sub_phase SubPhase.Exited t)
  | sub_run_returned s :
      sub_phase t = SubPhase.Running s → sub_step t (sub_returned s t)
  (** Nothing catches a panic of [collector.run]. *)
  | sub_run_panicked s :
      sub_phase t = SubPhase.Running s → sub_step t (set_sub_phase SubPhase.Aborted t)
  | sub_wake d :
      sub_phase t = SubPhase.Backoff d → (d ≤ sub_clock t)%Z →
      sub_step t (set_sub_phase (SubPhase.Running (sub_clock t)) t)
  | sub_clock_step now :
      (sub_clock t ≤ now)%Z →
      sub_step t (mk_sub now (sub_signalled t) (sub_pending t) (sub_backoff_idx t) (sub_phase t))
  | sub_signal :
      sub_signalled t = false →
      sub_step t (mk_sub (sub_clock t) true true (sub_backoff_idx t) (sub_phase t)).

(** ** Backoff: the schedule *)

Lemma schedule_lookup i : i < 4 → ∃ secs, BACKOFF_SCHEDULE_SECS !! i = Some secs ∧ (10 ≤ secs ≤ 300)%Z.
Proof. intros Hi. do 4 (destruct i as [|i]; [eexists; split; [done|lia]|]). lia. Qed.

Lemma lookup_schedule i j : i = j → BACKOFF_SCHEDULE_SECS !! i = BACKOFF_SCHEDULE_SECS !! j.
Proof. by intros ->. Qed.

(** The slot after a run: the first one after a long run. *)
Definition slot (backoff_idx : nat) (elapsed : Duration) : nat :=
  if (BACKOFF_RESET_AFTER <=? elapsed)%Z then 0 else backoff_idx.

Lemma next_backoff_spec i elapsed :
  i < 4 →
  ∃ secs, BACKOFF_SCHEDULE_SECS !! slot i elapsed = Some secs ∧ (10 ≤ secs ≤ 300)%Z ∧
    next_backoff i elapsed = Some (from_secs secs, (slot i elapsed + 1) `min` 3).
Proof.
  intros Hi. assert (slot i elapsed < 4) as Hs by (unfold slot; case_match; lia).
  destruct (schedule_lookup _ Hs) as (secs & Hl & Hb). exists secs.
  unfold next_backoff. fold (slot i elapsed). by rewrite Hl.
Qed.

(** Runs [j+1 .. i] were short and run [j] was long, or the task started
    with slot [b] at [j]. *)
Lemma waits_slot runs : ∀ b i r,
  b < 4 → runs !! i = Some r →
  ∃ ws w, waits b runs = Some ws ∧ length ws = length runs ∧ ws !! i = Some w ∧
    ((∃ j, j ≤ i ∧ (∃ rj, runs !! j = Some rj ∧ (BACKOFF_RESET_AFTER ≤ rj)%Z) ∧
       (∀ k rk, j < k ≤ i → runs !! k = Some rk → (rk < BACKOFF_RESET_AFTER)%Z) ∧
       from_secs <$> BACKOFF_SCHEDULE_SECS !! ((i - j) `min` 3) = Some w) ∨
     (∀ k rk, k ≤ i → runs !! k = Some rk → (rk < BACKOFF_RESET_AFTER)%Z) ∧
       from_secs <$> BACKOFF_SCHEDULE_SECS !! ((b + i) `min` 3) = Some w).
Proof.
  assert (∀ runs b, b < 4 → ∃ ws, waits b runs = Some ws ∧ length ws = length runs) as Htot.
  { clear. induction runs as [|e runs IH]; intros b Hb; cbn; [by eexists|].
    destruct (next_backoff_spec b e Hb) as (secs & _ & _ & ->); cbn.
    destruct (IH ((slot b e + 1) `min` 3)) as (ws & -> & Hl); [lia|]. cbn. eexists; split; [done|].
    cbn; lia. }
  induction runs as [|e runs IH]; intros b i r Hb Hi; [done|]. cbn [waits].
  destruct (next_backoff_spec b e Hb) as (secs & Hsl & _ & ->); cbn.
  set (b' := (slot b e + 1) `min` 3).
  destruct i as [|i]; cbn in Hi.
  - destruct (Htot runs b') as (ws & -> & Hl); [lia|]. cbn.
    exists (from_secs secs :: ws), (from_secs secs). split_and!; [done|cbn; lia|done|].
    unfold slot in Hsl. destruct (Z.leb_spec BACKOFF_RESET_AFTER e).
    + left. exists 0. split_and!; [done|by exists e|lia|].
      rewrite Nat.sub_diag, Nat.min_0_l. by rewrite Hsl.
    + right. split; [intros [|k] rk Hk; [by intros [= <-]|lia]|].
      rewrite Nat.add_0_r, Nat.min_l by lia. by rewrite Hsl.
  - destruct (IH b' i r) as (ws & w & -> & Hl & Hw & Hcase); [lia|done|]. cbn.
    exists (from_secs secs :: ws), w. split_and!; [done|cbn; lia|done|].
    destruct Hcase as [(j & Hj & Hlong & Hshort & Hwj)|[Hshort Hwj]].
    + left. exists (S j). split_and!; [lia|done| |done].
      intros [|k] rk Hk; [lia|]. apply Hshort. lia.
    + unfold slot in b'. subst b'. destruct (Z.leb_spec BACKOFF_RESET_AFTER e) as [He|He].
      * left. exists 0. split_and!; [lia|by exists e| |].
        { intros [|k] rk Hk; [lia|]. apply Hshort. lia. }
        rewrite <-Hwj. f_equal; apply lookup_schedule; lia.
      * right. split.
        { intros [|k] rk Hk; cbn; [by intros [= <-]|]. apply Hshort. lia. }
        rewrite <-Hwj. f_equal; apply lookup_schedule; lia.
Qed.

(** C37: The backoff of a supervised collector. Whatever the lengths of its
    runs, the schedule's index never leaves the schedule, and the wait after
    the [i]-th run is 10, 30, 60, 300, 300, ... seconds by the number of runs
    since the last one that lasted five minutes, that one counting as zero (or
    since the start of the task, when every run was shorter). *)
Theorem backoff_spec runs :
  ∃ ws, waits 0 runs = Some ws ∧ length ws = length runs ∧
    ∀ i w, ws !! i = Some w →
      ∃ j, j ≤ i ∧
        (∀ k r, j < k ≤ i → runs !! k = Some r → (r < BACKOFF_RESET_AFTER)%Z) ∧
        ((∃ r, runs !! j = Some r ∧ (BACKOFF_RESET_AFTER ≤ r)%Z) ∨
         j = 0) ∧
        Some w = from_secs <$> BACKOFF_SCHEDULE_SECS !! ((i - j) `min` 3).
Proof.
  destruct runs as [|r0 runs0] eqn:Hruns; [by exists []; split_and!|]. rewrite <-Hruns.
  destruct (waits_slot runs 0 0 r0) as (ws & _ & Hws & Hlen & _ & _); [lia|by rewrite Hruns|].
  exists ws. split_and!; [done..|]. intros i w Hi.
  assert (is_Some (runs !! i)) as [r Hr].
  { apply lookup_lt_is_Some. rewrite <-Hlen. by eapply lookup_lt_Some. }
  destruct (waits_slot runs 0 i r) as (ws' & w' & Hws' & _ & Hw' & Hcase); [lia|done|].
  rewrite Hws in Hws'. injection Hws' as <-. rewrite Hi in Hw'. injection Hw' as <-.
  destruct Hcase as [(j & Hj & Hlong & Hshort & Hw)|[Hshort Hw]].
  - exists j. split_and!; [done|done|by left|done].
  - exists 0. split_and!; [lia|intros; eapply Hshort; [|done]; lia|by right|].
    by rewrite Nat.sub_0_r.
Qed.

(** ** The invariant of a polling task *)

(** The run a phase belongs to: its start, the next tick and its receiver. *)
Definition run_of (p : Phase.t) : option (Instant * Instant * bool) :=
  match p with
  | Phase.Selecting s k r | Phase.Polling s k r | Phase.Sending s k r _ => Some (s, k, r)
  | _ => None
  end.

Section polling_facts.
Context {C : Type} `{UuidLib, PollingCollector C, TickerLaws}.
Context (sidecar_id : SidecarId.t) (collector : C).

Implicit Types t : task C.

#[local] Abbreviation interval := (polling_interval collector).
#[local] Abbreviation task_step := (task_step sidecar_id collector).
#[local] Abbreviation step := (step sidecar_id collector).
#[local] Abbreviation reachable := (reachable sidecar_id collector).

(** The batches successive polls of the collector returned, each poll on the
    collector the one before it left, and the collector they leave. *)
Inductive polled_through : list ObservationBatch.t → C → Prop :=
  | through_none : polled_through [] collector
  | through_batch bs c now run a n c' b :
      polled_through bs c → poll c (poll_context sidecar_id collector now run) a n = (c', Some b) →
      polled_through (bs ++ [b]) c'
  | through_panic bs c now run a n c' :
      polled_through bs c → poll c (poll_context sidecar_id collector now run) a n = (c', None) →
      polled_through bs c'.

(** The batch a task has polled and not yet sent. *)
Definition in_hand (p : Phase.t) : list ObservationBatch.t :=
  match p with Phase.Sending _ _ _ b => [b] | _ => [] end.

(** Every batch polled was sent, or is about to be. *)
Definition handed (t : task C) : Prop := returned t = sent t ++ in_hand (phase t).

(** Only a dead consumer refuses a batch, and that ends the task. *)
Definition refused (t : task C) : Prop :=
  phase t = Phase.Exited ∧ consumer_alive t = false ∧ ∃ b, returned t = sent t ++ [b].

Record supervised (t : task C) : Prop := {
  sv_index : backoff_idx t < 4;
  sv_phase : phase t ≠ Phase.Aborted;
  sv_pending : pending t = signalled t;
  sv_run s k r : run_of (phase t) = Some (s, k, r) →
    (0 < interval)%Z ∧ (s ≤ clock t)%Z ∧ (r = true → signalled t = true) ∧
    (s + Z.of_nat (length (polls t)) * interval ≤ k)%Z ∧
    ∀ i p, polls t !! i = Some p → (s + Z.of_nat i * interval ≤ p ≤ clock t)%Z;
}.

Lemma interval_nonneg : (0 ≤ interval)%Z.
Proof. unfold polling_interval, from_secs. case_match; lia. Qed.

Lemma supervised_start now : supervised (start collector now).
Proof. split; cbn; try done. lia. Qed.

(** Leaving the inner loop. *)
Lemma respawn_later_spec s t :
  backoff_idx t < 4 →
  ∃ secs idx, respawn_later s t = mk_task (clock t) (signalled t) (pending t) (consumer_alive t) idx
    (Phase.Backoff (clock t + from_secs secs)) (polls t) (sent t) (returned t) (current t) ∧
    idx < 4 ∧ (10 ≤ secs ≤ 300)%Z.
Proof.
  intros Hi. unfold respawn_later.
  destruct (next_backoff_spec (backoff_idx t) (saturating_duration_since (clock t) s) Hi)
    as (secs & _ & Hb & ->). eexists secs, _. split_and!; [done|lia..].
Qed.

Lemma supervised_ended o s t : supervised t → supervised (inner_ended o s t).
Proof.
  intros [Hi Hp Hpe Hr].
  assert (supervised (respawn_later s t)).
  { destruct (respawn_later_spec s t Hi) as (secs & idx & -> & Hidx & _). by split; cbn. }
  destruct o as [[]|]; cbn; try done; by split; cbn.
Qed.

Lemma supervised_spawn t : supervised t → supervised (spawn collector t).
Proof.
  intros [Hi Hp Hpe Hr]. unfold spawn.
  destruct (Z.eqb_spec interval 0) as [Hz|Hz]; cbv zeta.
  - unfold inner_ended.
    match goal with |- supervised (respawn_later _ ?u) =>
      destruct (respawn_later_spec (clock t) u Hi) as (secs & idx & -> & Hidx & _) end.
    by split; cbn.
  - split; cbn; try done. intros s k r [= <- <- <-]. pose proof interval_nonneg.
    split_and!; [lia|lia|done|lia|done].
Qed.

Lemma supervised_tick s k r t :
  supervised t → phase t = Phase.Selecting s k r → (k ≤ clock t)%Z →
  supervised (mk_task (clock t) (signalled t) (pending t) (consumer_alive t) (backoff_idx t)
    (Phase.Polling s (next_timeout k (clock t) interval) r) (polls t ++ [clock t]) (sent t)
    (returned t) (current t)).
Proof.
  intros [Hi Hp Hpe Hr] Hph Hk.
  destruct (Hr s k r) as (Hpos & Hsc & Hsig & Hnext & Hpolls); [by rewrite Hph|].
  split; cbn; try done. intros s' k' r' [= <- <- <-].
  pose proof (next_timeout_spaced k (clock t) interval Hpos Hk) as Hn.
  rewrite length_app; cbn. split_and!; [done..|lia|].
  intros i p Hip. apply lookup_app_Some in Hip as [Hip|[Hlen Hip]]; [by apply Hpolls|].
  apply list_lookup_singleton_Some in Hip as [Hz <-].
  replace i with (length (polls t)) by lia. lia.
Qed.

Lemma supervised_step t t' : supervised t → step t t' → supervised t'.
Proof.
  intros Hsv [Hst|Hst].
  - inversion Hst as [Hph|s k Hph|s k r Hph Hk|s k r now run a n c' b Hph Hb
      |s k r now run a n c' Hph Hb|s k r b Hph Ha|s k r b Hph Ha|d Hph Hpe|d Hph Hd]; subst;
      try (by apply supervised_ended); try (by apply supervised_spawn);
      try (by apply supervised_tick); try (apply supervised_ended; by destruct Hsv as [?]); destruct Hsv as [Hi Hp Hpe' Hr]; split; cbn; try done.
    + intros s' k' r' [= -> -> ->]. apply Hr. by rewrite Hph.
    + intros s' k' r' [= -> -> ->]. apply Hr. by rewrite Hph.
  - destruct Hsv as [Hi Hp Hpe Hr].
    inversion Hst as [now Hc|Hsg|]; subst; split; cbn; try done.
    + intros s k r Hrun. destruct (Hr s k r Hrun) as (? & ? & ? & ? & Hpolls).
      split_and!; [done|lia|done..|]. intros i p Hip. specialize (Hpolls i p Hip). lia.
    + by destruct (phase t).
    + intros s k r Hrun. destruct (phase t) eqn:Hph; cbn in Hrun; simplify_eq;
        (destruct (Hr _ _ _ eq_refl) as (? & ? & ? & ? & ?); by split_and!).
Qed.

Lemma reachable_supervised t : reachable t → supervised t.
Proof.
  intros [now Hrtc]. revert Hrtc. generalize (supervised_start now). generalize (start collector now) as t0.
  intros t0 Ht0 Hrtc. induction Hrtc; eauto using supervised_step.
Qed.

(** ** The batches of a polling task *)

(** The end of a run and the start of one leave the batches alone. *)
Definition same_batches t t' : Prop :=
  sent t' = sent t ∧ returned t' = returned t ∧ current t' = current t ∧
  in_hand (phase t') = [].

Lemma inner_ended_batches o s t : same_batches t (inner_ended o s t).
Proof. destruct o as [[]|]; cbn; unfold respawn_later; by repeat case_match. Qed.

Lemma spawn_batches t : same_batches t (spawn collector t).
Proof.
  unfold spawn. case_match; [|done].
  by match goal with |- same_batches _ (inner_ended ?o ?s ?u) =>
    destruct (inner_ended_batches o s u) as (? & ? & ? & ?) end.
Qed.

Lemma handed_same t t' : handed t → in_hand (phase t) = [] → same_batches t t' → handed t'.
Proof. unfold handed. intros Hh Hin (-> & -> & _ & ->). by rewrite Hin in Hh. Qed.

(** A batch leaves a task's hands into the channel, or is refused. *)
Lemma handed_step t t' : handed t → task_step t t' → handed t' ∨ refused t'.
Proof.
  intros Hh Hst.
  inversion Hst as [Hph|s k Hph|s k r Hph Hk|s k r now run a n c' b Hph Hb
    |s k r now run a n c' Hph Hb|s k r b Hph Ha|s k r b Hph Ha|d Hph Hpe|d Hph Hd]; subst;
    try (left; eapply handed_same; [exact Hh|by rewrite Hph|];
         apply spawn_batches || apply inner_ended_batches || done).
  - left. unfold handed in *. cbn. by rewrite Hh, Hph, app_nil_r.
  - left. apply (handed_same (poll_done [] c' t)); [|cbn; by rewrite Hph|apply inner_ended_batches].
    unfold handed in *. cbn. by rewrite Hh, app_nil_r.
  - left. unfold handed in *. cbn. by rewrite Hh, Hph, app_nil_r.
  - right. split_and!; [done..|]. exists b. cbn. unfold handed in Hh. by rewrite Hh, Hph.
Qed.

Lemma handed_env t t' : handed t → env_step t t' → handed t'.
Proof. intros Hh Hst. inversion Hst; subst; [done| |done]. unfold handed in *. cbn. by destruct (phase t). Qed.

Lemma handed_or_refused t t' : handed t ∨ refused t → step t t' → handed t' ∨ refused t'.
Proof.
  intros [Hh|(Hph & Hal & Hr)] [Hst|Hst].
  - by apply (handed_step t).
  - left. by eapply handed_env.
  - inversion Hst; subst; congruence.
  - right. inversion Hst; subst; split_and!; cbn; try done. by rewrite Hph.
Qed.

Lemma polled_step t t' :
  polled_through (returned t) (current t) → step t t' → polled_through (returned t') (current t').
Proof.
  intros Ht [Hst|Hst]; [|by inversion Hst; subst].
  inversion Hst as [Hph|s k Hph|s k r Hph Hk|s k r now run a n c' b Hph Hb
    |s k r now run a n c' Hph Hb|s k r b Hph Ha|s k r b Hph Ha|d Hph Hpe|d Hph Hd]; subst; try done.
  - by destruct (spawn_batches t) as (_ & -> & -> & _).
  - by eapply through_batch.
  - destruct (inner_ended_batches None s (poll_done [] c' t)) as (_ & -> & -> & _). cbn.
    rewrite app_nil_r. by eapply through_panic.
Qed.

(** The batches of a reachable task: what its polls returned, and what of it was sent. *)
Lemma reachable_batches t :
  reachable t → polled_through (returned t) (current t) ∧ (handed t ∨ refused t).
Proof.
  intros [now Hrtc].
  assert (∀ u, polled_through (returned u) (current u) ∧ (handed u ∨ refused u) → rtc step u t →
    polled_through (returned t) (current t) ∧ (handed t ∨ refused t)) as Hind.
  { clear Hrtc. intros u Hu Hut. induction Hut as [|u v w Huv _ IH]; [done|]. apply IH.
    destruct Hu. eauto using polled_step, handed_or_refused. }
  apply (Hind (start collector now)); [|done]. split; [constructor|by left].
Qed.

Lemma sent_returned t : reachable t → sent t `prefix_of` returned t.
Proof.
  intros [_ [->|(_ & _ & b & ->)]]%reachable_batches; by apply prefix_app_r.
Qed.

(** ** Shutdown *)

(** The shutdown message is in the receiver the task listens to. *)
Definition armed (t : task C) : Prop :=
  pending t = true ∧
  match phase t with
  | Phase.Selecting _ _ r | Phase.Polling _ _ r | Phase.Sending _ _ r _ => r = true
  | Phase.Backoff _ | Phase.Exited => True
  | Phase.Spawning | Phase.Aborted => False
  end.

(** A wait that is over is not preferred to a shutdown that has arrived. *)
Definition prompt_step (t t' : task C) : Prop :=
  step t t' ∧ ¬ (pending t = true ∧ (∃ d, phase t = Phase.Backoff d) ∧ phase t' = Phase.Spawning).

Lemma armed_ended o s t : backoff_idx t < 4 → pending t = true → armed (inner_ended o s t).
Proof.
  intros Hi Hp.
  assert (armed (respawn_later s t)).
  { destruct (respawn_later_spec s t Hi) as (secs & idx & -> & _). by split. }
  destruct o as [[]|]; cbn; done || by split.
Qed.

Lemma armed_step t t' : supervised t → armed t → prompt_step t t' → armed t'.
Proof.
  intros [Hi _ _ _] [Hp Ha] [[Hst|Hst] Hpr].
  - inversion Hst as [Hph|s k Hph|s k r Hph Hk|s k r now run a n c' b Hph Hb
      |s k r now run a n c' Hph Hb|s k r b Hph Hal|s k r b Hph Hal|d Hph Hpe|d Hph Hd]; subst;
      rewrite Hph in Ha; try done; try (by apply armed_ended); try by split.
    destruct Hpr. split_and!; [done|by exists d|done].
  - inversion Hst; subst; split; cbn; try done. by destruct (phase t).
Qed.

(** An armed task needs at most three steps of its own to exit. *)
Lemma armed_exits (a : Answer) t :
  backoff_idx t < 4 → armed t →
  ∃ n t', n ≤ 3 ∧ nsteps task_step n t t' ∧ phase t' = Phase.Exited.
Proof.
  intros Hi [Hp Ha]. destruct (phase t) as [|s k r|s k r|s k r b|d| |] eqn:Hph; try done; subst.
  - exists 1, (set_phase Phase.Exited t). split_and!; [lia| |done].
    apply nsteps_once. by apply (step_inner_shutdown _ _ t s k).
  - destruct (poll (current t) (poll_context sidecar_id collector 0 0) a 0) as [c' [b|]] eqn:Hb.
    + destruct (consumer_alive t) eqn:Hal.
      * eexists 3, _. split_and!; [lia| |].
        -- eapply nsteps_l; [by eapply step_polled|]. eapply nsteps_l; [by eapply step_sent|].
           apply nsteps_once. by eapply step_inner_shutdown.
        -- done.
      * eexists 2, _. split_and!; [lia| |].
        -- eapply nsteps_l; [by eapply step_polled|].
           apply nsteps_once. by eapply step_refused.
        -- done.
    + destruct (respawn_later_spec s (poll_done [] c' t) Hi) as (secs & idx & Hr & _).
      eexists 2, _. split_and!; [lia| |].
      * eapply nsteps_l; [by eapply step_poll_panic|]. cbn. rewrite Hr.
        apply nsteps_once. by eapply step_backoff_shutdown.
      * done.
  - destruct (consumer_alive t) eqn:Hal.
    + eexists 2, _. split_and!; [lia| |].
      * eapply nsteps_l; [by eapply step_sent|]. apply nsteps_once. by eapply step_inner_shutdown.
      * done.
    + eexists 1, _. split_and!; [lia| |]; [apply nsteps_once; by eapply step_refused|done].
  - eexists 1, _. split_and!; [lia| |]; [apply nsteps_once; by eapply step_backoff_shutdown|done].
  - exists 0, t. split_and!; [lia|constructor|done].
Qed.

(** Shutdown reaches a supervised polling collector. If the broadcast is
    sent while the task is anywhere but between two runs (in its select, in a
    poll, in a send or waiting out a backoff), then in every later state, as
    long as the task does not prefer a finished backoff to the message, the
    message is in the receiver the task listens to and the task can exit
    within three steps of its own: no tick, respawn or further poll is needed. *)
Theorem shutdown_honoured (a : Answer) t t' :
  reachable t → signalled t = false → phase t ≠ Phase.Spawning →
  rtc prompt_step (signal t) t' →
  armed t' ∧ ∃ n t'', n ≤ 3 ∧ nsteps task_step n t' t'' ∧ phase t'' = Phase.Exited.
Proof.
  intros Hreach Hs Hph Hrtc. pose proof (reachable_supervised t Hreach) as Hsv.
  assert (supervised (signal t)) as Hsv'.
  { eapply supervised_step; [exact Hsv|]. right. by constructor. }
  assert (armed (signal t)) as Ha.
  { split; [done|]. cbn. destruct Hsv as [_ Hnp _ _]. by destruct (phase t). }
  clear Hreach Hs Hph Hsv.
  induction Hrtc as [u|u v w Huv _ IH].
  - split; [done|]. apply armed_exits; [done| |done]. by destruct Hsv'.
  - apply IH; [|by eapply armed_step]. eapply supervised_step; [done|apply Huv].
Qed.

(** A step that is neither a panic nor the consumer's end. *)
Definition undisturbed (t t' : task C) : Prop :=
  step t t' ∧ (∀ d, phase t' ≠ Phase.Backoff d) ∧ consumer_alive t' = true.

(** The inner loop runs with a receiver that missed the broadcast. *)
Definition deaf (t : task C) : Prop :=
  signalled t = true ∧ consumer_alive t = true ∧ ∃ s k, run_of (phase t) = Some (s, k, false).

Lemma deaf_step t t' : supervised t → deaf t → undisturbed t t' → deaf t'.
Proof.
  intros [Hi _ _ _] (Hsg & Hal & s0 & k0 & Hrun) [[Hst|Hst] [Hnb Hal']].
  - inversion Hst as [Hph|s k Hph|s k r Hph Hk|s k r now run a n c' b Hph Hb
      |s k r now run a n c' Hph Hb|s k r b Hph Hal0|s k r b Hph Hal0|d Hph Hpe|d Hph Hd]; subst;
      rewrite Hph in Hrun; cbn in Hrun; simplify_eq.
    + by split_and!; [..|eexists _, _].
    + by split_and!; [..|eexists _, _].
    + destruct (respawn_later_spec s0 (poll_done [] c' t) Hi) as (secs & idx & Hr & _).
      cbn in Hnb. rewrite Hr in Hnb. by destruct (Hnb (clock t + from_secs secs)%Z).
    + by split_and!; [..|eexists _, _].
    + congruence.
  - inversion Hst; subst; cbn in *; try congruence. by split_and!; [..|eexists _, _].
Qed.

Lemma deaf_steps t t' : supervised t → deaf t → rtc undisturbed t t' → deaf t' ∧ supervised t'.
Proof.
  intros Hsv Hd Hrtc. induction Hrtc as [|u v w Huv _ IH]; [done|].
  apply IH; [by eapply supervised_step; [|apply Huv]|by eapply deaf_step].
Qed.

(** Another round: the clock reaches the tick, the poll returns, the batch is sent. *)
Lemma another_poll a n c' b t s k :
  poll (current t) (poll_context sidecar_id collector 0 0) a n = (c', Some b) →
  consumer_alive t = true → phase t = Phase.Selecting s k false →
  ∃ t' k', rtc undisturbed t t' ∧ phase t' = Phase.Selecting s k' false ∧
    consumer_alive t' = true ∧ length (sent t') = S (length (sent t)).
Proof.
  intros Hb Hal Hph. eexists _, _. split_and!.
  - eapply rtc_l; [split; [right; apply (env_clock t (Z.max (clock t) k)); lia|]|].
    { cbn. by rewrite Hph. }
    eapply rtc_l; [split; [left; eapply step_tick; [exact Hph|cbn; lia]|done]|].
    eapply rtc_l; [split; [left; by eapply step_polled|done]|].
    eapply rtc_l; [split; [left; eapply step_sent; [done|exact Hal]|done]|]. done.
  - done.
  - done.
  - cbn. rewrite length_app; cbn. lia.
Qed.

(** A shutdown can be missed for good. When a backoff is over and the
    broadcast has arrived, the task may take the timer's branch; the inner
    loop then subscribes anew, after the message, and from there no step but a
    panic of the collector or the end of the consumer makes the task exit: it
    goes on polling, as many times as one likes. *)
Theorem shutdown_missed_on_respawn a n t d :
  reachable t → interval ≠ 0%Z → consumer_alive t = true →
  phase t = Phase.Backoff d → (d ≤ clock t)%Z → pending t = true →
  (∀ c, ∃ c' b, poll c (poll_context sidecar_id collector 0 0) a n = (c', Some b)) →
  ∃ t1, nsteps task_step 2 t t1 ∧
    (∀ t', rtc undisturbed t1 t' → phase t' ≠ Phase.Exited) ∧
    (∀ m, ∃ t', rtc undisturbed t1 t' ∧ length (sent t') = length (sent t) + m).
Proof.
  intros Hreach Hint Hal Hph Hd Hp Hb. pose proof (reachable_supervised t Hreach) as Hsv.
  set (t0 := set_phase Phase.Spawning t).
  assert (task_step t t0) as H01 by (by eapply step_wake).
  assert (supervised t0) as Hsv0 by (eapply supervised_step; [done|by left]).
  assert (supervised (spawn collector t0)) as Hsv1 by (by apply supervised_spawn).
  assert (phase (spawn collector t0) = Phase.Selecting (clock t) (clock t) false ∧
    signalled (spawn collector t0) = true ∧ consumer_alive (spawn collector t0) = true ∧
    sent (spawn collector t0) = sent t) as (Hph1 & Hsg1 & Hal1 & Hs1).
  { unfold spawn. destruct (Z.eqb_spec interval 0) as [Hz|Hz]; [done|]; cbn.
    destruct Hsv as [_ _ Hpe _]. by rewrite <-Hpe. }
  exists (spawn collector t0). split_and!.
  - eapply nsteps_l; [done|]. apply nsteps_once. by constructor.
  - intros t' Hrtc.
    destruct (deaf_steps _ t' Hsv1) as [(_ & _ & s & k & Hrun) _]; [|done|].
    { split_and!; [done..|]. rewrite Hph1. by eexists _, _. }
    intros He. by rewrite He in Hrun.
  - intros m. rewrite <-Hs1. revert Hph1 Hal1. generalize (clock t) at 2 as k.
    generalize (spawn collector t0) as u. clear -Hb. intros u k. revert u k.
    induction m as [|m IH]; intros u k Hu Hal; [by exists u; split; [|lia]|].
    destruct (Hb (current u)) as (c' & b & Hpoll).
    destruct (another_poll a n c' b u _ k Hpoll Hal Hu) as (u1 & k1 & Hr & Hu1 & Hal1 & Hl).
    destruct (IH u1 k1 Hu1 Hal1) as (u2 & Hr2 & Hl2). exists u2.
    split; [by etrans|lia].
Qed.

(** ** Collectors that do not panic, and intervals that do *)

(** No run ever ended: the task is in its first one, or has exited. *)
Record steady (t : task C) : Prop := {
  st_index : backoff_idx t = 0;
  st_phase d : phase t ≠ Phase.Backoff d;
}.

Lemma steady_step `{!PollingCollectorLaws C} t t' :
  interval ≠ 0%Z → steady t → step t t' → steady t'.
Proof.
  intros Hint [Hi Hp] [Hst|Hst].
  - inversion Hst as [Hph|s k Hph|s k r Hph Hk|s k r now run a n c' b Hph Hb
      |s k r now run a n c' Hph Hb|s k r b Hph Hal0|s k r b Hph Hal0|d Hph Hpe|d Hph Hd]; subst;
      try (by split; cbn).
    + unfold spawn. destruct (Z.eqb_spec interval 0); [done|]. by split; cbn.
    + destruct (poll_returns (current t) (poll_context sidecar_id collector now run) a n)
        as (? & b & Hb' & _). congruence.
  - inversion Hst; subst; split; cbn; try done. intros d. by destruct (phase t) eqn:?; naive_solver.
Qed.

Definition of_this_task (b : ObservationBatch.t) : Prop :=
  ObservationBatch.collector b = CollectorDescriptor.as_ref (descriptor collector) ∧
  ObservationBatch.sidecar_id b = sidecar_id ∧
  (ProbeWindow.started_at (ObservationBatch.window b)
     ≤ ProbeWindow.completed_at (ObservationBatch.window b))%Z.

Lemma polled_own `{!PollingCollectorLaws C} bs c :
  polled_through bs c → descriptor c = descriptor collector ∧ Forall of_this_task bs.
Proof.
  induction 1 as [|bs c now run a n c' b _ [Hd Hbs] Hb|bs c now run a n c' _ [Hd Hbs] Hb]; [by split| |].
  all: destruct (poll_returns c (poll_context sidecar_id collector now run) a n)
    as (c'' & b' & Hb' & Hd' & Hc & Hsid & Hw); rewrite Hb in Hb'; simplify_eq.
  split; [congruence|]. apply Forall_app. split; [done|]. constructor; [|done].
  split_and!; [by rewrite Hc, Hd|done|done].
Qed.

(** C19: A supervised collector that keeps its promise ([PollingCollectorLaws],
    which both pollers do) over a positive interval. Its task never panics and
    never backs off, so it has a single run; every batch it sends is its own,
    stamped with its sidecar and an ordered window; and its polls never outrun
    the interval, the [i]-th coming at least [i] intervals after the start of
    the run, whatever the clock, the consumer and the shutdown do. *)
Theorem supervised_collector_steady `{!PollingCollectorLaws C} t :
  interval ≠ 0%Z → reachable t →
  phase t ≠ Phase.Aborted ∧ (∀ d, phase t ≠ Phase.Backoff d) ∧
  Forall of_this_task (sent t) ∧
  ∀ s k r, run_of (phase t) = Some (s, k, r) →
    ∀ i p, polls t !! i = Some p → (s + Z.of_nat i * interval ≤ p ≤ clock t)%Z.
Proof.
  intros Hint Hreach. destruct (reachable_supervised t Hreach) as [_ Ha _ Hr].
  assert (steady t) as [_ Hb].
  { destruct Hreach as [now Hrtc].
    assert (∀ u, steady u → rtc step u t → steady t) as Hind.
    { intros u Hu Hut. induction Hut; eauto using steady_step. }
    apply (Hind (start collector now)); [|done]. by split; cbn. }
  split_and!; [done|done| |].
  - destruct (sent_returned t Hreach) as [bs Hbs].
    destruct (polled_own (returned t) (current t)) as [_ Hown]; [by apply reachable_batches|].
    rewrite Hbs in Hown. by apply Forall_app in Hown as [? _].
  - intros s k r Hrun. by destruct (Hr s k r Hrun) as (_ & _ & _ & _ & ?).
Qed.

(** An interval of zero seconds never polls. The timer's constructor
    panics, the task backs off and tries again, and no reachable state of the
    task has polled or sent anything. *)
Theorem zero_interval_never_polls t :
  interval = 0%Z → reachable t → run_of (phase t) = None ∧ polls t = [] ∧ sent t = [].
Proof.
  intros Hint [now Hrtc].
  assert (∀ u, supervised u ∧ run_of (phase u) = None ∧ polls u = [] ∧ sent u = [] →
    rtc step u t → run_of (phase t) = None ∧ polls t = [] ∧ sent t = []) as Hind;
    [|by apply (Hind (start collector now)); [split; [apply supervised_start|]|]].
  intros u Hu Hut. clear Hrtc. induction Hut as [u|u v w Huv _ IH]; [apply Hu|]. apply IH.
  destruct Hu as (Hsv & Hrun & Hpo & Hse). split; [by eapply supervised_step|].
  destruct Hsv as [Hi _ _ _].
  destruct Huv as [Hst|Hst].
  - inversion Hst as [Hph|s k Hph|s k r Hph Hk|s k r now' run a n c' b Hph Hb
      |s k r now' run a n c' Hph Hb|s k r b Hph Hal0|s k r b Hph Hal0|d Hph Hpe|d Hph Hd]; subst;
      rewrite Hph in Hrun; try done.
    unfold spawn. rewrite Hint; cbv zeta. cbn [Z.eqb inner_ended].
    match goal with |- context [respawn_later ?s ?v] =>
      destruct (respawn_later_spec s v Hi) as (secs & idx & -> & _) end. by split_and!.
  - inversion Hst; subst; cbn; split_and!; try done. by destruct (phase u).
Qed.
End polling_facts.

(** ** Subscription tasks *)

Definition sub_reachable (t : sub_task) : Prop := ∃ now, rtc sub_step (sub_start now) t.

Definition sub_supervised (t : sub_task) : Prop :=
  sub_backoff_idx t < 4 ∧ sub_pending t = sub_signalled t ∧
  (sub_signalled t = false → sub_phase t ≠ SubPhase.Exited).

Lemma sub_returned_spec s t :
  sub_backoff_idx t < 4 → ∃ secs idx, idx < 4 ∧
    sub_returned s t = mk_sub (sub_clock t) (sub_signalled t) (sub_pending t) idx
      (SubPhase.Backoff (sub_clock t + from_secs secs)).
Proof.
  intros Hi. unfold sub_returned.
  destruct (next_backoff_spec (sub_backoff_idx t) (saturating_duration_since (sub_clock t) s) Hi)
    as (secs & _ & _ & ->). eexists secs, _. split; [|done]. lia.
Qed.

Lemma sub_supervised_step t t' : sub_supervised t → sub_step t t' → sub_supervised t'.
Proof.
  intros (Hi & Hp & He) Hst.
  inversion Hst as [s Hph Hpe|d Hph Hpe|s Hph|s Hph|d Hph Hd|now Hc|Hs]; subst;
    try (by split_and!; cbn; try done; intros; congruence).
  destruct (sub_returned_spec s t Hi) as (secs & idx & Hidx & ->). by split_and!.
Qed.

(** A subscription collector cannot miss a shutdown. Its task keeps one
    receiver throughout: in every reachable state after the broadcast it has
    exited, or its collector's panic has ended it, or it can exit in one step;
    and before the broadcast it has not exited. *)
Theorem subscription_shutdown_never_missed t :
  sub_reachable t →
  (sub_signalled t = true →
     sub_phase t = SubPhase.Exited ∨ sub_phase t = SubPhase.Aborted ∨
     sub_step t (set_sub_phase SubPhase.Exited t)) ∧
  (sub_signalled t = false → sub_phase t ≠ SubPhase.Exited).
Proof.
  intros [now Hrtc].
  assert (sub_supervised t) as (_ & Hp & He).
  { assert (sub_supervised (sub_start now)) as H0 by (split_and!; cbn; (lia || done)).
    revert H0. clear -Hrtc. induction Hrtc; eauto using sub_supervised_step. }
  split; [|done]. intros Hs. rewrite Hs in Hp.
  destruct (sub_phase t) as [s|d| |] eqn:Hph; [| |by left|by right; left]; right; right.
  - by eapply sub_shutdown_running.
  - by eapply sub_shutdown_waiting.
Qed.

(** ** Concrete inputs *)

(** The documented behaviour of [Skip]: the next multiple of the period. *)
#[global] Instance sample_ticker : Ticker := {|
  next_timeout deadline now period := (deadline + ((now - deadline) / period + 1) * period)%Z;
|}.

#[global] Instance sample_ticker_laws : TickerLaws.
Proof.
  split. intros deadline now period Hp Hd; cbn.
  assert (0 ≤ (now - deadline) / period)%Z by (apply Z.div_pos; lia). nia.
Qed.

(** A collector whose polls are answered or panic, over the given interval. *)
Module FlakyCollector.
Record t : Type := mk { interval : Duration }.
End FlakyCollector.

Definition flaky_descriptor (c : FlakyCollector.t) : CollectorDescriptor.t := {|
  CollectorDescriptor.id := CollectorId.mk "flaky";
  CollectorDescriptor.integration := IntegrationKind.BitcoinCoreRpc (FlakyCollector.interval c);
  CollectorDescriptor.target := CollectorTarget.BitcoinNode sample_node;
  CollectorDescriptor.instance_label := "flaky";
  CollectorDescriptor.description := None;
|}.

Definition flaky_batch (c : FlakyCollector.t) (ctx : CollectionContext.t) (n : nat) :
    option ObservationBatch.t :=
  ok_batch (flaky_descriptor c) (CollectionContext.sidecar_id ctx) 0 0 [] n.

#[global] Instance flaky_polling : PollingCollector FlakyCollector.t := {|
  Answer := bool;
  descriptor := flaky_descriptor;
  poll c ctx a n := (c, if a : bool then flaky_batch c ctx n else None);
|}.

Definition flaky_panics : Answer (C := FlakyCollector.t) := false.
Definition flaky_answers : Answer (C := FlakyCollector.t) := true.

(** The same collector when it always answers. *)
Module SteadyCollector.
Record t : Type := mk { inner : FlakyCollector.t }.
End SteadyCollector.

#[global] Instance steady_polling : PollingCollector SteadyCollector.t := {|
  Answer := ();
  descriptor c := flaky_descriptor (SteadyCollector.inner c);
  poll c ctx a n := (c, flaky_batch (SteadyCollector.inner c) ctx n);
|}.

#[global] Instance steady_polling_laws : PollingCollectorLaws SteadyCollector.t.
Proof.
  split. intros c ctx a n. by eexists _, _.
Qed.

Definition sample_flaky : FlakyCollector.t := FlakyCollector.mk (from_secs 30).
Definition sample_zero : FlakyCollector.t := FlakyCollector.mk 0.
Definition sample_steady : SteadyCollector.t := SteadyCollector.mk sample_flaky.

(** The first poll comes at once, and panics. *)
Definition sample_first_select {C} (c : C) : task C :=
  mk_task 0 false false true 0 (Phase.Selecting 0 0 false) [] [] [] c.
Definition sample_first_poll {C} (c : C) : task C :=
  mk_task 0 false false true 0 (Phase.Polling 0 (from_secs 30) false) [0%Z] [] [] c.
Definition sample_backed_off {C} (c : C) : task C :=
  mk_task 0 false false true 1 (Phase.Backoff (from_secs 10)) [0%Z] [] [] c.

(** Ten seconds later, with the shutdown broadcast on its way. *)
Definition sample_late : task FlakyCollector.t :=
  mk_task (from_secs 10) true true true 1 (Phase.Backoff (from_secs 10)) [0%Z] [] [] sample_flaky.

Lemma sample_select_reachable {C} `{PollingCollector C} (c : C) :
  polling_interval c = from_secs 30 → reachable sample_sidecar c (sample_first_select c).
Proof.
  intros Hc. exists 0%Z. apply rtc_once. left.
  replace (sample_first_select c) with (spawn c (start c 0)); [by constructor|].
  unfold spawn. by rewrite Hc.
Qed.

Lemma sample_late_reachable : reachable sample_sidecar sample_flaky sample_late.
Proof.
  destruct (sample_select_reachable sample_flaky) as [now Hr]; [done|]. exists now.
  eapply rtc_r; [eapply rtc_r; [eapply rtc_r; [eapply rtc_r; [exact Hr|]|]|]|].
  - left. apply (step_tick _ _ (sample_first_select sample_flaky) 0 0 false); [done|]. cbn. lia.
  - left. by apply (step_poll_panic sample_sidecar sample_flaky _ 0 (from_secs 30) false 0%Z 0 flaky_panics 0 sample_flaky).
  - right. apply (env_clock _ (from_secs 10)). by vm_compute.
  - right. by apply env_signal.
Qed.

Lemma shutdown_honoured_witness :
  armed (signal (sample_first_select sample_flaky)) ∧
  ∃ n t, n ≤ 3 ∧ nsteps (task_step sample_sidecar sample_flaky) n (signal (sample_first_select sample_flaky)) t ∧
    phase t = Phase.Exited.
Proof.
  apply (shutdown_honoured sample_sidecar sample_flaky flaky_answers (sample_first_select sample_flaky));
    [by apply sample_select_reachable|done|done|constructor].
Defined.

Lemma shutdown_missed_on_respawn_witness :
  ∃ t1, nsteps (task_step sample_sidecar sample_flaky) 2 sample_late t1 ∧
    (∀ t', rtc (undisturbed sample_sidecar sample_flaky) t1 t' → phase t' ≠ Phase.Exited) ∧
    (∀ m, ∃ t', rtc (undisturbed sample_sidecar sample_flaky) t1 t' ∧
       length (sent t') = length (sent sample_late) + m).
Proof.
  eapply (shutdown_missed_on_respawn sample_sidecar sample_flaky flaky_answers 0 sample_late (from_secs 10));
    [apply sample_late_reachable|done|done|done|cbn; lia|done|intros c; eexists c, _; vm_compute; reflexivity].
Defined.

Lemma supervised_collector_steady_witness :
  phase (sample_first_select sample_steady) ≠ Phase.Aborted ∧
  (∀ d, phase (sample_first_select sample_steady) ≠ Phase.Backoff d).
Proof.
  destruct (supervised_collector_steady sample_sidecar sample_steady (sample_first_select sample_steady))
    as (Ha & Hb & _); [done|by apply sample_select_reachable|by split].
Defined.

Lemma zero_interval_never_polls_witness :
  polls (start sample_zero 0) = [] ∧ sent (start sample_zero 0) = [].
Proof.
  destruct (zero_interval_never_polls sample_sidecar sample_zero (start sample_zero 0)) as (_ & Hp & Hs);
    [done|by exists 0%Z|by split].
Defined.

Lemma subscription_shutdown_never_missed_witness :
  sub_step (mk_sub 0 true true 0 (SubPhase.Running 0)) (mk_sub 0 true true 0 SubPhase.Exited).
Proof.
  destruct (subscription_shutdown_never_missed (mk_sub 0 true true 0 (SubPhase.Running 0)))
    as [Hex _].
  - exists 0%Z. apply rtc_once. by apply (sub_signal (sub_start 0)).
  - by destruct Hex as [Hex|[Hex|Hex]].
Defined.
