(* ===== verification/BTreeMap.v ===== *)
(** * Ordered string maps

    [BTreeMap<String, V>] (toml's [Map]) as an association list in key order:
    byte order on strings, one entry per key. Two maps in order with the same
    entries are the same list, so insertions at different keys commute. *)

From S2P Require Import Prelude.

Definition key_lt (a b : string) : Prop := String.le a b ∧ a ≠ b.

Lemma key_lt_trans a b c : key_lt a b → key_lt b c → key_lt a c.
Proof.
  intros [Hab Hn] [Hbc _]. split; [by etrans|]. intros ->. apply Hn.
  by apply (anti_symm String.le).
Qed.

Lemma key_lt_irrefl a : ¬ key_lt a a.
Proof. by intros [_ []]. Qed.

Lemma key_not_le a b : ¬ String.le a b → key_lt b a.
Proof.
  intros Hn. destruct (total String.le a b) as [|Hba]; [done|]. split; [done|]. by intros ->.
Qed.

Section btree.
Context {V : Type}.
Implicit Types (m : list (string * V)) (k : string) (v : V).

Fixpoint btree_insert k v m : list (string * V) :=
  match m with
  | [] => [(k, v)]
  | (k', v') :: m' =>
      if decide (k = k') then (k, v) :: m'
      else if decide (String.le k k') then (k, v) :: m
      else (k', v') :: btree_insert k v m'
  end.

Fixpoint btree_get k m : option V :=
  match m with
  | [] => None
  | (k', v') :: m' => if decide (k = k') then Some v' else btree_get k m'
  end.

Definition btree_wf m : Prop := StronglySorted (λ a b, key_lt a.1 b.1) m.

Lemma btree_get_insert k' k v m :
  btree_get k' (btree_insert k v m) = if decide (k' = k) then Some v else btree_get k' m.
Proof.
  induction m as [|[k0 v0] m IH]; cbn; [done|].
  repeat (case_decide; cbn; simplify_eq; try done).
Qed.

Lemma btree_insert_keys k v m k' v' :
  (k', v') ∈ btree_insert k v m → (k' = k ∧ v' = v) ∨ (k', v') ∈ m.
Proof.
  induction m as [|[k0 v0] m IH]; cbn.
  - intros Hx%list_elem_of_singleton. naive_solver.
  - repeat case_decide; rewrite ?elem_of_cons; naive_solver.
Qed.

Lemma btree_insert_wf k v m : btree_wf m → btree_wf (btree_insert k v m).
Proof.
  induction 1 as [|[k0 v0] m Hm IH Hall]; cbn; [by repeat constructor|].
  case_decide as Heq; [subst; by constructor|].
  assert (Forall (λ b, key_lt k0 b.1) m) as Hall0 by exact Hall.
  case_decide as Hle.
  - constructor; [by constructor|]. constructor; [by split|].
    eapply Forall_impl; [exact Hall0|]. intros b Hb. eapply key_lt_trans; [by split|done].
  - constructor; [exact IH|]. apply Forall_forall. intros [k1 v1] Hin.
    apply btree_insert_keys in Hin as [[-> _]|Hin]; [by apply key_not_le|].
    by apply (proj1 (Forall_forall _ _) Hall0 (k1, v1)).
Qed.

Lemma btree_get_above k m : Forall (λ b, key_lt k b.1) m → btree_get k m = None.
Proof.
  induction 1 as [|[k0 v0] m Hk _ IH]; cbn in *; [done|].
  case_decide; [subst; by apply key_lt_irrefl in Hk|done].
Qed.

(** A map in order is its entries. *)
Lemma btree_ext m1 m2 :
  btree_wf m1 → btree_wf m2 → (∀ k, btree_get k m1 = btree_get k m2) → m1 = m2.
Proof.
  intros Hwf1. revert m2. induction Hwf1 as [|[k1 v1] m1 Hm1 IH H1]; intros m2 Hwf2 Hget.
  - destruct m2 as [|[k v] m2]; [done|]. specialize (Hget k); cbn in Hget.
    by rewrite decide_True in Hget.
  - destruct Hwf2 as [|[k2 v2] m2 Hm2 H2].
    { specialize (Hget k1); cbn in Hget. by rewrite decide_True in Hget. }
    assert (k1 = k2) as <-.
    { destruct (decide (k1 = k2)) as [|Hne]; [done|].
      destruct (decide (String.le k1 k2)) as [Hle|Hle].
      - specialize (Hget k1); cbn in Hget. rewrite decide_True, decide_False in Hget by done.
        rewrite btree_get_above in Hget; [done|]. eapply Forall_impl; [exact H2|].
        intros b Hb. by eapply key_lt_trans; [split|].
      - apply key_not_le in Hle. specialize (Hget k2); cbn in Hget.
        rewrite decide_False, decide_True in Hget by congruence.
        rewrite btree_get_above in Hget; [done|]. eapply Forall_impl; [exact H1|].
        intros b Hb. by eapply key_lt_trans. }
    pose proof (Hget k1) as Hk1; cbn in Hk1. rewrite !decide_True in Hk1 by done.
    injection Hk1 as <-. f_equal. apply IH; [done|]. intros k.
    destruct (decide (k = k1)) as [->|Hne].
    + by rewrite !btree_get_above.
    + specialize (Hget k); cbn in Hget. by rewrite !decide_False in Hget by done.
Qed.

Lemma btree_insert_comm k1 v1 k2 v2 m :
  k1 ≠ k2 → btree_wf m →
  btree_insert k1 v1 (btree_insert k2 v2 m) = btree_insert k2 v2 (btree_insert k1 v1 m).
Proof.
  intros Hne Hm. apply btree_ext; [by repeat apply btree_insert_wf..|].
  intros k. rewrite !btree_get_insert. repeat case_decide; congruence.
Qed.

Lemma btree_insert_insert k v1 v2 m :
  btree_wf m → btree_insert k v1 (btree_insert k v2 m) = btree_insert k v1 m.
Proof.
  intros Hm. apply btree_ext; [by repeat apply btree_insert_wf..|].
  intros k'. rewrite !btree_get_insert. by case_decide.
Qed.
End btree.
