(* ===== verification/Config.v ===== *)
(** * Configuration: [config/*.rs]

    The document ([toml::Value]), the environment overrides, the inline-secret
    check, the typed configuration and its validation, the secrets and the
    loader. The toml parser, the derived deserializers and [f64]'s parser are
    parameters, as are the file system and the database's opening. *)

From stdpp Require Import pretty.
From S2P Require Import Prelude RustStr Names SharedTypes F64 Samples BTreeMap.

(** ** The document *)

Module Value.
#[local] Set Warnings "-register-all".
Inductive t : Type :=
  | Str (s : string)
  | Integer (n : Z)
  | Float (x : f64)
  | Boolean (b : bool)
  | Datetime (s : string)
  | Array (items : list t)
  | Table (entries : list (string * t)).

(** Induction with the items of arrays and the children of tables. *)
Section induction.
Context (P : t → Prop).
Hypothesis str : ∀ s, P (Str s).
Hypothesis integer : ∀ n, P (Integer n).
Hypothesis float : ∀ x, P (Float x).
Hypothesis boolean : ∀ b, P (Boolean b).
Hypothesis datetime : ∀ s, P (Datetime s).
Hypothesis array : ∀ items, Forall P items → P (Array items).
Hypothesis table : ∀ entries, Forall (λ e, P e.2) entries → P (Table entries).

Fixpoint ind' (v : t) : P v :=
  match v with
  | Str s => str s
  | Integer n => integer n
  | Float x => float x
  | Boolean b => boolean b
  | Datetime s => datetime s
  | Array items =>
      array items ((fix go items : Forall P items :=
        match items with
        | [] => Forall_nil_2 P
        | v :: items => Forall_cons_2 P v items (ind' v) (go items)
        end) items)
  | Table entries =>
      table entries ((fix go entries : Forall (λ e, P e.2) entries :=
        match entries with
        | [] => Forall_nil_2 _
        | (k, v) :: entries => Forall_cons_2 (λ e, P e.2) (k, v) entries (ind' v) (go entries)
        end) entries)
  end.
End induction.
End Value.

Abbreviation Table := (list (string * Value.t)).

Module ConfigError.
Inductive t : Type :=
  | ReadFile (path source : string)
  | NotFound
  | Io (e : string)
  | Toml (e : string)
  | MissingEnv (name : string)
  | Invalid (what : string)
  | InlineSecret (path : string)
  | StorageOpen (e : string).
End ConfigError.

(** ** Inline secrets: [config/secrets.rs] *)

Definition looks_like_inline_secret (name : string) : bool :=
  let lower := to_ascii_lowercase name in
  if ends_with "_env" lower then false
  else
    String.eqb lower "password" || String.eqb lower "token" || String.eqb lower "secret"
    || ends_with "_password" lower || ends_with "_token" lower || ends_with "_secret" lower.

(** The two loops of [walk]; [path.push] and [path.pop] around a child are the
    longer path it is given. *)
Definition walk_table (walk : Value.t → list string → Result () ConfigError.t)
    (path : list string) : list (string * Value.t) → Result () ConfigError.t :=
  fix go map :=
    match map with
    | [] => Ok tt
    | (key, child) :: map =>
        if looks_like_inline_secret key then
          let here := match path with
                      | [] => key
                      | _ => join "." path +:+ "." +:+ key
                      end in
          Err (ConfigError.InlineSecret here)
        else
          let? _ := walk child (path ++ [key]) in
          go map
    end.

Definition index_segment (idx : nat) : string := "[" +:+ pretty (N.of_nat idx) +:+ "]".

Definition walk_array (walk : Value.t → list string → Result () ConfigError.t)
    (path : list string) : nat → list Value.t → Result () ConfigError.t :=
  fix go idx arr :=
    match arr with
    | [] => Ok tt
    | item :: arr =>
        let? _ := walk item (path ++ [index_segment idx]) in
        go (S idx) arr
    end.

Fixpoint walk (value : Value.t) (path : list string) : Result () ConfigError.t :=
  match value with
  | Value.Table map => walk_table walk path map
  | Value.Array arr => walk_array walk path 0 arr
  | _ => Ok tt
  end.

Definition reject_inline_secrets (value : Value.t) : Result () ConfigError.t := walk value [].

(** ** Environment overrides *)

(** [str::parse::<f64>]. *)
Class FloatText : Type := { parse_f64 : string → option f64 }.

(** [str::parse::<bool>]. *)
Definition parse_bool (s : string) : option bool :=
  match s with
  | "true" => Some true
  | "false" => Some false
  | _ => None
  end%string.

Definition coerce_env_value `{FloatText} (raw : string) (existing : option Value.t) : Value.t :=
  match existing with
  | Some (Value.Integer _) => default (Value.Str raw) (Value.Integer <$> parse_int i64_min i64_max raw)
  | Some (Value.Boolean _) => default (Value.Str raw) (Value.Boolean <$> parse_bool raw)
  | Some (Value.Float _) => default (Value.Str raw) (Value.Float <$> parse_f64 raw)
  | _ => default (Value.Str raw) (Value.Integer <$> parse_int i64_min i64_max raw)
  end.

(** The section and the key a variable names. *)
Definition override_key (name : string) : option (string * string) :=
  rest ← strip_prefix "BITHOUND_" name;
  '(section, key) ← split_once_str "__" rest;
  Some (to_ascii_lowercase section, to_ascii_lowercase key).

(** The body of the loop over the environment. *)
Definition apply_override `{FloatText} (root : Table) (var : string * string) : Table :=
  match override_key var.1 with
  | None => root
  | Some (section_lc, key_lc) =>
      match default (Value.Table []) (btree_get section_lc root) with
      | Value.Table section_table =>
          let coerced := coerce_env_value var.2 (btree_get key_lc section_table) in
          btree_insert section_lc (Value.Table (btree_insert key_lc coerced section_table)) root
      | _ => root
      end
  end.

(** [env] in the order the [HashMap] yields it. *)
Definition apply_env_overrides `{FloatText} (raw : Value.t) (env : list (string * string)) : Value.t :=
  match raw with
  | Value.Table root => Value.Table (foldl apply_override root env)
  | _ => raw
  end.

(** ** The typed configuration *)

Module SidecarConfig.
Record t : Type := mk { id_file : string; log_level : string }.
Definition default_log_level : string := "info".
End SidecarConfig.

Module StorageRetentionConfig.
Record t : Type := mk {
  observations_max_age_days : Z;
  incidents_max_age_days : Z;
  suppressions_grace_days : Z;
  vacuum_interval_hours : Z;
}.
Definition default : t := mk 30 365 90 24.
End StorageRetentionConfig.

Module StorageConfig.
Record t : Type := mk { db_path : string; retention : StorageRetentionConfig.t }.
End StorageConfig.

Module RuntimeConfig.
Record t : Type := mk { channel_capacity : Z; shutdown_deadline_seconds : Z }.
Definition default : t := mk 1024 30.
End RuntimeConfig.

(** A socket address is its text. *)
Module ApiConfig.
Record t : Type := mk { bind : string; enabled : bool }.
Definition default : t := mk "127.0.0.1:8487" true.
End ApiConfig.

Module IncidentsConfig.
Record t : Type := mk { kinds_config_path : option string }.
Definition default : t := mk None.
End IncidentsConfig.

Module BitcoinAuthConfig.
Inductive t : Type :=
  | UserPass (user password_env : string)
  | CookieFile (path : string).
End BitcoinAuthConfig.

Module BitcoinNodeConfig.
Record t : Type := mk {
  id : string;
  rpc_url : string;
  zmq_endpoint : option string;
  auth : BitcoinAuthConfig.t;
}.
End BitcoinNodeConfig.

Module LndNodeConfig.
Record t : Type := mk {
  id : string;
  grpc_endpoint : string;
  rest_endpoint : option string;
  macaroon_env : string;
  tls_cert_path : string;
}.
End LndNodeConfig.

Module HostConfig.
Record t : Type := mk { id : string }.
End HostConfig.

Module CollectorTargetConfig.
Inductive t : Type :=
  | BitcoinNode (id : string)
  | LndNode (id : string)
  | Host (id : string).

Definition target_id (c : t) : string :=
  match c with BitcoinNode id | LndNode id | Host id => id end.
End CollectorTargetConfig.

Module IntegrationConfig.
Inductive t : Type :=
  | BitcoinCoreRpc (interval_seconds : Z)
  | BitcoinCoreZmq
  | LndGrpcPoll (interval_seconds : Z)
  | LndGrpcStream
  | LndRest (interval_seconds : Z)
  | Host (interval_seconds : Z).
End IntegrationConfig.

Module CollectorDescriptorConfig.
Record t : Type := mk {
  id : string;
  target : CollectorTargetConfig.t;
  integration : IntegrationConfig.t;
  instance_label : string;
  description : option string;
}.
End CollectorDescriptorConfig.

Module TelegramParseModeConfig.
Inductive t : Type := Plain | Html | MarkdownV2.
Definition default : t := Plain.
End TelegramParseModeConfig.

Module TelegramSinkConfig.
Record t : Type := mk { bot_token_env : string; parse_mode : TelegramParseModeConfig.t }.
End TelegramSinkConfig.

Module DiscordSinkConfig.
Record t : Type := mk {}.
End DiscordSinkConfig.

Module WebhookSinkConfig.
Record t : Type := mk {}.
End WebhookSinkConfig.

Module NotificationsConfig.
Record t : Type := mk {
  telegram : option TelegramSinkConfig.t;
  discord : option DiscordSinkConfig.t;
  webhook : option WebhookSinkConfig.t;
}.
Definition default : t := mk None None None.
End NotificationsConfig.

Module SeverityConfig.
Inductive t : Type := Info | Warning | Critical.
End SeverityConfig.

Module NotificationTargetConfig.
Inductive t : Type :=
  | Telegram (chat_id : Z)
  | Discord (webhook_env : string) (thread_id : option Z)
  | Webhook (url_env : string).
End NotificationTargetConfig.

Module NotificationRuleConfig.
Record t : Type := mk {
  id : string;
  name : string;
  enabled : bool;
  min_severity : SeverityConfig.t;
  event_kinds : list string;
  target : NotificationTargetConfig.t;
}.
End NotificationRuleConfig.

Module Config.
Record t : Type := mk {
  sidecar : SidecarConfig.t;
  storage : StorageConfig.t;
  runtime : RuntimeConfig.t;
  api : ApiConfig.t;
  incidents : IncidentsConfig.t;
  bitcoin_nodes : list BitcoinNodeConfig.t;
  lnd_nodes : list LndNodeConfig.t;
  hosts : list HostConfig.t;
  collectors : list CollectorDescriptorConfig.t;
  notifications : NotificationsConfig.t;
  notification_rules : list NotificationRuleConfig.t;
}.
End Config.

(** ** Validation *)

Section validation.
Context `{DebugLib}.
Implicit Types (config : Config.t) (env : gmap string string).

(** [HashSet::insert] in a loop: the first repeated identifier. *)
Fixpoint check_unique (seen : gset string) (complain : string → string) (ids : list string) :
    Result () ConfigError.t :=
  match ids with
  | [] => Ok tt
  | id :: ids =>
      if decide (id ∈ seen) then Err (ConfigError.Invalid (complain id))
      else check_unique ({[id]} ∪ seen) complain ids
  end.

Fixpoint check_targets (bitcoin_ids lnd_ids host_ids : gset string)
    (collectors : list CollectorDescriptorConfig.t) : Result () ConfigError.t :=
  match collectors with
  | [] => Ok tt
  | collector :: collectors =>
      let '(target_id, set) :=
        match CollectorDescriptorConfig.target collector with
        | CollectorTargetConfig.BitcoinNode id => (id, bitcoin_ids)
        | CollectorTargetConfig.LndNode id => (id, lnd_ids)
        | CollectorTargetConfig.Host id => (id, host_ids)
        end in
      if decide (target_id ∈ set) then check_targets bitcoin_ids lnd_ids host_ids collectors
      else Err (ConfigError.Invalid ("collector "
        +:+ debug_str (CollectorDescriptorConfig.id collector) +:+ " targets unknown id "
        +:+ debug_str target_id))
  end.

Definition validate_cross_refs config : Result () ConfigError.t :=
  let bitcoin_ids : gset string := list_to_set (BitcoinNodeConfig.id <$> Config.bitcoin_nodes config) in
  let lnd_ids : gset string := list_to_set (LndNodeConfig.id <$> Config.lnd_nodes config) in
  let host_ids : gset string := list_to_set (HostConfig.id <$> Config.hosts config) in
  if negb (size bitcoin_ids =? length (Config.bitcoin_nodes config)) then
    Err (ConfigError.Invalid "duplicate id in [[bitcoin_nodes]]")
  else if negb (size lnd_ids =? length (Config.lnd_nodes config)) then
    Err (ConfigError.Invalid "duplicate id in [[lnd_nodes]]")
  else if negb (size host_ids =? length (Config.hosts config)) then
    Err (ConfigError.Invalid "duplicate id in [[hosts]]")
  else
    let? _ := check_targets bitcoin_ids lnd_ids host_ids (Config.collectors config) in
    let? _ := check_unique ∅ (λ id, "duplicate collector id " +:+ debug_str id)
      (CollectorDescriptorConfig.id <$> Config.collectors config) in
    check_unique ∅ (λ id, "duplicate notification_rules.id " +:+ debug_str id)
      (NotificationRuleConfig.id <$> Config.notification_rules config).
End validation.

(** ** Secrets *)

(** [Vec::dedup]. *)
Fixpoint dedup (l : list string) : list string :=
  match l with
  | x :: ((y :: _) as l') => if decide (x = y) then dedup l' else x :: dedup l'
  | l => l
  end.

(** The names in the order they are pushed. *)
Definition env_refs (config : Config.t) : list string :=
  omap (λ node, match BitcoinNodeConfig.auth node with
                | BitcoinAuthConfig.UserPass _ password_env => Some password_env
                | BitcoinAuthConfig.CookieFile _ => None
                end) (Config.bitcoin_nodes config) ++
  (LndNodeConfig.macaroon_env <$> Config.lnd_nodes config) ++
  match NotificationsConfig.telegram (Config.notifications config) with
  | Some tg => [TelegramSinkConfig.bot_token_env tg]
  | None => []
  end ++
  omap (λ rule, match NotificationRuleConfig.target rule with
                | NotificationTargetConfig.Telegram _ => None
                | NotificationTargetConfig.Discord webhook_env _ => Some webhook_env
                | NotificationTargetConfig.Webhook url_env => Some url_env
                end) (Config.notification_rules config).

Definition collect_env_refs (config : Config.t) : list string :=
  dedup (sort_by (λ a b, bool_decide (String.le a b)) (env_refs config)).

Fixpoint validate_env_vars (needed : list string) (env : gmap string string) :
    Result () ConfigError.t :=
  match needed with
  | [] => Ok tt
  | name :: needed =>
      match env !! name with
      | None => Err (ConfigError.MissingEnv name)
      | Some _ => validate_env_vars needed env
      end
  end.

(** A [SecretString] is the text it protects. *)
Module ResolvedSecrets.
Record t : Type := mk { map : gmap string string }.
Definition get (s : t) (env_name : string) : option string := map s !! env_name.
End ResolvedSecrets.

Definition resolve_secrets (needed : list string) (env : gmap string string) :
    Result ResolvedSecrets.t ConfigError.t :=
  let? map := try_fold (λ map name,
    let? value := ok_or (env !! name) (ConfigError.MissingEnv name) in
    Ok (<[name := value]> map)) (∅ : gmap string string) needed in
  Ok (ResolvedSecrets.mk map).

(** ** The file system and the loader *)

Class Fs (H : Type) : Type := {
  path_exists : H → string → bool;
  fs_read_to_string : H → string → Result string string;
  create_dir_all : H → string → Result () string * H;
  fs_write : H → string → string → Result () string * H;
}.

(** A write that succeeds is read back. *)
Class FsLaws (H : Type) `{Fs H} : Prop := {
  write_exists h path body h' : fs_write h path body = (Ok tt, h') → path_exists h' path = true;
  write_read h path body h' :
    fs_write h path body = (Ok tt, h') → fs_read_to_string h' path = Ok body;
}.

Definition DEFAULT_LOCAL_PATH : string := "bithound.toml".
Definition DEFAULT_SYSTEM_PATH : string := "/etc/bithound/bithound.toml".

(** [Path::parent], up to repeated separators: the components but the last. *)
Definition path_components (path : string) : list string :=
  match split "/" path with
  | [] => []
  | first :: rest =>
      (if String.eqb first "" then [] else [first]) ++ filter (λ c, c ≠ "" ∧ c ≠ ".") rest
  end.

Definition path_parent (path : string) : option string :=
  match rev (path_components path) with
  | [] => None
  | _ :: rest =>
      Some ((if starts_with "/" path then "/" else "") +:+ join "/" (rev rest))
  end.

Section loader.
Context {H : Type} `{Fs H, UuidLib, DebugLib, FloatText}.

Definition resolve_config_path (h : H) (cli_arg : option string) : Result string ConfigError.t :=
  match cli_arg with
  | Some p =>
      if negb (path_exists h p) then
        Err (ConfigError.Invalid ("--config path " +:+ p +:+ " does not exist"))
      else Ok p
  | None =>
      if path_exists h DEFAULT_LOCAL_PATH then Ok DEFAULT_LOCAL_PATH
      else if path_exists h DEFAULT_SYSTEM_PATH then Ok DEFAULT_SYSTEM_PATH
      else Err ConfigError.NotFound
  end.

(** The identifier, and the state of the file system. [n] is the next UUID. *)
Definition load_or_generate_sidecar_id (n : nat) (path : string) (h : H) :
    Result SidecarId.t ConfigError.t * H :=
  if path_exists h path then
    (let? raw := map_err (ConfigError.ReadFile path) (fs_read_to_string h path) in
     match uuid_parse_str (trim raw) with
     | Some id => Ok (SidecarId.mk id)
     | None => Err (ConfigError.Invalid
         ("sidecar.id_file at " +:+ path +:+ " does not contain a valid UUID"))
     end, h)
  else
    let '(made, h) :=
      match path_parent path with
      | Some parent => if String.eqb parent "" then (Ok tt, h) else create_dir_all h parent
      | None => (Ok tt, h)
      end in
    match made with
    | Err e => (Err (ConfigError.Io e), h)
    | Ok _ =>
        let id := now_v7 n in
        let '(written, h) :=
          fs_write h path (uuid_to_string id +:+ String (ascii_of_nat 10) EmptyString) in
        (match written with
         | Ok _ => Ok (SidecarId.mk id)
         | Err e => Err (ConfigError.Io e)
         end, h)
    end.

(** [toml::from_str] and the derived [Deserialize]. *)
Context (toml_parse : string → Result Value.t string).
Context (try_into : Value.t → Result Config.t string).

Definition from_toml_str (s : string) : Result Config.t ConfigError.t :=
  let? raw := map_err ConfigError.Toml (toml_parse s) in
  let? _ := reject_inline_secrets raw in
  map_err ConfigError.Toml (try_into raw).

(** The pool is the database's. *)
Context {P : Type} (open_pool : H → string → Result P string * H).

Record LoadedConfig : Type := mk_loaded {
  config : Config.t;
  secrets : ResolvedSecrets.t;
  sidecar_id : SidecarId.t;
  pool : P;
}.

(** The steps that only read: the configuration and its secrets. [entries] is
    the environment in the order of its iteration. *)
Definition read_config (cli_config : option string) (env : gmap string string)
    (entries : list (string * string)) (h : H) :
    Result (Config.t * ResolvedSecrets.t) ConfigError.t :=
  let? config_path := resolve_config_path h cli_config in
  let? body := map_err (ConfigError.ReadFile config_path) (fs_read_to_string h config_path) in
  let? raw := map_err ConfigError.Toml (toml_parse body) in
  let raw := apply_env_overrides raw entries in
  let? _ := reject_inline_secrets raw in
  let? config := map_err ConfigError.Toml (try_into raw) in
  let? _ := validate_cross_refs config in
  let needed := collect_env_refs config in
  let? _ := validate_env_vars needed env in
  let? resolved := resolve_secrets needed env in
  Ok (config, resolved).

Definition load_with_env (cli_config : option string) (env : gmap string string)
    (entries : list (string * string)) (n : nat) (h : H) : Result LoadedConfig ConfigError.t * H :=
  match read_config cli_config env entries h with
  | Err e => (Err e, h)
  | Ok (config, resolved) =>
      match load_or_generate_sidecar_id n (SidecarConfig.id_file (Config.sidecar config)) h with
      | (Err e, h) => (Err e, h)
      | (Ok sidecar_id, h) =>
          match open_pool h (StorageConfig.db_path (Config.storage config)) with
          | (Err e, h) => (Err (ConfigError.StorageOpen e), h)
          | (Ok pool, h) => (Ok (mk_loaded config resolved sidecar_id pool), h)
          end
      end
  end.
End loader.

(** ** Inline secrets: the keys of a document *)

(** [key] is a key of the table at [path]. *)
Inductive occurs : Value.t → list string → string → Prop :=
  | occurs_here entries key child :
      (key, child) ∈ entries → occurs (Value.Table entries) [] key
  | occurs_table entries k child path key :
      (k, child) ∈ entries → occurs child path key → occurs (Value.Table entries) (k :: path) key
  | occurs_array items i item path key :
      items !! i = Some item → occurs item path key →
      occurs (Value.Array items) (index_segment i :: path) key.

Definition here (path : list string) (key : string) : string :=
  match path with
  | [] => key
  | _ => join "." path +:+ "." +:+ key
  end.

Lemma here_join path key : here path key = join "." (path ++ [key]).
Proof.
  destruct path as [|c path]; [done|]. revert c.
  induction path as [|c' path IH]; intros c; [done|].
  specialize (IH c'). cbn [here join app] in *. rewrite <-IH.
  by rewrite !string_app_assoc.
Qed.

(** What [walk] answers below [path]. *)
Definition walk_answers (v : Value.t) (path : list string) : Prop :=
  (walk v path = Ok tt ∧ ∀ p k, occurs v p k → looks_like_inline_secret k = false) ∨
  ∃ p k, walk v path = Err (ConfigError.InlineSecret (here (path ++ p) k)) ∧
    occurs v p k ∧ looks_like_inline_secret k = true.

Lemma walk_array_spec items path :
  Forall (λ v, ∀ path, walk_answers v path) items → ∀ n all,
  (∀ i v, items !! i = Some v → all !! (n + i) = Some v) →
  (walk_array walk path n items = Ok tt ∧
     ∀ i v p k, items !! i = Some v → occurs v p k → looks_like_inline_secret k = false) ∨
  ∃ p k, walk_array walk path n items = Err (ConfigError.InlineSecret (here (path ++ p) k)) ∧
    occurs (Value.Array all) p k ∧ looks_like_inline_secret k = true.
Proof.
  induction 1 as [|v items Hv _ IH]; intros n all Hsub; [by left|]. cbn [walk_array].
  destruct (Hv (path ++ [index_segment n])) as [[-> Hok]|(p & k & -> & Ho & Hk)]; cbn [res_bind].
  - destruct (IH (S n) all) as [[Hr Hok']|Hr]; [|left|by right].
    + intros i w Hw. rewrite Nat.add_succ_comm. by apply Hsub.
    + split; [exact Hr|]. intros [|i] w p k Hw; cbn in Hw; [injection Hw as <-; by apply Hok|].
      by eapply Hok'.
  - right. exists (index_segment n :: p), k. rewrite <-(assoc_L (++)). split_and!; [done| |done].
    eapply occurs_array; [|done]. specialize (Hsub 0 v eq_refl). by rewrite Nat.add_0_r in Hsub.
Qed.

Lemma walk_table_spec entries path :
  Forall (λ e : string * Value.t, ∀ path, walk_answers e.2 path) entries → ∀ all,
  (∀ e, e ∈ entries → e ∈ all) →
  (walk_table walk path entries = Ok tt ∧
     ∀ key child, (key, child) ∈ entries → looks_like_inline_secret key = false ∧
       ∀ p k, occurs child p k → looks_like_inline_secret k = false) ∨
  ∃ p k, walk_table walk path entries = Err (ConfigError.InlineSecret (here (path ++ p) k)) ∧
    occurs (Value.Table all) p k ∧ looks_like_inline_secret k = true.
Proof.
  induction 1 as [|[key child] entries Hv _ IH]; intros all Hsub; cbn [walk_table].
  { left. split; [done|]. by intros ?? ?%elem_of_nil. }
  destruct (looks_like_inline_secret key) eqn:Hkey.
  { right. exists [], key. rewrite app_nil_r. split_and!; [done| |done].
    apply (occurs_here _ _ child), Hsub. by left. }
  destruct (Hv (path ++ [key])) as [[Hw Hok]|(p & k & Hw & Ho & Hk)]; cbn in Hw; rewrite Hw; cbn [res_bind].
  - destruct (IH all) as [[Hr Hok']|Hr]; [intros; apply Hsub; by right|left|by right].
    split; [exact Hr|]. intros key' child' [[= -> ->]|Hin]%elem_of_cons; [done|by eapply Hok'].
  - right. exists (key :: p), k. rewrite <-(assoc_L (++)). split_and!; [done| |done].
    eapply occurs_table; [apply Hsub; by left|done].
Qed.

Lemma walk_spec v : ∀ path, walk_answers v path.
Proof.
  induction v as [s|n|x|b|s|items IH|entries IH] using Value.ind'; intros path;
    try (by left; split; [done|]; intros p k Ho; inversion Ho); unfold walk_answers; cbn [walk].
  - destruct (walk_array_spec items path IH 0 items) as [[Hr Hok]|Hr]; [done|left|by right].
    split; [exact Hr|]. intros p k Ho. inversion Ho; subst. by eapply Hok.
  - destruct (walk_table_spec entries path IH entries) as [[Hr Hok]|Hr]; [done|left|by right].
    split; [exact Hr|]. intros p k Ho. inversion Ho as [? ? child Hin|? ? child ? ? Hin Hoc|]; subst;
      destruct (Hok _ _ Hin) as [? Hc]; [done|by eapply Hc].
Qed.

Lemma reject_inline_secrets_ok v :
  reject_inline_secrets v = Ok tt →
  ∀ path key, occurs v path key → looks_like_inline_secret key = false.
Proof.
  unfold reject_inline_secrets. destruct (walk_spec v []) as [[_ Hok]|(p & k & -> & _)]; done.
Qed.

(** The names that are refused, whatever their case: one of three words, alone
    or after an underscore. *)
Definition names_secret (key : string) : Prop :=
  ∃ word, word ∈ ["password"; "token"; "secret"] ∧
    (to_ascii_lowercase key = word ∨ ∃ pre, to_ascii_lowercase key = pre +:+ "_" +:+ word).

Lemma secret_word_env (word pre : string) :
  word ∈ ["password"; "token"; "secret"] →
  ends_with "_env" word = false ∧ ends_with "_env" (pre +:+ "_" +:+ word) = false.
Proof.
  intros Hw. assert (last_byte word ≠ Some "v"%char) as Hlast.
  { by repeat (apply elem_of_cons in Hw as [->|Hw]; [done|]); apply elem_of_nil in Hw. }
  assert (∀ s, last_byte s = last_byte word → ends_with "_env" s = false) as Hno.
  { intros s Hs. apply not_true_is_false. intros [p ->]%ends_with_true.
    rewrite last_byte_app in Hs. by rewrite <-Hs in Hlast. }
  split; apply Hno; [done|]. destruct word as [|b w].
  - by repeat (apply elem_of_cons in Hw as [[=]|Hw]); apply elem_of_nil in Hw.
  - change ("_" +:+ String b w) with (String "_" (String b w)). by rewrite last_byte_app.
Qed.

Lemma looks_like_inline_secret_spec key : looks_like_inline_secret key = true ↔ names_secret key.
Proof.
  unfold looks_like_inline_secret, names_secret. set (l := to_ascii_lowercase key). split.
  - destruct (ends_with "_env" l); [done|].
    rewrite !orb_true_iff, !String.eqb_eq, !ends_with_true.
    intros [[[[[Hl|Hl]|Hl]|[p Hl]]|[p Hl]]|[p Hl]]; rewrite Hl;
      eexists; (split; [|by eauto]); set_solver.
  - intros (word & Hw & Hl).
    assert (ends_with "_env" l = false) as ->.
    { destruct Hl as [->|[pre ->]]; [by apply (secret_word_env _ "")|by apply secret_word_env]. }
    rewrite !orb_true_iff, !String.eqb_eq, !ends_with_true.
    repeat (apply elem_of_cons in Hw as [->|Hw]; [destruct Hl; eauto 10|]).
    by apply elem_of_nil in Hw.
Qed.

(** C40: A document passes the scan exactly when no key of any of its tables, at
    any depth and through arrays, is in any case of its letters one of the
    words password, token and secret, alone or after an underscore; otherwise
    the scan names such a key by its dotted path. Names that merely end in a
    word, which the module's comment rejects as well, pass: a document with a
    key rpcpassword is accepted. *)
Theorem reject_inline_secrets_spec v :
  match reject_inline_secrets v with
  | Ok _ => ∀ path key, occurs v path key → ¬ names_secret key
  | Err e => ∃ path key, occurs v path key ∧ names_secret key ∧
      e = ConfigError.InlineSecret (join "." (path ++ [key]))
  end ∧
  ∀ secret, reject_inline_secrets (Value.Table [("rpcpassword", Value.Str secret)]) = Ok tt.
Proof.
  split; [|done]. unfold reject_inline_secrets.
  destruct (walk_spec v []) as [[-> Hok]|(p & k & -> & Ho & Hk)].
  - intros path key Ho Hs%looks_like_inline_secret_spec. specialize (Hok _ _ Ho). congruence.
  - exists p, k. rewrite <-here_join. by rewrite <-looks_like_inline_secret_spec.
Qed.

(** A password in a table of an array. *)
Lemma reject_inline_secrets_spec_witness :
  ∃ path key, names_secret key ∧
    reject_inline_secrets (Value.Table [("nodes", Value.Array [Value.Table
      [("url", Value.Str "http://localhost"); ("Rpc_Password", Value.Str "hunter2")]])])
    = Err (ConfigError.InlineSecret (join "." (path ++ [key]))).
Proof.
  pose proof (proj1 (reject_inline_secrets_spec (Value.Table [("nodes", Value.Array [Value.Table
      [("url", Value.Str "http://localhost"); ("Rpc_Password", Value.Str "hunter2")]])]))) as Hs.
  cbn in Hs. destruct Hs as (path & key & _ & Hk & He). exists path, key.
  split; [exact Hk|]. rewrite <-He. reflexivity.
Defined.

(** ** Overrides *)

Section overrides.
Context `{FloatText}.

#[local] Arguments override_key : simpl never.
#[local] Arguments parse_int : simpl never.
#[local] Arguments btree_insert : simpl never.
#[local] Arguments btree_get : simpl never.
#[local] Arguments coerce_env_value : simpl never.

(** The root and its sections are maps in key order. *)
Definition wf_root (root : Table) : Prop :=
  btree_wf root ∧ ∀ s t, btree_get s root = Some (Value.Table t) → btree_wf t.

(** What one section becomes: an override leaves a section that is not a
    table alone, and makes one that is missing. *)
Definition override_section (key value : string) (section : option Value.t) : option Value.t :=
  match default (Value.Table []) section with
  | Value.Table t => Some (Value.Table (btree_insert key (coerce_env_value value (btree_get key t)) t))
  | _ => section
  end.

Lemma apply_override_get root name value s :
  btree_get s (apply_override root (name, value)) =
    match override_key name with
    | Some (section, key) =>
        if decide (s = section) then override_section key value (btree_get s root)
        else btree_get s root
    | None => btree_get s root
    end.
Proof.
  unfold apply_override, override_section; cbn.
  destruct (override_key name) as [[section key]|]; [|done].
  destruct (decide (s = section)) as [->|Hne];
    (destruct (default _ (btree_get section root)) eqn:Hs;
       [..|rewrite btree_get_insert; by case_decide]);
    try done; destruct (btree_get section root); cbn in Hs; by simplify_eq.
Qed.

Lemma apply_override_wf root var : wf_root root → wf_root (apply_override root var).
Proof.
  destruct var as [name value]. intros [Hr Hs]. split.
  - unfold apply_override; cbn. destruct (override_key name) as [[section key]|]; [|done].
    destruct (default _ _); try done. by apply btree_insert_wf.
  - intros s t. rewrite apply_override_get.
    destruct (override_key name) as [[section key]|]; [|apply Hs].
    case_decide; [|apply Hs]. unfold override_section.
    destruct (btree_get s root) as [v|] eqn:Hv; cbn.
    + destruct v; try done. intros [= <-]. apply btree_insert_wf. by apply (Hs s).
    + intros [= <-]. by repeat constructor.
Qed.

Lemma override_section_comm k1 v1 k2 v2 section :
  k1 ≠ k2 → (∀ t, section = Some (Value.Table t) → btree_wf t) →
  override_section k1 v1 (override_section k2 v2 section) =
  override_section k2 v2 (override_section k1 v1 section).
Proof.
  intros Hne Hwf. unfold override_section.
  assert (∀ t, btree_wf t →
    Value.Table (btree_insert k1 (coerce_env_value v1 (btree_get k1
        (btree_insert k2 (coerce_env_value v2 (btree_get k2 t)) t)))
      (btree_insert k2 (coerce_env_value v2 (btree_get k2 t)) t)) =
    Value.Table (btree_insert k2 (coerce_env_value v2 (btree_get k2
        (btree_insert k1 (coerce_env_value v1 (btree_get k1 t)) t)))
      (btree_insert k1 (coerce_env_value v1 (btree_get k1 t)) t))) as Ht.
  { intros t Htw. f_equal. rewrite !btree_get_insert, !decide_False by done.
    by apply btree_insert_comm. }
  destruct section as [[]|]; cbn; try done; f_equal; apply Ht; [by apply Hwf|by constructor].
Qed.

Lemma apply_override_comm root a b :
  wf_root root →
  (∀ k, override_key a.1 = Some k → override_key b.1 ≠ Some k) →
  apply_override (apply_override root a) b = apply_override (apply_override root b) a.
Proof.
  destruct a as [n1 v1], b as [n2 v2]; cbn. intros Hwf Hne.
  apply btree_ext; [by repeat apply apply_override_wf..|]. intros s.
  rewrite !apply_override_get.
  destruct (override_key n1) as [[s1 k1]|] eqn:E1; [|done].
  destruct (override_key n2) as [[s2 k2]|] eqn:E2; [|done].
  destruct (decide (s = s2)) as [->|]; destruct (decide (s2 = s1)) as [->|];
    repeat (case_decide; simplify_eq; try done).
  all: try done.
  apply override_section_comm; [|apply Hwf]. intros ->. by eapply Hne.
Qed.

Lemma apply_overrides_perm l1 l2 :
  l1 ≡ₚ l2 → ∀ root, wf_root root → NoDup (omap (λ v, override_key v.1) l1) →
  foldl apply_override root l1 = foldl apply_override root l2.
Proof.
  induction 1 as [|v l1 l2 Hp IH|v w l|l1 l2 l3 H12 IH12 H23 IH23]; intros root Hwf Hnd; cbn.
  - done.
  - apply IH; [by apply apply_override_wf|]. cbn in Hnd. destruct (override_key v.1); [|done].
    by apply NoDup_cons in Hnd as [_ ?].
  - f_equal. apply apply_override_comm; [done|]. intros k Hk1 Hk2. cbn in Hnd.
    rewrite Hk1, Hk2 in Hnd. apply NoDup_cons in Hnd as [Hnin _]. apply Hnin. by left.
  - rewrite IH12 by done. apply IH23; [done|].
    eapply NoDup_Permutation_proper; [|exact Hnd]. symmetry. by apply omap_Permutation.
Qed.

(** Overrides do not depend on the order of the environment, which a
    [HashMap] does not fix: two orders of the same variables give the same
    document, provided no two variables name the same section and key once
    their case is folded. *)
Theorem env_overrides_order_irrelevant root env1 env2 :
  wf_root root → env1 ≡ₚ env2 → NoDup (omap (λ v, override_key v.1) env1) →
  apply_env_overrides (Value.Table root) env1 = apply_env_overrides (Value.Table root) env2.
Proof. intros Hwf Hp Hnd. cbn. f_equal. by apply apply_overrides_perm. Qed.

(** A boolean cannot be switched by the environment unless the file
    already sets it: over a section without the key, [true] and [false] become
    strings, whatever the section, where the schema wants a boolean. A number,
    on the other hand, lands as one even over a string. *)
Theorem override_types name value section key root t :
  override_key name = Some (section, key) →
  default (Value.Table []) (btree_get section root) = Value.Table t →
  ∃ t', btree_get section (apply_override root (name, value)) = Some (Value.Table t') ∧
    (∀ k, k ≠ key → btree_get k t' = btree_get k t) ∧
    (btree_get key t = None → value = "true" ∨ value = "false" →
       btree_get key t' = Some (Value.Str value)) ∧
    (∀ b b', btree_get key t = Some (Value.Boolean b) → parse_bool value = Some b' →
       btree_get key t' = Some (Value.Boolean b')) ∧
    (∀ s n, btree_get key t = Some (Value.Str s) → parse_int i64_min i64_max value = Some n →
       btree_get key t' = Some (Value.Integer n)).
Proof.
  intros Hk Hs. rewrite apply_override_get, Hk, decide_True by done.
  unfold override_section. rewrite Hs. eexists. split; [done|].
  setoid_rewrite btree_get_insert. split_and!.
  - intros k Hne. by rewrite decide_False.
  - intros ->. rewrite decide_True by done. by intros [->| ->].
  - intros b b' -> Hb. rewrite decide_True by done. unfold coerce_env_value. by rewrite Hb.
  - intros s n -> Hn. rewrite decide_True by done. unfold coerce_env_value. by rewrite Hn.
Qed.
End overrides.

(** ** Validation *)

Lemma size_list_to_set_NoDup (l : list string) :
  size (list_to_set l : gset string) = length l ↔ NoDup l.
Proof.
  split; [|apply size_list_to_set].
  assert (∀ l : list string, size (list_to_set l : gset string) ≤ length l) as Hle.
  { clear. induction l as [|x l IH]; cbn; [by rewrite size_empty|].
    rewrite size_union_alt, size_singleton.
    pose proof (subseteq_size (list_to_set l ∖ {[x]} : gset string) (list_to_set l)). set_solver by lia. }
  induction l as [|x l IH]; [by constructor|]. cbn. intros Hsz. pose proof (Hle l) as Hl.
  destruct (decide (x ∈ l)) as [Hin|Hnin].
  - rewrite subseteq_union_1_L in Hsz by set_solver. lia.
  - constructor; [done|]. apply IH.
    rewrite size_union, size_singleton in Hsz by set_solver. lia.
Qed.

Section validation_facts.
Context `{DebugLib}.
Implicit Types (config : Config.t) (env : gmap string string).

(** What a cross-referenced configuration is. *)
Record well_referenced config : Prop := {
  wr_bitcoin : NoDup (BitcoinNodeConfig.id <$> Config.bitcoin_nodes config);
  wr_lnd : NoDup (LndNodeConfig.id <$> Config.lnd_nodes config);
  wr_hosts : NoDup (HostConfig.id <$> Config.hosts config);
  wr_targets : Forall (λ c, match CollectorDescriptorConfig.target c with
    | CollectorTargetConfig.BitcoinNode id =>
        id ∈ BitcoinNodeConfig.id <$> Config.bitcoin_nodes config
    | CollectorTargetConfig.LndNode id => id ∈ LndNodeConfig.id <$> Config.lnd_nodes config
    | CollectorTargetConfig.Host id => id ∈ HostConfig.id <$> Config.hosts config
    end) (Config.collectors config);
  wr_collectors : NoDup (CollectorDescriptorConfig.id <$> Config.collectors config);
  wr_rules : NoDup (NotificationRuleConfig.id <$> Config.notification_rules config);
}.

Lemma check_unique_ok complain ids : ∀ seen,
  check_unique seen complain ids = Ok tt ↔ NoDup ids ∧ ∀ x, x ∈ ids → x ∉ seen.
Proof.
  induction ids as [|x ids IH]; intros seen; cbn; [split; [split; [constructor|set_solver]|done]|].
  case_decide as Hx; [split; [done|]; intros [_ Hs]; destruct (Hs x); set_solver|].
  rewrite IH, NoDup_cons. set_solver.
Qed.

Lemma check_targets_ok b l h collectors :
  check_targets b l h collectors = Ok tt ↔
  Forall (λ c, match CollectorDescriptorConfig.target c with
    | CollectorTargetConfig.BitcoinNode id => id ∈ b
    | CollectorTargetConfig.LndNode id => id ∈ l
    | CollectorTargetConfig.Host id => id ∈ h
    end) collectors.
Proof.
  induction collectors as [|c cs IH]; cbn; [by split|]. rewrite Forall_cons.
  destruct (CollectorDescriptorConfig.target c); case_decide; rewrite ?IH; naive_solver.
Qed.

(** [validate_cross_refs] accepts exactly the configurations whose ids are
    unique and whose collectors target what is configured. *)
Lemma validate_cross_refs_spec config :
  validate_cross_refs config = Ok tt ↔ well_referenced config.
Proof.
  assert (∀ l, negb (size (list_to_set l : gset string) =? length l) = false ↔ NoDup l) as Hu.
  { intros l. rewrite negb_false_iff, Nat.eqb_eq. apply size_list_to_set_NoDup. }
  pose proof (Hu (BitcoinNodeConfig.id <$> Config.bitcoin_nodes config)) as Hb.
  pose proof (Hu (LndNodeConfig.id <$> Config.lnd_nodes config)) as Hl.
  pose proof (Hu (HostConfig.id <$> Config.hosts config)) as Hh. clear Hu.
  rewrite length_fmap in Hb. rewrite length_fmap in Hl. rewrite length_fmap in Hh. unfold validate_cross_refs.
  destruct (negb (size _ =? length (Config.bitcoin_nodes config))).
  { split; [done|]. intros [Hn _ _ _ _ _]. by apply Hb in Hn. }
  destruct (negb (size _ =? length (Config.lnd_nodes config))).
  { split; [done|]. intros [_ Hn _ _ _ _]. by apply Hl in Hn. }
  destruct (negb (size _ =? length (Config.hosts config))).
  { split; [done|]. intros [_ _ Hn _ _ _]. by apply Hh in Hn. }
  set (targets := check_targets _ _ _ _). set (ids := check_unique _ _ (CollectorDescriptorConfig.id <$> _)).
  assert (targets = Ok tt ↔ Forall (λ c, match CollectorDescriptorConfig.target c with
    | CollectorTargetConfig.BitcoinNode id =>
        id ∈ BitcoinNodeConfig.id <$> Config.bitcoin_nodes config
    | CollectorTargetConfig.LndNode id => id ∈ LndNodeConfig.id <$> Config.lnd_nodes config
    | CollectorTargetConfig.Host id => id ∈ HostConfig.id <$> Config.hosts config
    end) (Config.collectors config)) as Ht.
  { unfold targets. rewrite check_targets_ok. apply Forall_proper; [|done]. intros c.
    destruct (CollectorDescriptorConfig.target c); by rewrite elem_of_list_to_set. }
  assert (ids = Ok tt ↔ NoDup (CollectorDescriptorConfig.id <$> Config.collectors config)) as Hi.
  { unfold ids. rewrite check_unique_ok. set_solver. }
  destruct targets as [[]|e]; cbn; [|split; [done|intros [_ _ _ Hc _ _]; by apply Ht in Hc]].
  destruct ids as [[]|e]; cbn; [|split; [done|intros [_ _ _ _ Hc _]; by apply Hi in Hc]].
  rewrite check_unique_ok. split.
  - intros [Hr _]. split; [by apply Hb|by apply Hl|by apply Hh|by apply Ht|by apply Hi|done].
  - intros [_ _ _ _ _ Hr]. set_solver.
Qed.

(** ** Secrets *)

Lemma elem_of_dedup x l : x ∈ dedup l ↔ x ∈ l.
Proof.
  induction l as [|y [|z l] IH]; cbn [dedup]; [done|done|].
  case_decide as Heq; rewrite ?elem_of_cons in *; naive_solver.
Qed.

Lemma elem_of_env_refs x config : x ∈ collect_env_refs config ↔ x ∈ env_refs config.
Proof. unfold collect_env_refs. by rewrite elem_of_dedup, sort_by_perm. Qed.

Lemma validate_env_vars_ok needed env :
  validate_env_vars needed env = Ok tt ↔ ∀ name, name ∈ needed → is_Some (env !! name).
Proof.
  induction needed as [|x needed IH]; cbn; [split; [set_solver|done]|].
  destruct (env !! x) as [v|] eqn:Hx.
  - rewrite IH. split; [intros Hn name [->|]%elem_of_cons; [by exists v|auto]|set_solver].
  - split; [done|]. intros Hn. destruct (Hn x); [by left|congruence].
Qed.

(** After the presence check, resolution cannot fail; it reads exactly the
    names it is given. *)
Lemma resolve_secrets_ok needed env :
  (∀ name, name ∈ needed → is_Some (env !! name)) →
  ∃ s, resolve_secrets needed env = Ok s ∧
    ∀ name, ResolvedSecrets.get s name = if decide (name ∈ needed) then env !! name else None.
Proof.
  intros Hn. unfold resolve_secrets, ResolvedSecrets.get.
  assert (∀ acc : gmap string string, ∃ m,
    try_fold (λ map name, let? value := ok_or (env !! name) (ConfigError.MissingEnv name) in
      Ok (<[name := value]> map)) acc needed = Ok m ∧
    ∀ name, m !! name = if decide (name ∈ needed) then env !! name else acc !! name) as Hf.
  { induction needed as [|x needed IH]; intros acc.
    - exists acc. split; [done|]. intros name. by rewrite decide_False by set_solver.
    - cbn [try_fold]. destruct (Hn x) as [v Hv]; [by left|]. rewrite Hv; cbn [ok_or res_bind].
      destruct (IH ltac:(intros; apply Hn; by right) (<[x := v]> acc))
        as (m & -> & Hm).
      exists m. split; [done|]. intros name. rewrite Hm. rewrite lookup_insert.
      repeat case_decide; set_solver. }
  destruct (Hf ∅) as (m & -> & Hm). eexists. split; [done|]. cbn. intros name. by rewrite Hm.
Qed.
End validation_facts.

(** ** The sidecar's identity *)

Lemma uuid_byte_not_space b : is_uuid_byte b = true → is_ascii_whitespace b = false.
Proof. destruct b as [[] [] [] [] [] [] [] []]; vm_compute; done. Qed.

Lemma trim_line s :
  all_bytes is_uuid_byte s = true → trim (s +:+ String (ascii_of_nat 10) EmptyString) = s.
Proof.
  intros Hs. unfold trim.
  assert (∀ s, all_bytes is_uuid_byte s = true →
    trim_end (s +:+ String (ascii_of_nat 10) EmptyString) = s) as Hend.
  { clear. induction s as [|b s IH]; intros Hs; [done|].
    cbn [all_bytes] in Hs. apply andb_true_iff in Hs as [Hb Hs].
    rewrite string_app_cons. cbn [trim_end]. rewrite IH by done.
    destruct s; [by rewrite uuid_byte_not_space|done]. }
  destruct s as [|b s]; [done|]. pose proof Hs as Hs'.
  cbn [all_bytes] in Hs. apply andb_true_iff in Hs as [Hb _].
  rewrite string_app_cons. cbn [trim_start]. rewrite uuid_byte_not_space by done.
  rewrite <-string_app_cons. by apply Hend.
Qed.

Section loader_facts.
Context {H : Type} `{FsLaws H, UuidLaws, DebugLib, FloatText}.

(** The sidecar keeps its identity. Once [load_or_generate_sidecar_id] has
    returned an identifier, fresh or read, every later load from the state it
    left returns the same one and changes nothing. *)
Theorem sidecar_id_stable n path h id h' :
  load_or_generate_sidecar_id n path h = (Ok id, h') →
  ∀ m, load_or_generate_sidecar_id m path h' = (Ok id, h').
Proof.
  intros Hl m. unfold load_or_generate_sidecar_id in Hl.
  destruct (path_exists h path) eqn:Hex.
  { injection Hl as Hr <-. unfold load_or_generate_sidecar_id. rewrite Hex. by f_equal. }
  set (step := match path_parent path with Some _ => _ | None => _ end) in Hl. clearbody step.
  destruct step as [made h1]. destruct made as [[]|e]; [|done].
  set (line := uuid_to_string (now_v7 n) +:+ _) in Hl.
  destruct (fs_write h1 path line) as [written h2] eqn:Hw.
  destruct written as [[]|e]; [|done]. injection Hl as <- <-.
  unfold load_or_generate_sidecar_id.
  rewrite (write_exists _ _ _ _ Hw), (write_read _ _ _ _ Hw); cbn [map_err res_bind].
  unfold line. rewrite trim_line by apply uuid_to_string_bytes.
  by rewrite uuid_parse_to_string.
Qed.

Context (toml_parse : string → Result Value.t string).
Context (try_into : Value.t → Result Config.t string).

(** What holds of a configuration that was read. *)
Record loaded_from (cli : option string) (env : gmap string string)
    (entries : list (string * string)) (h : H) (c : Config.t) (s : ResolvedSecrets.t) : Prop := {
  lf_document : ∃ path body raw,
    resolve_config_path h cli = Ok path ∧ fs_read_to_string h path = Ok body ∧
    toml_parse body = Ok raw ∧ try_into (apply_env_overrides raw entries) = Ok c ∧
    ∀ p k, occurs (apply_env_overrides raw entries) p k → looks_like_inline_secret k = false;
  lf_refs : well_referenced c;
  lf_present name : name ∈ env_refs c → is_Some (env !! name);
  lf_secrets name :
    ResolvedSecrets.get s name = if decide (name ∈ env_refs c) then env !! name else None;
}.

Lemma read_config_sound cli env entries h c s :
  read_config toml_parse try_into cli env entries h = Ok (c, s) → loaded_from cli env entries h c s.
Proof.
  unfold read_config. destruct (resolve_config_path h cli) as [path|e] eqn:Hp; cbn [res_bind]; [|done].
  destruct (fs_read_to_string h path) as [body|e] eqn:Hb; cbn [res_bind map_err]; [|done].
  destruct (toml_parse body) as [raw|e] eqn:Hraw; cbn [res_bind map_err]; [|done].
  destruct (reject_inline_secrets _) as [[]|e] eqn:Hs; cbn [res_bind]; [|done].
  pose proof (reject_inline_secrets_ok _ Hs) as Hsec.
  destruct (try_into _) as [c'|e] eqn:Hc; cbn [res_bind map_err]; [|done].
  destruct (validate_cross_refs c') as [[]|e] eqn:Hv; cbn [res_bind]; [|done].
  destruct (validate_env_vars _ env) as [[]|e] eqn:He; cbn [res_bind]; [|done].
  pose proof (proj1 (validate_env_vars_ok _ _) He) as Hn.
  destruct (resolve_secrets_ok _ _ Hn) as (s' & -> & Hget); cbn [res_bind]. intros [= <- <-].
  split.
  - by exists path, body, raw.
  - by apply validate_cross_refs_spec.
  - intros name Hin. by apply Hn, elem_of_env_refs.
  - intros name. rewrite Hget. pose proof (elem_of_env_refs name c') as Hiff.
    by destruct (decide (name ∈ collect_env_refs c')), (decide (name ∈ env_refs c')); try tauto.
Qed.

Context {P : Type} (open_pool : H → string → Result P string * H).

(** C29: What a successful start-up has checked. The configuration came from the
    document on disk with the environment's overrides applied; the document
    holds no inline secret; identifiers are unique and collectors target what
    is configured; every secret the configuration names was set, and the
    resolved secrets are exactly those. When this part fails nothing has been
    written: no identity file and no database. *)
Theorem config_load_sound cli env entries n h :
  match load_with_env toml_parse try_into open_pool cli env entries n h with
  | (Ok l, _) => loaded_from cli env entries h (config l) (secrets l)
  | (Err e, h') =>
      read_config toml_parse try_into cli env entries h = Err e ∧ h' = h ∨
      ∃ c s, loaded_from cli env entries h c s
  end.
Proof.
  unfold load_with_env.
  destruct (read_config toml_parse try_into cli env entries h) as [[c s]|e] eqn:Hr; [|by left].
  apply read_config_sound in Hr.
  destruct (load_or_generate_sidecar_id _ _ h) as [[id|e] h1]; [|by right; exists c, s].
  destruct (open_pool h1 _) as [[p|e] h2]; [done|by right; exists c, s].
Qed.
End loader_facts.

(** ** Concrete inputs *)

(** A file system of regular files, where nothing fails. *)
#[global] Instance sample_fs : Fs (gmap string string) := {
  path_exists h path := is_some (h !! path);
  fs_read_to_string h path := ok_or (h !! path) "no such file";
  create_dir_all h path := (Ok tt, h);
  fs_write h path body := (Ok tt, <[path := body]> h);
}.

#[global] Instance sample_fs_laws : FsLaws (gmap string string).
Proof.
  split; cbn; intros h path body h' [= <-]; by rewrite lookup_insert, decide_True.
Qed.

#[global] Instance sample_float_text : FloatText := {| parse_f64 _ := None |}.

Definition sample_config : Config.t := {|
  Config.sidecar := SidecarConfig.mk "/var/lib/bithound/id" SidecarConfig.default_log_level;
  Config.storage := StorageConfig.mk "/var/lib/bithound/db" StorageRetentionConfig.default;
  Config.runtime := RuntimeConfig.default;
  Config.api := ApiConfig.default;
  Config.incidents := IncidentsConfig.default;
  Config.bitcoin_nodes := [BitcoinNodeConfig.mk "btc-main" "http://localhost:8332" None
    (BitcoinAuthConfig.UserPass "u" "BTC_PASSWORD")];
  Config.lnd_nodes := [];
  Config.hosts := [];
  Config.collectors := [CollectorDescriptorConfig.mk "bitcoin-rpc"
    (CollectorTargetConfig.BitcoinNode "btc-main") (IntegrationConfig.BitcoinCoreRpc 30) "main" None];
  Config.notifications := NotificationsConfig.default;
  Config.notification_rules := [];
|}.

(** The parser of a world with one document. *)
Definition sample_document : Value.t :=
  Value.Table [("api", Value.Table [("enabled", Value.Boolean true)])].
Definition sample_toml_parse (s : string) : Result Value.t string := Ok sample_document.
Definition sample_try_into (v : Value.t) : Result Config.t string := Ok sample_config.
Definition sample_open_pool (h : gmap string string) (path : string) :
    Result () string * gmap string string := (Ok tt, h).

Definition sample_env : gmap string string :=
  {["BTC_PASSWORD" := "hunter2"; "BITHOUND_API__ENABLED" := "false"]}.

Example sample_override :
  apply_env_overrides sample_document (map_to_list sample_env) =
    Value.Table [("api", Value.Table [("enabled", Value.Boolean false)])].
Proof. vm_compute. reflexivity. Qed.

(** The same variable over a file without the key. *)
Example sample_override_absent :
  apply_env_overrides (Value.Table []) [("BITHOUND_API__ENABLED", "false")] =
    Value.Table [("api", Value.Table [("enabled", Value.Str "false")])].
Proof. vm_compute. reflexivity. Qed.

Lemma sidecar_id_stable_witness :
  let h := (load_or_generate_sidecar_id 7 "/var/lib/bithound/id" (∅ : gmap string string)).2 in
  load_or_generate_sidecar_id 9 "/var/lib/bithound/id" h =
    (Ok (SidecarId.mk (now_v7 7)), h).
Proof.
  intros h. apply (sidecar_id_stable 7 "/var/lib/bithound/id" ∅). by vm_compute.
Defined.

Lemma config_load_sound_witness :
  ∃ s, loaded_from sample_toml_parse sample_try_into None sample_env (map_to_list sample_env)
    (<["bithound.toml" := ""]> ∅ : gmap string string) sample_config s.
Proof.
  pose proof (config_load_sound sample_toml_parse sample_try_into sample_open_pool None sample_env
    (map_to_list sample_env) 0 (<["bithound.toml" := ""]> ∅)) as Hl.
  destruct (load_with_env _ _ _ _ _ _ _ _) as [[l|e] h'] eqn:E in Hl.
  - exists (secrets l). replace sample_config with (config l); [exact Hl|].
    vm_compute in E. by injection E as <- <-.
  - vm_compute in E. done.
Defined.

Lemma env_overrides_order_irrelevant_witness :
  apply_env_overrides sample_document [("BITHOUND_A__B", "1"); ("BITHOUND_A__C", "x")] =
  apply_env_overrides sample_document [("BITHOUND_A__C", "x"); ("BITHOUND_A__B", "1")].
Proof.
  apply env_overrides_order_irrelevant; [|by constructor|].
  - split; [by repeat constructor|]. intros s t. cbn. case_decide; [|done].
    intros [= <-]. by repeat constructor.
  - cbn. repeat constructor; set_solver.
Defined.

Lemma override_types_witness :
  btree_get "api" (apply_override [] ("BITHOUND_API__ENABLED", "false")) =
    Some (Value.Table [("enabled", Value.Str "false")]).
Proof.
  destruct (override_types "BITHOUND_API__ENABLED" "false" "api" "enabled" [] []) as (t & Ht & _);
    [by vm_compute|done|]. rewrite Ht. by vm_compute in Ht; injection Ht as <-.
Defined.
