(* ===== verification/Bootstrap.v ===== *)
(** * Start-up: [runtime/bootstrap.rs], [main.rs]

    From a loaded configuration to what the runtime is given: the node
    registry, the collectors, the notification rules and senders, the engine
    with the incidents left open, and the rules. *)

From S2P Require Import Prelude RustStr Names SharedTypes F64 CollectorTypes Observations Samples Store Incidents Kinds Engine Hysteresis BitcoinRules Notifications Storage Senders Worker Consumer Collectors BitcoinPoller BTreeMap Config.

(** ** Collectors: [runtime/bootstrap.rs] *)

Module BuildError.
Inductive t : Type :=
  | TargetNotFound (id target : string)
  | WrongTargetKind (id target_kind integration_kind : string)
  | NotImplemented (integration : string)
  | SecretNotResolved (env : string)
  | Inner (id : string) (source : CollectorBuildError.t).
End BuildError.

Definition collector_target (cfg : CollectorTargetConfig.t) : CollectorTarget.t :=
  match cfg with
  | CollectorTargetConfig.BitcoinNode id => CollectorTarget.BitcoinNode (BitcoinNodeId.mk id)
  | CollectorTargetConfig.LndNode id => CollectorTarget.LndNode (LndNodeId.mk id)
  | CollectorTargetConfig.Host id => CollectorTarget.Host (HostId.mk id)
  end.

Definition target_kind_name (target : CollectorTarget.t) : string :=
  match target with
  | CollectorTarget.BitcoinNode _ => "bitcoin_node"
  | CollectorTarget.LndNode _ => "lnd_node"
  | CollectorTarget.Host _ => "host"
  end.

Section bootstrap.
Context `{UrlLib}.

(** The descriptor of a Bitcoin collector. *)
Definition rpc_descriptor (cfg : CollectorDescriptorConfig.t) (interval_seconds : Z)
    (target : CollectorTarget.t) : CollectorDescriptor.t := {|
  CollectorDescriptor.id := CollectorId.mk (CollectorDescriptorConfig.id cfg);
  CollectorDescriptor.integration := IntegrationKind.BitcoinCoreRpc (from_secs interval_seconds);
  CollectorDescriptor.target := target;
  CollectorDescriptor.instance_label := CollectorDescriptorConfig.instance_label cfg;
  CollectorDescriptor.description := CollectorDescriptorConfig.description cfg;
|}.

(** The [BitcoinCoreRpc] arm. *)
Definition build_rpc_collector (registry : NodeRegistry.t) (cfg : CollectorDescriptorConfig.t)
    (interval_seconds : Z) : Result BitcoinCoreRpcCollector.t BuildError.t :=
  let target := collector_target (CollectorDescriptorConfig.target cfg) in
  let? node_id := match target with
                  | CollectorTarget.BitcoinNode id => Ok id
                  | _ => Err (BuildError.WrongTargetKind (CollectorDescriptorConfig.id cfg)
                           (target_kind_name target) "bitcoin_core_rpc")
                  end in
  let? connection := ok_or (NodeRegistry.bitcoin_nodes registry !! node_id)
    (BuildError.TargetNotFound (CollectorDescriptorConfig.id cfg) (BitcoinNodeId.get node_id)) in
  map_err (BuildError.Inner (CollectorDescriptorConfig.id cfg))
    (BitcoinCoreRpcCollector.new (rpc_descriptor cfg interval_seconds target) connection
       BitcoinCoreRpcCollectorConfig.default).

(** The only polling collector that can be built is the Bitcoin one. *)
Fixpoint build_polling_collectors (configs : list CollectorDescriptorConfig.t)
    (registry : NodeRegistry.t) : Result (list BitcoinCoreRpcCollector.t) BuildError.t :=
  match configs with
  | [] => Ok []
  | cfg :: configs =>
      match CollectorDescriptorConfig.integration cfg with
      | IntegrationConfig.BitcoinCoreRpc interval_seconds =>
          let? collector := build_rpc_collector registry cfg interval_seconds in
          let? out := build_polling_collectors configs registry in
          Ok (collector :: out)
      | IntegrationConfig.BitcoinCoreZmq | IntegrationConfig.LndGrpcStream =>
          build_polling_collectors configs registry
      | IntegrationConfig.LndGrpcPoll _ => Err (BuildError.NotImplemented "lnd_grpc_poll")
      | IntegrationConfig.LndRest _ => Err (BuildError.NotImplemented "lnd_rest")
      | IntegrationConfig.Host _ => Err (BuildError.NotImplemented "host")
      end
  end.

(** There is no subscription collector to build. *)
Fixpoint build_subscription_collectors (configs : list CollectorDescriptorConfig.t) :
    Result (list Empty_set) BuildError.t :=
  match configs with
  | [] => Ok []
  | cfg :: configs =>
      match CollectorDescriptorConfig.integration cfg with
      | IntegrationConfig.BitcoinCoreZmq => Err (BuildError.NotImplemented "bitcoin_core_zmq")
      | IntegrationConfig.LndGrpcStream => Err (BuildError.NotImplemented "lnd_grpc_stream")
      | _ => build_subscription_collectors configs
      end
  end.
End bootstrap.

Definition resolve_rpc_auth (secrets : ResolvedSecrets.t) (auth : BitcoinAuthConfig.t) :
    Result BitcoinRpcAuth.t BuildError.t :=
  match auth with
  | BitcoinAuthConfig.UserPass user password_env =>
      let? pass := ok_or (ResolvedSecrets.get secrets password_env)
        (BuildError.SecretNotResolved password_env) in
      Ok (BitcoinRpcAuth.UserPass user pass)
  | BitcoinAuthConfig.CookieFile path => Ok (BitcoinRpcAuth.CookieFile path)
  end.

Definition node_registry_from_config (config : Config.t) (secrets : ResolvedSecrets.t) :
    Result NodeRegistry.t BuildError.t :=
  let? bitcoin_nodes := try_fold (λ bitcoin_nodes node,
    let? rpc_auth := resolve_rpc_auth secrets (BitcoinNodeConfig.auth node) in
    Ok (<[BitcoinNodeId.mk (BitcoinNodeConfig.id node) :=
      BitcoinNodeConnection.mk (BitcoinNodeConfig.rpc_url node) rpc_auth
        (BitcoinNodeConfig.zmq_endpoint node)]> bitcoin_nodes)) ∅ (Config.bitcoin_nodes config) in
  Ok (NodeRegistry.mk_registry bitcoin_nodes ∅ ∅).

(** ** Notifications: [main.rs] *)

Module BootError.
Inductive t : Type :=
  | HttpClient (e : string)
  | Build (e : BuildError.t)
  | Kinds (e : RegistryError.t)
  | LoadOpen (e : IncidentRepoError.t)
  (** The [anyhow!] messages, by what they quote. *)
  | DiscordUnresolved (rule env : string)
  | WebhookUnresolved (rule env : string)
  | BotTokenUnresolved (env : string)
  | InvalidEventKind (rule kind : string) (e : ParseDottedNameError.t).
End BootError.

Definition map_severity (s : SeverityConfig.t) : IncidentSeverity.t :=
  match s with
  | SeverityConfig.Info => IncidentSeverity.Info
  | SeverityConfig.Warning => IncidentSeverity.Warning
  | SeverityConfig.Critical => IncidentSeverity.Critical
  end.

Definition map_telegram_parse_mode (c : TelegramParseModeConfig.t) : TelegramParseMode.t :=
  match c with
  | TelegramParseModeConfig.Plain => TelegramParseMode.PlainText
  | TelegramParseModeConfig.Html => TelegramParseMode.Html
  | TelegramParseModeConfig.MarkdownV2 => TelegramParseMode.Html
  end.

Definition build_target (mode : TelegramParseMode.t) (secrets : ResolvedSecrets.t)
    (cfg : NotificationRuleConfig.t) : Result NotificationTarget.t BootError.t :=
  match NotificationRuleConfig.target cfg with
  | NotificationTargetConfig.Telegram chat_id =>
      Ok (NotificationTarget.Telegram (TelegramTarget.mk (TelegramChatId.mk chat_id) mode))
  | NotificationTargetConfig.Discord webhook_env thread_id =>
      let? webhook_url := ok_or (ResolvedSecrets.get secrets webhook_env)
        (BootError.DiscordUnresolved (NotificationRuleConfig.id cfg) webhook_env) in
      Ok (NotificationTarget.Discord
        (DiscordTarget.mk webhook_url (DiscordThreadId.mk <$> thread_id) None None))
  | NotificationTargetConfig.Webhook url_env =>
      let? url := ok_or (ResolvedSecrets.get secrets url_env)
        (BootError.WebhookUnresolved (NotificationRuleConfig.id cfg) url_env) in
      Ok (NotificationTarget.Webhook (WebhookTarget.mk url WebhookMethod.Post []))
  end.

Fixpoint parse_event_kinds (rule : string) (kinds : list string) :
    Result (list IncidentKind.t) BootError.t :=
  match kinds with
  | [] => Ok []
  | k :: kinds =>
      let? kind := map_err (BootError.InvalidEventKind rule k) (IncidentKind.parse k) in
      let? rest := parse_event_kinds rule kinds in
      Ok (kind :: rest)
  end.

Definition build_rule (mode : TelegramParseMode.t) (secrets : ResolvedSecrets.t)
    (cfg : NotificationRuleConfig.t) : Result NotificationRule.t BootError.t :=
  let? target := build_target mode secrets cfg in
  let? event_kinds := parse_event_kinds (NotificationRuleConfig.id cfg)
    (NotificationRuleConfig.event_kinds cfg) in
  Ok {|
    NotificationRule.id := NotificationRuleId.mk (NotificationRuleConfig.id cfg);
    NotificationRule.name := NotificationRuleName.mk (NotificationRuleConfig.name cfg);
    NotificationRule.enabled := NotificationRuleConfig.enabled cfg;
    NotificationRule.min_severity := map_severity (NotificationRuleConfig.min_severity cfg);
    NotificationRule.event_kinds := event_kinds;
    NotificationRule.target := target;
  |}.

Fixpoint build_rules (mode : TelegramParseMode.t) (secrets : ResolvedSecrets.t)
    (rules : list NotificationRuleConfig.t) : Result (list NotificationRule.t) BootError.t :=
  match rules with
  | [] => Ok []
  | cfg :: rules =>
      let? rule := build_rule mode secrets cfg in
      let? out := build_rules mode secrets rules in
      Ok (rule :: out)
  end.

Definition sink_parse_mode (notifications : NotificationsConfig.t) : TelegramParseMode.t :=
  default TelegramParseMode.PlainText
    ((λ t, map_telegram_parse_mode (TelegramSinkConfig.parse_mode t))
       <$> NotificationsConfig.telegram notifications).

Definition build_notification_rules (rules : list NotificationRuleConfig.t)
    (notifications : NotificationsConfig.t) (secrets : ResolvedSecrets.t) :
    Result (list NotificationRule.t) BootError.t :=
  build_rules (sink_parse_mode notifications) secrets rules.

Definition build_senders (notifications : NotificationsConfig.t) (secrets : ResolvedSecrets.t) :
    Result NotifierSenders.t BootError.t :=
  let? telegram :=
    match NotificationsConfig.telegram notifications with
    | Some cfg =>
        let? token := ok_or (ResolvedSecrets.get secrets (TelegramSinkConfig.bot_token_env cfg))
          (BootError.BotTokenUnresolved (TelegramSinkConfig.bot_token_env cfg)) in
        Ok (Some (TelegramSender.new token))
    | None => Ok None
    end in
  Ok (NotifierSenders.mk telegram (Some tt)).

(** ** [boot_runtime] *)

Section boot.
Context `{UrlLib, TomlLib} {R : Type} `{IncidentRepository R} {P : Type}.

(** The stores share the pool; [incident_repo] is the one that is read here. *)
Record RuntimeDeps : Type := mk_deps {
  deps_sidecar_id : SidecarId.t;
  polling_collectors : list BitcoinCoreRpcCollector.t;
  subscription_collectors : list Empty_set;
  deps_rules : list BoxedRule;
  deps_read_models : ReadModelStore.t;
  deps_engine : IncidentEngine.t;
  deps_notification_rules : list NotificationRule.t;
  senders : NotifierSenders.t;
  incident_repo : R;
  runtime_config : RuntimeConfig.t;
  api_config : ApiConfig.t;
}.

Definition engine_source (sidecar_id : SidecarId.t) : ObservationSource.t := {|
  ObservationSource.sidecar_id := sidecar_id;
  ObservationSource.collector := {|
    CollectorRef.id := CollectorId.mk "bithound:engine";
    CollectorRef.integration := IntegrationKind.BitcoinCoreRpc (from_secs 0);
    CollectorRef.instance_label := "engine";
  |};
|}.

Definition default_rules : list BoxedRule :=
  [box BitcoinRpcUnreachableRule.new; box BitcoinNoPeersRule.new;
   box BitcoinTipLagOrIbdStalledRule.new].

(** [http] is the outcome of the HTTP client's builder, [read_to_string] the
    file system's and [repo_of] the repository over a pool. [None] is a panic:
    of the read models' constructor or of the engine's. *)
Definition boot_runtime (http : Result () string) (read_to_string : string → Result string string)
    (repo_of : P → R) (loaded : LoadedConfig (P := P)) : option (Result RuntimeDeps BootError.t) :=
  let c := config loaded in
  let prepared :=
    let? _ := map_err BootError.HttpClient http in
    let? registry := map_err BootError.Build (node_registry_from_config c (secrets loaded)) in
    let? polling := map_err BootError.Build (build_polling_collectors (Config.collectors c) registry) in
    let? subscription := map_err BootError.Build (build_subscription_collectors (Config.collectors c)) in
    Ok (polling, subscription) in
  match prepared with
  | Err e => Some (Err e)
  | Ok (polling, subscription) =>
      read_models ← ReadModelStore.new ReadModelStoreConfig.default;
      match KindRegistry.load read_to_string
              (IncidentsConfig.kinds_config_path (Config.incidents c)) with
      | Err e => Some (Err (BootError.Kinds e))
      | Ok kinds =>
          match load_open (repo_of (pool loaded)) with
          | Err e => Some (Err (BootError.LoadOpen e))
          | Ok open_incidents =>
              engine ← IncidentEngine.new kinds (sidecar_id loaded)
                (engine_source (sidecar_id loaded)) open_incidents;
              Some
                (let? notification_rules := build_notification_rules (Config.notification_rules c)
                   (Config.notifications c) (secrets loaded) in
                 let? senders := build_senders (Config.notifications c) (secrets loaded) in
                 Ok {|
                   deps_sidecar_id := sidecar_id loaded;
                   polling_collectors := polling;
                   subscription_collectors := subscription;
                   deps_rules := default_rules;
                   deps_read_models := read_models;
                   deps_engine := engine;
                   deps_notification_rules := notification_rules;
                   senders := senders;
                   incident_repo := repo_of (pool loaded);
                   runtime_config := Config.runtime c;
                   api_config := Config.api c;
                 |})
          end
      end
  end.

(** [run] of [main.rs]: what the process does once its arguments are parsed.
    The last case starts the runtime. *)
Inductive Startup : Type :=
  | PrintVersion
  | PrintConfig (c : Config.t)
  | ExitWith (code : Z)
  | Panicked
  | Start (deps : RuntimeDeps).

Record Cli : Type := mk_cli { cli_config : option string; check_config : bool; version : bool }.

Definition EX_CONFIG : Z := 78.

Definition main_run (cli : Cli) (loaded : Result (LoadedConfig (P := P)) ConfigError.t)
    (http : Result () string) (read_to_string : string → Result string string)
    (repo_of : P → R) : Startup :=
  if version cli then PrintVersion
  else
    match loaded with
    | Err _ => ExitWith EX_CONFIG
    | Ok loaded =>
        if check_config cli then PrintConfig (config loaded)
        else
          match boot_runtime http read_to_string repo_of loaded with
          | None => Panicked
          | Some (Err _) => ExitWith EX_CONFIG
          | Some (Ok deps) => Start deps
          end
    end.
End boot.

(** What a start-up that succeeds has put together. *)
Record booted `{UrlLib, TomlLib} {R : Type} `{IncidentRepository R} {P : Type}
    (read_to_string : string → Result string string) (repo_of : P → R)
    (loaded : LoadedConfig (P := P)) (deps : RuntimeDeps (R := R)) : Prop := {
  boot_read_models :
    ReadModelStore.new ReadModelStoreConfig.default = Some (deps_read_models deps);
  boot_engine : ∃ kinds open_incidents,
    KindRegistry.load read_to_string
      (IncidentsConfig.kinds_config_path (Config.incidents (config loaded))) = Ok kinds ∧
    load_open (repo_of (pool loaded)) = Ok open_incidents ∧
    IncidentEngine.new kinds (sidecar_id loaded) (engine_source (sidecar_id loaded)) open_incidents
      = Some (deps_engine deps);
  boot_rules : deps_rules deps = default_rules;
  boot_notification_rules :
    build_notification_rules (Config.notification_rules (config loaded))
      (Config.notifications (config loaded)) (secrets loaded) = Ok (deps_notification_rules deps);
  boot_repo : incident_repo deps = repo_of (pool loaded);
}.

Lemma boot_runtime_booted `{UrlLib, TomlLib} {R : Type} `{IncidentRepository R} {P : Type} http
    read_to_string (repo_of : P → R) (loaded : LoadedConfig (P := P)) deps :
  boot_runtime http read_to_string repo_of loaded = Some (Ok deps) →
  booted read_to_string repo_of loaded deps.
Proof.
  unfold boot_runtime.
  destruct (let? _ := map_err BootError.HttpClient http in _) as [[polling subscription]|e]; [|done].
  destruct (ReadModelStore.new _) as [rm|] eqn:Hrm; [cbn|done].
  destruct (KindRegistry.load _ _) as [kinds|] eqn:Hk; [|done].
  destruct (load_open _) as [l|] eqn:Hl; [|done].
  destruct (IncidentEngine.new _ _ _ _) as [engine|] eqn:He; [cbn|done].
  destruct (build_notification_rules _ _ _) as [rules|] eqn:Hr; [cbn|done].
  destruct (build_senders _ _) as [senders|]; [cbn|done]. intros [= <-]. split; cbn; eauto.
Qed.

(** ** After a successful load *)

(** Every secret the configuration names is there. *)
Definition secrets_present (c : Config.t) (s : ResolvedSecrets.t) : Prop :=
  ∀ name, name ∈ env_refs c → is_Some (ResolvedSecrets.get s name).

Lemma loaded_secrets_present {H} `{Fs H, UuidLib, DebugLib, FloatText} toml_parse try_into cli env
    entries (h : H) c s :
  loaded_from toml_parse try_into cli env entries h c s → secrets_present c s.
Proof.
  intros [_ _ Hp Hs] name Hin. rewrite Hs, decide_True by done. by apply Hp.
Qed.

Lemma node_auth_resolves c s node :
  secrets_present c s → node ∈ Config.bitcoin_nodes c →
  ∃ auth, resolve_rpc_auth s (BitcoinNodeConfig.auth node) = Ok auth.
Proof.
  intros Hs Hin. destruct (BitcoinNodeConfig.auth node) as [user pw|path] eqn:Ha; cbn; [|by eexists].
  destruct (Hs pw) as [v Hv].
  - unfold env_refs. apply elem_of_app. left. apply list_elem_of_omap. exists node. by rewrite Ha.
  - rewrite Hv. cbn. by eexists.
Qed.

(** The registry holds the connection of every configured node. *)
Definition connection_of (s : ResolvedSecrets.t) (node : BitcoinNodeConfig.t)
    (conn : BitcoinNodeConnection.t) : Prop :=
  ∃ auth, resolve_rpc_auth s (BitcoinNodeConfig.auth node) = Ok auth ∧
    conn = BitcoinNodeConnection.mk (BitcoinNodeConfig.rpc_url node) auth
             (BitcoinNodeConfig.zmq_endpoint node).

Lemma node_registry_spec c s :
  secrets_present c s → NoDup (BitcoinNodeConfig.id <$> Config.bitcoin_nodes c) →
  ∃ reg, node_registry_from_config c s = Ok reg ∧
    ∀ id conn, NodeRegistry.bitcoin_nodes reg !! BitcoinNodeId.mk id = Some conn ↔
      ∃ node, node ∈ Config.bitcoin_nodes c ∧ BitcoinNodeConfig.id node = id ∧
        connection_of s node conn.
Proof.
  intros Hs Hnd. unfold node_registry_from_config.
  set (f := (λ bitcoin_nodes node, _)).
  assert (∀ nodes acc, (∀ n, n ∈ nodes → n ∈ Config.bitcoin_nodes c) →
    NoDup (BitcoinNodeConfig.id <$> nodes) →
    ∃ m, try_fold f acc nodes = Ok m ∧
      ∀ id conn, m !! BitcoinNodeId.mk id = Some conn ↔
        (∃ node, node ∈ nodes ∧ BitcoinNodeConfig.id node = id ∧ connection_of s node conn) ∨
        ((id ∉ BitcoinNodeConfig.id <$> nodes) ∧ acc !! BitcoinNodeId.mk id = Some conn)) as Hf.
  { clear Hnd. induction nodes as [|node nodes IH]; intros acc Hsub Hnd.
    - exists acc. split; [done|]. intros id conn. cbn. split.
      + intros Hl. right. split; [apply not_elem_of_nil|done].
      + intros [(n & Hin%elem_of_nil & _)|[_ Hl]]; done.
    - cbn in Hnd. apply NoDup_cons in Hnd as [Hnin Hnd]. cbn [try_fold].
      destruct (node_auth_resolves c s node Hs) as [auth Ha]; [by apply Hsub; left|].
      unfold f at 1. rewrite Ha; cbn [res_bind].
      destruct (IH (<[BitcoinNodeId.mk (BitcoinNodeConfig.id node) :=
        BitcoinNodeConnection.mk (BitcoinNodeConfig.rpc_url node) auth
          (BitcoinNodeConfig.zmq_endpoint node)]> acc)) as (m & -> & Hm); [set_solver|done|].
      exists m. split; [done|]. intros id conn. rewrite Hm, lookup_insert_Some. cbn. split.
      + intros [(n & Hin & Hid & Hc)|(Hid & [[[= Heq] <-]|[Hne Hl]])].
        * left. exists n. split_and!; [by right|done|done].
        * left. exists node. split_and!; [by left|done|by exists auth].
        * right. split; [|done]. rewrite not_elem_of_cons. split; [|done]. congruence.
      + intros [(n & [->|Hin]%elem_of_cons & Hid & Hc)|[Hid Hl]].
        * right. subst id. split; [done|]. left. split; [done|].
          destruct Hc as (auth' & Ha' & ->). congruence.
        * left. by exists n.
        * apply not_elem_of_cons in Hid as [Hne Hid]. right. split; [done|]. right. split; [|done]. congruence. }
  destruct (Hf (Config.bitcoin_nodes c) ∅) as (m & -> & Hm); [done..|]. eexists. split; [done|].
  cbn. intros id conn. rewrite Hm. split; [|by left].
  intros [?|[_ Hl]]; [done|]. by rewrite lookup_empty in Hl.
Qed.

Section collectors.
Context `{UrlLib}.

(** The collector a configuration entry stands for. *)
Definition built (c : Config.t) (s : ResolvedSecrets.t) (cfg : CollectorDescriptorConfig.t)
    (col : BitcoinCoreRpcCollector.t) : Prop :=
  ∃ id secs node conn,
    CollectorDescriptorConfig.target cfg = CollectorTargetConfig.BitcoinNode id ∧
    CollectorDescriptorConfig.integration cfg = IntegrationConfig.BitcoinCoreRpc secs ∧
    node ∈ Config.bitcoin_nodes c ∧ BitcoinNodeConfig.id node = id ∧ connection_of s node conn ∧
    url_parse_error (BitcoinNodeConfig.rpc_url node) = None ∧
    col = {|
      BitcoinCoreRpcCollector.descriptor :=
        rpc_descriptor cfg secs (CollectorTarget.BitcoinNode (BitcoinNodeId.mk id));
      BitcoinCoreRpcCollector.node_id := BitcoinNodeId.mk id;
      BitcoinCoreRpcCollector.client :=
        BitcoinRpcClient.new (BitcoinNodeConnection.rpc_url conn)
          (BitcoinNodeConnection.rpc_auth conn) (from_secs 5);
    |}.

Lemma build_rpc_collector_spec c s reg cfg secs col :
  (∀ id conn, NodeRegistry.bitcoin_nodes reg !! BitcoinNodeId.mk id = Some conn ↔
      ∃ node, node ∈ Config.bitcoin_nodes c ∧ BitcoinNodeConfig.id node = id ∧
        connection_of s node conn) →
  CollectorDescriptorConfig.integration cfg = IntegrationConfig.BitcoinCoreRpc secs →
  build_rpc_collector reg cfg secs = Ok col ↔ built c s cfg col.
Proof.
  intros Hreg Hint. unfold build_rpc_collector, built.
  destruct (CollectorDescriptorConfig.target cfg) as [id|id|id] eqn:Ht; cbn [collector_target res_bind];
    [|split; [done|]; intros (?&?&?&?&[=]&_)..].
  destruct (NodeRegistry.bitcoin_nodes reg !! BitcoinNodeId.mk id) as [conn|] eqn:Hl; cbn [ok_or res_bind].
  - pose proof (proj1 (Hreg id conn) Hl) as (node & Hin & Hid & Hc).
    assert (BitcoinNodeConnection.rpc_url conn = BitcoinNodeConfig.rpc_url node) as Hurl.
    { by destruct Hc as (auth & _ & ->). }
    unfold BitcoinCoreRpcCollector.new. cbn [rpc_descriptor CollectorDescriptor.target]. rewrite Hurl.
    destruct (url_parse_error (BitcoinNodeConfig.rpc_url node)) as [e|] eqn:Hu; cbn [map_err].
    + split; [done|]. intros (id' & secs' & node' & conn' & [= <-] & _ & Hin' & Hid' & Hc' & Hu' & _).
      assert (NodeRegistry.bitcoin_nodes reg !! BitcoinNodeId.mk id = Some conn') as Hl'.
      { apply Hreg. by exists node'. }
      rewrite Hl in Hl'. injection Hl' as <-. destruct Hc' as (auth' & _ & ->). cbn in Hurl. congruence.
    + split.
      * intros [= <-]. exists id, secs, node, conn. rewrite Hurl. by split_and!.
      * intros (id' & secs' & node' & conn' & [= <-] & Hsecs & Hin' & Hid' & Hc' & Hu' & ->).
        assert (NodeRegistry.bitcoin_nodes reg !! BitcoinNodeId.mk id = Some conn') as Hl'.
        { apply Hreg. by exists node'. }
        rewrite Hl in Hl'. injection Hl' as <-. rewrite Hint in Hsecs. injection Hsecs as <-.
        by rewrite Hurl.
  - split; [done|]. intros (id' & secs' & node & conn & [= <-] & _ & Hin & Hid & Hc & _).
    assert (NodeRegistry.bitcoin_nodes reg !! BitcoinNodeId.mk id = Some conn); [|congruence].
    apply Hreg. by exists node.
Qed.

(** Both passes over the collectors. *)
Lemma build_collectors_spec c s reg cfgs cols :
  (∀ id conn, NodeRegistry.bitcoin_nodes reg !! BitcoinNodeId.mk id = Some conn ↔
      ∃ node, node ∈ Config.bitcoin_nodes c ∧ BitcoinNodeConfig.id node = id ∧
        connection_of s node conn) →
  (build_polling_collectors cfgs reg = Ok cols ∧ build_subscription_collectors cfgs = Ok []) ↔
  Forall2 (built c s) cfgs cols.
Proof.
  intros Hreg. revert cols. induction cfgs as [|cfg cfgs IH]; intros cols; cbn.
  { split; [intros [[= <-] _]; constructor|intros ->%Forall2_nil_inv_l; done]. }
  assert (∀ col cols', Forall2 (built c s) (cfg :: cfgs) (col :: cols') → ∃ secs,
    CollectorDescriptorConfig.integration cfg = IntegrationConfig.BitcoinCoreRpc secs) as Hrpc.
  { intros col cols' (Hb & _)%Forall2_cons. destruct Hb as (id & secs & node & conn & _ & Hi & _).
    by exists secs. }
  destruct (CollectorDescriptorConfig.integration cfg) as [secs| | | | |] eqn:Hint;
    try (split; [by intros [Ha Hb]|];
      intros HF; inversion HF; subst; destruct (Hrpc _ _ HF); congruence).
  pose proof (build_rpc_collector_spec c s reg cfg secs) as Hb.
  destruct (build_rpc_collector reg cfg secs) as [col|e]; cbn [res_bind].
  - assert (built c s cfg col) as Hcol by (by apply Hb).
    destruct (build_polling_collectors cfgs reg) as [out|e]; cbn [res_bind].
    + split.
      * intros [[= <-] Hsub]. constructor; [done|]. by apply IH.
      * intros HF. inversion HF as [|? col' ? cols' Hb' HF']; subst.
        apply IH in HF' as [[= ->] Hsub]. apply Hb in Hb'; [|done..]. by simplify_eq.
    + split; [by intros [? _]|]. intros HF. inversion HF as [|? col' ? cols' Hb' HF']; subst.
      by apply IH in HF' as [? _].
  - split; [by intros [? _]|]. intros HF. inversion HF as [|? col' ? cols' Hb' HF']; subst.
    apply Hb in Hb'; [|done..]. done.
Qed.

Context {F : Type} `{Fs F, UuidLib, DebugLib, FloatText}.

(** C28: From configuration to collectors. After a load that succeeded, the node
    registry can always be built, and the collectors are built exactly when
    every entry is a Bitcoin RPC collector on a Bitcoin node with a parseable
    URL: one collector per entry, in order, with the node's connection and the
    credentials the environment gave. No entry can target an unknown node; any
    other integration, which the loader and [--check-config] accept, makes the
    start-up fail. *)
Theorem boot_collectors_spec toml_parse try_into cli env entries (h : F) c s cols :
  loaded_from toml_parse try_into cli env entries h c s →
  ∃ reg, node_registry_from_config c s = Ok reg ∧
    ((build_polling_collectors (Config.collectors c) reg = Ok cols ∧
      build_subscription_collectors (Config.collectors c) = Ok []) ↔
     Forall2 (built c s) (Config.collectors c) cols) ∧
    (∀ id target, build_polling_collectors (Config.collectors c) reg
       ≠ Err (BuildError.TargetNotFound id target)).
Proof.
  intros Hl. pose proof (loaded_secrets_present _ _ _ _ _ _ _ _ Hl) as Hs.
  destruct Hl as [_ [Hb _ _ Ht _ _] _ _].
  destruct (node_registry_spec c s Hs Hb) as (reg & Hreg & Hlook). exists reg.
  split; [done|]. split; [by apply build_collectors_spec|]. intros id target. clear Hb.
  induction Ht as [|cfg cfgs Hcfg _ IH]; cbn; [done|].
  destruct (CollectorDescriptorConfig.integration cfg) as [secs| | | | |]; try done.
  unfold build_rpc_collector.
  destruct (CollectorDescriptorConfig.target cfg) as [nid|nid|nid]; cbn [collector_target res_bind]; try done.
  apply list_elem_of_fmap in Hcfg as (node & Hid & Hin).
  destruct (node_auth_resolves c s node Hs Hin) as [auth Hauth].
  rewrite (proj2 (Hlook nid (BitcoinNodeConnection.mk (BitcoinNodeConfig.rpc_url node) auth
    (BitcoinNodeConfig.zmq_endpoint node)))); [|exists node; split_and!; [done..|by exists auth]].
  cbn [ok_or res_bind]. destruct (BitcoinCoreRpcCollector.new _ _ _); cbn; [|done].
  by destruct (build_polling_collectors cfgs reg).
Qed.

(** The notification rule a configuration entry stands for. *)
Definition rule_built (mode : TelegramParseMode.t) (s : ResolvedSecrets.t)
    (cfg : NotificationRuleConfig.t) (rule : NotificationRule.t) : Prop :=
  NotificationRuleId.get (NotificationRule.id rule) = NotificationRuleConfig.id cfg ∧
  NotificationRuleName.get (NotificationRule.name rule) = NotificationRuleConfig.name cfg ∧
  NotificationRule.enabled rule = NotificationRuleConfig.enabled cfg ∧
  NotificationRule.min_severity rule = map_severity (NotificationRuleConfig.min_severity cfg) ∧
  Forall2 (λ k kind, IncidentKind.parse k = Ok kind)
    (NotificationRuleConfig.event_kinds cfg) (NotificationRule.event_kinds rule) ∧
  match NotificationRuleConfig.target cfg with
  | NotificationTargetConfig.Telegram chat =>
      NotificationRule.target rule =
        NotificationTarget.Telegram (TelegramTarget.mk (TelegramChatId.mk chat) mode)
  | NotificationTargetConfig.Discord env thread => ∃ url,
      ResolvedSecrets.get s env = Some url ∧ NotificationRule.target rule =
        NotificationTarget.Discord (DiscordTarget.mk url (DiscordThreadId.mk <$> thread) None None)
  | NotificationTargetConfig.Webhook env => ∃ url,
      ResolvedSecrets.get s env = Some url ∧ NotificationRule.target rule =
        NotificationTarget.Webhook (WebhookTarget.mk url WebhookMethod.Post [])
  end.

Lemma parse_event_kinds_spec rule ks :
  match parse_event_kinds rule ks with
  | Ok kinds => Forall2 (λ k kind, IncidentKind.parse k = Ok kind) ks kinds
  | Err e => ∃ k pe, k ∈ ks ∧ IncidentKind.parse k = Err pe ∧ e = BootError.InvalidEventKind rule k pe
  end.
Proof.
  induction ks as [|k ks IH]; cbn [parse_event_kinds]; [constructor|].
  destruct (IncidentKind.parse k) as [kind|pe] eqn:Hk; cbn [map_err res_bind];
    [|exists k, pe; split_and!; [by left|done..]].
  destruct (parse_event_kinds rule ks) as [kinds|e]; cbn [res_bind]; [by constructor|].
  destruct IH as (k' & pe & Hin & Hp & ->). exists k', pe. split_and!; [by right|done..].
Qed.

(** Every secret a rule needs is present. *)
Definition rule_secret_present (s : ResolvedSecrets.t) (cfg : NotificationRuleConfig.t) : Prop :=
  match NotificationRuleConfig.target cfg with
  | NotificationTargetConfig.Telegram _ => True
  | NotificationTargetConfig.Discord env _ | NotificationTargetConfig.Webhook env =>
      is_Some (ResolvedSecrets.get s env)
  end.

Lemma build_rule_spec mode s cfg :
  rule_secret_present s cfg →
  match build_rule mode s cfg with
  | Ok rule => rule_built mode s cfg rule
  | Err e => ∃ k pe, k ∈ NotificationRuleConfig.event_kinds cfg ∧ IncidentKind.parse k = Err pe ∧
      e = BootError.InvalidEventKind (NotificationRuleConfig.id cfg) k pe
  end.
Proof.
  intros Hs. unfold build_rule.
  assert (∃ target, build_target mode s cfg = Ok target ∧
    match NotificationRuleConfig.target cfg with
    | NotificationTargetConfig.Telegram chat =>
        target = NotificationTarget.Telegram (TelegramTarget.mk (TelegramChatId.mk chat) mode)
    | NotificationTargetConfig.Discord env thread => ∃ url,
        ResolvedSecrets.get s env = Some url ∧ target =
          NotificationTarget.Discord (DiscordTarget.mk url (DiscordThreadId.mk <$> thread) None None)
    | NotificationTargetConfig.Webhook env => ∃ url,
        ResolvedSecrets.get s env = Some url ∧ target =
          NotificationTarget.Webhook (WebhookTarget.mk url WebhookMethod.Post [])
    end) as (target & -> & Ht).
  { unfold build_target, rule_secret_present in *.
    destruct (NotificationRuleConfig.target cfg) as [chat|env thread|env]; [by eexists| |];
      destruct Hs as [url Hu]; rewrite Hu; eexists; (split; [done|]; by exists url). }
  cbn [res_bind].
  pose proof (parse_event_kinds_spec (NotificationRuleConfig.id cfg)
    (NotificationRuleConfig.event_kinds cfg)) as Hk.
  destruct (parse_event_kinds _ _) as [kinds|e]; cbn [res_bind]; [|done]. by split_and!.
Qed.

(** Secrets never fail a start-up twice. After a load that succeeded, the
    senders are built, with the bot token of the environment when the Telegram
    sink is configured and without a Telegram sender when it is not; and the
    notification rules are built entry by entry, their credentials resolved,
    unless an event kind is not a dotted name, which is then the error. *)
Theorem boot_resolves_secrets toml_parse try_into cli env entries (h : F) c s :
  loaded_from toml_parse try_into cli env entries h c s →
  (∃ senders, build_senders (Config.notifications c) s = Ok senders ∧
     NotifierSenders.telegram senders =
       (sink ← NotificationsConfig.telegram (Config.notifications c);
        token ← env !! TelegramSinkConfig.bot_token_env sink; Some (TelegramSender.new token))) ∧
  match build_notification_rules (Config.notification_rules c) (Config.notifications c) s with
  | Ok rules => Forall2 (rule_built (sink_parse_mode (Config.notifications c)) s)
      (Config.notification_rules c) rules
  | Err e => ∃ cfg k pe, cfg ∈ Config.notification_rules c ∧
      k ∈ NotificationRuleConfig.event_kinds cfg ∧ IncidentKind.parse k = Err pe ∧
      e = BootError.InvalidEventKind (NotificationRuleConfig.id cfg) k pe
  end.
Proof.
  intros Hl. pose proof (loaded_secrets_present _ _ _ _ _ _ _ _ Hl) as Hs.
  pose proof (lf_secrets _ _ _ _ _ _ _ _ Hl) as Hget. clear Hl. split.
  - unfold build_senders.
    destruct (NotificationsConfig.telegram (Config.notifications c)) as [sink|] eqn:Ht; cbn;
      [|by eexists].
    assert (TelegramSinkConfig.bot_token_env sink ∈ env_refs c) as Hin.
    { unfold env_refs. rewrite !elem_of_app, Ht. right; right; left. by left. }
    destruct (Hs _ Hin) as [token Htok]. rewrite Htok. eexists. split; [done|]. cbn.
    pose proof (Hget (TelegramSinkConfig.bot_token_env sink)) as Hg.
    rewrite decide_True in Hg by done. rewrite Htok in Hg. by rewrite <-Hg.
  - unfold build_notification_rules.
    assert (Forall (rule_secret_present s) (Config.notification_rules c)) as Hr.
    { apply Forall_forall. intros cfg Hin. unfold rule_secret_present.
      destruct (NotificationRuleConfig.target cfg) as [|env' th|env'] eqn:Ht; [done|..]; apply Hs;
        unfold env_refs; rewrite !elem_of_app; right; right; right; apply list_elem_of_omap;
        exists cfg; by rewrite Ht. }
    induction Hr as [|cfg cfgs Hcfg _ IH]; cbn [build_rules]; [constructor|].
    pose proof (build_rule_spec (sink_parse_mode (Config.notifications c)) s cfg Hcfg) as Hb.
    destruct (build_rule _ s cfg) as [rule|e]; cbn [res_bind].
    + destruct (build_rules _ s cfgs) as [rules|e]; cbn [res_bind]; [by constructor|].
      destruct IH as (cfg' & k & pe & Hin & Hk & Hp & ->). exists cfg', k, pe.
      split_and!; [by right|done..].
    + destruct Hb as (k & pe & Hk & Hp & ->). exists cfg, k, pe. split_and!; [by left|done..].
Qed.
End collectors.

(** ** Concrete inputs *)

#[global] Instance sample_url_lib : UrlLib := {| url_parse_error _ := None |}.

Definition sample_secrets : ResolvedSecrets.t :=
  ResolvedSecrets.mk (<["BTC_PASSWORD" := "hunter2"]> ∅).

Definition sample_disk : gmap string string := <["bithound.toml" := ""]> ∅.

Lemma sample_loaded :
  loaded_from sample_toml_parse sample_try_into None sample_env (map_to_list sample_env)
    sample_disk sample_config sample_secrets.
Proof.
  apply (read_config_sound sample_toml_parse sample_try_into). by vm_compute.
Qed.

Definition sample_built : BitcoinCoreRpcCollector.t := {|
  BitcoinCoreRpcCollector.descriptor := {|
    CollectorDescriptor.id := CollectorId.mk "bitcoin-rpc";
    CollectorDescriptor.integration := IntegrationKind.BitcoinCoreRpc (from_secs 30);
    CollectorDescriptor.target := CollectorTarget.BitcoinNode (BitcoinNodeId.mk "btc-main");
    CollectorDescriptor.instance_label := "main";
    CollectorDescriptor.description := None;
  |};
  BitcoinCoreRpcCollector.node_id := BitcoinNodeId.mk "btc-main";
  BitcoinCoreRpcCollector.client := BitcoinRpcClient.new "http://localhost:8332"
    (BitcoinRpcAuth.UserPass "u" "hunter2") (from_secs 5);
|}.

Lemma boot_collectors_spec_witness :
  Forall2 (built sample_config sample_secrets) (Config.collectors sample_config) [sample_built].
Proof.
  destruct (boot_collectors_spec _ _ _ _ _ _ _ _ [sample_built] sample_loaded)
    as (reg & Hreg & Hiff & _).
  apply Hiff. vm_compute in Hreg. injection Hreg as <-. split; by vm_compute.
Defined.

Lemma boot_resolves_secrets_witness :
  ∃ senders, build_senders (Config.notifications sample_config) sample_secrets = Ok senders ∧
    NotifierSenders.telegram senders = None.
Proof. exact (proj1 (boot_resolves_secrets _ _ _ _ _ _ _ _ sample_loaded)). Defined.
