(* ===== verification/Runtime.v ===== *)
(** * The runtime: [runtime/mod.rs], with the loop of [runtime/consumer.rs]

    The collectors' tasks, the consumer, the worker and the API server as one
    step relation: the bounded channel between collectors and consumer, the
    shutdown broadcast, the drain, and the join bounded by a deadline. What a
    batch does is [Consumer.process_batch]. *)

From S2P Require Import Prelude RustStr Names SharedTypes CollectorTypes Observations Samples Store Incidents Kinds Engine Storage Worker Bootstrap Consumer Config.

Module ConsumerPhase.
Inductive t : Type := Selecting | Draining | Exited.
End ConsumerPhase.

Module Outcome.
Inductive t : Type := Clean | Aborted.
End Outcome.

Section runtime.
Context `{UuidLib, DebugLib} {S R A : Type}.
Context `{ObservationStore S, IncidentRepository R, NotificationAttemptRepository A}.

Record runtime : Type := mk_runtime {
  (** Which tasks still hold a sender: the collectors' and the supervisor's. *)
  collectors : list bool;
  queue : list ObservationBatch.t;
  consumer_phase : ConsumerPhase.t;
  pipeline : consumer (S := S) (R := R) (A := A);
  worker_done : bool;
  api_done : bool;
  signalled : bool;
  outcome : option Outcome.t;
  (** What the channel took, and what the consumer has processed, with its
      clocks. *)
  accepted : list ObservationBatch.t;
  processed : list (ObservationBatch.t * DateTime * Instant);
}.

(** [run] up to the wait for a signal: [mpsc::channel] panics on a capacity of
    zero, and without the API there is no task to join. *)
Definition start (config : RuntimeConfig.t) (api : ApiConfig.t) (n : nat)
    (c : consumer (S := S) (R := R) (A := A)) : option runtime :=
  if (RuntimeConfig.channel_capacity config =? 0)%Z then None
  else Some (mk_runtime (replicate n true) [] ConsumerPhase.Selecting c false
         (negb (ApiConfig.enabled api)) false None [] []).

(** The consumer's task: the dependencies of the start-up, the stores and the
    channel to the worker, with the UUIDs drawn so far. *)
Definition consumer_task (deps : RuntimeDeps (R := R)) (observation_store : S) (attempts_repo : A)
    (notif_tx : Channel.t) (draws : nat) : consumer (S := S) (R := R) (A := A) := {|
  Consumer.rules := deps_rules deps;
  Consumer.read_models := deps_read_models deps;
  Consumer.engine := deps_engine deps;
  Consumer.notification_rules := deps_notification_rules deps;
  Consumer.notif_tx := notif_tx;
  Consumer.observation_store := observation_store;
  Consumer.incident_repo := Bootstrap.incident_repo deps;
  Consumer.attempts_repo := attempts_repo;
  Consumer.draws := draws;
  Consumer.trace := [];
|}.

(** The senders [supervisor::run] makes: one for every collector, and the one
    it was given. *)
Definition task_senders (deps : RuntimeDeps (R := R)) : nat :=
  1 + length (polling_collectors deps) + length (subscription_collectors deps).

Definition start_deps (deps : RuntimeDeps (R := R)) (observation_store : S) (attempts_repo : A)
    (notif_tx : Channel.t) (draws : nat) : option runtime :=
  start (runtime_config deps) (api_config deps) (task_senders deps)
    (consumer_task deps observation_store attempts_repo notif_tx draws).

Definition running (t : runtime) : Prop := true ∈ collectors t.

(** A step of some task, while [run] has not returned. *)
Inductive task_step (capacity : Z) (t : runtime) : runtime → Prop :=
  (** A collector's [tx.send]: there is room and a receiver. *)
  | rt_send i b :
      outcome t = None → collectors t !! i = Some true →
      (Z.of_nat (length (queue t)) < capacity)%Z → consumer_phase t ≠ ConsumerPhase.Exited →
      task_step capacity t (mk_runtime (collectors t) (queue t ++ [b]) (consumer_phase t) (pipeline t)
        (worker_done t) (api_done t) (signalled t) (outcome t) (accepted t ++ [b]) (processed t))
  (** A collector's task ends and drops its sender. *)
  | rt_collector_exit i :
      outcome t = None → collectors t !! i = Some true →
      task_step capacity t (mk_runtime (<[i := false]> (collectors t)) (queue t) (consumer_phase t)
        (pipeline t) (worker_done t) (api_done t) (signalled t) (outcome t) (accepted t) (processed t))
  (** [shutdown.recv()] in the consumer's loop. *)
  | rt_break :
      outcome t = None → consumer_phase t = ConsumerPhase.Selecting → signalled t = true →
      task_step capacity t (mk_runtime (collectors t) (queue t) ConsumerPhase.Draining (pipeline t)
        (worker_done t) (api_done t) (signalled t) (outcome t) (accepted t) (processed t))
  (** [rx.recv()] yields a batch, in the loop or in the drain. *)
  | rt_process b q now mono c' :
      outcome t = None → consumer_phase t ≠ ConsumerPhase.Exited → queue t = b :: q →
      process_batch b now mono (pipeline t) = Some c' →
      task_step capacity t (mk_runtime (collectors t) q (consumer_phase t) c'
        (worker_done t) (api_done t) (signalled t) (outcome t) (accepted t)
        (processed t ++ [(b, now, mono)]))
  (** [rx.recv()] yields [None]: the channel is empty and has no sender. *)
  | rt_closed :
      outcome t = None → consumer_phase t ≠ ConsumerPhase.Exited → queue t = [] → ¬ running t →
      task_step capacity t (mk_runtime (collectors t) (queue t) ConsumerPhase.Exited (pipeline t)
        (worker_done t) (api_done t) (signalled t) (outcome t) (accepted t) (processed t))
  (** The worker sees the shutdown, or its channel closed by the consumer's end;
      a sender's panic ([Senders.telegram_panics_iff]) ends it at any time. *)
  | rt_worker (panicked : bool) :
      outcome t = None → worker_done t = false →
      panicked = true ∨ signalled t = true ∨ consumer_phase t = ConsumerPhase.Exited →
      task_step capacity t (mk_runtime (collectors t) (queue t) (consumer_phase t) (pipeline t)
        true (api_done t) (signalled t) (outcome t) (accepted t) (processed t))
  (** The server sees the shutdown, or returned an error (its address is taken)
      before it. *)
  | rt_api :
      outcome t = None → api_done t = false →
      task_step capacity t (mk_runtime (collectors t) (queue t) (consumer_phase t) (pipeline t)
        (worker_done t) true (signalled t) (outcome t) (accepted t) (processed t))
  (** [tasks.join_next()] yields [None] before the deadline. *)
  | rt_joined :
      outcome t = None → signalled t = true → ¬ running t →
      consumer_phase t = ConsumerPhase.Exited → worker_done t = true → api_done t = true →
      task_step capacity t (mk_runtime (collectors t) (queue t) (consumer_phase t) (pipeline t)
        (worker_done t) (api_done t) (signalled t) (Some Outcome.Clean) (accepted t) (processed t)).

(** The signal, and the deadline after it: [abort_all]. *)
Inductive env_step (t : runtime) : runtime → Prop :=
  | rt_signal :
      outcome t = None → signalled t = false →
      env_step t (mk_runtime (collectors t) (queue t) (consumer_phase t) (pipeline t)
        (worker_done t) (api_done t) true (outcome t) (accepted t) (processed t))
  | rt_deadline :
      outcome t = None → signalled t = true →
      env_step t (mk_runtime (collectors t) (queue t) (consumer_phase t) (pipeline t)
        (worker_done t) (api_done t) (signalled t) (Some Outcome.Aborted) (accepted t) (processed t)).

Definition step (capacity : Z) (t t' : runtime) : Prop := task_step capacity t t' ∨ env_step t t'.
End runtime.

(** ** Facts *)

Section facts.
Context `{UuidLib, DebugLib} {S R A : Type}.
Context `{ObservationStore S, IncidentRepository R, NotificationAttemptRepository A}.
Implicit Types (t : runtime (S := S) (R := R) (A := A)).
Variables (capacity : Z) (c0 : consumer (S := S) (R := R) (A := A)).

Lemma run_snoc batches b now mono c c1 c' :
  run batches c = Some c1 → process_batch b now mono c1 = Some c' →
  run (batches ++ [(b, now, mono)]) c = Some c'.
Proof.
  revert c. induction batches as [|[[b' now'] mono'] batches IH]; intros c; cbn.
  - intros [= ->] ->. done.
  - destruct (process_batch b' now' mono' c) as [c2|]; cbn; [|done]. apply IH.
Qed.

Record accounted t : Prop := {
  ac_split : accepted t = (processed t).*1.*1 ++ queue t;
  ac_run : run (processed t) c0 = Some (pipeline t);
  ac_room : (Z.of_nat (length (queue t)) ≤ capacity)%Z;
  ac_exited : consumer_phase t = ConsumerPhase.Exited → queue t = [] ∧ ¬ running t;
  ac_clean : outcome t = Some Outcome.Clean → consumer_phase t = ConsumerPhase.Exited;
}.

Lemma not_running_exit (i : nat) (l : list bool) : true ∉ l → true ∉ <[i := false]> l.
Proof.
  intros Hl Hin. apply list_elem_of_lookup in Hin as [j Hj].
  apply list_lookup_insert_Some in Hj as [(_ & [=] & _)|[_ Hj]].
  apply Hl. by eapply list_elem_of_lookup_2.
Qed.

Lemma accounted_step t t' : accounted t → step capacity t t' → accounted t'.
Proof.
  intros [Hs Hr Hcap He Hc] [Hst|Hst]; inversion Hst; subst; split; cbn; try done; try (by intros; congruence).
  - by rewrite Hs, (assoc_L (++)).
  - rewrite length_app; cbn. lia.
  - intros Hex. destruct (He Hex) as [Hq Hn]. split; [done|]. by apply not_running_exit.
  - rewrite !fmap_app; cbn. rewrite <-(assoc_L (++)); cbn. by rewrite Hs; f_equal.
  - by eapply run_snoc.
  - match goal with Hq : queue t = _ :: _ |- _ => rewrite Hq in Hcap; cbn in Hcap end. lia.
Qed.

Lemma accounted_reachable config api n t t' :
  capacity = RuntimeConfig.channel_capacity config → (0 ≤ capacity)%Z →
  start config api n c0 = Some t → rtc (step capacity) t t' → accounted t'.
Proof.
  intros _ Hcap Hstart Hrtc.
  assert (accounted t) as Ht.
  { unfold start in Hstart. case_match; [done|]. injection Hstart as <-.
    split; cbn; done || lia. }
  clear Hstart. induction Hrtc; eauto using accounted_step.
Qed.

(** How far a run is from its end once no collector is left. *)
Definition distance t : nat :=
  length (queue t) +
  match consumer_phase t with
  | ConsumerPhase.Selecting => 2
  | ConsumerPhase.Draining => 1
  | ConsumerPhase.Exited => 0
  end + (if worker_done t then 0 else 1) + (if api_done t then 0 else 1) +
  match outcome t with Some _ => 0 | None => 1 end.

Lemma task_step_distance t t' :
  ¬ running t → signalled t = true → task_step capacity t t' →
  ¬ running t' ∧ signalled t' = true ∧ distance t' < distance t.
Proof.
  intros Hn Hs Hst. unfold running in Hn, Hst. unfold running, distance.
  inversion Hst as [i b Ho Hi|i Ho Hi|Ho Hp _|b q now mono c' Ho Hp Hq Hb|Ho Hp Hq _|panicked Ho Hw _|Ho Ha
    |Ho _ _ Hp Hw Ha]; subst; cbn;
    try (by exfalso; apply Hn; eapply list_elem_of_lookup_2);
    split_and!; try done.
  - rewrite Hp. lia.
  - rewrite Hq; cbn. lia.
  - rewrite Ho. destruct (consumer_phase t); try done; lia.
  - rewrite Hw. lia.
  - rewrite Ha. lia.
  - rewrite Ho. lia.
Qed.

Lemma task_step_enabled t :
  ¬ running t → signalled t = true → outcome t = None → accounted t →
  ∃ t', task_step capacity t t'.
Proof.
  intros Hn Hs Ho [_ _ _ He _].
  destruct (consumer_phase t) eqn:Hp.
  - eexists. by eapply rt_break.
  - destruct (queue t) as [|b q] eqn:Hq.
    + eexists. apply rt_closed; [done|by rewrite Hp|done|done].
    + destruct (process_batch_steps b 0%Z 0%Z (pipeline t)) as (c' & Hc' & _).
      eexists. eapply rt_process; [done|by rewrite Hp|done|done].
  - destruct (worker_done t) eqn:Hw; [|eexists; apply (rt_worker _ _ false); [done|done|by right; left]].
    destruct (api_done t) eqn:Ha; [|eexists; by apply rt_api].
    eexists. by apply rt_joined.
Qed.

(** No batch is lost by a clean shutdown. When [run] ends cleanly, every
    collector has ended, and the consumer has processed exactly the batches the
    channel accepted, once each and in order: its state (stores, incidents,
    notifications sent) is that of the run over them. Before that, what was
    accepted is what was processed followed by what is queued, and the queue
    never exceeds the configured capacity. *)
Theorem clean_shutdown_drains config api n t t' :
  capacity = RuntimeConfig.channel_capacity config → (0 ≤ capacity)%Z →
  start config api n c0 = Some t → rtc (step capacity) t t' →
  accepted t' = (processed t').*1.*1 ++ queue t' ∧
  run (processed t') c0 = Some (pipeline t') ∧
  (Z.of_nat (length (queue t')) ≤ capacity)%Z ∧
  (outcome t' = Some Outcome.Clean →
     ¬ running t' ∧ (processed t').*1.*1 = accepted t').
Proof.
  intros Hc Hcap Hstart Hrtc.
  destruct (accounted_reachable config api n t t' Hc Hcap Hstart Hrtc) as [Hs Hr Hroom He Hcl].
  split_and!; [done..|]. intros Ho. destruct (He (Hcl Ho)) as [Hq Hn].
  split; [done|]. by rewrite Hs, Hq, app_nil_r.
Qed.

(** C32: A shutdown terminates once the collectors have ended. From any state
    after the signal in which no collector is left, every execution of the
    tasks is shorter than the queue plus six steps, and an execution that
    cannot go on has returned cleanly: the deadline is not needed. *)
Theorem shutdown_terminates config api n t t' k t'' :
  capacity = RuntimeConfig.channel_capacity config → (0 ≤ capacity)%Z →
  start config api n c0 = Some t → rtc (step capacity) t t' →
  signalled t' = true → ¬ running t' → outcome t' = None →
  nsteps (task_step capacity) k t' t'' →
  k < length (queue t') + 6 ∧
  ((∀ u, ¬ task_step capacity t'' u) → outcome t'' = Some Outcome.Clean).
Proof.
  intros Hc Hcap Hstart Hrtc Hs Hn Ho Hk.
  pose proof (accounted_reachable config api n t t' Hc Hcap Hstart Hrtc) as Hacc.
  assert (k + distance t'' ≤ distance t' ∧ accounted t'' ∧ ¬ running t'' ∧ signalled t'' = true ∧
    outcome t'' ≠ Some Outcome.Aborted) as (Hd & Hacc' & Hn' & Hs' & Ho').
  { assert (outcome t' ≠ Some Outcome.Aborted) as Hna by congruence. clear Ho Hrtc Hstart.
    induction Hk as [u|k u v w Huv _ IH]; [by split_and!|].
    destruct (task_step_distance u v Hn Hs Huv) as (Hnv & Hsv & Hlt).
    destruct IH as (Hd & Hrest); [done|done|by eapply accounted_step; [|left]| |split; [lia|done]].
    inversion Huv; subst; cbn; congruence. }
  split.
  - unfold distance in Hd. destruct (consumer_phase t'), (worker_done t'), (api_done t'), (outcome t'); lia.
  - intros Hstuck. destruct (outcome t'') as [[]|] eqn:Hout; [done|done|].
    destruct (task_step_enabled t'' Hn' Hs' Hout Hacc') as [u Hu]. by apply Hstuck in Hu.
Qed.

(** A channel of capacity zero, which the configuration accepts, is a panic at
    start-up. *)
Lemma zero_capacity_panics config api n :
  start config api n c0 = None ↔ RuntimeConfig.channel_capacity config = 0%Z.
Proof. unfold start. destruct (Z.eqb_spec (RuntimeConfig.channel_capacity config) 0); naive_solver. Qed.
End facts.

(** ** Concrete inputs *)

(** One collector, just started. *)
Definition sample_runtime : runtime :=
  mk_runtime [true] [] ConsumerPhase.Selecting sample_consumer false false false None [] [].

(** The collector has ended and the shutdown was broadcast. *)
Definition sample_ending : runtime :=
  mk_runtime [false] [] ConsumerPhase.Selecting sample_consumer false false true None [] [].

Lemma sample_ending_reachable : rtc (step 1024) sample_runtime sample_ending.
Proof.
  eapply rtc_l; [left; by apply (rt_collector_exit _ _ 0)|].
  apply rtc_once. right. by apply rt_signal.
Qed.

Lemma clean_shutdown_drains_witness :
  accepted sample_ending = (processed sample_ending).*1.*1 ++ queue sample_ending ∧
  run (processed sample_ending) sample_consumer = Some (pipeline sample_ending).
Proof.
  destruct (clean_shutdown_drains 1024 sample_consumer RuntimeConfig.default ApiConfig.default 1
    sample_runtime sample_ending) as (Hs & Hr & _);
    [done|done|done|apply sample_ending_reachable|by split].
Defined.

Lemma shutdown_terminates_witness :
  0 < 6 ∧ ((∀ u, ¬ task_step 1024 sample_ending u) → outcome sample_ending = Some Outcome.Clean).
Proof.
  apply (shutdown_terminates 1024 sample_consumer RuntimeConfig.default ApiConfig.default 1
    sample_runtime sample_ending 0 sample_ending);
    [done|done|done|apply sample_ending_reachable|done|by intros ?%list_elem_of_singleton|done|constructor].
Defined.
