(* ===== verification/Assembly.v ===== *)
(** * The supervisor in the runtime: [supervisor::run] under [runtime::run]

    The tasks [supervisor::run] spawns, one per collector, composed with the
    channel, the consumer and the broadcast of [Runtime]: a collector's send is
    the channel's, a task that ends drops its sender, the broadcast reaches
    the receivers that exist when it is sent, and [supervisor::run] returns
    when every task has been joined. The composition refines both of its
    parts, so their theorems hold of it. *)

From S2P Require Import Prelude RustStr Names SharedTypes F64 CollectorTypes Observations Samples Store Incidents Kinds Engine Storage Worker Bootstrap Consumer Config Collectors Supervisor Runtime.

Module Child.
Inductive t (C : Type) : Type :=
  | Polling (t : task C)
  | Subscription (t : sub_task).
Arguments Polling {C}.
Arguments Subscription {C}.

(** The task's future is finished: it returned, or it panicked. *)
Definition ended {C} (c : t C) : bool :=
  match c with
  | Polling t => match phase t with Phase.Exited | Phase.Aborted => true | _ => false end
  | Subscription t => match sub_phase t with SubPhase.Exited | SubPhase.Aborted => true | _ => false end
  end.

(** The broadcast, the consumer's end and the clock, as a task sees them. *)
Definition signal {C} (c : t C) : t C :=
  match c with
  | Polling t => Polling (Supervisor.signal t)
  | Subscription t =>
      Subscription (mk_sub (sub_clock t) true true (sub_backoff_idx t) (sub_phase t))
  end.

Definition consumer_gone {C} (c : t C) : t C :=
  match c with
  | Polling t => Polling (Supervisor.consumer_gone t)
  | Subscription t => Subscription t
  end.

Definition set_clock {C} (now : Instant) (c : t C) : t C :=
  match c with
  | Polling t => Polling (Supervisor.set_clock (Z.max (clock t) now) t)
  | Subscription t => Subscription
      (mk_sub (Z.max (sub_clock t) now) (sub_signalled t) (sub_pending t) (sub_backoff_idx t)
         (sub_phase t))
  end.
End Child.

(** [supervisor::run]: its two loops over the collectors, then the join. *)
Module SupervisorPhase.
Inductive t : Type := Launching | Joining | Returned.

Definition holds_sender (p : t) : bool :=
  match p with Launching => true | _ => false end.
End SupervisorPhase.

Section assembly.
Context `{UuidLib, DebugLib} {St Re At : Type}.
Context `{ObservationStore St, IncidentRepository Re, NotificationAttemptRepository At}.
Context {C : Type} `{!PollingCollector C, Ticker}.
(** The polling collectors, and how many subscription collectors there are. *)
Context (sidecar_id : SidecarId.t) (polling : list C) (subscriptions : nat) (capacity : Z).

Record assembly : Type := mk_assembly {
  supervisor : SupervisorPhase.t;
  children : list (Child.t C);
  (** What the channel took, with the task that sent it. *)
  log : list (nat * ObservationBatch.t);
  rt : runtime (S := St) (R := Re) (A := At);
}.

Definition total : nat := length polling + subscriptions.

(** The channel takes a batch; task [i] drops its sender, the supervisor's own
    being the first. *)
Definition push (b : ObservationBatch.t) (r : runtime (S := St) (R := Re) (A := At)) : runtime :=
  mk_runtime (Runtime.collectors r) (queue r ++ [b]) (consumer_phase r) (pipeline r)
    (worker_done r) (api_done r) (Runtime.signalled r) (outcome r) (accepted r ++ [b]) (processed r).

Definition drop_sender (i : nat) (r : runtime (S := St) (R := Re) (A := At)) : runtime :=
  mk_runtime (<[i := false]> (Runtime.collectors r)) (queue r) (consumer_phase r) (pipeline r)
    (worker_done r) (api_done r) (Runtime.signalled r) (outcome r) (accepted r) (processed r).

(** [tx.send] completes: there is room and a receiver. *)
Definition sendable (r : runtime (S := St) (R := Re) (A := At)) : Prop :=
  (Z.of_nat (length (queue r)) < capacity)%Z ∧ consumer_phase r ≠ ConsumerPhase.Exited.

(** The next task to spawn, its receiver subscribed on the spot. *)
Definition launched (k : nat) (now : Instant) : Child.t C :=
  match polling !! k with
  | Some c => Child.Polling (Supervisor.start c now)
  | None => Child.Subscription (sub_start now)
  end.

(** What the tasks notice of a step of the runtime. *)
Definition notice (r r' : runtime (S := St) (R := Re) (A := At)) (c : Child.t C) : Child.t C :=
  match consumer_phase r, consumer_phase r' with
  | ConsumerPhase.Exited, _ => c
  | _, ConsumerPhase.Exited => Child.consumer_gone c
  | _, _ => c
  end.

Definition with_child (i : nat) (c : Child.t C) (a : assembly) : assembly :=
  mk_assembly (supervisor a) (<[i := c]> (children a)) (log a) (rt a).

Definition send_from (i : nat) (c : Child.t C) (b : ObservationBatch.t) (a : assembly) : assembly :=
  mk_assembly (supervisor a) (<[i := c]> (children a)) (log a ++ [(i, b)]) (push b (rt a)).

(** A step of the assembly, while [run] has not returned. *)
Inductive assembly_step (a : assembly) : assembly → Prop :=
  (** One turn of the loops that spawn, the drop of the own sender, the join. *)
  | as_launch now :
      outcome (rt a) = None → supervisor a = SupervisorPhase.Launching →
      length (children a) < total →
      assembly_step a (mk_assembly (supervisor a)
        (children a ++ [launched (length (children a)) now]) (log a) (rt a))
  | as_drop_own :
      outcome (rt a) = None → supervisor a = SupervisorPhase.Launching →
      length (children a) = total →
      assembly_step a (mk_assembly SupervisorPhase.Joining (children a) (log a)
        (drop_sender 0 (rt a)))
  | as_join :
      outcome (rt a) = None → supervisor a = SupervisorPhase.Joining →
      ¬ running (rt a) →
      assembly_step a (mk_assembly SupervisorPhase.Returned (children a) (log a) (rt a))
  (** A polling collector's task, alone or through the channel. *)
  | as_polling i c t t' :
      outcome (rt a) = None → children a !! i = Some (Child.Polling t) → polling !! i = Some c →
      Supervisor.task_step sidecar_id c t t' → sent t' = sent t →
      assembly_step a (with_child i (Child.Polling t') a)
  | as_polling_send i c t t' b :
      outcome (rt a) = None → children a !! i = Some (Child.Polling t) → polling !! i = Some c →
      Supervisor.task_step sidecar_id c t t' → sent t' = sent t ++ [b] → sendable (rt a) →
      assembly_step a (send_from i (Child.Polling t') b a)
  (** A subscription collector's task, and [BatchSink::send] within its [run]. *)
  | as_subscription i t t' :
      outcome (rt a) = None → children a !! i = Some (Child.Subscription t) →
      sub_step t t' → sub_clock t' = sub_clock t → sub_signalled t' = sub_signalled t →
      assembly_step a (with_child i (Child.Subscription t') a)
  | as_sink_send i t s b :
      outcome (rt a) = None → children a !! i = Some (Child.Subscription t) →
      sub_phase t = SubPhase.Running s → sendable (rt a) →
      assembly_step a (send_from i (Child.Subscription t) b a)
  (** A finished task's sender is dropped. *)
  | as_dropped i c :
      outcome (rt a) = None → children a !! i = Some c → Child.ended c = true →
      Runtime.collectors (rt a) !! S i = Some true →
      assembly_step a (mk_assembly (supervisor a) (children a) (log a) (drop_sender (S i) (rt a)))
  (** The consumer, the worker, the API server and the join of [run]. *)
  | as_runtime r :
      Runtime.task_step capacity (rt a) r →
      Runtime.collectors r = Runtime.collectors (rt a) → accepted r = accepted (rt a) →
      (outcome r = None ∨ supervisor a = SupervisorPhase.Returned) →
      assembly_step a (mk_assembly (supervisor a) (notice (rt a) r <$> children a) (log a) r)
  (** The signal, broadcast to the receivers there are. *)
  | as_signal r :
      Runtime.env_step (rt a) r → outcome r = None →
      assembly_step a (mk_assembly (supervisor a) (Child.signal <$> children a) (log a) r)
  | as_deadline r :
      Runtime.env_step (rt a) r → outcome r = Some Outcome.Aborted →
      assembly_step a (mk_assembly (supervisor a) (children a) (log a) r)
  (** Time passes. *)
  | as_clock now :
      outcome (rt a) = None →
      assembly_step a (mk_assembly (supervisor a) (Child.set_clock now <$> children a) (log a) (rt a)).

(** [run] up to the spawn of the supervisor's task. *)
Definition assemble (config : RuntimeConfig.t) (api : ApiConfig.t)
    (c : consumer (S := St) (R := Re) (A := At)) : option assembly :=
  r ← Runtime.start config api (S total) c;
  Some (mk_assembly SupervisorPhase.Launching [] [] r).

(** The batches task [i] sent. *)
Definition sent_by (i : nat) (l : list (nat * ObservationBatch.t)) : list ObservationBatch.t :=
  (filter (λ p, p.1 = i) l).*2.
End assembly.

(** ** The composition refines its parts *)

Section facts.
Context `{UuidLib, DebugLib} {St Re At : Type}.
Context `{ObservationStore St, IncidentRepository Re, NotificationAttemptRepository At}.
Context {C : Type} `{!PollingCollector C, TickerLaws}.
Context (sidecar_id : SidecarId.t) (polling : list C) (subscriptions : nat) (capacity : Z).
Context (c0 : consumer (S := St) (R := Re) (A := At)).
Context (config : RuntimeConfig.t) (api : ApiConfig.t).
Implicit Types (a : assembly (St := St) (Re := Re) (At := At) (C := C)).
Implicit Types (r : runtime (S := St) (R := Re) (A := At)).
Implicit Types (ch : Child.t C).

#[local] Abbreviation total := (total polling subscriptions).
#[local] Abbreviation assembly_step := (assembly_step sidecar_id polling subscriptions capacity).

Definition assembled a : Prop :=
  ∃ a0, assemble polling subscriptions config api c0 = Some a0 ∧ rtc assembly_step a0 a.

(** A task over its whole life, with what it sent and heard. *)
Definition child_ok (l : list (nat * ObservationBatch.t)) (broadcast : bool) (i : nat)
    (ch : Child.t C) : Prop :=
  match ch with
  | Child.Polling t =>
      (∃ c, polling !! i = Some c ∧ Supervisor.reachable sidecar_id c t) ∧
      sent_by i l = sent t ∧
      (Supervisor.signalled t = true → broadcast = true) ∧
      (phase t = Phase.Exited → Supervisor.signalled t = true) ∧
      (consumer_alive t = true ∨ Child.ended ch = true) ∧
      handed t
  | Child.Subscription t =>
      length polling ≤ i ∧ (∃ now, rtc sub_step (sub_start now) t) ∧
      (sub_signalled t = true → broadcast = true)
  end.

Record coherent a : Prop := {
  co_runtime : ∃ r0, Runtime.start config api (S total) c0 = Some r0 ∧
                 rtc (Runtime.step capacity) r0 (rt a);
  co_children i ch : children a !! i = Some ch →
    child_ok (log a) (Runtime.signalled (rt a)) i ch;
  co_count : length (children a) ≤ total;
  co_joining : supervisor a ≠ SupervisorPhase.Launching → length (children a) = total;
  co_senders : length (Runtime.collectors (rt a)) = S total;
  co_own : Runtime.collectors (rt a) !! 0 = Some (SupervisorPhase.holds_sender (supervisor a));
  co_dropped i : Runtime.collectors (rt a) !! S i = Some false →
    ∃ ch, children a !! i = Some ch ∧ Child.ended ch = true;
  co_log : accepted (rt a) = (log a).*2;
  co_tags i : i ∈ (log a).*1 → i < length (children a);
}.

Lemma coherent_start a :
  assemble polling subscriptions config api c0 = Some a → coherent a.
Proof.
  intros (r & Hr & [= <-])%bind_Some. pose proof Hr as Hr'. unfold start in Hr.
  case_match; [done|]. injection Hr as <-.
  split; cbn; try done.
  - by eexists.
  - lia.
  - by rewrite length_replicate.
  - intros i Hi. exfalso. by apply lookup_replicate in Hi as [[=] _].
  - by intros i ?%elem_of_nil.
Qed.

Lemma sent_by_app i l l' : sent_by i (l ++ l') = sent_by i l ++ sent_by i l'.
Proof. unfold sent_by. by rewrite filter_app, fmap_app. Qed.

Lemma sent_by_same i b : sent_by i [(i, b)] = [b].
Proof. unfold sent_by. rewrite filter_cons_True by done. by rewrite filter_nil. Qed.

Lemma sent_by_other i j b : i ≠ j → sent_by i [(j, b)] = [].
Proof. intros. unfold sent_by. rewrite filter_cons_False by (cbn; congruence). by rewrite filter_nil. Qed.

Lemma sent_by_none i l : i ∉ l.*1 → sent_by i l = [].
Proof.
  intros Hi. induction l as [|[j b] l IH]; [done|].
  apply not_elem_of_cons in Hi as [Hj Hl]. unfold sent_by.
  rewrite filter_cons_False by (cbn in *; congruence). by apply IH.
Qed.

(** The log grows at another task; the broadcast is sent. *)
Lemma child_ok_push l g i j b ch : i ≠ j → child_ok l g i ch → child_ok (l ++ [(j, b)]) g i ch.
Proof.
  intros Hij. destruct ch as [t|t]; cbn; [|done].
  by rewrite sent_by_app, sent_by_other, app_nil_r.
Qed.

Lemma reachable_step c t t' :
  Supervisor.reachable sidecar_id c t → Supervisor.step sidecar_id c t t' →
  Supervisor.reachable sidecar_id c t'.
Proof. intros [now Ht] Hst. exists now. by eapply rtc_r. Qed.

(** A task leaves its loop only for the shutdown or for a dead consumer. *)
Lemma exit_heard c t t' :
  Supervisor.reachable sidecar_id c t → (consumer_alive t = true ∨ Child.ended (Child.Polling t) = true) →
  Supervisor.task_step sidecar_id c t t' → phase t' = Phase.Exited →
  Supervisor.signalled t' = true.
Proof.
  intros Hr%reachable_supervised Hal Hst Hex.
  destruct Hr as [Hi _ Hpe Hrun].
  inversion Hst as [Hph|s k Hph|s k r Hph Hk|s k r now run a n cl b Hph Hb
    |s k r now run a n cl Hph Hb|s k r b Hph Hall|s k r b Hph Hall|d Hph Hpd|d Hph Hd];
    subst t'; cbn in *; try done.
  - exfalso. revert Hex. unfold spawn, inner_ended.
    destruct (polling_interval c =? 0)%Z; [|done].
    match goal with |- context [respawn_later ?s ?u] =>
      destruct (respawn_later_spec s u Hi) as (? & ? & -> & _) end. done.
  - by destruct (Hrun s k true) as (_ & _ & Hs & _); [rewrite Hph|apply Hs].
  - exfalso. destruct (respawn_later_spec s (poll_done [] cl t) Hi) as (? & ? & Heq & _). by rewrite Heq in Hex.
  - rewrite Hph in Hal. destruct Hal as [Hal|[=]]. congruence.
  - congruence.
Qed.

Lemma ended_alive c t t' :
  Supervisor.task_step sidecar_id c t t' → Child.ended (Child.Polling t) = false.
Proof. intros Hst. inversion Hst as [Hph|? ? Hph|? ? ? Hph|? ? ? ? ? ? ? ? ? Hph|? ? ? ? ? ? ? ? Hph|? ? ? ? Hph|? ? ? ? Hph|? Hph|? Hph]; cbn; by rewrite Hph. Qed.

Lemma task_step_flags c t t' :
  Supervisor.task_step sidecar_id c t t' →
  Supervisor.signalled t' = Supervisor.signalled t ∧ consumer_alive t' = consumer_alive t.
Proof.
  intros Hst. inversion Hst; subst t'; cbn; try done;
    unfold spawn, inner_ended, respawn_later; repeat case_match; done.
Qed.

Lemma child_ok_step l g i c t t' :
  child_ok l g i (Child.Polling t) → polling !! i = Some c →
  Supervisor.task_step sidecar_id c t t' →
  ∀ l', sent_by i l' = sent t' → child_ok l' g i (Child.Polling t').
Proof.
  intros ((c' & Hc' & Hr) & _ & Hg & Hx & Hal & Hh) Hc Hst l' Hl'.
  assert (c' = c) as -> by congruence.
  destruct (task_step_flags c t t' Hst) as [Hs Ha]. cbn [child_ok].
  assert (consumer_alive t = true) as Halive.
  { destruct Hal as [?|Hend]; [done|]. by rewrite (ended_alive c t t' Hst) in Hend. }
  split_and!; [exists c; split; [done|]; eapply reachable_step; [done|by left]|done| | | |].
  - by rewrite Hs.
  - by apply (exit_heard c t).
  - left. by rewrite Ha.
  - destruct (handed_step sidecar_id c t t' Hh Hst) as [?|(_ & Hdead & _)]; [done|congruence].
Qed.

(** ** Every step keeps the parts together *)

Lemma runtime_extends a r :
  coherent a → Runtime.step capacity (rt a) r →
  ∃ r0, Runtime.start config api (S total) c0 = Some r0 ∧ rtc (Runtime.step capacity) r0 r.
Proof.
  intros [(r0 & Hr0 & Hrtc) _ _ _ _ _ _ _ _] Hst. exists r0. split; [done|]. by eapply rtc_r.
Qed.

(** Only one task moved, and it keeps its promise. *)
Lemma coherent_moved a i ch ch' :
  coherent a → children a !! i = Some ch →
  (Child.ended ch = true → Child.ended ch' = true) →
  child_ok (log a) (Runtime.signalled (rt a)) i ch' →
  coherent (with_child i ch' a).
Proof.
  intros [Hrt Hch Hn Hj Hl Ho Hd Hlog Htags] Hi Hlive Hok.
  assert (i < length (children a)) by (by eapply lookup_lt_Some).
  split; cbn; try done.
  - intros j ch1 [(-> & <- & _)|[_ Hj1]]%list_lookup_insert_Some; [done|by apply Hch].
  - by rewrite length_insert.
  - by rewrite length_insert.
  - intros j (ch1 & Hj1 & Hend)%Hd. destruct (decide (i = j)) as [<-|Hne].
    + exists ch'. rewrite list_lookup_insert_eq by done. split; [done|].
      apply Hlive. congruence.
    + exists ch1. by rewrite list_lookup_insert_ne.
  - intros j. rewrite length_insert. apply Htags.
Qed.

(** One task moved and handed a batch to the channel. *)
Lemma coherent_sent a i ch ch' b :
  coherent a → children a !! i = Some ch → Child.ended ch = false →
  outcome (rt a) = None → sendable capacity (rt a) →
  child_ok (log a ++ [(i, b)]) (Runtime.signalled (rt a)) i ch' →
  coherent (send_from i ch' b a).
Proof.
  intros Hcoh Hi Hlive Hout [Hroom Hrecv] Hok.
  pose proof Hcoh as [Hrt Hch Hn Hj Hl Ho Hd Hlog Htags].
  assert (i < length (children a)) as Hlt by (by eapply lookup_lt_Some).
  split; cbn; try done.
  - apply (runtime_extends a); [done|]. left.
    destruct (lookup_lt_is_Some_2 (Runtime.collectors (rt a)) (S i)) as [[] Hs]; [lia| |].
    + by apply (rt_send capacity _ (S i)).
    + destruct (Hd _ Hs) as (ch1 & Hch1 & Hend). rewrite Hi in Hch1. congruence.
  - intros j ch1 [(-> & <- & _)|[Hne Hj1]]%list_lookup_insert_Some; [done|].
    apply child_ok_push; [done|by apply Hch].
  - by rewrite length_insert.
  - by rewrite length_insert.
  - intros j (ch1 & Hj1 & Hend)%Hd. exists ch1. rewrite list_lookup_insert_ne; [done|].
    intros ->. rewrite Hi in Hj1. congruence.
  - by rewrite fmap_app, Hlog.
  - intros j. rewrite length_insert, fmap_app; cbn.
    intros [Hj1|Heq%list_elem_of_singleton]%elem_of_app; [by apply Htags|by subst].
Qed.

Lemma coherent_drop a i sup ch :
  coherent a → outcome (rt a) = None → Runtime.collectors (rt a) !! i = Some true →
  SupervisorPhase.holds_sender sup = SupervisorPhase.holds_sender (supervisor a) && negb (i =? 0) →
  (sup ≠ SupervisorPhase.Launching → length (children a) = total) →
  (∀ k, i = S k → children a !! k = Some ch ∧ Child.ended ch = true) →
  coherent (mk_assembly sup (children a) (log a) (drop_sender i (rt a))).
Proof.
  intros Hcoh Hout Hi Hsup Hcount Hch1. pose proof Hcoh as [Hrt Hch Hn Hj Hl Ho Hd Hlog Htags].
  split; cbn; try done.
  - apply (runtime_extends a); [done|]. left. by apply rt_collector_exit.
  - by rewrite length_insert.
  - rewrite Hsup. destruct (Nat.eqb_spec i 0) as [->|Hne].
    + rewrite andb_false_r. apply list_lookup_insert_eq. by eapply lookup_lt_Some.
    + by rewrite andb_true_r, list_lookup_insert_ne.
  - intros k [(-> & _ & _)|[_ Hk]]%list_lookup_insert_Some; [exists ch; by apply Hch1|by apply Hd].
Qed.

Lemma launched_ok l g k now :
  k < total → sent_by k l = [] → child_ok l g k (launched polling k now).
Proof.
  intros _ Hl. unfold launched. destruct (polling !! k) as [c|] eqn:Hc; cbn.
  - split_and!; [|done..|by left|done]. exists c. split; [done|]. by exists now.
  - split_and!; [by apply lookup_ge_None| |done]. by exists now.
Qed.

(** Every task hears the same thing, and no task comes back to life. *)
Lemma coherent_mapped a (f : Child.t C → Child.t C) r :
  coherent a → Runtime.step capacity (rt a) r ∨ r = rt a →
  Runtime.collectors r = Runtime.collectors (rt a) → accepted r = accepted (rt a) →
  (∀ ch, Child.ended (f ch) = Child.ended ch) →
  (∀ i ch, children a !! i = Some ch → child_ok (log a) (Runtime.signalled r) i (f ch)) →
  coherent (mk_assembly (supervisor a) (f <$> children a) (log a) r).
Proof.
  intros Hcoh Hst Hcol Hacc Hend Hok. pose proof Hcoh as [Hrt Hch Hn Hj Hl Ho Hd Hlog Htags].
  split; cbn; rewrite ?length_fmap, ?Hcol; try done.
  - destruct Hst as [Hst| ->]; [by apply (runtime_extends a)|done].
  - intros i ch (ch1 & -> & Hi)%list_lookup_fmap_Some. by apply Hok.
  - intros i (ch1 & Hi & He)%Hd. exists (f ch1). split; [|by rewrite Hend].
    apply list_lookup_fmap_Some. by exists ch1.
  - by rewrite Hacc.
Qed.

Lemma coherent_accounted a :
  capacity = RuntimeConfig.channel_capacity config → (0 ≤ capacity)%Z →
  coherent a → accounted capacity c0 (rt a).
Proof.
  intros Hcap Hpos [(r0 & Hr0 & Hrtc) _ _ _ _ _ _ _ _].
  by eapply accounted_reachable.
Qed.

(** No sender is left: every task has been spawned and has ended. *)
Lemma all_ended a i ch :
  coherent a → ¬ running (rt a) → children a !! i = Some ch → Child.ended ch = true.
Proof.
  intros [_ _ Hn _ Hl _ Hd _ _] Hrun Hi.
  assert (i < length (children a)) by (by eapply lookup_lt_Some).
  destruct (lookup_lt_is_Some_2 (Runtime.collectors (rt a)) (S i)) as [[] Hs]; [lia| |].
  - destruct Hrun. by eapply list_elem_of_lookup_2.
  - destruct (Hd _ Hs) as (ch1 & Hi1 & He). congruence.
Qed.

Lemma ended_notice r r' ch : Child.ended (notice r r' ch) = Child.ended ch.
Proof. unfold notice. by destruct (consumer_phase r), (consumer_phase r'), ch. Qed.

Lemma child_ok_notice l g i r r' ch :
  child_ok l g i ch →
  (consumer_phase r' = ConsumerPhase.Exited → Child.ended ch = true) →
  child_ok l g i (notice r r' ch).
Proof.
  intros Hok Hend. unfold notice.
  destruct (consumer_phase r), (consumer_phase r'); try done; destruct ch as [t|t]; try done.
  all: destruct Hok as ((c & Hc & Hr) & Hsent & Hg & Hx & _ & Hh); cbn [child_ok Child.consumer_gone].
  all: split_and!; [exists c; split; [done|]; eapply reachable_step; [done|right; constructor]|done..| |done].
  all: right; by apply Hend.
Qed.

Lemma child_ok_clock l g i now ch : child_ok l g i ch → child_ok l g i (Child.set_clock now ch).
Proof.
  destruct ch as [t|t]; cbn [child_ok Child.set_clock].
  - intros ((c & Hc & Hr) & ? & ? & ? & ? & ?). split_and!; try done. exists c. split; [done|].
    eapply reachable_step; [done|]. right. constructor. lia.
  - intros (? & (now0 & Hr) & ?). split_and!; try done. exists now0.
    eapply rtc_r; [done|]. apply sub_clock_step. lia.
Qed.

Lemma child_ok_signal l i ch : child_ok l false i ch → child_ok l true i (Child.signal ch).
Proof.
  destruct ch as [t|t]; cbn [child_ok Child.signal].
  - intros ((c & Hc & Hr) & ? & Hg & ? & Hal & Hh). split_and!; try done.
    + exists c. split; [done|]. eapply reachable_step; [done|]. right. constructor.
      destruct (Supervisor.signalled t); [by specialize (Hg eq_refl)|done].
    + cbn in *. by destruct (phase t).
    + unfold handed in *. cbn. by destruct (phase t).
  - intros (? & (now0 & Hr) & Hg). split_and!; try done. exists now0.
    eapply rtc_r; [done|]. apply sub_signal.
    destruct (sub_signalled t); [by specialize (Hg eq_refl)|done].
Qed.

Lemma coherent_step a a' :
  capacity = RuntimeConfig.channel_capacity config → (0 ≤ capacity)%Z →
  coherent a → assembly_step a a' → coherent a'.
Proof.
  intros Hcap Hpos Hcoh Hst.
  destruct Hst as [now Hout Hsup Hlt|Hout Hsup Hlen|Hout Hsup Hrun|i c t t' Hout Hi Hc Ht Hsent
    |i c t t' b Hout Hi Hc Ht Hsent Hs|i t t' Hout Hi Ht Hclk Hsig|i t s b Hout Hi Hs Hroom
    |i ch Hout Hi Hend Hsnd|r Hr Hcol Hacc Hret|r Hr Hout|r Hr Hout|now Hout].
  - pose proof Hcoh as [Hrt Hch Hn Hj Hl Ho Hd Hlog Htags]. split; cbn; try done.
    + intros i ch [Hi|[Hi Hch1]]%lookup_app_Some; [by apply Hch|].
      apply list_lookup_singleton_Some in Hch1 as [Hz <-].
      replace i with (length (children a)) by lia. apply launched_ok; [done|].
      apply sent_by_none. intros Hin%Htags. lia.
    + rewrite length_app; cbn. lia.
    + intros i (ch & Hi & He)%Hd. exists ch. split; [|done]. by apply lookup_app_l_Some.
    + intros i Hi%Htags. rewrite length_app. lia.
  - pose proof (co_own _ Hcoh) as Hown. rewrite Hsup in Hown.
    eapply (coherent_drop a 0 _ (launched polling 0 0)); try done. by rewrite andb_false_r.
  - destruct Hcoh as [Hrt Hch Hn Hj Hl Ho Hd Hlog Htags]. split; cbn; try done.
    + intros _. apply Hj. by rewrite Hsup.
    + by rewrite Ho, Hsup.
  - pose proof (co_children _ Hcoh i _ Hi) as Hok.
    eapply coherent_moved; [done|done| |].
    + by rewrite (ended_alive _ _ _ Ht).
    + eapply child_ok_step; [done|done|done|]. destruct Hok as (_ & Hsb & _). congruence.
  - pose proof (co_children _ Hcoh i _ Hi) as Hok.
    eapply coherent_sent; [done|done|by eapply ended_alive|done|done|].
    eapply child_ok_step; [done|done|done|]. destruct Hok as (_ & Hsb & _).
    by rewrite sent_by_app, sent_by_same, Hsb, Hsent.
  - destruct (co_children _ Hcoh i _ Hi) as (Hge & (now0 & Hr) & Hg).
    eapply coherent_moved; [done|done| |].
    + cbn. inversion Ht as [s Hph|d Hph|s Hph|s Hph|d Hph| |]; subst; cbn; try done;
        rewrite ?Hph; try done; by destruct (sub_phase t).
    + cbn. rewrite Hsig. split_and!; [done| |done]. exists now0. by eapply rtc_r.
  - pose proof (co_children _ Hcoh i _ Hi) as Hok.
    eapply coherent_sent; [done|done|cbn; by rewrite Hs|done|done|done].
  - apply (coherent_drop a (S i) _ ch);
      [done..|by rewrite andb_true_r|by apply co_joining|by intros k [= <-]].
  - pose proof (runtime_extends _ _ Hcoh (or_introl Hr)) as (r0 & Hr0 & Hrtc).
    pose proof (accounted_reachable capacity c0 config api (S total) r0 r Hcap Hpos Hr0 Hrtc)
      as [_ _ _ Hex _].
    assert (Runtime.signalled r = Runtime.signalled (rt a)) as Hsg by (inversion Hr; by subst).
    apply coherent_mapped; [done|by left; left|done|done|intros; apply ended_notice|].
    intros i ch Hi. rewrite Hsg. apply child_ok_notice; [by eapply co_children|].
    intros Hph. eapply all_ended; [done| |done].
    destruct (Hex Hph) as [_ Hnr]. unfold running in *. by rewrite <-Hcol.
  - inversion Hr as [Hout' Hsg|]; subst; [|done].
    apply coherent_mapped; [done|by left; right|done|done| |].
    + intros [t|t]; cbn; [by destruct (phase t)|done].
    + intros i ch Hi. cbn. apply child_ok_signal. rewrite <-Hsg. by eapply co_children.
  - inversion Hr as [Hno Hsg|Hno Hsg]; subst; cbn in Hout; [congruence|].
    destruct Hcoh as [Hrt Hch Hn Hj Hl Ho Hd Hlog Htags]. split; cbn; try done.
    destruct Hrt as (r0 & Hr0 & Hrtc). exists r0. split; [done|]. eapply rtc_r; [done|]. by right.
  - apply coherent_mapped; [done|by right|done|done|by intros [t|t]|].
    intros i ch Hi. apply child_ok_clock. by eapply co_children.
Qed.

Lemma coherent_steps a a' :
  capacity = RuntimeConfig.channel_capacity config → (0 ≤ capacity)%Z →
  coherent a → rtc assembly_step a a' → coherent a'.
Proof. intros ? ? Hcoh Hrtc. induction Hrtc; eauto using coherent_step. Qed.

Lemma assembled_coherent a :
  capacity = RuntimeConfig.channel_capacity config → (0 ≤ capacity)%Z →
  assembled a → coherent a.
Proof. intros ? ? (a0 & Ha0 & Hrtc). eapply coherent_steps; eauto using coherent_start. Qed.

(** C20: The assembled runtime refines its parts. Every execution of
    [supervisor::run] with the collectors' tasks, the channel, the consumer,
    the worker and the API server is, seen from the channel, an execution of
    the runtime with one sender per collector and the supervisor's own, and,
    seen from each task, an execution of that collector's supervised task.
    What is proved of the runtime and of a single supervised collector
    therefore holds of the whole, and no send is ever refused: a task that is
    sending has a live consumer. *)
Theorem assembly_refines_parts a :
  capacity = RuntimeConfig.channel_capacity config → (0 ≤ capacity)%Z →
  assembled a →
  (∃ r0, Runtime.start config api (S total) c0 = Some r0 ∧
     rtc (Runtime.step capacity) r0 (rt a)) ∧
  (∀ i t, children a !! i = Some (Child.Polling t) →
     ∃ c, polling !! i = Some c ∧ Supervisor.reachable sidecar_id c t ∧
       (∀ s k heard b, phase t = Phase.Sending s k heard b → consumer_alive t = true)) ∧
  (∀ i t, children a !! i = Some (Child.Subscription t) →
     ∃ now, rtc sub_step (sub_start now) t).
Proof.
  intros Hcap Hpos Ha%assembled_coherent; [|done..].
  split_and!; [by apply co_runtime| |].
  - intros i t Hi. destruct (co_children _ Ha i _ Hi) as ((c & Hc & Hr) & _ & _ & _ & Hal & _).
    exists c. split_and!; [done..|]. intros s k heard b Hph. destruct Hal as [?|He]; [done|].
    cbn in He. by rewrite Hph in He.
  - intros i t Hi. by destruct (co_children _ Ha i _ Hi) as (_ & Hr & _).
Qed.

Lemma clean_ended a :
  capacity = RuntimeConfig.channel_capacity config → (0 ≤ capacity)%Z →
  coherent a → outcome (rt a) = Some Outcome.Clean →
  queue (rt a) = [] ∧ ¬ running (rt a) ∧ length (children a) = total.
Proof.
  intros Hcap Hpos Hcoh Hout.
  destruct (coherent_accounted _ Hcap Hpos Hcoh) as [_ _ _ Hex Hcl].
  destruct (Hex (Hcl Hout)) as [Hq Hnr]. split_and!; [done..|].
  apply (co_joining _ Hcoh). intros Hsup. pose proof (co_own _ Hcoh) as Hown.
  rewrite Hsup in Hown. destruct Hnr. by eapply list_elem_of_lookup_2.
Qed.

(** C7: No collector's batch is lost, invented or reordered between its poll
    and the consumer. At every moment the batches a task's polls have returned
    (each poll made on the collector the one before it left) are, in order,
    those it has put into the channel and then the one it holds while it waits
    for room: nothing polled is dropped. What the channel accepted is an
    interleaving of what the tasks put in. When [run] ends cleanly every
    collector's task has been spawned and has ended, what each of them put in
    is all that its polls returned, and the consumer has processed exactly that
    interleaving: its stores, incidents and notifications are those of the run
    over it. *)
Theorem collected_batches_processed a :
  capacity = RuntimeConfig.channel_capacity config → (0 ≤ capacity)%Z →
  assembled a →
  accepted (rt a) = (log a).*2 ∧
  (∀ i, i ∈ (log a).*1 → i < length (children a)) ∧
  (∀ i t, children a !! i = Some (Child.Polling t) →
     ∃ c, polling !! i = Some c ∧
       polled_through sidecar_id c (returned t) (current t) ∧
       returned t = sent_by i (log a) ++ in_hand (phase t)) ∧
  (outcome (rt a) = Some Outcome.Clean →
     length (children a) = total ∧
     (∀ i ch, children a !! i = Some ch → Child.ended ch = true) ∧
     (∀ i t, children a !! i = Some (Child.Polling t) → sent_by i (log a) = returned t) ∧
     (processed (rt a)).*1.*1 = (log a).*2 ∧
     run (processed (rt a)) c0 = Some (pipeline (rt a))).
Proof.
  intros Hcap Hpos Ha%assembled_coherent; [|done..].
  assert (∀ i t, children a !! i = Some (Child.Polling t) →
     ∃ c, polling !! i = Some c ∧ polled_through sidecar_id c (returned t) (current t) ∧
       returned t = sent_by i (log a) ++ in_hand (phase t)) as Hbatches.
  { intros i t Hi. destruct (co_children _ Ha i _ Hi) as ((c & Hc & Hr) & Hs & _ & _ & _ & Hh).
    exists c. split_and!; [done|by apply (reachable_batches sidecar_id c)|by rewrite Hs]. }
  split_and!; [by apply co_log|by apply co_tags|exact Hbatches|].
  intros Hout. destruct (clean_ended a Hcap Hpos Ha Hout) as (Hq & Hnr & Hlen).
  destruct (coherent_accounted _ Hcap Hpos Ha) as [Hsplit Hrun _ _ _].
  split_and!; [done|intros i ch; by apply all_ended| | |done].
  - intros i t Hi. destruct (Hbatches i t Hi) as (_ & _ & _ & ->).
    pose proof (all_ended a i _ Ha Hnr Hi) as Hend. cbn in Hend.
    destruct (phase t); try done; by rewrite app_nil_r.
  - by rewrite <-(co_log _ Ha), Hsplit, Hq, app_nil_r.
Qed.

(** What the channel took stays taken. *)
Lemma log_extends a a' : rtc assembly_step a a' → log a `prefix_of` log a'.
Proof.
  intros Hrtc. induction Hrtc as [|u v w Huv _ IH]; [done|]. etrans; [|exact IH].
  inversion Huv; subst; cbn; try done; by apply prefix_app_r.
Qed.

(** ** The way to a clean end *)

Lemma notice_same r r' ch : consumer_phase r' = consumer_phase r → notice r r' ch = ch.
Proof. unfold notice. intros ->. by destruct (consumer_phase r). Qed.

Lemma notice_same_list r r' (l : list (Child.t C)) :
  consumer_phase r' = consumer_phase r → notice r r' <$> l = l.
Proof.
  intros Hp. induction l as [|ch l IH]; [done|]. cbn. by rewrite notice_same, IH.
Qed.

(** What the moves of the tasks leave alone. *)
Record steady a a' : Prop := {
  st_supervisor : supervisor a' = supervisor a;
  st_senders : Runtime.collectors (rt a') = Runtime.collectors (rt a);
  st_signalled : Runtime.signalled (rt a') = Runtime.signalled (rt a);
  st_outcome : outcome (rt a') = outcome (rt a);
}.

#[local] Instance steady_preorder : PreOrder steady.
Proof.
  split; [by split|]. intros a b c [] []. split; congruence.
Qed.

(** The consumer works off its queue. *)
Lemma drain a :
  coherent a → outcome (rt a) = None → accounted capacity c0 (rt a) →
  ∃ r, rtc assembly_step a (mk_assembly (supervisor a) (children a) (log a) r) ∧
    steady a (mk_assembly (supervisor a) (children a) (log a) r) ∧ queue r = [] ∧
    consumer_phase r = consumer_phase (rt a).
Proof.
  remember (length (queue (rt a))) as n eqn:Hn. revert a Hn.
  induction n as [|n IH]; intros [sup ch l r] Hn Hcoh Hout Hacc; cbn in *.
  { exists r. split_and!; [done|by split|by apply nil_length_inv|done]. }
  destruct (queue r) as [|b q] eqn:Hq; [done|]. injection Hn as Hn.
  destruct (process_batch_steps b 0%Z 0%Z (pipeline r)) as (c' & Hc' & _).
  assert (consumer_phase r ≠ ConsumerPhase.Exited) as Hlive.
  { intros [Hnil _]%(ac_exited _ _ _ Hacc). congruence. }
  pose proof (rt_process capacity r b q 0%Z 0%Z c' Hout Hlive Hq Hc') as Hstep.
  match type of Hstep with Runtime.task_step _ _ ?r1 => set (r1' := r1) in * end.
  assert (assembly_step (mk_assembly sup ch l r) (mk_assembly sup ch l r1')) as Hst.
  { pose proof (as_runtime sidecar_id polling subscriptions capacity
      (mk_assembly sup ch l r) r1' Hstep eq_refl eq_refl (or_introl Hout)) as Has.
    cbn [supervisor children log rt] in Has. by rewrite notice_same_list in Has. }
  destruct (IH (mk_assembly sup ch l r1')) as (r2 & Hrtc & Hsteady & Hq2 & Hp2); cbn; try done.
  - destruct Hcoh as [Hrt Hch Hnn Hj Hl Ho Hd Hlog Htags]. split; cbn; try done.
    destruct Hrt as (r0 & Hr0 & Hrtc). exists r0. split; [done|].
    eapply rtc_r; [done|]. by left.
  - by eapply accounted_step; [|left].
  - exists r2. split_and!; [by eapply rtc_l| |done|done].
    etrans; [|exact Hsteady]. by split.
Qed.

Lemma task_step_sends c t t' :
  Supervisor.task_step sidecar_id c t t' → sent t' = sent t ∨ ∃ b, sent t' = sent t ++ [b].
Proof.
  intros Hst. inversion Hst; subst t'; cbn; eauto; left;
    unfold spawn, inner_ended, respawn_later; repeat case_match; done.
Qed.

Hypothesis capacity_config : capacity = RuntimeConfig.channel_capacity config.
Hypothesis capacity_pos : (0 < capacity)%Z.

Lemma coherent_reached a a' : coherent a → rtc assembly_step a a' → coherent a'.
Proof. apply coherent_steps; [done|lia]. Qed.

Lemma drained a :
  coherent a → outcome (rt a) = None →
  ∃ a', rtc assembly_step a a' ∧ steady a a' ∧ queue (rt a') = [] ∧ children a' = children a ∧
    consumer_phase (rt a') = consumer_phase (rt a).
Proof.
  intros Hcoh Hout.
  destruct (drain a Hcoh Hout) as (r & Hrtc & Hst & Hq & Hp); [|by eexists].
  apply coherent_accounted; [done|lia|done].
Qed.

(** A step of one task is a step of the whole, the queue being drained. *)
Lemma lift_step a i c t t' :
  coherent a → outcome (rt a) = None →
  children a !! i = Some (Child.Polling t) → polling !! i = Some c →
  Supervisor.task_step sidecar_id c t t' →
  ∃ a', rtc assembly_step a a' ∧ steady a a' ∧
    children a' = <[i := Child.Polling t']> (children a).
Proof.
  intros Hcoh Hout Hi Hc Hst.
  destruct (drained a Hcoh Hout) as (a1 & Hrtc & Hsteady & Hq & Hch & Hp).
  pose proof (coherent_reached _ _ Hcoh Hrtc) as Hcoh1. pose proof Hsteady as [Hsup Hcol Hsg Ho].
  rewrite <-Hch in Hi. rewrite <-Ho in Hout.
  destruct (task_step_sends c t t' Hst) as [Hs|[b Hs]].
  - exists (with_child i (Child.Polling t') a1). split_and!.
    + eapply rtc_r; [done|]. by eapply as_polling.
    + etrans; [done|]. by split.
    + cbn. by rewrite Hch.
  - assert (sendable capacity (rt a1)) as Hroom.
    { split; [rewrite Hq; cbn; lia|]. intros Hex.
      destruct (coherent_accounted a1 capacity_config ltac:(lia) Hcoh1) as [_ _ _ Hexit _].
      destruct (Hexit Hex) as [_ Hnr].
      pose proof (all_ended a1 i _ Hcoh1 Hnr Hi) as He.
      by rewrite (ended_alive c t t' Hst) in He. }
    exists (send_from i (Child.Polling t') b a1). split_and!.
    + eapply rtc_r; [done|]. by eapply as_polling_send.
    + etrans; [done|]. by split.
    + cbn. by rewrite Hch.
Qed.

Lemma lift_steps c n t t' : nsteps (Supervisor.task_step sidecar_id c) n t t' → ∀ a i,
  coherent a → outcome (rt a) = None →
  children a !! i = Some (Child.Polling t) → polling !! i = Some c →
  ∃ a', rtc assembly_step a a' ∧ steady a a' ∧
    children a' = <[i := Child.Polling t']> (children a).
Proof.
  induction 1 as [t|n t t1 t' Hst _ IH]; intros a i Hcoh Hout Hi Hc.
  - exists a. split_and!; [done|done|]. by rewrite list_insert_id.
  - destruct (lift_step a i c t t1 Hcoh Hout Hi Hc Hst) as (a1 & Hr1 & Hs1 & Hch1).
    destruct (IH a1 i) as (a2 & Hr2 & Hs2 & Hch2).
    + by eapply coherent_reached.
    + by rewrite (st_outcome _ _ Hs1).
    + rewrite Hch1. apply list_lookup_insert_eq. by eapply lookup_lt_Some.
    + done.
    + exists a2. split_and!; [by etrans|by etrans|]. by rewrite Hch2, Hch1, list_insert_insert_eq.
Qed.

(** A task that has heard of the shutdown. *)
Definition stoppable (ch : Child.t C) : Prop :=
  match ch with
  | Child.Polling t => armed t
  | Child.Subscription t => sub_pending t = true ∨ Child.ended ch = true
  end.

Lemma child_ends (an : Answer) a i ch :
  coherent a → outcome (rt a) = None → children a !! i = Some ch → stoppable ch →
  ∃ a' ch', rtc assembly_step a a' ∧ steady a a' ∧ children a' = <[i := ch']> (children a) ∧
    Child.ended ch' = true.
Proof.
  intros Hcoh Hout Hi Hstop.
  assert (∀ ch0, children a !! i = Some ch0 → Child.ended ch0 = true →
    ∃ a' ch', rtc assembly_step a a' ∧ steady a a' ∧ children a' = <[i := ch']> (children a) ∧
      Child.ended ch' = true) as Hdone.
  { intros ch0 Hch0 He. exists a, ch0. split_and!; [done|done| |done]. by rewrite list_insert_id. }
  destruct ch as [t|t].
  - destruct (co_children _ Hcoh i _ Hi) as ((c & Hc & Hr) & _).
    destruct (armed_exits sidecar_id c an t) as (n & t' & _ & Hn & Hph); [|done|].
    { by destruct (reachable_supervised sidecar_id c t Hr). }
    destruct (lift_steps c n t t' Hn a i Hcoh Hout Hi Hc) as (a' & Hrtc & Hst & Hch).
    exists a', (Child.Polling t'). split_and!; [done..|]. cbn. by rewrite Hph.
  - destruct Hstop as [Hp|He]; [|by eapply Hdone].
    assert (∀ p, sub_phase t = p → Child.ended (Child.Subscription (C := C) t) = false →
      ∃ a', rtc assembly_step a a' ∧ steady a a' ∧
        children a' = <[i := Child.Subscription (set_sub_phase SubPhase.Exited t)]> (children a)) as Hgo.
    { intros p Hph He. exists (with_child i (Child.Subscription (set_sub_phase SubPhase.Exited t)) a).
      split_and!; [|by split|done]. apply rtc_once. eapply as_subscription; [done|exact Hi| |done..].
      destruct p; [by eapply sub_shutdown_running|by eapply sub_shutdown_waiting|..];
        cbn in He; by rewrite Hph in He. }
    destruct (Child.ended (Child.Subscription (C := C) t)) eqn:He; [by eapply Hdone|].
    destruct (Hgo _ eq_refl eq_refl) as (a' & ? & ? & Hch). by exists a', (Child.Subscription (set_sub_phase SubPhase.Exited t)).
Qed.

(** The tasks below [k] have dropped their senders, the others have heard. *)
Record stopping (k : nat) a : Prop := {
  sp_coherent : coherent a;
  sp_outcome : outcome (rt a) = None;
  sp_signalled : Runtime.signalled (rt a) = true;
  sp_launched : length (children a) = total;
  sp_dropped i : i < k → Runtime.collectors (rt a) !! S i = Some false;
  sp_stoppable i ch : k ≤ i → children a !! i = Some ch → stoppable ch;
}.

Lemma stopping_next (an : Answer) k a :
  k < total → stopping k a → ∃ a', rtc assembly_step a a' ∧ stopping (S k) a'.
Proof.
  intros Hk [Hcoh Hout Hsg Hlen Hdr Hstop].
  destruct (lookup_lt_is_Some_2 (children a) k) as [ch Hch]; [lia|].
  destruct (child_ends an a k ch Hcoh Hout Hch) as (a1 & ch' & Hr1 & Hst1 & Hch1 & He);
    [by eapply Hstop|].
  pose proof (coherent_reached _ _ Hcoh Hr1) as Hcoh1. destruct Hst1 as [Hsup Hcol Hsg1 Ho1].
  assert (children a1 !! k = Some ch') as Hk1.
  { rewrite Hch1. apply list_lookup_insert_eq. by eapply lookup_lt_Some. }
  assert (∀ i ch0, S k ≤ i → children a1 !! i = Some ch0 → stoppable ch0) as Hstop1.
  { intros i ch0 Hi. rewrite Hch1, list_lookup_insert_ne by lia. apply Hstop. lia. }
  destruct (lookup_lt_is_Some_2 (Runtime.collectors (rt a1)) (S k)) as [snd Hsnd];
    [rewrite (co_senders _ Hcoh1); lia|].
  destruct snd.
  - assert (assembly_step a1 (mk_assembly (supervisor a1) (children a1) (log a1)
      (drop_sender (S k) (rt a1)))) as Hst by (by eapply as_dropped; [congruence|..]).
    eexists. split; [by eapply rtc_r|].
    split; cbn; try congruence; try done.
    + eapply coherent_step; [done|lia|exact Hcoh1|exact Hst].
    + by rewrite Hch1, length_insert.
    + intros i Hi. destruct (decide (i = k)) as [->|Hne].
      * apply list_lookup_insert_eq. by eapply lookup_lt_Some.
      * rewrite list_lookup_insert_ne, Hcol by lia. apply Hdr. lia.
  - exists a1. split; [done|]. split; try congruence; try done.
    + by rewrite Hch1, length_insert.
    + intros i Hi. destruct (decide (i = k)) as [->|Hne]; [done|]. rewrite Hcol. apply Hdr. lia.
Qed.

Lemma stopping_all (an : Answer) n k a :
  total = n + k → stopping k a → ∃ a', rtc assembly_step a a' ∧ stopping total a'.
Proof.
  revert k a. induction n as [|n IH]; intros k a Hn Hs; [exists a; split; [done|by rewrite Hn]|].
  destruct (stopping_next an k a) as (a1 & Hr1 & Hs1); [lia|done|].
  destruct (IH (S k) a1) as (a2 & Hr2 & Hs2); [lia|done|].
  exists a2. split; [by etrans|done].
Qed.

(** The supervisor drops its own sender and returns. *)
Lemma supervisor_returns a :
  stopping total a →
  ∃ a', rtc assembly_step a a' ∧ coherent a' ∧ outcome (rt a') = None ∧
    Runtime.signalled (rt a') = true ∧ ¬ running (rt a') ∧
    supervisor a' = SupervisorPhase.Returned.
Proof.
  intros [Hcoh Hout Hsg Hlen Hdr _].
  assert (∃ a1, rtc assembly_step a a1 ∧ outcome (rt a1) = None ∧
    Runtime.signalled (rt a1) = true ∧ supervisor a1 ≠ SupervisorPhase.Launching ∧
    ∀ i, i < total → Runtime.collectors (rt a1) !! S i = Some false)
    as (a1 & Hr1 & Ho1 & Hs1 & Hne & Hd1).
  { destruct (supervisor a) eqn:Hsup; [|by exists a; rewrite Hsup; split_and!..].
    eexists. split; [apply rtc_once; by apply as_drop_own|]. cbn. split_and!; [done..|].
    intros i Hi. by rewrite list_lookup_insert_ne; [apply Hdr|]. }
  pose proof (coherent_reached _ _ Hcoh Hr1) as Hcoh1.
  assert (¬ running (rt a1)) as Hnr.
  { intros [[|j] Hj]%list_elem_of_lookup.
    - rewrite (co_own _ Hcoh1) in Hj. by destruct (supervisor a1).
    - assert (j < total) as Hlt.
      { apply lookup_lt_Some in Hj. rewrite (co_senders _ Hcoh1) in Hj. lia. }
      rewrite (Hd1 j Hlt) in Hj. done. }
  destruct (supervisor a1) eqn:Hsup; [done| |by exists a1].
  eexists (mk_assembly SupervisorPhase.Returned _ _ _).
  assert (assembly_step a1 (mk_assembly SupervisorPhase.Returned (children a1) (log a1) (rt a1)))
    as Hst by by apply as_join.
  split; [by eapply rtc_r|]. split_and!; try done. eapply coherent_step; [done|lia|done|done].
Qed.

(** Without a sender, the runtime's steps concern no collector. *)
Lemma quiet_step r r' :
  ¬ running r → Runtime.task_step capacity r r' →
  Runtime.collectors r' = Runtime.collectors r ∧ accepted r' = accepted r ∧
  (outcome r' = None ∨ outcome r' = Some Outcome.Clean).
Proof.
  unfold running. intros Hn Hst.
  inversion Hst as [i b Ho Hi|i Ho Hi| | | | | |]; subst; cbn; auto;
    exfalso; apply Hn; by eapply list_elem_of_lookup_2.
Qed.

(** The rest is the consumer's, the worker's and the server's. *)
Lemma runs_to_clean n : ∀ a,
  distance (rt a) ≤ n → coherent a → ¬ running (rt a) → Runtime.signalled (rt a) = true →
  outcome (rt a) = None → supervisor a = SupervisorPhase.Returned →
  ∃ a', rtc assembly_step a a' ∧ outcome (rt a') = Some Outcome.Clean.
Proof.
  induction n as [|n IH]; intros a Hd Hcoh Hnr Hsg Hout Hsup.
  { unfold distance in Hd. rewrite Hout in Hd. lia. }
  pose proof (coherent_accounted a capacity_config ltac:(lia) Hcoh) as Hacc.
  destruct (task_step_enabled capacity c0 (rt a) Hnr Hsg Hout Hacc) as [r Hr].
  destruct (task_step_distance capacity (rt a) r Hnr Hsg Hr) as (Hnr' & Hsg' & Hlt).
  destruct (quiet_step (rt a) r Hnr Hr) as (Hcol & Hac & Ho).
  assert (assembly_step a (mk_assembly (supervisor a) (notice (rt a) r <$> children a) (log a) r))
    as Hst by (apply as_runtime; auto).
  destruct Ho as [Ho|Ho]; [|eexists; split; [by apply rtc_once|done]].
  destruct (IH (mk_assembly (supervisor a) (notice (rt a) r <$> children a) (log a) r))
    as (a' & Hr' & Hc'); cbn; try done; [lia| |].
  - eapply coherent_step; [done|lia|done|done].
  - exists a'. split; [by eapply rtc_l|done].
Qed.

(** Every task of the assembly has heard of the shutdown. *)
Definition all_heard a : Prop :=
  length (children a) = total ∧ Runtime.signalled (rt a) = true ∧
  ∀ i ch, children a !! i = Some ch → stoppable ch.

Lemma clean_end_reachable (an : Answer) a :
  coherent a → outcome (rt a) = None → all_heard a →
  ∃ a', rtc assembly_step a a' ∧ outcome (rt a') = Some Outcome.Clean.
Proof.
  intros Hcoh Hout (Hlen & Hsg & Hstop).
  destruct (stopping_all an total 0 a) as (a1 & Hr1 & Hs1); [lia| |].
  { split; try done; [lia|]. intros i ch _. apply Hstop. }
  destruct (supervisor_returns a1 Hs1) as (a2 & Hr2 & Hcoh2 & Ho2 & Hsg2 & Hnr2 & Hsup2).
  destruct (runs_to_clean (distance (rt a2)) a2) as (a3 & Hr3 & Hc3); try done.
  exists a3. split; [|done]. by do 2 (etrans; [done|]).
Qed.

(** No task prefers a finished backoff to a shutdown that has arrived. *)
Definition prompt a a' : Prop :=
  assembly_step a a' ∧
  ∀ i t t' d, children a !! i = Some (Child.Polling t) →
    children a' !! i = Some (Child.Polling t') →
    Supervisor.pending t = true → phase t = Phase.Backoff d → phase t' ≠ Phase.Spawning.

Lemma stoppable_notice r r' ch : stoppable ch → stoppable (notice r r' ch).
Proof. unfold notice. by destruct (consumer_phase r), (consumer_phase r'), ch. Qed.

Lemma stoppable_clock now ch : stoppable ch → stoppable (Child.set_clock now ch).
Proof. by destruct ch. Qed.

Lemma stoppable_sub t t' :
  stoppable (Child.Subscription t) → sub_step t t' → stoppable (Child.Subscription t').
Proof.
  assert (∀ s, sub_pending (sub_returned s t) = sub_pending t) as Hret.
  { intros s. unfold sub_returned. by repeat case_match. }
  cbn. intros Hs Hst.
  inversion Hst as [s Hph|d Hph|s Hph|s Hph|d Hph| |]; subst; cbn; auto;
    rewrite ?Hret; rewrite Hph in Hs; destruct Hs as [?|[=]]; by left.
Qed.

Lemma stoppable_polling a a' i c t t' :
  coherent a → prompt a a' → children a !! i = Some (Child.Polling t) → polling !! i = Some c →
  Supervisor.task_step sidecar_id c t t' → children a' !! i = Some (Child.Polling t') →
  stoppable (Child.Polling t) → stoppable (Child.Polling t').
Proof.
  intros Hcoh [_ Hpr] Hi Hc Hst Hi' Harm. cbn in *.
  destruct (co_children _ Hcoh i _ Hi) as ((c' & Hc' & Hr) & _).
  assert (c' = c) as -> by congruence.
  eapply (armed_step sidecar_id c t); [by apply (reachable_supervised sidecar_id)|done|].
  split; [by left|]. intros (Hp & (d & Hd) & Hph). by eapply Hpr.
Qed.

Lemma moved_heard a i (ch' : Child.t C) :
  i < length (children a) → all_heard a → stoppable ch' →
  ∀ j ch, <[i := ch']> (children a) !! j = Some ch → stoppable ch.
Proof.
  intros Hi (_ & _ & Hs) Hok j ch [(-> & <- & _)|[_ Hj]]%list_lookup_insert_Some; [done|by eapply Hs].
Qed.

Lemma prompt_heard a a' : coherent a → all_heard a → prompt a a' → all_heard a'.
Proof.
  intros Hcoh Hall Hpr. pose proof Hall as (Hlen & Hsg & Hs). pose proof (proj1 Hpr) as Hst.
  destruct Hst as [now Hout Hsup Hlt|Hout Hsup Hn|Hout Hsup Hrun|i c t t' Hout Hi Hc Ht Hsent
    |i c t t' b Hout Hi Hc Ht Hsent Hroom|i t t' Hout Hi Ht Hclk Hsig|i t s b Hout Hi Hph Hroom
    |i ch Hout Hi Hend Hsnd|r Hr Hcol Hacc Hret|r Hr Hout|r Hr Hout|now Hout]; try done.
  - lia.
  - pose proof (lookup_lt_Some _ _ _ Hi) as Hlt.
    split_and!; cbn; [by rewrite length_insert|done|].
    apply moved_heard; [done..|]. eapply stoppable_polling; [done|exact Hpr|done..| |by eapply Hs].
    cbn. by apply list_lookup_insert_eq.
  - pose proof (lookup_lt_Some _ _ _ Hi) as Hlt.
    split_and!; cbn; [by rewrite length_insert|done|].
    apply moved_heard; [done..|]. eapply stoppable_polling; [done|exact Hpr|done..| |by eapply Hs].
    cbn. by apply list_lookup_insert_eq.
  - pose proof (lookup_lt_Some _ _ _ Hi) as Hlt.
    split_and!; cbn; [by rewrite length_insert|done|].
    apply moved_heard; [done..|]. by eapply stoppable_sub; [eapply Hs|].
  - pose proof (lookup_lt_Some _ _ _ Hi) as Hlt.
    split_and!; cbn; [by rewrite length_insert|done|].
    apply moved_heard; [done..|]. by eapply Hs.
  - split_and!; cbn; [by rewrite length_fmap| |].
    + inversion Hr; by subst.
    + intros i ch (ch1 & -> & Hi)%list_lookup_fmap_Some. apply stoppable_notice. by eapply Hs.
  - inversion Hr; subst; cbn in *; congruence.
  - inversion Hr; subst; cbn in *; [congruence|]. done.
  - split_and!; cbn; [by rewrite length_fmap|done|].
    intros i ch (ch1 & -> & Hi)%list_lookup_fmap_Some. apply stoppable_clock. by eapply Hs.
Qed.

Lemma signal_heard a a' :
  coherent a → length (children a) = total →
  (∀ i t, children a !! i = Some (Child.Polling t) → phase t ≠ Phase.Spawning) →
  Runtime.signalled (rt a) = false → assembly_step a a' → Runtime.signalled (rt a') = true →
  all_heard a'.
Proof.
  intros Hcoh Hlen Hph Hsg Hst Hsg'.
  destruct Hst as [| | | | | | | |r Hr Hcol Hacc Hret|r Hr Hout|r Hr Hout|];
    cbn in Hsg'; try congruence.
  - inversion Hr; subst; cbn in *; congruence.
  - split_and!; cbn; [by rewrite length_fmap|done|].
    intros i ch (ch1 & -> & Hi)%list_lookup_fmap_Some. destruct ch1 as [t|t]; cbn; [|by left].
    destruct (co_children _ Hcoh i _ Hi) as ((c & Hc & Hr1) & _).
    pose proof (sv_phase _ _ (reachable_supervised sidecar_id c t Hr1)) as Hna.
    specialize (Hph i t Hi). split; [done|]. cbn. by destruct (phase t).
  - inversion Hr; subst; cbn in *; congruence.
Qed.

(** C8: A shutdown can always complete. If the signal arrives when every
    collector's task has been spawned and none is between two of its runs,
    then at every later point at which [run] has not returned, as long as no
    task prefers a finished backoff to the message, a clean end is still
    reachable: whatever the tasks are doing (waiting for a tick, in a poll,
    blocked in a send to a full channel, waiting out a backoff), they can end,
    the consumer can drain the channel, the supervisor, the worker and the
    server can return, and the deadline is not needed. *)
Theorem shutdown_completes (an : Answer) a a1 a2 :
  assembled a → length (children a) = total →
  (∀ i t, children a !! i = Some (Child.Polling t) → phase t ≠ Phase.Spawning) →
  Runtime.signalled (rt a) = false → assembly_step a a1 → Runtime.signalled (rt a1) = true →
  rtc prompt a1 a2 → outcome (rt a2) = None →
  ∃ a3, rtc assembly_step a2 a3 ∧ outcome (rt a3) = Some Outcome.Clean.
Proof.
  intros Ha Hlen Hph Hsg Hst Hsg1 Hrtc Hout.
  apply assembled_coherent in Ha; [|done|lia].
  pose proof (signal_heard a a1 Ha Hlen Hph Hsg Hst Hsg1) as Hall.
  assert (coherent a1) as Hcoh by (eapply coherent_step; [done|lia|done|done]).
  clear Ha Hlen Hph Hsg Hst Hsg1.
  induction Hrtc as [u|u v w Huv _ IH]; [by apply (clean_end_reachable an)|].
  apply IH; [done|by eapply prompt_heard|].
  eapply coherent_step; [done|lia|done|apply Huv].
Qed.

(** The first poll of the first collector can reach the consumer. *)
Lemma first_batch_processed a0 c an now run n c' b :
  assemble polling subscriptions config api c0 = Some a0 →
  polling !! 0 = Some c → polling_interval c ≠ 0%Z →
  poll c (poll_context sidecar_id c now run) an n = (c', Some b) →
  ∃ a, assembled a ∧ b ∈ (processed (rt a)).*1.*1.
Proof.
  intros Ha0 Hc Hint Hb. pose proof (coherent_start a0 Ha0) as Hcoh0. pose proof Ha0 as Hstart.
  apply bind_Some in Hstart as (r & Hr & [= <-]).
  assert (outcome r = None) as Hout by (unfold start in Hr; case_match; [done|by injection Hr as <-]).
  set (a1 := mk_assembly SupervisorPhase.Launching [Child.Polling (Supervisor.start c 0)] [] r).
  assert (rtc assembly_step (mk_assembly SupervisorPhase.Launching [] [] r) a1) as Hrtc1.
  { apply rtc_once. pose proof (as_launch sidecar_id polling subscriptions capacity
      (mk_assembly SupervisorPhase.Launching [] [] r) 0 Hout eq_refl) as Has.
    unfold launched in Has. cbn [children length supervisor log rt] in Has. rewrite Hc in Has.
    apply Has. apply lookup_lt_Some in Hc. unfold Assembly.total. lia. }
  set (t4 := mk_task 0 false false true 0 (Phase.Selecting 0 (next_timeout 0 0 (polling_interval c)) false)
    [0%Z] [b] [b] c').
  assert (nsteps (Supervisor.task_step sidecar_id c) 4 (Supervisor.start c 0) t4) as Hsteps.
  { eapply nsteps_l; [by apply step_spawn|]. unfold spawn.
    destruct (Z.eqb_spec (polling_interval c) 0) as [Hz|_]; [done|].
    eapply nsteps_l; [eapply step_tick; [reflexivity|cbn; lia]|]. eapply nsteps_l; [by eapply step_polled|].
    apply nsteps_once. match goal with |- Supervisor.task_step _ _ ?u _ =>
      exact (step_sent sidecar_id c u _ _ _ _ eq_refl eq_refl) end. }
  destruct (lift_steps c 4 _ t4 Hsteps a1 0) as (a2 & Hrtc2 & Hst2 & Hch2);
    [by eapply coherent_reached|done|done|done|].
  pose proof (coherent_reached _ _ (coherent_reached _ _ Hcoh0 Hrtc1) Hrtc2) as Hcoh2.
  destruct (drained a2 Hcoh2) as (a3 & Hrtc3 & _ & Hq & Hch3 & _); [by rewrite (st_outcome _ _ Hst2)|].
  pose proof (coherent_reached _ _ Hcoh2 Hrtc3) as Hcoh3.
  exists a3. split; [eexists; split; [exact Ha0|]; by do 2 (etrans; [done|])|].
  destruct (coherent_accounted a3 capacity_config ltac:(lia) Hcoh3) as [Hsplit _ _ _ _].
  rewrite Hq, app_nil_r, (co_log _ Hcoh3) in Hsplit. rewrite <-Hsplit.
  destruct (co_children _ Hcoh3 0 (Child.Polling t4)) as (_ & Hsent & _); [by rewrite Hch3, Hch2|].
  assert (b ∈ sent_by 0 (log a3)) as Hin by (rewrite Hsent; left).
  apply list_elem_of_fmap in Hin as (p & -> & [_ Hp]%list_elem_of_filter). by apply list_elem_of_fmap_2.
Qed.

(** Task [i] will not hear of the shutdown: it has no receiver yet, or one
    made after the broadcast. *)
Definition unheard (i : nat) a : Prop :=
  Runtime.signalled (rt a) = true ∧
  (length (children a) ≤ i ∨
   ∃ t, children a !! i = Some (Child.Polling t) ∧ Supervisor.signalled t = false).

Lemma unheard_moved i j ch ch' a :
  unheard i a → children a !! j = Some ch →
  (∀ t, ch = Child.Polling t → ∃ t', ch' = Child.Polling t' ∧
     Supervisor.signalled t' = Supervisor.signalled t) →
  length (<[j := ch']> (children a)) ≤ i ∨
  ∃ t, <[j := ch']> (children a) !! i = Some (Child.Polling t) ∧ Supervisor.signalled t = false.
Proof.
  intros [_ [Hlt|(t & Ht & Hs)]] Hj Hch; [left; by rewrite length_insert|right].
  destruct (decide (j = i)) as [->|Hne]; [|exists t; by rewrite list_lookup_insert_ne].
  rewrite Hj in Ht. destruct (Hch t) as (t' & -> & Hs'); [congruence|].
  exists t'. rewrite list_lookup_insert_eq by (by eapply lookup_lt_Some). by rewrite Hs', Hs.
Qed.

Lemma unheard_mapped i a (f : Child.t C → Child.t C) :
  unheard i a →
  (∀ t, ∃ t', f (Child.Polling t) = Child.Polling t' ∧
     Supervisor.signalled t' = Supervisor.signalled t) →
  length (f <$> children a) ≤ i ∨
  ∃ t, (f <$> children a) !! i = Some (Child.Polling t) ∧ Supervisor.signalled t = false.
Proof.
  intros [_ [Hlt|(t & Ht & Hs)]] Hf; [left; by rewrite length_fmap|right].
  destruct (Hf t) as (t' & Hft & Hs'). exists t'. split; [|by rewrite Hs'].
  apply list_lookup_fmap_Some. by exists (Child.Polling t).
Qed.

Lemma unheard_step i a a' :
  i < length polling → coherent a → unheard i a → assembly_step a a' → unheard i a'.
Proof.
  intros Hip Hcoh Hun Hst. pose proof Hun as [Hsg Hor].
  destruct Hst as [now Hout Hsup Hlt|Hout Hsup Hn|Hout Hsup Hrun|j c t t' Hout Hj Hc Ht Hsent
    |j c t t' b Hout Hj Hc Ht Hsent Hroom|j t t' Hout Hj Ht Hclk Hsig|j t s b Hout Hj Hph Hroom
    |j ch Hout Hj Hend Hsnd|r Hr Hcol Hacc Hret|r Hr Hout|r Hr Hout|now Hout]; try done;
    (split; [cbn; try done|cbn]).
  - destruct Hor as [Hle|(t & Ht & Hs)]; [|right; exists t; split; [by apply lookup_app_l_Some|done]].
    destruct (decide (i = length (children a))) as [->|Hne]; [right|left; rewrite length_app; cbn; lia].
    destruct (lookup_lt_is_Some_2 polling _ Hip) as [c Hc].
    exists (Supervisor.start c now). split; [|done].
    rewrite list_lookup_middle by done. unfold launched. by rewrite Hc.
  - eapply unheard_moved; [done|done|]. intros ? [= <-]. eexists. split; [done|].
    by apply (task_step_flags c).
  - eapply unheard_moved; [done|done|]. intros ? [= <-]. eexists. split; [done|].
    by apply (task_step_flags c).
  - by eapply unheard_moved.
  - by eapply unheard_moved.
  - inversion Hr; by subst.
  - apply unheard_mapped; [done|]. intros t. unfold notice.
    destruct (consumer_phase (rt a)), (consumer_phase r); by eexists.
  - by inversion Hr.
  - inversion Hr; subst; cbn in *; congruence.
  - inversion Hr; by subst.
  - done.
  - apply unheard_mapped; [done|]. intros t. by eexists.
Qed.

(** A signal that comes too early is not heard. When the shutdown is
    broadcast before [supervisor::run] has spawned the task of some polling
    collector, that task subscribes after the message and never ends: in every
    continuation, whatever the collector does, [run] does not end cleanly, so
    that only the deadline ends it. *)
Theorem early_signal_lost a a' i c :
  assembled a → polling !! i = Some c → length (children a) ≤ i →
  Runtime.signalled (rt a) = true → rtc assembly_step a a' →
  outcome (rt a') ≠ Some Outcome.Clean ∧
  ∀ t, children a' !! i = Some (Child.Polling t) → Child.ended (Child.Polling t) = false.
Proof.
  intros Ha Hc Hlen Hsg Hrtc. pose proof (lookup_lt_Some _ _ _ Hc) as Hip.
  apply assembled_coherent in Ha; [|done|lia].
  assert (unheard i a) as Hun by (split; [done|by left]).
  assert (coherent a' ∧ unheard i a') as [Hcoh Hun'].
  { clear Hlen Hsg. induction Hrtc as [u|u v w Huv _ IH]; [done|].
    apply IH; [by eapply coherent_step; [|lia|..]|by eapply unheard_step]. }
  assert (∀ t, children a' !! i = Some (Child.Polling t) →
    Child.ended (Child.Polling t) = false) as Halive.
  { intros t Ht. destruct Hun' as [_ [Hle|(t' & Ht' & Hs)]].
    { apply lookup_lt_Some in Ht. lia. }
    assert (t' = t) as -> by congruence.
    destruct (co_children _ Hcoh i _ Ht) as ((c' & _ & Hr) & _ & _ & Hex & _).
    pose proof (sv_phase _ _ (reachable_supervised sidecar_id c' t Hr)).
    cbn. destruct (phase t) eqn:Hph; try done. specialize (Hex eq_refl). congruence. }
  split; [|done]. intros Hclean.
  destruct (clean_ended a' capacity_config ltac:(lia) Hcoh Hclean) as (_ & Hnr & Hlen').
  destruct Hun' as [_ [Hle|(t & Ht & _)]].
  - unfold Assembly.total in Hlen'. lia.
  - pose proof (all_ended a' i _ Hcoh Hnr Ht). rewrite (Halive t Ht) in *. done.
Qed.
End facts.

(** ** Concrete inputs *)

(** One flaky collector, no subscription, no API server: booted, spawned, in
    its first select, told to stop. *)
Definition sample_assembly : assembly (St := MemoryObservationStore.t)
    (Re := MemoryIncidentRepository.t) (At := MemoryNotificationAttemptRepository.t) (C := FlakyCollector.t) :=
  mk_assembly SupervisorPhase.Launching [] []
    (mk_runtime [true; true] [] ConsumerPhase.Selecting sample_consumer false false false None [] []).

Definition sample_spawned := mk_assembly SupervisorPhase.Launching
  [Child.Polling (Supervisor.start sample_flaky 0)] [] (rt sample_assembly).

Definition sample_selecting := mk_assembly SupervisorPhase.Launching
  [Child.Polling (sample_first_select sample_flaky)] [] (rt sample_assembly).

Definition signalled_runtime : runtime (S := MemoryObservationStore.t)
    (R := MemoryIncidentRepository.t) (A := MemoryNotificationAttemptRepository.t) :=
  mk_runtime [true; true] [] ConsumerPhase.Selecting sample_consumer false false true None [] [].

Definition sample_told := mk_assembly SupervisorPhase.Launching
  [Child.Polling (Supervisor.signal (sample_first_select sample_flaky))] [] signalled_runtime.

Definition sample_told_early := mk_assembly (C := FlakyCollector.t) SupervisorPhase.Launching [] [] signalled_runtime.

#[local] Abbreviation sample_step := (assembly_step sample_sidecar [sample_flaky] 0 1024).
#[local] Abbreviation sample_assembled :=
  (assembled sample_sidecar [sample_flaky] 0 1024 sample_consumer RuntimeConfig.default
     ApiConfig.default).

Lemma sample_signal_step sup chs :
  sample_step (mk_assembly sup chs [] (rt sample_assembly))
    (mk_assembly sup (Child.signal <$> chs) [] signalled_runtime).
Proof. apply (as_signal _ _ _ _ (mk_assembly sup chs [] (rt sample_assembly))); [|done]. by apply rt_signal. Qed.

Lemma sample_selecting_assembled : sample_assembled sample_selecting.
Proof.
  exists sample_assembly. split; [done|].
  eapply rtc_l; [apply (as_launch _ _ _ _ sample_assembly 0); [done|done|cbn; lia]|].
  assert (spawn sample_flaky (Supervisor.start sample_flaky 0) = (sample_first_select sample_flaky)) as Hspawn by reflexivity.
  apply rtc_once.
  apply (as_polling _ _ _ _ sample_spawned 0 sample_flaky (Supervisor.start sample_flaky 0) (sample_first_select sample_flaky));
    [done..| |done].
  rewrite <-Hspawn. by constructor.
Qed.

Lemma sample_told_early_assembled : sample_assembled sample_told_early.
Proof. exists sample_assembly. split; [done|]. apply rtc_once, (sample_signal_step _ []). Qed.

Lemma assembly_refines_parts_witness :
  ∃ r0, Runtime.start RuntimeConfig.default ApiConfig.default 2 sample_consumer = Some r0 ∧
    rtc (Runtime.step 1024) r0 (rt sample_selecting).
Proof.
  refine (proj1 (assembly_refines_parts sample_sidecar [sample_flaky] 0 1024 sample_consumer
    RuntimeConfig.default ApiConfig.default sample_selecting eq_refl _ sample_selecting_assembled)).
  lia.
Defined.

(** The first poll is answered: its batch is in hand, then in the channel. *)
Definition sample_holding (b : ObservationBatch.t) : task FlakyCollector.t :=
  mk_task 0 false false true 0 (Phase.Sending 0 (from_secs 30) false b) [0%Z] [] [b] sample_flaky.
Definition sample_sent (b : ObservationBatch.t) : task FlakyCollector.t :=
  mk_task 0 false false true 0 (Phase.Selecting 0 (from_secs 30) false) [0%Z] [b] [b] sample_flaky.

Definition sample_held b := mk_assembly SupervisorPhase.Launching
  [Child.Polling (sample_holding b)] [] (rt sample_assembly).
Definition sample_pushed b := mk_assembly SupervisorPhase.Launching
  [Child.Polling (sample_sent b)] [(0, b)] (push b (rt sample_assembly)).

Definition sample_ending b := mk_assembly SupervisorPhase.Launching
  [Child.Polling (Supervisor.signal (sample_sent b))] [(0, b)] (push b signalled_runtime).

Lemma sample_held_assembled b :
  flaky_batch sample_flaky (poll_context sample_sidecar sample_flaky 0 0) 0 = Some b →
  sample_assembled (sample_held b).
Proof.
  intros Hb. destruct sample_selecting_assembled as (a0 & Ha0 & Hrtc). exists a0. split; [done|].
  eapply rtc_r; [eapply rtc_r; [exact Hrtc|]|].
  - apply (as_polling _ _ _ _ sample_selecting 0 sample_flaky (sample_first_select sample_flaky)
      (sample_first_poll sample_flaky)); [done..| |done].
    pose proof (step_tick sample_sidecar sample_flaky (sample_first_select sample_flaky) 0 0 false
      eq_refl (Z.le_refl 0)) as Htick.
    by match type of Htick with Supervisor.task_step _ _ _ ?t =>
      replace t with (sample_first_poll sample_flaky) in Htick by (vm_compute; reflexivity) end.
  - eapply (as_polling _ _ _ _ (mk_assembly _ [Child.Polling (sample_first_poll sample_flaky)] _ _)
      0 sample_flaky (sample_first_poll sample_flaky) (sample_holding b)); [done..| |done].
    apply (step_polled sample_sidecar sample_flaky (sample_first_poll sample_flaky) 0 (from_secs 30)
      false 0%Z 0 flaky_answers 0 sample_flaky b); [done|]. cbn [poll flaky_polling]. by rewrite <-Hb.
Qed.

Lemma sample_pushed_assembled b :
  sample_assembled (sample_held b) → sample_assembled (sample_pushed b).
Proof.
  intros (a0 & Ha0 & Hrtc). exists a0. split; [done|]. eapply rtc_r; [exact Hrtc|].
  apply (as_polling_send _ _ _ _ (sample_held b) 0 sample_flaky (sample_holding b) (sample_sent b) b);
    try done.
  by apply (step_sent sample_sidecar sample_flaky (sample_holding b) 0 (from_secs 30) false b).
Qed.

Lemma sample_ending_assembled b :
  sample_assembled (sample_pushed b) → sample_assembled (sample_ending b).
Proof.
  intros (a0 & Ha0 & Hrtc). exists a0. split; [done|]. eapply rtc_r; [exact Hrtc|].
  apply (as_signal _ _ _ _ (sample_pushed b)); [|done].
  by apply (rt_signal (push b (rt sample_assembly))).
Qed.

Lemma sample_ending_heard b : all_heard [sample_flaky] 0 (sample_ending b).
Proof. split_and!; [done..|]. intros [|i] ch [= <-]; by split_and!. Qed.

Lemma collected_batches_processed_witness :
  ∃ b, returned (sample_holding b) = sent_by 0 (log (sample_held b)) ++ [b] ∧
    ∃ a, sample_assembled a ∧ outcome (rt a) = Some Outcome.Clean ∧ b ∈ (processed (rt a)).*1.*1.
Proof.
  destruct (flaky_batch sample_flaky (poll_context sample_sidecar sample_flaky 0 0) 0) as [b|] eqn:Hb;
    [|discriminate Hb].
  exists b. pose proof (sample_held_assembled b Hb) as Hheld.
  pose proof (sample_pushed_assembled b Hheld) as Hpushed.
  assert (0 ≤ 1024)%Z as Hpos by lia. split.
  { destruct (collected_batches_processed sample_sidecar [sample_flaky] 0 1024 sample_consumer
      RuntimeConfig.default ApiConfig.default (sample_held b) eq_refl Hpos Hheld) as (_ & _ & Hin & _).
    by destruct (Hin 0 (sample_holding b) eq_refl) as (_ & _ & _ & Hret). }
  pose proof (sample_ending_assembled b Hpushed) as Hending.
  destruct (clean_end_reachable sample_sidecar [sample_flaky] 0 1024 sample_consumer
    RuntimeConfig.default ApiConfig.default eq_refl (eq_refl : (0 < 1024)%Z) flaky_answers
    (sample_ending b)) as (a & Hrtc & Hclean);
    [by apply assembled_coherent|done|apply sample_ending_heard|].
  assert (sample_assembled a) as Ha.
  { destruct Hending as (a0 & Ha0 & Hr). exists a0. split; [done|]. by etrans. }
  exists a. split_and!; [done..|].
  destruct (collected_batches_processed sample_sidecar [sample_flaky] 0 1024 sample_consumer
    RuntimeConfig.default ApiConfig.default a eq_refl Hpos Ha) as (_ & _ & _ & Hend).
  destruct (Hend Hclean) as (_ & _ & _ & -> & _).
  destruct (log_extends _ _ _ _ _ _ Hrtc) as [l ->]. left.
Defined.

Lemma shutdown_completes_witness :
  ∃ a, rtc sample_step sample_told a ∧ outcome (rt a) = Some Outcome.Clean.
Proof.
  apply (shutdown_completes sample_sidecar [sample_flaky] 0 1024 sample_consumer
    RuntimeConfig.default ApiConfig.default eq_refl (eq_refl : (0 < 1024)%Z) flaky_answers
    sample_selecting sample_told sample_told sample_selecting_assembled);
    [done| |done|exact (sample_signal_step _ [Child.Polling (sample_first_select sample_flaky)])|done
    |constructor|done].
  intros [|i] t [= <-]; done.
Defined.

Lemma early_signal_lost_witness : outcome (rt sample_told_early) ≠ Some Outcome.Clean.
Proof.
  refine (proj1 (early_signal_lost sample_sidecar [sample_flaky] 0 1024 sample_consumer
    RuntimeConfig.default ApiConfig.default eq_refl (eq_refl : (0 < 1024)%Z)
    sample_told_early sample_told_early 0 sample_flaky sample_told_early_assembled
    eq_refl (le_n 0) eq_refl (rtc_refl _ _))).
Defined.
