(* ===== verification/EndToEnd.v ===== *)
(** * From the start-up to the incident: the configuration's node, the poller,
    the consumer, the rules and the engine together

    A turn is one tick of the supervisor: [BitcoinPoller.poll] under its
    answers, then [Consumer.process_batch] on its batch. The theorems start the
    consumer as [Bootstrap.boot_runtime] and [Runtime.start_deps] do and follow
    a node through a sequence of turns, others' among them, from what it
    answers to the incident and the dispatch. *)

From S2P Require Import Prelude RustStr Names SharedTypes F64 CollectorTypes Observations Samples ReadModels Store Incidents Kinds Engine Supervisor Assembly BitcoinRules Notifications Storage Worker Collectors BitcoinPoller Config Bootstrap Runtime Consumer Dispatches Watch.

(** ** The rules of the start-up leave each other's kinds alone *)

Definition no_peers_kind : IncidentKind.t :=
  IncidentKind.from_well_known well_known_incident.BITCOIN_NO_PEERS.
Definition tip_lag_kind : IncidentKind.t :=
  IncidentKind.from_well_known well_known_incident.BITCOIN_TIP_LAG_OR_IBD_STALLED.

Lemma rpc_unreachable_avoids k rule :
  IncidentKind.from_well_known well_known_incident.BITCOIN_RPC_UNREACHABLE ≠ k →
  avoids k (box (R := BitcoinRpcUnreachableRule.t) rule).
Proof.
  intros Hk. apply avoids_box. intros r ctx ds. cbn. unfold BitcoinRpcUnreachableRule.evaluate.
  destruct (DiagnosticContext.subject ctx); try (intros [= <-]; constructor).
  destruct (BitcoinRpcUnreachableRule.advance _ _ _ _) as [e ss]. intros [= <-].
  by apply (drafted_kind _ _ _ _ Hk).
Qed.

Lemma tip_lag_avoids k rule :
  tip_lag_kind ≠ k → avoids k (box (R := BitcoinTipLagOrIbdStalledRule.t) rule).
Proof.
  intros Hk. apply avoids_box. intros r ctx ds. cbn. unfold BitcoinTipLagOrIbdStalledRule.evaluate.
  destruct (DiagnosticContext.subject ctx); try (intros [= <-]; constructor).
  destruct (StateReadModelExt.bitcoin_blockchain _ _); [|intros [= <-]; constructor].
  destruct (StateReadModelExt.bitcoin_peer_summary _ _); [|intros [= <-]; constructor].
  destruct (BitcoinTipLagOrIbdStalledRule.update_state_and_classify _ _ _ _ _) as [e c].
  destruct (BitcoinTipLagOrIbdStalledRule.count _ _ _) as [e' ss]. intros [= <-].
  by apply (drafted_kind _ _ _ _ Hk).
Qed.

Lemma no_peers_avoids k rule :
  no_peers_kind ≠ k → avoids k (box (R := BitcoinNoPeersRule.t) rule).
Proof.
  intros Hk. apply avoids_box. intros r ctx ds. cbn. unfold BitcoinNoPeersRule.evaluate.
  destruct (DiagnosticContext.subject ctx); try (intros [= <-]; constructor).
  destruct (BitcoinNoPeersRule.advance _ _ _ _) as [e ss]. intros [= <-].
  by apply (drafted_kind _ _ _ _ Hk).
Qed.

(** Passes of which those over the node are marked: none comes [retention]
    after the last of these, or before it. *)
Fixpoint on_pace (retention : Duration) (last : option Instant) (times : list (bool * Instant)) : Prop :=
  match times with
  | [] => True
  | (own, m) :: times =>
      from_option (λ tm, (tm ≤ m)%Z ∧ (m - tm < retention)%Z) True last ∧
      on_pace retention (if own then Some m else last) times
  end.

(** ** A node without peers, to its rule *)

#[local] Arguments BitcoinNoPeersRule.evaluate : simpl never.

Section peerless.
Variables (node : BitcoinNodeId.t) (debounce : Duration).

#[local] Abbreviation node_ref := (EntityRef.BitcoinNode node).
#[local] Abbreviation alarm := (BitcoinNoPeersRule.build_draft node_ref SignalStatus.Active).
#[local] Abbreviation retention := BitcoinNoPeersRule.STATE_RETENTION.

(** The fingerprint of the incident. *)
Definition no_peers_fingerprint : IncidentFingerprint.t := compute_fingerprint alarm.

(** The network is on and no outbound connection stands. *)
Definition peerless_network (s : StateObservation.t) : Prop :=
  ∃ ns, s = StateObservation.BitcoinNetwork ns ∧
    BitcoinNetworkState.network_active ns = Some true ∧
    BitcoinNetworkState.connections_out ns = Some 0%Z.

Definition is_peer_summary (s : StateObservation.t) : Prop :=
  ∃ ps, s = StateObservation.BitcoinPeerSummary ps.

Definition peerless_states : list (StateName.t * (StateObservation.t → Prop)) := [
  (StateName.from_well_known well_known_state.BITCOIN_NETWORK, peerless_network);
  (StateName.from_well_known well_known_state.BITCOIN_PEER_SUMMARY, is_peer_summary)
].

Lemma classify_peerless rm now m :
  models_show node_ref peerless_states rm →
  BitcoinNoPeersRule.classify (diagnostic_context rm node_ref now m) node = BitcoinNoPeersRule.Firing.
Proof.
  intros Hshow.
  destruct (Hshow _ _ (list_elem_of_here _ _)) as (pn & Hpn & ns & Hns & Hact & Hout).
  destruct (Hshow _ _ (list_elem_of_further _ _ _ (list_elem_of_here _ _))) as (pp & Hpp & ps & Hps).
  unfold BitcoinNoPeersRule.classify, StateReadModelExt.bitcoin_network,
    StateReadModelExt.bitcoin_peer_summary, unwrap_state; cbn.
  unfold StateProjection.get_latest. unfold state_at in Hpn, Hpp. rewrite Hpn, Hpp; cbn.
  rewrite Hns, Hps; cbn. by rewrite Hact, Hout.
Qed.

(** The rule on the node's entry: [t0] is when the condition was first seen
    and [tm] when the rule last looked. *)
Definition entry_of (debounce : Duration) (t0 tm : Instant) : BitcoinNoPeersRule.SubjectState.t :=
  BitcoinNoPeersRule.SubjectState.mk (Some t0) (debounce <=? tm - t0)%Z (Some tm).

(** The automaton: since when the condition holds, and the last look. *)
Definition np_move (q : option (Instant * Instant)) (m : Instant) : option (Instant * Instant) :=
  match q with
  | None => Some (m, m)
  | Some (t0, _) => Some (t0, m)
  end.

Definition np_fired (q : option (Instant * Instant)) : bool :=
  match q with
  | None => false
  | Some (t0, tm) => (debounce <=? tm - t0)%Z
  end.

Definition np_may (q : option (Instant * Instant)) (m : Instant) : Prop :=
  match q with
  | None => True
  | Some (t0, tm) => (t0 ≤ tm ≤ m)%Z ∧ (m - tm < retention)%Z
  end.

Definition np_describes (q : option (Instant * Instant)) (rule : BitcoinNoPeersRule.t) : Prop :=
  BitcoinNoPeersRule.debounce rule = debounce ∧
  BitcoinNoPeersRule.state rule !! node_ref = (λ '(t0, tm), entry_of debounce t0 tm) <$> q.

(** A pass within the retention leaves the node's entry in place. *)
Lemma np_pruned q rule m :
  np_describes q rule → np_may q m →
  BitcoinNoPeersRule.prune_stale (BitcoinNoPeersRule.state rule) m !! node_ref
  = (λ '(t0, tm), entry_of debounce t0 tm) <$> q.
Proof.
  intros [_ Hst] Hmay. destruct q as [[t0 tm]|]; cbn in *.
  - apply map_lookup_filter_Some_2; [done|]. unfold BitcoinNoPeersRule.retained; cbn.
    case_match; [done|]. apply Z.ltb_lt. rewrite saturating_duration_since_monotone; lia.
  - apply map_lookup_filter_None_2. by left.
Qed.

Lemma np_step q rule rm now m :
  np_describes q rule → np_may q m → models_show node_ref peerless_states rm →
  let ctx := diagnostic_context rm node_ref now m in
  np_describes (np_move q m) (evaluate rule ctx).2 ∧
  drafts_of rule ctx = once np_move np_fired alarm q m.
Proof.
  intros Hq Hmay Hshow ctx. pose proof (classify_peerless rm now m Hshow) as Hc.
  pose proof (np_pruned q rule m Hq Hmay) as Hp. destruct Hq as [Hdb Hst].
  unfold drafts_of, evaluate, once; cbn [BitcoinNoPeersRule.rule]. fold ctx in Hc.
  unfold BitcoinNoPeersRule.evaluate. change (DiagnosticContext.subject ctx) with node_ref.
  change (DiagnosticContext.monotonic_now ctx) with m. cbv zeta iota. rewrite Hc, Hp.
  destruct q as [[t0 tm]|]; cbn in *; unfold np_describes, entry_of; cbn.
  - destruct Hmay as [Ht Hret]. rewrite saturating_duration_since_monotone, Hdb by lia.
    destruct (Z.leb_spec debounce (tm - t0)); cbn;
      destruct (Z.leb_spec debounce (m - t0)); cbn; try lia; by rewrite lookup_insert_eq.
  - rewrite saturating_duration_since_self, Hdb, Z.sub_diag.
    by destruct (debounce <=? 0)%Z; cbn; rewrite lookup_insert_eq.
Qed.

Lemma np_foreign q rule rm now m s :
  np_describes q rule → np_may q m → s ≠ node_ref →
  let ctx := diagnostic_context rm s now m in
  np_describes q (evaluate rule ctx).2 ∧
  Forall (λ d, compute_fingerprint d ≠ compute_fingerprint alarm) (drafts_of rule ctx).
Proof.
  intros Hq Hmay Hs ctx. pose proof (np_pruned q rule m Hq Hmay) as Hp.
  unfold drafts_of, evaluate; cbn [BitcoinNoPeersRule.rule].
  unfold BitcoinNoPeersRule.evaluate. change (DiagnosticContext.subject ctx) with s.
  change (DiagnosticContext.monotonic_now ctx) with m. cbv zeta.
  destruct s; try (split; [done|constructor]).
  destruct (BitcoinNoPeersRule.advance _ _ _ _) as [e ss]. split; cbn.
  - destruct Hq as [Hdb _]. split; [done|]. cbn. by rewrite lookup_insert_ne.
  - by eapply drafted_subject.
Qed.

Lemma np_passes :
  describes_passes node_ref peerless_states alarm np_move (once np_move np_fired alarm) np_may
    np_describes.
Proof. split; [exact np_step|exact np_foreign]. Qed.

Lemma np_on_pace q times :
  from_option (λ p, (p.1 ≤ p.2)%Z) True q → on_pace retention (snd <$> q) times →
  paced np_move np_may q times.
Proof.
  revert q. induction times as [|[own m] times IH]; intros q Hq; cbn; [done|].
  intros [Hm Ht]. destruct q as [[t0 tm]|]; cbn in *.
  - split; [lia|]. destruct own; apply IH; cbn; done || lia.
  - split; [done|]. destruct own; apply IH; cbn; done || lia.
Qed.

Lemma np_end t0 tm times : foldl np_move (Some (t0, tm)) times = Some (t0, default tm (last times)).
Proof.
  revert tm. induction times as [|m times IH]; intros tm; [done|]. cbn [foldl np_move].
  rewrite IH, last_cons. by destruct (last times).
Qed.

Lemma np_fires times t0 tm :
  head times = Some t0 → last times = Some tm → (debounce ≤ tm - t0)%Z →
  np_fired (foldl np_move None times) = true.
Proof.
  destruct times as [|m times]; [done|]. intros [= ->] Hl Hd. cbn [foldl np_move].
  rewrite np_end. apply Z.leb_le. rewrite last_cons in Hl. destruct (last times); by simplify_eq/=.
Qed.
(** *** The node has peers again *)

Definition connected_network (s : StateObservation.t) : Prop :=
  ∃ ns n, s = StateObservation.BitcoinNetwork ns ∧
    BitcoinNetworkState.network_active ns = Some true ∧
    BitcoinNetworkState.connections_out ns = Some n ∧ n ≠ 0%Z.

Definition connected_states : list (StateName.t * (StateObservation.t → Prop)) := [
  (StateName.from_well_known well_known_state.BITCOIN_NETWORK, connected_network);
  (StateName.from_well_known well_known_state.BITCOIN_PEER_SUMMARY, is_peer_summary)
].

Lemma classify_connected rm now m :
  models_show node_ref connected_states rm →
  BitcoinNoPeersRule.classify (diagnostic_context rm node_ref now m) node
  = BitcoinNoPeersRule.NotFiring.
Proof.
  intros Hshow.
  destruct (Hshow _ _ (list_elem_of_here _ _)) as (pn & Hpn & ns & n & Hns & Hact & Hout & Hn).
  destruct (Hshow _ _ (list_elem_of_further _ _ _ (list_elem_of_here _ _))) as (pp & Hpp & ps & Hps).
  unfold BitcoinNoPeersRule.classify, StateReadModelExt.bitcoin_network,
    StateReadModelExt.bitcoin_peer_summary, unwrap_state; cbn.
  unfold StateProjection.get_latest. unfold state_at in Hpn, Hpp. rewrite Hpn, Hpp; cbn.
  rewrite Hns, Hps; cbn. rewrite Hact, Hout; cbn. by destruct (Z.eqb_spec n 0).
Qed.

(** Whether the rule has raised its alarm and not cleared it. *)
Definition np_raised (raised : bool) (rule : BitcoinNoPeersRule.t) : Prop :=
  from_option BitcoinNoPeersRule.SubjectState.active_emitted false
    (BitcoinNoPeersRule.state rule !! node_ref) = raised.

Definition calm_move (raised : bool) (m : Instant) : bool := false.
Definition calm_output (raised : bool) (m : Instant) : list IncidentSignalDraft.t :=
  if raised then [BitcoinNoPeersRule.build_draft node_ref SignalStatus.Cleared] else [].

(** An alarm that was raised is never forgotten. *)
Lemma raised_pruned rule m :
  from_option BitcoinNoPeersRule.SubjectState.active_emitted false
    (BitcoinNoPeersRule.prune_stale (BitcoinNoPeersRule.state rule) m !! node_ref)
  = from_option BitcoinNoPeersRule.SubjectState.active_emitted false
      (BitcoinNoPeersRule.state rule !! node_ref).
Proof.
  unfold BitcoinNoPeersRule.prune_stale. rewrite map_lookup_filter.
  destruct (BitcoinNoPeersRule.state rule !! node_ref) as [e|]; cbn; [|done].
  case_guard as Hk; cbn; [done|]. unfold BitcoinNoPeersRule.retained in Hk.
  by destruct (BitcoinNoPeersRule.SubjectState.active_emitted e).
Qed.

Lemma calm_passes :
  describes_passes node_ref connected_states alarm calm_move calm_output (λ _ _, True) np_raised.
Proof.
  split.
  - intros raised rule rm now m Hq _ Hshow ctx. pose proof (raised_pruned rule m) as Hp.
    rewrite Hq in Hp. pose proof (classify_connected rm now m Hshow) as Hc. fold ctx in Hc.
    unfold drafts_of, evaluate; cbn [BitcoinNoPeersRule.rule].
    unfold BitcoinNoPeersRule.evaluate. change (DiagnosticContext.subject ctx) with node_ref.
    change (DiagnosticContext.monotonic_now ctx) with m. cbv zeta iota. rewrite Hc.
    unfold np_raised, calm_output. rewrite <-Hp.
    destruct (BitcoinNoPeersRule.prune_stale _ _ !! node_ref) as [e|]; cbn;
      [destruct (BitcoinNoPeersRule.SubjectState.active_emitted e); cbn|];
      by rewrite lookup_insert_eq.
  - intros raised rule rm now m s Hq _ Hs ctx. pose proof (raised_pruned rule m) as Hp.
    rewrite Hq in Hp. unfold drafts_of, evaluate; cbn [BitcoinNoPeersRule.rule].
    unfold BitcoinNoPeersRule.evaluate. change (DiagnosticContext.subject ctx) with s.
    change (DiagnosticContext.monotonic_now ctx) with m. cbv zeta.
    destruct s; try (split; [done|constructor]).
    destruct (BitcoinNoPeersRule.advance _ _ _ _) as [e ss]. split; cbn.
    + unfold np_raised. cbn. by rewrite lookup_insert_ne.
    + by eapply drafted_subject.
Qed.

Lemma calm_outputs raised times :
  outputs calm_move calm_output raised times
  = match times with [] => [] | m :: _ => calm_output raised m end.
Proof.
  destruct times as [|m times]; [done|]. cbn. rewrite <-(app_nil_r (calm_output raised m)) at 2.
  f_equal. induction times as [|m' times IH]; [done|]. exact IH.
Qed.

Lemma np_raised_fired q rule : np_describes q rule → np_raised (np_fired q) rule.
Proof. intros [_ Hst]. unfold np_raised. rewrite Hst. by destruct q as [[t0 tm]|]. Qed.
End peerless.

(** ** A node stuck in its initial block download, to its rule *)

#[local] Arguments BitcoinTipLagOrIbdStalledRule.evaluate : simpl never.

Section stuck.
Import BitcoinTipLagOrIbdStalledRule.
Variables (node : BitcoinNodeId.t) (ticks : Z).
Hypothesis ticks_bounds : (1 ≤ ticks ≤ u32_max)%Z.

#[local] Abbreviation node_ref := (EntityRef.BitcoinNode node).
#[local] Abbreviation alarm := (build_draft node_ref SignalStatus.Active).

Definition tip_lag_fingerprint : IncidentFingerprint.t := compute_fingerprint alarm.

(** Pattern A1: in initial download although nearly at the tip, with peers. *)
Definition stuck_blockchain (s : StateObservation.t) : Prop :=
  ∃ bs, s = StateObservation.BitcoinBlockchain bs ∧
    BitcoinBlockchainState.initial_block_download bs = true ∧
    (u64_saturating_sub (BitcoinBlockchainState.headers bs) (BitcoinBlockchainState.blocks bs)
       < A1_MAX_HEADER_BLOCK_GAP)%Z ∧
    f64_gt (BitcoinBlockchainState.verification_progress bs) A1_MIN_VERIFICATION_PROGRESS = true.

Definition enough_peers (s : StateObservation.t) : Prop :=
  ∃ ps, s = StateObservation.BitcoinPeerSummary ps ∧
    (A1_MIN_PEER_COUNT ≤ BitcoinPeerSummaryState.peer_count ps)%Z.

Definition stuck_states : list (StateName.t * (StateObservation.t → Prop)) := [
  (StateName.from_well_known well_known_state.BITCOIN_BLOCKCHAIN, stuck_blockchain);
  (StateName.from_well_known well_known_state.BITCOIN_PEER_SUMMARY, enough_peers)
].

(** The automaton: the passes so far and the last of them. *)
Definition tl_move (q : Z * option Instant) (m : Instant) : Z * option Instant :=
  ((q.1 + 1)%Z, Some m).

Definition tl_fired (q : Z * option Instant) : bool := (ticks <=? q.1)%Z.

Definition tl_may (q : Z * option Instant) (m : Instant) : Prop :=
  match q.2 with
  | None => True
  | Some tm => (tm ≤ m)%Z ∧ (m - tm < STATE_RETENTION)%Z
  end.

Definition tl_describes (q : Z * option Instant) (rule : t) : Prop :=
  debounce_ticks rule = ticks ∧ (0 ≤ q.1)%Z ∧
  match q.2 with
  | None => state rule !! node_ref = None ∧ q.1 = 0%Z
  | Some tm => ∃ e, state rule !! node_ref = Some e ∧
      SubjectState.last_touched_at e = Some tm ∧
      SubjectState.active_emitted e = (ticks <=? q.1)%Z ∧
      SubjectState.consecutive_firing e = Z.min q.1 u32_max ∧
      SubjectState.consecutive_clearing e = 0%Z
  end.

(** A pass within the retention leaves the node's entry in place. *)
Lemma tl_pruned q rule m :
  tl_describes q rule → tl_may q m →
  prune_stale (state rule) m !! node_ref = state rule !! node_ref.
Proof.
  intros (_ & _ & Hq) Hmay. unfold tl_may in Hmay. destruct q as [n [tm|]]; cbn in *.
  - destruct Hq as (e & He & Ht & _ & _ & _). destruct Hmay as [Hle Hret]. rewrite He.
    apply map_lookup_filter_Some_2; [done|]. unfold retained; cbn. rewrite Ht.
    case_match; [done|]. apply Z.ltb_lt. by rewrite saturating_duration_since_monotone.
  - destruct Hq as [Hnone _]. rewrite Hnone. apply map_lookup_filter_None_2. by left.
Qed.

(** The entry the rule works on. *)
Lemma tl_entry q rule m :
  tl_describes q rule → tl_may q m →
  let e := default SubjectState.default (prune_stale (state rule) m !! node_ref) in
  SubjectState.active_emitted e = (ticks <=? q.1)%Z ∧
  SubjectState.consecutive_firing e = Z.min q.1 u32_max.
Proof.
  intros Hq Hmay e. unfold e. rewrite (tl_pruned q rule m Hq Hmay). clear e.
  destruct Hq as (_ & Hn & Hq). destruct q as [n [tm|]]; cbn in *.
  - by destruct Hq as (e & -> & _ & Ha & Hf & _).
  - destruct Hq as [-> ->]. cbn. split; [symmetry; apply Z.leb_gt; lia|done].
Qed.

Lemma track_keeps e p m :
  SubjectState.active_emitted (track e p m) = SubjectState.active_emitted e ∧
  SubjectState.consecutive_firing (track e p m) = SubjectState.consecutive_firing e ∧
  SubjectState.last_touched_at (track e p m) = SubjectState.last_touched_at e.
Proof. unfold track. by repeat case_match. Qed.

Lemma count_firing e :
  SubjectState.active_emitted (count ticks e Firing).1
    = SubjectState.active_emitted e
      || (ticks <=? u32_saturating_add (SubjectState.consecutive_firing e) 1)%Z ∧
  SubjectState.consecutive_firing (count ticks e Firing).1
    = u32_saturating_add (SubjectState.consecutive_firing e) 1 ∧
  SubjectState.last_touched_at (count ticks e Firing).1 = SubjectState.last_touched_at e ∧
  SubjectState.consecutive_clearing (count ticks e Firing).1 = 0%Z ∧
  (count ticks e Firing).2 =
    if negb (SubjectState.active_emitted e) &&
       (ticks <=? u32_saturating_add (SubjectState.consecutive_firing e) 1)%Z
    then [SignalStatus.Active] else [].
Proof.
  unfold count. destruct (SubjectState.active_emitted e); cbn; [done|].
  by destruct (ticks <=? _)%Z.
Qed.

Lemma classify_a1 e bs ps m window :
  BitcoinBlockchainState.initial_block_download bs = true →
  (u64_saturating_sub (BitcoinBlockchainState.headers bs) (BitcoinBlockchainState.blocks bs)
     < A1_MAX_HEADER_BLOCK_GAP)%Z →
  f64_gt (BitcoinBlockchainState.verification_progress bs) A1_MIN_VERIFICATION_PROGRESS = true →
  (A1_MIN_PEER_COUNT ≤ BitcoinPeerSummaryState.peer_count ps)%Z →
  update_state_and_classify e bs ps m window
  = (track e (BitcoinBlockchainState.verification_progress bs) m, Firing).
Proof.
  intros Hibd Hgap%Z.ltb_lt Hvp Hpeers%Z.leb_le. unfold update_state_and_classify, a1_holds.
  by rewrite Hibd, Hgap, Hvp, Hpeers.
Qed.

(** What the read models hold of the node, as the rule reads it. *)
Definition shows_reading rm (bs : BitcoinBlockchainState.t) (ps : BitcoinPeerSummaryState.t) : Prop :=
  (∃ pb, state_at rm (node_ref, StateName.from_well_known well_known_state.BITCOIN_BLOCKCHAIN)
     = Some pb ∧ Projected.value pb = StateObservation.BitcoinBlockchain bs) ∧
  ∃ pp, state_at rm (node_ref, StateName.from_well_known well_known_state.BITCOIN_PEER_SUMMARY)
     = Some pp ∧ Projected.value pp = StateObservation.BitcoinPeerSummary ps.

Lemma evaluate_reading rule rm now m bs ps :
  shows_reading rm bs ps →
  let e := default SubjectState.default (prune_stale (state rule) m !! node_ref) in
  let u := update_state_and_classify (touch e m) bs ps m (a2_flat_window rule) in
  let counted := count (debounce_ticks rule) u.1 u.2 in
  evaluate rule (diagnostic_context rm node_ref now m)
  = (Ok (build_draft node_ref <$> counted.2),
     mk (a2_flat_window rule) (debounce_ticks rule)
       (<[node_ref := counted.1]> (prune_stale (state rule) m))).
Proof.
  intros [(pb & Hpb & Hbs) (pp & Hpp & Hps)]. set (ctx := diagnostic_context rm node_ref now m).
  assert (∃ v, StateReadModelExt.bitcoin_blockchain (DiagnosticContext.state ctx) node = Some v ∧
    Projected.value v = bs) as (vb & Hvb & Hb).
  { unfold StateReadModelExt.bitcoin_blockchain, unwrap_state; cbn.
    unfold StateProjection.get_latest. unfold state_at in Hpb. rewrite Hpb; cbn. rewrite Hbs; cbn. eauto. }
  assert (∃ v, StateReadModelExt.bitcoin_peer_summary (DiagnosticContext.state ctx) node = Some v ∧
    Projected.value v = ps) as (vp & Hvp & Hp).
  { unfold StateReadModelExt.bitcoin_peer_summary, unwrap_state; cbn.
    unfold StateProjection.get_latest. unfold state_at in Hpp. rewrite Hpp; cbn. rewrite Hps; cbn. eauto. }
  unfold evaluate. change (DiagnosticContext.subject ctx) with node_ref. cbv iota.
  rewrite Hvb, Hvp, Hb, Hp. change (DiagnosticContext.monotonic_now ctx) with m. cbv zeta.
  destruct (update_state_and_classify _ _ _ _ _) as [e cl]; cbn.
  by destruct (count _ _ _) as [e' ss].
Qed.

Lemma tl_step q rule rm now m :
  tl_describes q rule → tl_may q m → models_show node_ref stuck_states rm →
  let ctx := diagnostic_context rm node_ref now m in
  tl_describes (tl_move q m) (evaluate rule ctx).2 ∧
  drafts_of rule ctx = once tl_move tl_fired alarm q m.
Proof.
  intros Hq Hmay Hshow ctx. destruct (tl_entry q rule m Hq Hmay) as [Ha Hf].
  destruct Hq as (Hticks & Hn & _).
  destruct (Hshow _ _ (list_elem_of_here _ _)) as (pb & Hpb & bs & Hbs & Hibd & Hgap & Hvp).
  destruct (Hshow _ _ (list_elem_of_further _ _ _ (list_elem_of_here _ _))) as (pp & Hpp & ps & Hps & Hpeers).
  pose proof (evaluate_reading rule rm now m bs ps) as He.
  unfold drafts_of, Incidents.evaluate; cbn [BitcoinTipLagOrIbdStalledRule.rule].
  unfold ctx. rewrite He by (split; [by exists pb|by exists pp]). clear He.
  set (e := default SubjectState.default (prune_stale (state rule) m !! node_ref)) in *.
  rewrite classify_a1 by done. cbn [fst snd].
  destruct (track_keeps (touch e m) (BitcoinBlockchainState.verification_progress bs) m)
    as (Hta & Htf & Htt).
  set (e' := track (touch e m) _ m) in *.
  destruct (count_firing e') as (Ca & Cf & Ct & Cc & Cs). rewrite Hticks.
  destruct (count ticks e' Firing) as [e'' ss]; cbn in Ca, Cf, Ct, Cc, Cs |- *.
  rewrite Hta, Htf in Ca, Cs. rewrite Htf in Cf. rewrite Htt in Ct. cbn in Ca, Cf, Ct, Cs.
  rewrite Hf in Ca, Cf, Cs. rewrite Ha in Ca, Cs.
  assert (u32_saturating_add (Z.min q.1 u32_max) 1 = Z.min (q.1 + 1) u32_max) as Hsat.
  { unfold u32_saturating_add. lia. }
  assert ((ticks <=? Z.min (q.1 + 1) u32_max) = (ticks <=? q.1 + 1))%Z as Hcmp.
  { destruct (Z.leb_spec ticks (q.1 + 1)); [apply Z.leb_le|apply Z.leb_gt]; lia. }
  rewrite Hsat in Ca, Cf, Cs. rewrite Hcmp in Ca, Cs. split.
  - split_and!; cbn; [done|lia|]. exists e''. rewrite lookup_insert_eq. split_and!; [done|done| |done|done].
    rewrite Ca. destruct (Z.leb_spec ticks q.1), (Z.leb_spec ticks (q.1 + 1)); done || lia.
  - rewrite Cs. unfold once, tl_fired; cbn. by destruct (_ && _).
Qed.

Lemma tl_foreign q rule rm now m s :
  tl_describes q rule → tl_may q m → s ≠ node_ref →
  let ctx := diagnostic_context rm s now m in
  tl_describes q (evaluate rule ctx).2 ∧
  Forall (λ d, compute_fingerprint d ≠ compute_fingerprint alarm) (drafts_of rule ctx).
Proof.
  intros Hq Hmay Hs ctx. pose proof (tl_pruned q rule m Hq Hmay) as Hp.
  unfold drafts_of, Incidents.evaluate; cbn [BitcoinTipLagOrIbdStalledRule.rule]. unfold evaluate.
  change (DiagnosticContext.subject ctx) with s.
  change (DiagnosticContext.monotonic_now ctx) with m. cbv zeta.
  destruct s; try (split; [done|constructor]).
  destruct (StateReadModelExt.bitcoin_blockchain _ _); [|split; [done|constructor]].
  destruct (StateReadModelExt.bitcoin_peer_summary _ _); [|split; [done|constructor]].
  destruct (update_state_and_classify _ _ _ _ _) as [e cl]. destruct (count _ _ _) as [e' ss].
  split; cbn.
  - destruct Hq as (Hticks & Hn & Hq). split_and!; [done|done|]. cbn.
    rewrite lookup_insert_ne by done. by rewrite Hp.
  - by eapply drafted_subject.
Qed.

Lemma tl_passes :
  describes_passes node_ref stuck_states alarm tl_move (once tl_move tl_fired alarm) tl_may
    tl_describes.
Proof. split; [exact tl_step|exact tl_foreign]. Qed.

Lemma tl_on_pace q times : on_pace STATE_RETENTION q.2 times → paced tl_move tl_may q times.
Proof.
  revert q. induction times as [|[own m] times IH]; intros q; cbn; [done|].
  intros [Hm Ht]. split; [unfold tl_may; by destruct q.2|]. destruct own; by apply IH.
Qed.

Lemma tl_end q times : (foldl tl_move q times).1 = (q.1 + Z.of_nat (length times))%Z.
Proof. revert q. induction times as [|m times IH]; intros q; cbn; [lia|]. rewrite IH. cbn. lia. Qed.

(** *** The node catches up *)

(** Out of its initial download, fewer than a thousand blocks behind. *)
Definition caught_up_blockchain (s : StateObservation.t) : Prop :=
  ∃ bs, s = StateObservation.BitcoinBlockchain bs ∧
    BitcoinBlockchainState.initial_block_download bs = false ∧
    (u64_saturating_sub (BitcoinBlockchainState.headers bs) (BitcoinBlockchainState.blocks bs)
       < A2_MIN_HEADER_BLOCK_GAP)%Z.

Definition caught_up_states : list (StateName.t * (StateObservation.t → Prop)) := [
  (StateName.from_well_known well_known_state.BITCOIN_BLOCKCHAIN, caught_up_blockchain);
  (StateName.from_well_known well_known_state.BITCOIN_PEER_SUMMARY, is_peer_summary)
].

Lemma classify_caught_up e bs ps m window :
  BitcoinBlockchainState.initial_block_download bs = false →
  (u64_saturating_sub (BitcoinBlockchainState.headers bs) (BitcoinBlockchainState.blocks bs)
     < A2_MIN_HEADER_BLOCK_GAP)%Z →
  update_state_and_classify e bs ps m window
  = (track e (BitcoinBlockchainState.verification_progress bs) m, NotFiring).
Proof.
  intros Hibd Hgap%Z.leb_gt. unfold update_state_and_classify, a1_holds. by rewrite Hibd, Hgap.
Qed.

(** The passes without the condition since the alarm was raised, while it is. *)
Definition clearing_describes (q : option Z) (rule : t) : Prop :=
  debounce_ticks rule = ticks ∧
  match q with
  | None => from_option SubjectState.active_emitted false (state rule !! node_ref) = false
  | Some n => (0 ≤ n < ticks)%Z ∧ ∃ e, state rule !! node_ref = Some e ∧
      SubjectState.active_emitted e = true ∧ SubjectState.consecutive_clearing e = n
  end.

Definition clearing_move (q : option Z) (m : Instant) : option Z :=
  match q with
  | Some n => if (ticks <=? n + 1)%Z then None else Some (n + 1)%Z
  | None => None
  end.

Definition clearing_output (q : option Z) (m : Instant) : list IncidentSignalDraft.t :=
  match q with
  | Some n => if (ticks <=? n + 1)%Z then [build_draft node_ref SignalStatus.Cleared] else []
  | None => []
  end.

(** An alarm that was raised is never forgotten here either. *)
Lemma clearing_pruned q rule m :
  clearing_describes q rule →
  match q with
  | None => from_option SubjectState.active_emitted false (prune_stale (state rule) m !! node_ref) = false
  | Some n => prune_stale (state rule) m !! node_ref = state rule !! node_ref
  end.
Proof.
  intros [_ Hq]. unfold prune_stale. rewrite map_lookup_filter.
  destruct q as [n|]; cbn in Hq.
  - destruct Hq as (_ & e & -> & Ha & _); cbn. case_guard as Hk; [done|].
    destruct Hk. unfold retained; cbn. by rewrite Ha.
  - destruct (state rule !! node_ref) as [e|]; cbn in *; [|done]. by case_guard.
Qed.

Lemma count_not_firing e :
  SubjectState.active_emitted (count ticks e NotFiring).1
    = SubjectState.active_emitted e
      && negb (ticks <=? u32_saturating_add (SubjectState.consecutive_clearing e) 1)%Z ∧
  SubjectState.consecutive_clearing (count ticks e NotFiring).1
    = u32_saturating_add (SubjectState.consecutive_clearing e) 1 ∧
  (count ticks e NotFiring).2 =
    if SubjectState.active_emitted e &&
       (ticks <=? u32_saturating_add (SubjectState.consecutive_clearing e) 1)%Z
    then [SignalStatus.Cleared] else [].
Proof.
  unfold count. destruct (SubjectState.active_emitted e); cbn; [|done].
  by destruct (ticks <=? _)%Z.
Qed.

Lemma track_clearing e p m :
  SubjectState.consecutive_clearing (track e p m) = SubjectState.consecutive_clearing e.
Proof. unfold track. by repeat case_match. Qed.

Lemma clearing_step q rule rm now m :
  clearing_describes q rule → models_show node_ref caught_up_states rm →
  let ctx := diagnostic_context rm node_ref now m in
  clearing_describes (clearing_move q m) (evaluate rule ctx).2 ∧
  drafts_of rule ctx = clearing_output q m.
Proof.
  intros Hq Hshow ctx. pose proof (clearing_pruned q rule m Hq) as Hp.
  destruct (Hshow _ _ (list_elem_of_here _ _)) as (pb & Hpb & bs & Hbs & Hibd & Hgap).
  destruct (Hshow _ _ (list_elem_of_further _ _ _ (list_elem_of_here _ _))) as (pp & Hpp & ps & Hps).
  pose proof (evaluate_reading rule rm now m bs ps) as He.
  unfold drafts_of, Incidents.evaluate; cbn [BitcoinTipLagOrIbdStalledRule.rule].
  unfold ctx. rewrite He by (split; [by exists pb|by exists pp]). clear He.
  rewrite classify_caught_up by done. cbn [fst snd].
  set (e0 := default SubjectState.default (prune_stale (state rule) m !! node_ref)).
  destruct (track_keeps (touch e0 m) (BitcoinBlockchainState.verification_progress bs) m)
    as (Hta & _ & _).
  pose proof (track_clearing (touch e0 m) (BitcoinBlockchainState.verification_progress bs) m) as Htc.
  set (e1 := track (touch e0 m) _ m) in *.
  destruct Hq as [Hticks Hq]. rewrite Hticks.
  destruct (count_not_firing e1) as (Ca & Cc & Cs).
  destruct (count ticks e1 NotFiring) as [e2 ss]; cbn in Ca, Cc, Cs, Hta, Htc |- *.
  rewrite Hta, Htc in Ca, Cs. rewrite Htc in Cc. destruct q as [n|].
  - destruct Hq as (Hn & e & He & Ha & Hc).
    assert (e0 = e) as Hee by (unfold e0; by rewrite Hp, He).
    rewrite Hee, Ha, Hc in Ca, Cs. rewrite Hee, Hc in Cc. cbn in Ca, Cc, Cs.
    assert (u32_saturating_add n 1 = n + 1)%Z as Hadd by (unfold u32_saturating_add; lia).
    rewrite Hadd in Ca, Cc, Cs. unfold clearing_describes; cbn. rewrite lookup_insert_eq; cbn.
    destruct (Z.leb_spec ticks (n + 1)); rewrite Cs; cbn.
    + by split.
    + split; [|done]. split; [done|]. split; [lia|]. by exists e2.
  - assert (SubjectState.active_emitted e0 = false) as Ha0.
    { unfold e0. by destruct (prune_stale (state rule) m !! node_ref). }
    rewrite Ha0 in Ca, Cs. cbn in Ca, Cs. rewrite Cs. unfold clearing_describes; cbn.
    by rewrite lookup_insert_eq.
Qed.

Lemma clearing_foreign q rule rm now m s :
  clearing_describes q rule → s ≠ node_ref →
  let ctx := diagnostic_context rm s now m in
  clearing_describes q (evaluate rule ctx).2 ∧
  Forall (λ d, compute_fingerprint d ≠ compute_fingerprint alarm) (drafts_of rule ctx).
Proof.
  intros Hq Hs ctx. pose proof (clearing_pruned q rule m Hq) as Hp.
  unfold drafts_of, Incidents.evaluate; cbn [BitcoinTipLagOrIbdStalledRule.rule]. unfold evaluate.
  change (DiagnosticContext.subject ctx) with s.
  change (DiagnosticContext.monotonic_now ctx) with m. cbv zeta.
  destruct s; try (split; [done|constructor]).
  destruct (StateReadModelExt.bitcoin_blockchain _ _); [|split; [done|constructor]].
  destruct (StateReadModelExt.bitcoin_peer_summary _ _); [|split; [done|constructor]].
  destruct (update_state_and_classify _ _ _ _ _) as [e cl]. destruct (count _ _ _) as [e' ss].
  split; cbn; [|by eapply drafted_subject].
  destruct Hq as [Hticks Hq]. split; [done|]. cbn. rewrite lookup_insert_ne by done.
  destruct q as [n|]; [by rewrite Hp|done].
Qed.

Lemma clearing_passes :
  describes_passes node_ref caught_up_states alarm clearing_move clearing_output (λ _ _, True)
    clearing_describes.
Proof.
  split; [intros q rule rm now m Hq _; by apply clearing_step|].
  intros q rule rm now m s Hq _; by apply clearing_foreign.
Qed.

(** An alarm that was raised is cleared by the pass that completes the ticks. *)
Lemma clearing_outputs q times :
  outputs clearing_move clearing_output q times
  = match q with
    | Some n => if (ticks <=? n + Z.of_nat (length times))%Z && negb (length times =? 0)
                then [build_draft node_ref SignalStatus.Cleared] else []
    | None => []
    end.
Proof.
  revert q. induction times as [|m times IH]; intros q; cbn.
  - destruct q; [|done]. by rewrite andb_false_r.
  - rewrite IH. destruct q as [n|]; cbn; [|done].
    destruct (Z.leb_spec ticks (n + 1)); cbn.
    + destruct (Z.leb_spec ticks (n + Z.of_nat (S (length times)))); [done|lia].
    + replace (n + 1 + Z.of_nat (length times))%Z with (n + Z.of_nat (S (length times)))%Z by lia.
      destruct times; [|done]. rewrite andb_false_r.
      by destruct (Z.leb_spec ticks (n + Z.of_nat (S (length (@nil Instant))))); [cbn in *; lia|].
Qed.

(** From the watch over the stuck node to that over the node catching up. *)
Lemma tl_clearing q rule : tl_describes q rule → tl_fired q = true → clearing_describes (Some 0%Z) rule.
Proof.
  unfold tl_fired. intros (Ht & _ & Hq) Hf. split; [done|]. split; [lia|].
  destruct q as [n [tm|]]; cbn in *.
  - destruct Hq as (e & He & _ & Ha & _ & Hc). exists e. split_and!; [done|congruence|done].
  - destruct Hq as [_ ->]. apply Z.leb_le in Hf. lia.
Qed.

Lemma new_clearing rule :
  debounce_ticks rule = ticks → state rule = ∅ → clearing_describes None rule.
Proof. intros Ht Hs. split; [done|]. by rewrite Hs, lookup_empty. Qed.
End stuck.

(** ** Turns of the pipeline *)

(** One tick of the supervisor: the poller with what it is given and answered,
    and the consumer's clocks when it takes the batch. *)
Record Turn : Type := mk_turn {
  poller : BitcoinCoreRpcCollector.t;
  context : CollectionContext.t;
  answers : Answers;
  uuids : nat;
  wall : DateTime;
  mono : Instant;
}.

Section turns.
Context `{UuidLib, DebugLib, RpcJson, CookieFs} {S R A : Type}.
Context `{ObservationStore S, IncidentRepository R, NotificationAttemptRepository A}.
#[local] Abbreviation consumer := (consumer (S := S) (R := R) (A := A)).
Implicit Types (c : consumer) (t : Turn).

Definition turn_batch t : option (ObservationBatch.t * DateTime * Instant) :=
  b ← (BitcoinPoller.poll (poller t) (context t) (answers t) (uuids t)).2;
  Some (b, wall t, mono t).

(** The pipeline over some turns: every batch is polled and processed. *)
Definition pipeline (turns : list Turn) (c : consumer) : option consumer :=
  batches ← mapM turn_batch turns; run batches c.

(** What the engine answered over some turns. *)
Definition pipeline_answers (turns : list Turn) (c : consumer) : list IncidentEvent.t :=
  from_option (λ batches, engine_answers (run_handings batches c)) [] (mapM turn_batch turns).

(** The one event of a fingerprint over some turns, and who has been told. *)
Lemma pipeline_event turns c c' fp ev :
  pipeline turns c = Some c' → engine_ok (engine c) →
  lifecycle_for fp (pipeline_answers turns c) = [ev] →
  ∃ l, Lifecycle.view l = ev ∧ identified fp (IncidentLifecycleEvent.incident l) ∧
    told_all (notification_rules c) l c' ∧
    match l with
    | IncidentLifecycleEvent.Opened o =>
        Incident.id <$> IncidentEngine.open_incidents (engine c') !! fp = Some (Incident.id o)
    | IncidentLifecycleEvent.Escalated _ _ _ => True
    | IncidentLifecycleEvent.Resolved o =>
        Incident.id <$> IncidentEngine.open_incidents (engine c) !! fp = Some (Incident.id o)
    end.
Proof.
  unfold pipeline, pipeline_answers. destruct (mapM turn_batch turns) as [bs|]; cbn; [|done].
  apply run_event.
Qed.

(** In any execution of the runtime whose batches come from turns, the
    consumer is where the pipeline over these turns ends. *)
Lemma runtime_pipeline `{UrlLib} deps store attempts tx draws start_ now capacity turns :
  start_deps deps store attempts tx draws = Some start_ →
  capacity = RuntimeConfig.channel_capacity (runtime_config deps) → (0 ≤ capacity)%Z →
  rtc (step capacity) start_ now → mapM turn_batch turns = Some (processed now) →
  pipeline turns (consumer_task deps store attempts tx draws) = Some (Runtime.pipeline now).
Proof.
  intros Hstart Hcap Hpos Hsteps Hturns.
  destruct (accounted_reachable capacity _ _ _ _ start_ now Hcap Hpos Hstart Hsteps) as [_ Hr _ _ _].
  unfold pipeline. by rewrite Hturns.
Qed.

(** *** The assembled runtime runs the pipeline *)

(** The turns of one task, in order: the [k]-th is a poll of the collector as
    the [k] polls before it left it, with the context the task makes. *)
Definition thread (sidecar_id : SidecarId.t) (built : BitcoinCoreRpcCollector.t)
    (turns : list Turn) : Prop :=
  ∀ k t, turns !! k = Some t →
    poller t = Nat.iter k polled_once built ∧
    ∃ now run, context t = poll_context sidecar_id built now run.

(** The turns of task [i], of turns marked with their task. *)
Definition turns_by (i : nat) (turns : list (nat * Turn)) : list Turn :=
  (filter (λ p, p.1 = i) turns).*2.

Definition polls_to t (b : ObservationBatch.t) : Prop :=
  (BitcoinPoller.poll (poller t) (context t) (answers t) (uuids t)).2 = Some b.

Lemma turns_by_snoc i j t turns :
  turns_by i (turns ++ [(j, t)]) = turns_by i turns ++ (if decide (j = i) then [t] else []).
Proof.
  unfold turns_by. rewrite filter_app, fmap_app, filter_cons, filter_nil. cbn [fst].
  by destruct (decide (j = i)).
Qed.

Lemma thread_snoc sidecar_id built turns t :
  thread sidecar_id built turns → poller t = Nat.iter (length turns) polled_once built →
  (∃ now run, context t = poll_context sidecar_id built now run) →
  thread sidecar_id built (turns ++ [t]).
Proof.
  intros Ht Hp Hc k u [Hk|[Hk Hu]]%lookup_app_Some; [by apply Ht|].
  apply list_lookup_singleton_Some in Hu as [Hz <-].
  by replace k with (length turns) by lia.
Qed.

(** What a task's polls returned are turns of its thread. *)
Lemma polled_thread sidecar_id built bs left :
  polled_through sidecar_id built bs left →
  ∃ turns, thread sidecar_id built turns ∧ Forall2 polls_to turns bs ∧
    left = Nat.iter (length turns) polled_once built.
Proof.
  induction 1 as [|bs c now run a n c' b _ (turns & Ht & Hb & ->) Hp|bs c now run a n c' _ _ Hp].
  - exists []. split_and!; [by intros k t ?|constructor|done].
  - change (BitcoinPoller.poll (Nat.iter (length turns) polled_once built)
      (poll_context sidecar_id built now run) a n = (c', Some b)) in Hp.
    exists (turns ++ [mk_turn (Nat.iter (length turns) polled_once built)
      (poll_context sidecar_id built now run) a n 0%Z 0%Z]). split_and!.
    + apply thread_snoc; [done|done|by exists now, run].
    + apply Forall2_app; [done|]. constructor; [|constructor]. unfold polls_to.
      cbn [poller context answers uuids]. by rewrite Hp.
    + rewrite length_app, Nat.add_1_r; cbn. by injection Hp.
  - destruct (poll_some c (poll_context sidecar_id built now run) a n) as (b & Hb & _).
    change (BitcoinPoller.poll c (poll_context sidecar_id built now run) a n = (c', None)) in Hp.
    congruence.
Qed.

Lemma lookup_choice {X Y} (P : nat → X → Y → Prop) (l : list X) :
  (∀ i x, l !! i = Some x → ∃ y, P i x y) →
  ∃ ys : list Y, ∀ i x, l !! i = Some x → ∃ y, ys !! i = Some y ∧ P i x y.
Proof.
  revert P. induction l as [|x l IH]; intros P Hall; [by exists []|].
  destruct (Hall 0 x eq_refl) as [y Hy].
  destruct (IH (λ i, P (Datatypes.S i))) as [ys Hys]; [intros i; apply (Hall (Datatypes.S i))|].
  exists (y :: ys). intros [|i] z Hz; [injection Hz as <-; by exists y|by apply Hys].
Qed.

(** Batches of several threads, interleaved: each thread's in its order. *)
Lemma threads_interleave sidecar_id (collectors : list BitcoinCoreRpcCollector.t) (threads : list (list Turn))
    (l : list (nat * ObservationBatch.t)) (batches : list (ObservationBatch.t * DateTime * Instant)) :
  batches.*1.*1 = l.*2 →
  (∀ i, i ∈ l.*1 → ∃ coll turns bs, collectors !! i = Some coll ∧ threads !! i = Some turns ∧
     thread sidecar_id coll turns ∧ Forall2 polls_to turns bs ∧ sent_by i l `prefix_of` bs) →
  ∃ turns, turns.*1 = l.*1 ∧ Forall2 (λ t p, turn_batch t = Some p) turns.*2 batches ∧
    ∀ i coll, collectors !! i = Some coll →
      length (turns_by i turns) = length (sent_by i l) ∧ thread sidecar_id coll (turns_by i turns).
Proof.
  revert batches. induction l as [|[i b] l IH] using rev_ind; intros batches Hb Hall.
  { exists []. apply fmap_nil_inv, fmap_nil_inv in Hb as ->.
    split_and!; [done|constructor|]. intros i coll _. split; [done|by intros k t ?]. }
  destruct batches as [|[[b' now] m] batches _] using rev_ind.
  { rewrite fmap_app in Hb. by destruct (l.*2). }
  rewrite !fmap_app in Hb. apply app_inj_tail in Hb as [Hb [= ->]].
  destruct (IH batches Hb) as (turns & Hl & Hturns & Hthreads).
  { intros j Hj. destruct (Hall j) as (coll & ts & bs & ? & ? & ? & ? & Hpre).
    { rewrite fmap_app. set_solver. }
    exists coll, ts, bs. split_and!; [done..|]. etrans; [|done]. rewrite sent_by_app. by apply prefix_app_r. }
  destruct (Hall i) as (coll & ts & bs & Hcoll & _ & Hts & Hpolls & Hpre).
  { rewrite fmap_app. set_solver. }
  rewrite sent_by_app, sent_by_same in Hpre. destruct Hpre as [bs' ->].
  destruct (Hthreads i coll Hcoll) as [Hlen Hthread].
  assert (∃ t, ts !! length (sent_by i l) = Some t ∧ polls_to t b) as (t & Ht & Htb).
  { apply Forall2_lookup_r with (i := length (sent_by i l)) (y := b) in Hpolls; [naive_solver|].
    rewrite <-(assoc_L (++)). by apply list_lookup_middle. }
  destruct (Hts _ _ Ht) as [Hpoller Hctx].
  set (t' := mk_turn (poller t) (context t) (answers t) (uuids t) now m).
  exists (turns ++ [(i, t')]). rewrite !fmap_app, Hl. split_and!; [done| |].
  - apply Forall2_app; [done|]. constructor; [|constructor]. subst t'.
    unfold turn_batch, polls_to in *. cbn [fmap list_fmap snd poller context answers uuids wall mono].
    by rewrite Htb.
  - intros j coll' Hcoll'. destruct (Hthreads j coll' Hcoll') as [Hlen' Hthread'].
    rewrite turns_by_snoc, sent_by_app. destruct (decide (i = j)) as [<-|Hne].
    + assert (coll' = coll) as -> by congruence. rewrite sent_by_same, !length_app, Hlen. split; [done|].
      apply thread_snoc; [done|by rewrite Hlen|done].
    + by rewrite sent_by_other, !app_nil_r.
Qed.

Lemma no_subscriptions (l : list Empty_set) : length l = 0.
Proof. by destruct l as [|[]]. Qed.

(** In an assembled runtime without subscriptions. *)
Lemma logged_tasks `{TickerLaws} sidecar_id (collectors : list BitcoinCoreRpcCollector.t) (subs : list Empty_set) capacity c config api a :
  coherent sidecar_id collectors (length subs) capacity c config api a →
  ∀ i, i ∈ (Assembly.log a).*1 → i < length collectors.
Proof.
  intros Ha i Hi%(co_tags _ _ _ _ _ _ _ _ Ha).
  pose proof (co_count _ _ _ _ _ _ _ _ Ha) as Hn. unfold Assembly.total in Hn.
  rewrite no_subscriptions in Hn. lia.
Qed.

Lemma task_threads `{TickerLaws} sidecar_id (collectors : list BitcoinCoreRpcCollector.t) (subs : list Empty_set) capacity c config api a :
  coherent sidecar_id collectors (length subs) capacity c config api a →
  ∀ i built, collectors !! i = Some built →
    ∃ turns, thread sidecar_id built turns ∧
      ∃ bs, Forall2 polls_to turns bs ∧ sent_by i (Assembly.log a) `prefix_of` bs.
Proof.
  intros Ha i built Hi. destruct (Assembly.children a !! i) as [[t|t]|] eqn:Hch.
  - destruct (co_children _ _ _ _ _ _ _ _ Ha i _ Hch) as ((built' & Hi' & Hr) & Hsent & _).
    assert (built' = built) as -> by congruence.
    destruct (reachable_batches _ _ _ Hr) as [Hthrough _].
    destruct (polled_thread _ _ _ _ Hthrough) as (turns & Ht & Hb & _).
    exists turns. split; [done|]. exists (returned t). split; [done|].
    rewrite Hsent. by eapply sent_returned.
  - destruct (co_children _ _ _ _ _ _ _ _ Ha i _ Hch) as (Hge & _).
    apply lookup_lt_Some in Hi. lia.
  - exists []. split; [by intros k t ?|]. exists []. split; [constructor|].
    rewrite sent_by_none; [done|]. intros Hin%(co_tags _ _ _ _ _ _ _ _ Ha).
    apply lookup_ge_None in Hch. lia.
Qed.

(** C9: The theorems below speak of real executions. Take any execution of the
    assembled runtime that a successful start-up would spawn: its supervisor,
    one task per polling collector, the channel, the consumer, the worker and
    the server in any interleaving. The consumer's state is that of the
    pipeline over some turns, and their batches are those the consumer has
    processed, in order. Each turn is a poll that the task of one of the
    configured collectors made, with this sidecar's identity and that
    collector's context; and the [k]-th of a task is made on the collector as
    its [k] polls before that left it, none being skipped, so the request
    numbers of the client go on from poll to poll. *)
Theorem execution_is_pipeline `{UrlLib, TickerLaws} (deps : RuntimeDeps (R := R)) store attempts tx draws a :
  let c := consumer_task deps store attempts tx draws in
  (0 ≤ RuntimeConfig.channel_capacity (runtime_config deps))%Z →
  assembled (deps_sidecar_id deps) (polling_collectors deps)
    (length (subscription_collectors deps)) (RuntimeConfig.channel_capacity (runtime_config deps))
    c (runtime_config deps) (api_config deps) a →
  ∃ turns, mapM turn_batch turns.*2 = Some (processed (Assembly.rt a)) ∧
    pipeline turns.*2 c = Some (Runtime.pipeline (Assembly.rt a)) ∧
    Forall (λ p, p.1 < length (polling_collectors deps)) turns ∧
    ∀ i built, polling_collectors deps !! i = Some built →
      thread (deps_sidecar_id deps) built (turns_by i turns).
Proof.
  intros c Hpos Ha. apply assembled_coherent in Ha; [|done..].
  edestruct (coherent_accounted (C := BitcoinCoreRpcCollector.t)) as [Hsplit Hrun _ _ _]; [reflexivity|exact Hpos|exact Ha|].
  set (l := take (length (processed (Assembly.rt a))) (Assembly.log a)).
  assert (l.*2 = (processed (Assembly.rt a)).*1.*1) as Hl.
  { unfold l. rewrite fmap_take, <-(co_log _ _ _ _ _ _ _ _ Ha), Hsplit. apply take_app_length'.
    by rewrite !length_fmap. }
  assert (l `prefix_of` Assembly.log a) as Hpre by apply prefix_take.
  destruct (lookup_choice _ _ (task_threads _ _ _ _ _ _ _ a Ha)) as [threads Hthreads].
  destruct (threads_interleave (deps_sidecar_id deps) (polling_collectors deps) threads l
    (processed (Assembly.rt a))) as (turns & Htags & Hturns & Hof); [done| |].
  { intros i Hi. assert (i < length (polling_collectors deps)) as Hlt.
    { apply (logged_tasks _ _ _ _ _ _ _ a Ha). destruct Hpre as [l' ->]. rewrite fmap_app. set_solver. }
    destruct (lookup_lt_is_Some_2 _ _ Hlt) as [built Hbuilt].
    destruct (Hthreads i built Hbuilt) as (ts & Hts & Ht & bs & Hbs & Hsent).
    exists built, ts, bs. split_and!; [done..|]. etrans; [|exact Hsent].
    destruct Hpre as [l' ->]. rewrite sent_by_app. by apply prefix_app_r. }
  exists turns. apply mapM_Some_2 in Hturns. split_and!; [done| | |].
  - unfold pipeline. by rewrite Hturns.
  - apply Forall_forall. intros p Hp. apply (logged_tasks _ _ _ _ _ _ _ a Ha).
    destruct Hpre as [l' ->]. rewrite fmap_app, <-Htags. apply elem_of_app. left.
    by apply list_elem_of_fmap_2.
  - intros i built Hi. by apply Hof.
Qed.

(** No answer within the timeout, to any call. *)
Definition no_answer (a : HttpAnswer.t) : Prop :=
  match a with
  | HttpAnswer.Elapsed | HttpAnswer.Failed _ => True
  | HttpAnswer.Response _ _ => False
  end.

Definition unreachable t : Prop :=
  Forall (λ a, no_answer (Timed.output a)) (calls (answers t)).

Lemma call_no_answer {T} (decode : string → Result (RpcResponse.t T) string) auth seq a :
  no_answer a → ∃ e, call decode auth seq a = Err e.
Proof.
  intros Ha. unfold call. destruct (resolve_auth auth); cbn; [|eauto]. destruct a; cbn; eauto. done.
Qed.

(** The batch of a turn carries what the pass yields, about the node. *)
Lemma turn_batch_some t :
  ∃ b, turn_batch t = Some (b, wall t, mono t) ∧
    entry <$> observations_from_batch b =
      pair (EntityRef.BitcoinNode (BitcoinCoreRpcCollector.node_id (poller t)))
        <$> pass_payloads (poller t) (answers t) ∧
    (∀ P : DateTime → Prop, Forall (λ a, P (Timed.start a)) (calls (answers t)) →
      Forall (λ o, P (Observation.observed_at o)) (observations_from_batch b)) ∧
    (pass_payloads (poller t) (answers t) = [] → failed_outright b).
Proof.
  destruct (poll_some (poller t) (context t) (answers t) (uuids t)) as (b & Hb & _ & _ & _ & Hr).
  exists b. unfold turn_batch. rewrite Hb. split; [done|].
  pose proof (gather_spec (poller t) (CollectionContext.sidecar_id (context t)) (answers t) (uuids t))
    as [Hp Hf _ _ _].
  unfold observations_from_batch, failed_outright. rewrite Hr. unfold result_of.
  pose proof (pass_counts (poller t) (answers t)) as Hcount.
  split; [by destruct (first_failure _)|]. split.
  { intros P HP. apply (gather_observed P (poller t) (CollectionContext.sidecar_id (context t))
      (answers t) (uuids t)) in HP. by destruct (first_failure _). } intros He. rewrite He in *. apply fmap_nil_inv in Hp.
  rewrite Hf, Hp. destruct (pass_failures _ _); cbn in *; [lia|]. by eexists _, _.
Qed.

Lemma pass_payloads_state t s :
  ObservationPayload.State s ∈ pass_payloads (poller t) (answers t) →
  let '(bc, mp, nw, pi) := fetch_all (BitcoinCoreRpcCollector.client (poller t)) (answers t) in
  (∃ r, Timed.output bc = Ok r ∧ s = StateObservation.BitcoinBlockchain (blockchain_state r)) ∨
  (∃ r, Timed.output mp = Ok r ∧ s = StateObservation.BitcoinMempool (mempool_state r)) ∨
  (∃ r, Timed.output nw = Ok r ∧ s = StateObservation.BitcoinNetwork (network_state r)) ∨
  (∃ r, Timed.output pi = Ok r ∧ s = StateObservation.BitcoinPeerSummary (peer_summary_state r)).
Proof.
  unfold pass_payloads. destruct (fetch_all _ _) as [[[bc mp] nw] pi].
  assert (∀ T (r : Timed.t (Result T RpcError.t)) target f,
    ObservationPayload.State s ∈ payloads_of target f r → ∃ x, Timed.output r = Ok x ∧ s = f x) as Hin.
  { intros T r target f. unfold payloads_of. destruct (Timed.output r) as [x|]; [|by intros ?%elem_of_nil].
    rewrite !elem_of_cons, elem_of_nil. intros [[= ->]|[[=]|[]]]. by exists x. }
  rewrite !elem_of_app. intros [Hs|[Hs|[Hs|Hs]]]; apply Hin in Hs; auto.
Qed.

(** The pass of a turn yields every wanted state, and only as wanted. *)
Definition turn_reports (wanted : list (StateName.t * (StateObservation.t → Prop))) t : Prop :=
  ∀ name Q, (name, Q) ∈ wanted →
    (∃ s, ObservationPayload.State s ∈ pass_payloads (poller t) (answers t) ∧
       StateObservation.name s = name) ∧
    ∀ s, ObservationPayload.State s ∈ pass_payloads (poller t) (answers t) →
      StateObservation.name s = name → Q s.

(** Every call of the turn began when [P] says. *)
Definition called (P : DateTime → Prop) t : Prop :=
  Forall (λ a, P (Timed.start a)) (calls (answers t)).

Lemma turn_agrees wanted since t b :
  wanted ≠ [] → turn_batch t = Some (b, wall t, mono t) → turn_reports wanted t →
  called (recent since) t →
  batch_agrees (EntityRef.BitcoinNode (BitcoinCoreRpcCollector.node_id (poller t))) wanted since b.
Proof.
  intros Hne Hb Hrep Hcalls. destruct (turn_batch_some t) as (b' & Hb' & He & Ht & _). simplify_eq.
  set (subject := EntityRef.BitcoinNode _) in *.
  assert (∀ o, o ∈ observations_from_batch b → Observation.subject o = subject ∧
    Observation.payload o ∈ pass_payloads (poller t) (answers t)) as Hobs.
  { intros o Ho. apply (list_elem_of_fmap_2 entry) in Ho. rewrite He in Ho.
    apply list_elem_of_fmap in Ho as (p & Ho & Hp). unfold entry in Ho. by simplify_eq. }
  assert (∀ p, p ∈ pass_payloads (poller t) (answers t) →
    ∃ o, o ∈ observations_from_batch b ∧ Observation.payload o = p) as Hpay.
  { intros p Hp. apply (list_elem_of_fmap_2 (pair subject)) in Hp.
    rewrite <-He in Hp. apply list_elem_of_fmap in Hp as (o & Ho & Hin). exists o.
    split; [done|]. unfold entry in Ho. by simplify_eq. }
  split.
  - destruct wanted as [|[name Q] wanted]; [done|].
    destruct (Hrep name Q (list_elem_of_here _ _)) as [(s & Hs & _) _].
    destruct (Hpay _ Hs) as (o & Ho & _). intros Hnil. rewrite Hnil in Ho. by apply elem_of_nil in Ho.
  - rewrite Forall_forall. intros o Ho. by apply Hobs.
  - by apply Ht.
  - intros name Q Hin. destruct (Hrep name Q Hin) as [(s & Hs & Hn) Hall]. split.
    + rewrite Forall_forall. intros o Ho s' Hs' [=_ Hn']. cbn. apply Hall; [|done].
      rewrite Hs'. by apply Hobs.
    + destruct (Hpay _ Hs) as (o & Ho & Hp). by exists o, s.
Qed.

Lemma turn_foreign node t b :
  BitcoinCoreRpcCollector.node_id (poller t) ≠ node → turn_batch t = Some (b, wall t, mono t) →
  batch_foreign (EntityRef.BitcoinNode node) b.
Proof.
  intros Hne Hb. destruct (turn_batch_some t) as (b' & Hb' & He & _). simplify_eq.
  apply Forall_forall. intros o Ho Hs. apply (list_elem_of_fmap_2 entry) in Ho. rewrite He in Ho.
  apply list_elem_of_fmap in Ho as (p & Ho & _). injection Ho as Ho _. apply Hne.
  rewrite Hs in Ho. by injection Ho.
Qed.

(** The turns over a node, and the times of all turns with these marked. *)
Definition turns_of (node : BitcoinNodeId.t) (turns : list Turn) : list Turn :=
  filter (λ t, BitcoinCoreRpcCollector.node_id (poller t) = node) turns.

Definition times_of (node : BitcoinNodeId.t) (turns : list Turn) : list (bool * Instant) :=
  (λ t, (bool_decide (BitcoinCoreRpcCollector.node_id (poller t) = node), mono t)) <$> turns.

Lemma own_times_of node turns : own_times (times_of node turns) = mono <$> turns_of node turns.
Proof.
  unfold own_times, times_of, turns_of. induction turns as [|t turns IH]; [done|].
  rewrite fmap_cons, !filter_cons; cbn [fst]. case_bool_decide.
  - rewrite !decide_True by done. cbn [fmap list_fmap snd]. by f_equal.
  - by rewrite !decide_False by done.
Qed.

Lemma turns_fit wanted since turns node :
  wanted ≠ [] →
  Forall (turn_reports wanted) (turns_of node turns) →
  Forall (called (recent since)) (turns_of node turns) →
  ∃ batches, mapM turn_batch turns = Some batches ∧
    Forall2 (pass_fits (EntityRef.BitcoinNode node) wanted since) (times_of node turns) batches.
Proof.
  intros Hne Ht Hc. assert (∃ batches, Forall2 (λ t p, turn_batch t = Some p) turns batches ∧
    Forall2 (pass_fits (EntityRef.BitcoinNode node) wanted since) (times_of node turns) batches)
    as (bs & Hb & Hf); [|exists bs; split; [by apply mapM_Some_2|done]].
  unfold turns_of in *. induction turns as [|t turns IH]; [by exists []|].
  destruct (turn_batch_some t) as (b & Hbt & _). rewrite filter_cons in Ht, Hc.
  destruct (decide (BitcoinCoreRpcCollector.node_id (poller t) = node)) as [Hn|Hn].
  - apply Forall_cons in Ht as [Hrep Ht]. apply Forall_cons in Hc as [Hcall Hc].
    destruct (IH Ht Hc) as (bs & Hb & Hf).
    exists ((b, wall t, mono t) :: bs). split; constructor; [done|done|split; [done|]|done].
    cbn. rewrite bool_decide_true by done. subst node. by apply turn_agrees.
  - destruct (IH Ht Hc) as (bs & Hb & Hf).
    exists ((b, wall t, mono t) :: bs). split; constructor; [done|done|split; [done|]|done].
    cbn. rewrite bool_decide_false by done. by eapply turn_foreign.
Qed.

Lemma called_always turns : Forall (called (recent None)) turns.
Proof. apply Forall_true. intros t. by repeat constructor. Qed.

Lemma run_app bs1 bs2 c : run (bs1 ++ bs2) c = run bs1 c ≫= run bs2.
Proof.
  revert c. induction bs1 as [|[[b now] m] bs1 IH]; intros c; cbn; [done|].
  destruct (process_batch b now m c); cbn; [apply IH|done].
Qed.

Lemma mapM_concat {X Y} (f : X → option Y) l1 l2 :
  mapM f (l1 ++ l2) = ys1 ← mapM f l1; ys2 ← mapM f l2; Some (ys1 ++ ys2).
Proof.
  induction l1 as [|x l1 IH]; cbn.
  - by destruct (mapM f l2).
  - destruct (f x); cbn; [|done]. rewrite IH. destruct (mapM f l1); cbn; [|done]. by destruct (mapM f l2).
Qed.

Lemma pipeline_app turns1 turns2 c c1 :
  pipeline turns1 c = Some c1 → pipeline (turns1 ++ turns2) c = pipeline turns2 c1.
Proof.
  unfold pipeline. rewrite mapM_concat. destruct (mapM turn_batch turns1) as [bs1|]; cbn; [|done].
  intros Hr. destruct (mapM turn_batch turns2) as [bs2|]; cbn; [|done]. by rewrite run_app, Hr.
Qed.

(** The pipeline with a watched rule. *)
Lemma pipeline_watch {T} `{DiagnosticRule T} wanted since alarm {Q} move output may describes (q : Q)
    node turns c :
  describes_passes (T := T) (EntityRef.BitcoinNode node) wanted alarm move output may describes →
  appends_succeed (S := S) → wanted ≠ [] →
  watched (EntityRef.BitcoinNode node) wanted alarm (IncidentEngine.kinds (engine c)) since describes q c →
  Forall (turn_reports wanted) (turns_of node turns) →
  Forall (called (recent since)) (turns_of node turns) →
  paced move may q (times_of node turns) →
  ∃ c', pipeline turns c = Some c' ∧ rtc cstep c c' ∧
    watched (EntityRef.BitcoinNode node) wanted alarm (IncidentEngine.kinds (engine c)) since describes
      (foldl move q (mono <$> turns_of node turns)) c' ∧
    open_severity (engine c') (compute_fingerprint alarm)
    = foldl (drive (IncidentEngine.kinds (engine c)) (compute_fingerprint alarm))
        (open_severity (engine c) (compute_fingerprint alarm))
        (outputs move output q (mono <$> turns_of node turns)) ∧
    lifecycle_for (compute_fingerprint alarm) (pipeline_answers turns c)
    = told (IncidentEngine.kinds (engine c)) (compute_fingerprint alarm)
        (open_severity (engine c) (compute_fingerprint alarm))
        (outputs move output q (mono <$> turns_of node turns)).
Proof.
  intros Hdesc Hst Hne Hw Hturns Hcalls Hpace.
  destruct (turns_fit _ since _ node Hne Hturns Hcalls) as (bs & Hbs & Hb).
  destruct (watch_run _ wanted alarm (IncidentEngine.kinds (engine c)) since move output may describes Hdesc Hst (times_of node turns) bs q c)
    as (c' & Hc' & Hw' & Hsev & Htold); [done..|].
  rewrite own_times_of in Hw', Hsev, Htold. exists c'. unfold pipeline, pipeline_answers. rewrite Hbs.
  destruct (run_steps bs c) as (c2 & Hr & Hsteps). assert (c2 = c') as -> by congruence. done.
Qed.

(** A critical incident of the fingerprint is open; and if none was before, it
    was opened as critical, and unless a notification failed every rule that
    matches this opening has been sent it. *)
Definition reported (fp : IncidentFingerprint.t) c c' : Prop :=
  ∃ i, IncidentEngine.open_incidents (engine c') !! fp = Some i ∧
    Incident.severity i = IncidentSeverity.Critical ∧
    (open_severity (engine c) fp = None →
     ∃ o, identified fp o ∧ Incident.severity o = IncidentSeverity.Critical ∧
       Incident.id o = Incident.id i ∧
       told_all (notification_rules c) (IncidentLifecycleEvent.Opened o) c').

(** The critical incident of the fingerprint that was open is resolved; and
    unless a notification failed every one of some rules that matches this
    resolution has been sent it. *)
Definition resolved (rules : list NotificationRule.t) (fp : IncidentFingerprint.t) c c' : Prop :=
  IncidentEngine.open_incidents (engine c') !! fp = None ∧
  ∃ i o, IncidentEngine.open_incidents (engine c) !! fp = Some i ∧
    identified fp o ∧ Incident.severity o = IncidentSeverity.Critical ∧
    Incident.id o = Incident.id i ∧
    told_all rules (IncidentLifecycleEvent.Resolved o) c'.

(** Drafts of an alarm over some turns, and what they make of the incident. *)
Lemma alarms_reported alarm ds turns c c' :
  let fp := compute_fingerprint alarm in
  engine_ok (engine c) → pipeline turns c = Some c' →
  Lifecycle.effect (IncidentEngine.kinds (engine c)) (IncidentCommand.RecordSignal alarm)
    = Some (fp, Lifecycle.Raise IncidentSeverity.Critical) →
  Forall (.= alarm) ds → ds ≠ [] →
  open_severity (engine c') fp
    = foldl (drive (IncidentEngine.kinds (engine c)) fp) (open_severity (engine c) fp) ds →
  lifecycle_for fp (pipeline_answers turns c)
    = told (IncidentEngine.kinds (engine c)) fp (open_severity (engine c) fp) ds →
  reported fp c c'.
Proof.
  cbv zeta. intros Hok Hc' Hreg Hds Hne Hsev Htold.
  destruct (drive_alarms _ _ _ (open_severity (engine c) (compute_fingerprint alarm)) _ Hreg Hds Hne) as (s & Hs & Hrank).
  rewrite <-Hsev in Hs. assert (s = IncidentSeverity.Critical) as ->.
  { destruct s; cbn in Hrank; done || lia. }
  unfold open_severity in Hs. destruct (_ !! _) as [i|] eqn:Hi; [|done]. injection Hs as Hcrit.
  exists i. split_and!; [done..|]. intros Hnone. rewrite Hnone, (told_alarms _ _ _ _ Hreg Hds Hne) in Htold.
  destruct (pipeline_event _ _ _ _ _ Hc' Hok Htold) as ([o| |] & Hv & Hid & Hall & Hm); try done.
  injection Hv as Hv. rewrite Hi in Hm. injection Hm as Hm. by exists o.
Qed.

Lemma clear_resolved alarm clear turns c c' i :
  let fp := compute_fingerprint alarm in
  engine_ok (engine c) → pipeline turns c = Some c' →
  Lifecycle.effect (IncidentEngine.kinds (engine c)) (IncidentCommand.RecordSignal clear)
    = Some (fp, Lifecycle.Clear) →
  IncidentEngine.open_incidents (engine c) !! fp = Some i →
  Incident.severity i = IncidentSeverity.Critical →
  open_severity (engine c') fp
    = drive (IncidentEngine.kinds (engine c)) fp (open_severity (engine c) fp) clear →
  lifecycle_for fp (pipeline_answers turns c)
    = told (IncidentEngine.kinds (engine c)) fp (open_severity (engine c) fp) [clear] →
  resolved (notification_rules c) fp c c'.
Proof.
  cbv zeta. intros Hok Hc' Hreg Hi Hcrit Hsev Htold.
  destruct (drive_clear _ _ _ (open_severity (engine c) (compute_fingerprint alarm)) Hreg) as [Hd Ht].
  rewrite Hd in Hsev. rewrite Ht in Htold. unfold open_severity in Htold at 1. rewrite Hi in Htold.
  cbn in Htold. rewrite Hcrit in Htold.
  destruct (pipeline_event _ _ _ _ _ Hc' Hok Htold) as ([| |o] & Hv & Hid & Hall & Hm); try done.
  injection Hv as Hv. rewrite Hi in Hm. injection Hm as Hm.
  split; [|by exists i, o]. unfold open_severity in Hsev.
  by destruct (IncidentEngine.open_incidents (engine c') !! _).
Qed.

(** What is held of the node was observed before a time that all its turns
    come before. *)
Lemma pipeline_before node turns c c' since name :
  pipeline turns c = Some c' → engine_ok (engine c) →
  (∀ key, state_at (read_models c) key = None) →
  Forall (called (λ at_, at_ < since)%Z) (turns_of node turns) →
  reads (EntityRef.BitcoinNode node, name) (λ p, (Projected.observed_at p < since)%Z) (read_models c').
Proof.
  intros Hrun Hok Hfresh Hcalls. unfold pipeline in Hrun.
  destruct (mapM turn_batch turns) as [bs|] eqn:Hbs; cbn in Hrun; [|done].
  apply (run_reads _ _ bs c c'); [|by intros p; rewrite Hfresh|done|done].
  apply mapM_Some_1 in Hbs. unfold turns_of in Hcalls. clear Hrun.
  induction Hbs as [|t p turns bs Hb _ IH]; [done|]. rewrite filter_cons in Hcalls.
  destruct (turn_batch_some t) as (b & Hb' & _ & Ht & _). rewrite Hb' in Hb. injection Hb as <-.
  destruct (decide (BitcoinCoreRpcCollector.node_id (poller t) = node)) as [Hn|Hn].
  - apply Forall_cons in Hcalls as [Hcall Hcalls]. constructor; [|by apply IH].
    specialize (Ht _ Hcall). eapply Forall_impl; [exact Ht|]. by intros o Ho s _ _.
  - constructor; [|by apply IH]. pose proof (turn_foreign node t b Hn Hb') as Hf.
    unfold batch_foreign in Hf. rewrite Forall_forall in Hf; cbn. apply Forall_forall.
    intros o Ho s _ [= Hs _]. by apply (Hf o Ho) in Hs.
Qed.

Lemma always_paced {Q} (move : Q → Instant → Q) q times : paced move (λ _ _, True) q times.
Proof. revert q. induction times as [|[own m] times IH]; intros q; cbn; [done|]. split; [done|apply IH]. Qed.

Lemma pipeline_rules turns c c' :
  pipeline turns c = Some c' → notification_rules c' = notification_rules c.
Proof.
  unfold pipeline. destruct (mapM turn_batch turns) as [bs|]; cbn; [|done].
  intros Hr. by destruct (run_announces _ _ _ Hr) as (_ & Hrules & _).
Qed.

(** The pipeline with a watched rule that raises a critical alarm. *)
Lemma pipeline_reports {T} `{DiagnosticRule T} wanted alarm {Q} move fired may describes (q : Q)
    node turns c :
  describes_passes (T := T) (EntityRef.BitcoinNode node) wanted alarm move (once move fired alarm)
    may describes →
  Lifecycle.effect (IncidentEngine.kinds (engine c)) (IncidentCommand.RecordSignal alarm)
    = Some (compute_fingerprint alarm, Lifecycle.Raise IncidentSeverity.Critical) →
  appends_succeed (S := S) → wanted ≠ [] → fired q = false →
  watched (EntityRef.BitcoinNode node) wanted alarm (IncidentEngine.kinds (engine c)) None describes q c →
  Forall (turn_reports wanted) (turns_of node turns) →
  paced move may q (times_of node turns) →
  ∃ c', pipeline turns c = Some c' ∧ rtc cstep c c' ∧
    watched (EntityRef.BitcoinNode node) wanted alarm (IncidentEngine.kinds (engine c)) None describes
      (foldl move q (mono <$> turns_of node turns)) c' ∧
    (fired (foldl move q (mono <$> turns_of node turns)) = true →
     reported (compute_fingerprint alarm) c c').
Proof.
  intros Hdesc Hreg Hst Hne Hq Hw Hturns Hpace.
  destruct (pipeline_watch wanted None alarm move _ may describes q node turns c Hdesc Hst Hne Hw Hturns
    (called_always _) Hpace) as (c' & Hc' & Hsteps & Hw' & Hsev & Htold).
  exists c'. split_and!; [done..|]. intros Hf. eapply (alarms_reported alarm (outputs move (once move fired alarm) q (mono <$> turns_of node turns)));
    [by destruct Hw|done|done|apply outputs_alarms|by apply outputs_fired|done|done].
Qed.

(** The node answers that its network is on and that it has no outbound
    connection; its peer list is readable. *)
Definition reports_no_peers t : Prop :=
  let '(_, _, nw, pi) := fetch_all (BitcoinCoreRpcCollector.client (poller t)) (answers t) in
  (∃ r, Timed.output nw = Ok r ∧ GetNetworkInfoResponse.networkactive r = Some true ∧
     GetNetworkInfoResponse.connections_out r = Some 0%Z) ∧
  ∃ peers, Timed.output pi = Ok peers.

(** The node answers that it is in initial download, its blocks fewer than a
    thousand behind its headers and its verification past 0.999, and lists at
    least eight peers. *)
Definition reports_stuck t : Prop :=
  let '(bc, _, _, pi) := fetch_all (BitcoinCoreRpcCollector.client (poller t)) (answers t) in
  (∃ r, Timed.output bc = Ok r ∧ stuck_blockchain (StateObservation.BitcoinBlockchain (blockchain_state r))) ∧
  ∃ peers, Timed.output pi = Ok peers ∧ 8 ≤ length peers.

(** The node answers that its network is on and that it has outbound
    connections; its peer list is readable. *)
Definition reports_peers t : Prop :=
  let '(_, _, nw, pi) := fetch_all (BitcoinCoreRpcCollector.client (poller t)) (answers t) in
  (∃ r n, Timed.output nw = Ok r ∧ GetNetworkInfoResponse.networkactive r = Some true ∧
     GetNetworkInfoResponse.connections_out r = Some n ∧ n ≠ 0%Z) ∧
  ∃ peers, Timed.output pi = Ok peers.

(** A pass that yields a network state and a peer summary yields no others. *)
Lemma network_reported Q t :
  let '(_, _, nw, pi) := fetch_all (BitcoinCoreRpcCollector.client (poller t)) (answers t) in
  (∃ r, Timed.output nw = Ok r ∧ Q (StateObservation.BitcoinNetwork (network_state r))) →
  (∃ peers, Timed.output pi = Ok peers) →
  turn_reports [(StateName.from_well_known well_known_state.BITCOIN_NETWORK, Q);
    (StateName.from_well_known well_known_state.BITCOIN_PEER_SUMMARY, is_peer_summary)] t.
Proof.
  unfold turn_reports. pose proof (pass_payloads_state t) as Hst.
  unfold pass_payloads in Hst |- *. destruct (fetch_all _ _) as [[[bc mp] nw] pi].
  intros (r & Hr & HQ) (peers & Hpeers) name Q'.
  rewrite !elem_of_cons, elem_of_nil. intros [[= -> ->]|[[= -> ->]|[]]]; split.
  - exists (StateObservation.BitcoinNetwork (network_state r)). split; [|done].
    rewrite !elem_of_app. do 2 right. left. unfold payloads_of. rewrite Hr. by left.
  - intros s Hs Hn. destruct (Hst s Hs) as [(x & _ & ->)|[(x & _ & ->)|[(x & Hx & ->)|(x & _ & ->)]]];
      try done. rewrite Hr in Hx. by injection Hx as <-.
  - exists (StateObservation.BitcoinPeerSummary (peer_summary_state peers)). split; [|done].
    rewrite !elem_of_app. do 3 right. unfold payloads_of. rewrite Hpeers. by left.
  - intros s Hs Hn. destruct (Hst s Hs) as [(x & _ & ->)|[(x & _ & ->)|[(x & _ & ->)|(x & _ & ->)]]];
      try done. by eexists.
Qed.

Lemma no_peers_reported t : reports_no_peers t → turn_reports peerless_states t.
Proof.
  pose proof (network_reported peerless_network t) as Hrep. unfold reports_no_peers.
  destruct (fetch_all _ _) as [[[bc mp] nw] pi]. intros [(r & Hr & Hact & Hout) Hp].
  apply Hrep; [|done]. exists r. split; [done|]. by eexists.
Qed.

Lemma peers_reported t : reports_peers t → turn_reports connected_states t.
Proof.
  pose proof (network_reported connected_network t) as Hrep. unfold reports_peers.
  destruct (fetch_all _ _) as [[[bc mp] nw] pi]. intros [(r & n & Hr & Hact & Hout & Hn) Hp].
  apply Hrep; [|done]. exists r. split; [done|]. by eexists _, n.
Qed.

Lemma blockchain_reported Qb Qp t :
  let '(bc, _, _, pi) := fetch_all (BitcoinCoreRpcCollector.client (poller t)) (answers t) in
  (∃ r, Timed.output bc = Ok r ∧ Qb (StateObservation.BitcoinBlockchain (blockchain_state r))) →
  (∃ peers, Timed.output pi = Ok peers ∧
     Qp (StateObservation.BitcoinPeerSummary (peer_summary_state peers))) →
  turn_reports [(StateName.from_well_known well_known_state.BITCOIN_BLOCKCHAIN, Qb);
    (StateName.from_well_known well_known_state.BITCOIN_PEER_SUMMARY, Qp)] t.
Proof.
  unfold turn_reports. pose proof (pass_payloads_state t) as Hst.
  unfold pass_payloads in Hst |- *. destruct (fetch_all _ _) as [[[bc mp] nw] pi].
  intros (r & Hr & Hb) (peers & Hpeers & Hp) name Q.
  rewrite !elem_of_cons, elem_of_nil. intros [[= -> ->]|[[= -> ->]|[]]]; split.
  - exists (StateObservation.BitcoinBlockchain (blockchain_state r)). split; [|done].
    rewrite !elem_of_app. left. unfold payloads_of. rewrite Hr. by left.
  - intros s Hs Hn. destruct (Hst s Hs) as [(x & Hx & ->)|[(x & _ & ->)|[(x & _ & ->)|(x & _ & ->)]]];
      try done. rewrite Hr in Hx. injection Hx as <-. done.
  - exists (StateObservation.BitcoinPeerSummary (peer_summary_state peers)). split; [|done].
    rewrite !elem_of_app. do 3 right. unfold payloads_of. rewrite Hpeers. by left.
  - intros s Hs Hn. destruct (Hst s Hs) as [(x & _ & ->)|[(x & _ & ->)|[(x & _ & ->)|(x & Hx & ->)]]];
      try done. rewrite Hpeers in Hx. by injection Hx as <-.
Qed.

Lemma stuck_reported t : reports_stuck t → turn_reports stuck_states t.
Proof.
  pose proof (blockchain_reported stuck_blockchain enough_peers t) as Hrep. unfold reports_stuck.
  destruct (fetch_all _ _) as [[[bc mp] nw] pi]. intros [Hb (peers & Hpeers & Hlen)].
  apply Hrep; [done|]. exists peers. split; [done|]. eexists. split; [done|].
  unfold BitcoinTipLagOrIbdStalledRule.A1_MIN_PEER_COUNT. cbn. lia.
Qed.

(** The node answers that it is past its initial download and fewer than a
    thousand blocks behind its headers; its peer list is readable. *)
Definition reports_caught_up t : Prop :=
  let '(bc, _, _, pi) := fetch_all (BitcoinCoreRpcCollector.client (poller t)) (answers t) in
  (∃ r, Timed.output bc = Ok r ∧
     caught_up_blockchain (StateObservation.BitcoinBlockchain (blockchain_state r))) ∧
  ∃ peers, Timed.output pi = Ok peers.

Lemma caught_up_reported t : reports_caught_up t → turn_reports caught_up_states t.
Proof.
  pose proof (blockchain_reported caught_up_blockchain is_peer_summary t) as Hrep.
  unfold reports_caught_up. destruct (fetch_all _ _) as [[[bc mp] nw] pi].
  intros [Hb (peers & Hpeers)]. apply Hrep; [done|]. exists peers. split; [done|]. by eexists.
Qed.

(** *** From the start-up *)

Context `{UrlLib, TomlLaws} {P : Type}.
Variables (read_file : string → Result string string) (repo_of : P → R)
  (loaded : LoadedConfig (P := P)) (deps : RuntimeDeps (R := R)).

(** Every incident that storage has open is one the engine may hold. *)
Definition stored_incidents_live : Prop :=
  ∀ l, load_open (repo_of (pool loaded)) = Ok l →
    Forall (λ i, live (Incident.fingerprint i) i) l.

(** The default read models hold nothing. *)
Lemma boot_models_empty key :
  booted read_file repo_of loaded deps → state_at (deps_read_models deps) key = None.
Proof.
  intros [Hrm _ _ _ _]. revert Hrm. generalize (deps_read_models deps) as rm. intros rm Hrm.
  vm_compute in Hrm. by injection Hrm as <-.
Qed.

Lemma boot_engine_ok :
  booted read_file repo_of loaded deps → stored_incidents_live → engine_ok (deps_engine deps).
Proof.
  intros [_ (kinds & l & _ & Hl & He) _ _ _] Hlive. eapply engine_new_ok; [|exact He]. by apply Hlive.
Qed.

(** The registry of the start-up has the embedded kinds. *)
Lemma boot_knows e s :
  booted read_file repo_of loaded deps →
  e ∈ KindsToml.kinds default_kinds → parse_entry e KindSource.Builtin = Ok s →
  KindRegistry.lookup (IncidentEngine.kinds (deps_engine deps)) (IncidentKindSpec.name s) = Some s.
Proof.
  intros [_ (kinds & l & Hk & _ & He) _ _ _] Hin Hs. apply engine_new_Some in He as [_ ->].
  exact (load_builtin _ _ _ _ _ Hk Hin Hs).
Qed.

(** It takes an alarm of such a kind. *)
Lemma boot_takes e s d :
  booted read_file repo_of loaded deps →
  e ∈ KindsToml.kinds default_kinds → parse_entry e KindSource.Builtin = Ok s →
  IncidentSignalDraft.kind d = IncidentKindSpec.name s →
  IncidentSignalDraft.status d = SignalStatus.Active →
  IncidentSignalDraft.confidence d = Confidence.High →
  IncidentSignalDraft.dimension d = None → IncidentKindSpec.allows_dimension s = false →
  EntityRef.subject_kind (IncidentSignalDraft.subject d) ∈ IncidentKindSpec.allowed_subjects s →
  Lifecycle.effect (IncidentEngine.kinds (deps_engine deps)) (IncidentCommand.RecordSignal d)
  = Some (compute_fingerprint d, Lifecycle.Raise (severity_from_signal (IncidentSignalDraft.severity d))).
Proof.
  intros Hboot Hin Hs Hkind Hact Hconf Hdim Hnd Hsub.
  pose proof (boot_knows e s Hboot Hin Hs) as Hl. rewrite <-Hkind in Hl.
  unfold Lifecycle.effect, KindRegistry.validate_draft. unfold KindRegistry.lookup in *.
  rewrite Hl; cbn. rewrite Hact, Hconf, Hdim, Hnd, bool_decide_true by done; cbn.
  by destruct (IncidentKindSpec.min_open_confidence s).
Qed.

(** It takes the clearing as well. *)
Lemma boot_clears e s d :
  booted read_file repo_of loaded deps →
  e ∈ KindsToml.kinds default_kinds → parse_entry e KindSource.Builtin = Ok s →
  IncidentSignalDraft.kind d = IncidentKindSpec.name s →
  IncidentSignalDraft.status d = SignalStatus.Cleared →
  IncidentSignalDraft.dimension d = None → IncidentKindSpec.allows_dimension s = false →
  EntityRef.subject_kind (IncidentSignalDraft.subject d) ∈ IncidentKindSpec.allowed_subjects s →
  Lifecycle.effect (IncidentEngine.kinds (deps_engine deps)) (IncidentCommand.RecordSignal d)
  = Some (compute_fingerprint d, Lifecycle.Clear).
Proof.
  intros Hboot Hin Hs Hkind Hact Hdim Hnd Hsub.
  pose proof (boot_knows e s Hboot Hin Hs) as Hl. rewrite <-Hkind in Hl.
  unfold Lifecycle.effect, KindRegistry.validate_draft. unfold KindRegistry.lookup in *.
  rewrite Hl; cbn. by rewrite Hact, Hdim, Hnd, bool_decide_true by done.
Qed.

(** The rules around that of missing peers leave its kind alone. *)
Lemma boot_no_peers_rule {Q} (describes : Q → BitcoinNoPeersRule.t → Prop) q :
  booted read_file repo_of loaded deps → describes q BitcoinNoPeersRule.new →
  ∃ pre rule post, deps_rules deps = pre ++ box (R := BitcoinNoPeersRule.t) rule :: post ∧
    Forall (avoids no_peers_kind) (pre ++ post) ∧ describes q rule.
Proof.
  intros Hboot Hq. exists [box BitcoinRpcUnreachableRule.new], BitcoinNoPeersRule.new,
    [box BitcoinTipLagOrIbdStalledRule.new]. split_and!; [apply Hboot| |done].
  constructor; [by apply rpc_unreachable_avoids|]. by constructor; [apply tip_lag_avoids|].
Qed.

(** A consumer that starts over empty read models, watched. *)
Lemma boot_watched {T} `{DiagnosticRule T} wanted alarm since {Q} (describes : Q → T → Prop) q
    subject (store : S) (attempts : A) tx draws :
  booted read_file repo_of loaded deps → stored_incidents_live →
  (∃ pre rule post, deps_rules deps = pre ++ box (R := T) rule :: post ∧
    Forall (avoids (IncidentSignalDraft.kind alarm)) (pre ++ post) ∧ describes q rule) →
  watched subject wanted alarm (IncidentEngine.kinds (deps_engine deps)) since describes q
    (consumer_task deps store attempts tx draws).
Proof.
  intros Hboot Hlive Hrules. split; [done|by apply boot_engine_ok|done|].
  intros name Q' _ p; cbn. by rewrite boot_models_empty.
Qed.

(** The pipeline over a node that loses its peers. *)
Lemma peerless_pipeline store attempts tx draws node turns :
  booted read_file repo_of loaded deps → stored_incidents_live →
  appends_succeed (S := S) →
  Forall reports_no_peers (turns_of node turns) →
  on_pace BitcoinNoPeersRule.STATE_RETENTION None (times_of node turns) →
  let c := consumer_task deps store attempts tx draws in
  let q := foldl np_move None (mono <$> turns_of node turns) in
  ∃ c', pipeline turns c = Some c' ∧ rtc cstep c c' ∧
    watched (EntityRef.BitcoinNode node) peerless_states
      (BitcoinNoPeersRule.build_draft (EntityRef.BitcoinNode node) SignalStatus.Active)
      (IncidentEngine.kinds (deps_engine deps)) None
      (np_describes node BitcoinNoPeersRule.DEFAULT_DEBOUNCE) q c' ∧
    (np_fired BitcoinNoPeersRule.DEFAULT_DEBOUNCE q = true →
     reported (no_peers_fingerprint node) c c').
Proof.
  intros Hboot Hlive Hst Hturns Hpace c q.
  pose proof (boot_takes _ _ (BitcoinNoPeersRule.build_draft (EntityRef.BitcoinNode node)
    SignalStatus.Active) Hboot (list_elem_of_further _ _ _ (list_elem_of_here _ _)) eq_refl) as Hreg.
  apply (pipeline_reports (T := BitcoinNoPeersRule.t) _ _ _ _ _ _ None node turns c
    (np_passes node BitcoinNoPeersRule.DEFAULT_DEBOUNCE)); [by apply Hreg; [..|left]|done..| | |].
  - apply boot_watched; [done..|]. by apply boot_no_peers_rule.
  - eapply Forall_impl; [exact Hturns|]. apply no_peers_reported.
  - by apply np_on_pace.
Qed.

(** C10: A node that loses its peers is reported. Start the consumer as a
    start-up that succeeded does, over storage that accepts observations and
    whose open incidents are well formed. Let the pipeline run through any
    turns, those over other nodes answering whatever they like, such that every
    turn over this node says that its network is on and that no outbound
    connection stands, and no turn comes before the node's last one or an hour
    after it. Then every turn is polled and processed; and once the node's
    turns span the default debounce of a minute, a critical incident is open
    for it. If none was open before, this incident was opened as critical, and,
    unless a notification failed, every configured rule that matches this
    opening (any rule that is on for its kind, whatever its severity floor) has
    been sent it. *)
Theorem peerless_node_alarms http store attempts tx draws node (turns : list Turn) :
  boot_runtime http read_file repo_of loaded = Some (Ok deps) → stored_incidents_live →
  appends_succeed (S := S) →
  Forall reports_no_peers (turns_of node turns) →
  on_pace BitcoinNoPeersRule.STATE_RETENTION None (times_of node turns) →
  let c := consumer_task deps store attempts tx draws in
  ∃ c', pipeline turns c = Some c' ∧
    ∀ m0 m1, head (mono <$> turns_of node turns) = Some m0 →
      last (mono <$> turns_of node turns) = Some m1 →
      (BitcoinNoPeersRule.DEFAULT_DEBOUNCE ≤ m1 - m0)%Z →
      reported (no_peers_fingerprint node) c c'.
Proof.
  intros Hboot%boot_runtime_booted Hlive Hst Hturns Hpace c.
  destruct (peerless_pipeline store attempts tx draws node turns) as (c' & Hc' & _ & _ & Hrep); [done..|].
  exists c'. split; [done|]. intros m0 m1 Hh Hl Hd. apply Hrep. by eapply np_fires.
Qed.

(** The rules around that of the tip lag leave its kind alone. *)
Lemma boot_tip_lag_rule {Q} (describes : Q → BitcoinTipLagOrIbdStalledRule.t → Prop) q :
  booted read_file repo_of loaded deps → describes q BitcoinTipLagOrIbdStalledRule.new →
  ∃ pre rule post, deps_rules deps = pre ++ box (R := BitcoinTipLagOrIbdStalledRule.t) rule :: post ∧
    Forall (avoids tip_lag_kind) (pre ++ post) ∧ describes q rule.
Proof.
  intros Hboot Hq. exists [box BitcoinRpcUnreachableRule.new; box BitcoinNoPeersRule.new],
    BitcoinTipLagOrIbdStalledRule.new, []. split_and!; [apply Hboot| |done].
  constructor; [by apply rpc_unreachable_avoids|]. by constructor; [apply no_peers_avoids|].
Qed.

(** The pipeline over a stuck node. *)
Lemma stuck_pipeline store attempts tx draws node turns :
  booted read_file repo_of loaded deps → stored_incidents_live →
  appends_succeed (S := S) →
  Forall reports_stuck (turns_of node turns) →
  on_pace BitcoinTipLagOrIbdStalledRule.STATE_RETENTION None (times_of node turns) →
  let c := consumer_task deps store attempts tx draws in
  let q := foldl tl_move (0%Z, None) (mono <$> turns_of node turns) in
  ∃ c', pipeline turns c = Some c' ∧ rtc cstep c c' ∧
    watched (EntityRef.BitcoinNode node) stuck_states
      (BitcoinTipLagOrIbdStalledRule.build_draft (EntityRef.BitcoinNode node) SignalStatus.Active)
      (IncidentEngine.kinds (deps_engine deps)) None (tl_describes node 2) q c' ∧
    (tl_fired 2 q = true → reported (tip_lag_fingerprint node) c c').
Proof.
  intros Hboot Hlive Hst Hturns Hpace c q.
  pose proof (boot_takes _ _ (BitcoinTipLagOrIbdStalledRule.build_draft
    (EntityRef.BitcoinNode node) SignalStatus.Active) Hboot
    (list_elem_of_further _ _ _ (list_elem_of_further _ _ _ (list_elem_of_here _ _))) eq_refl) as Hreg.
  apply (pipeline_reports (T := BitcoinTipLagOrIbdStalledRule.t) _ _ _ _ _ _ (0%Z, None) node turns c
    (tl_passes node 2 ltac:(done))); [by apply Hreg; [..|left]|done..| | |].
  - apply boot_watched; [done..|]. apply boot_tip_lag_rule; [done|by split_and!].
  - eapply Forall_impl; [exact Hturns|]. apply stuck_reported.
  - by apply tl_on_pace.
Qed.

(** Two turns of a stuck node, and its rule has fired. *)
Lemma stuck_fires (times : list Instant) :
  2 ≤ length times → tl_fired 2 (foldl tl_move (0%Z, None) times) = true.
Proof. intros Hlen. unfold tl_fired. rewrite tl_end. cbn. apply Z.leb_le. lia. Qed.

(** C11: A node stuck in its initial download is reported: the repository's own
    end-to-end test, for every node, every answer of its kind and among any
    other nodes. Under the same circumstances, if every turn over the node
    says that it is in initial download with fewer than a thousand blocks to go
    and verification past 0.999, and lists at least eight peers, then from its
    second turn on a critical incident is open for it. If none was open before,
    this incident was opened as critical, and, unless a notification failed,
    every configured rule that matches this opening has been sent it. *)
Theorem stuck_node_alarms http store attempts tx draws node (turns : list Turn) :
  boot_runtime http read_file repo_of loaded = Some (Ok deps) → stored_incidents_live →
  appends_succeed (S := S) →
  Forall reports_stuck (turns_of node turns) →
  on_pace BitcoinTipLagOrIbdStalledRule.STATE_RETENTION None (times_of node turns) →
  let c := consumer_task deps store attempts tx draws in
  ∃ c', pipeline turns c = Some c' ∧
    (2 ≤ length (turns_of node turns) → reported (tip_lag_fingerprint node) c c').
Proof.
  intros Hboot%boot_runtime_booted Hlive Hst Hturns Hpace c.
  destruct (stuck_pipeline store attempts tx draws node turns) as (c' & Hc' & _ & _ & Hrep); [done..|].
  exists c'. split; [done|]. intros Hlen. apply Hrep, stuck_fires. by rewrite length_fmap.
Qed.

(** The pipeline over a node that has peers, by whether the rule has raised
    its alarm. *)
Lemma calm_pipeline raised since node turns c :
  appends_succeed (S := S) → engine_ok (engine c) →
  watched (EntityRef.BitcoinNode node) connected_states
    (BitcoinNoPeersRule.build_draft (EntityRef.BitcoinNode node) SignalStatus.Active)
    (IncidentEngine.kinds (engine c)) since (np_raised node) raised c →
  Forall reports_peers (turns_of node turns) →
  Forall (called (recent since)) (turns_of node turns) →
  ∃ c', pipeline turns c = Some c' ∧ rtc cstep c c' ∧
    open_severity (engine c') (no_peers_fingerprint node)
    = foldl (drive (IncidentEngine.kinds (engine c)) (no_peers_fingerprint node))
        (open_severity (engine c) (no_peers_fingerprint node))
        (match mono <$> turns_of node turns with [] => [] | m :: _ => calm_output node raised m end) ∧
    lifecycle_for (no_peers_fingerprint node) (pipeline_answers turns c)
    = told (IncidentEngine.kinds (engine c)) (no_peers_fingerprint node)
        (open_severity (engine c) (no_peers_fingerprint node))
        (match mono <$> turns_of node turns with [] => [] | m :: _ => calm_output node raised m end).
Proof.
  intros Hst Hok Hw Hturns Hcalls.
  destruct (pipeline_watch (T := BitcoinNoPeersRule.t) connected_states since _ _ _ _ _ raised node turns c
    (calm_passes node)) as (c' & Hc' & Hsteps & _ & Hsev & Htold); [done..| |done| |].
  - eapply Forall_impl; [exact Hturns|]. apply peers_reported.
  - by apply always_paced.
  - exists c'. rewrite calm_outputs in Hsev, Htold. by split_and!.
Qed.

(** After the alarm, the watch goes on over the turns that are observed later,
    with other conditions and another view of the rule. *)
Lemma watched_later {T} `{DiagnosticRule T} wanted1 wanted2 alarm {Q1 Q2}
    (d1 : Q1 → T → Prop) (d2 : Q2 → T → Prop) q1 q2 node turns c0 c1 since :
  pipeline turns c0 = Some c1 → engine_ok (engine c0) →
  (∀ key, state_at (read_models c0) key = None) →
  watched (EntityRef.BitcoinNode node) wanted1 alarm (IncidentEngine.kinds (engine c0)) None d1 q1 c1 →
  (∀ rule, d1 q1 rule → d2 q2 rule) →
  Forall (called (λ at_, at_ < since)%Z) (turns_of node turns) →
  watched (EntityRef.BitcoinNode node) wanted2 alarm (IncidentEngine.kinds (engine c1)) (Some since)
    d2 q2 c1.
Proof.
  intros Hrun Hok Hfresh [(pre & rule & post & Hrules & Hav & Hq) Hok1 Hk Hm] Hd Hbefore.
  split; [|done|done|].
  - exists pre, rule, post. split_and!; [done..|]. by apply Hd.
  - intros name Q' _ p Hp Hrec. exfalso.
    pose proof (pipeline_before node turns c0 c1 since name Hrun Hok Hfresh Hbefore p Hp) as Hlt.
    cbn in Hrec, Hlt. lia.
Qed.

(** C12: A node that finds peers again is reported as well. Let the node lose
    its peers as in the theorem above, long enough for the alarm, in turns
    whose calls all began before some time; then let every turn over it whose
    calls began at that time or later say that it has outbound connections,
    at least one of them. Then the first turns end with the incident reported
    as above. The others end with that incident resolved: none is open for the
    node, and, unless a notification failed, every configured rule that
    matches the resolution of this critical incident has been sent it. *)
Theorem recovered_node_resolves http store attempts tx draws node (lost found : list Turn) back m0 m1 :
  boot_runtime http read_file repo_of loaded = Some (Ok deps) → stored_incidents_live →
  appends_succeed (S := S) →
  Forall reports_no_peers (turns_of node lost) →
  on_pace BitcoinNoPeersRule.STATE_RETENTION None (times_of node lost) →
  head (mono <$> turns_of node lost) = Some m0 → last (mono <$> turns_of node lost) = Some m1 →
  (BitcoinNoPeersRule.DEFAULT_DEBOUNCE ≤ m1 - m0)%Z →
  Forall (called (λ at_, at_ < back)%Z) (turns_of node lost) →
  Forall (called (λ at_, back ≤ at_)%Z) (turns_of node found) →
  Forall reports_peers (turns_of node found) → turns_of node found ≠ [] →
  let c := consumer_task deps store attempts tx draws in
  ∃ c1 c2, pipeline lost c = Some c1 ∧ reported (no_peers_fingerprint node) c c1 ∧
    pipeline (lost ++ found) c = Some c2 ∧
    resolved (notification_rules c) (no_peers_fingerprint node) c1 c2.
Proof.
  intros Hboot%boot_runtime_booted Hlive Hst Hlost Hpace Hh Hl Hd Hbefore Hafter Hfound Hne c.
  destruct (peerless_pipeline store attempts tx draws node lost) as (c1 & Hc1 & Hsteps1 & Hw1 & Hrep);
    [done..|]. fold c in Hc1, Hsteps1, Hrep.
  assert (np_fired BitcoinNoPeersRule.DEFAULT_DEBOUNCE (foldl np_move None (mono <$> turns_of node lost))
    = true) as Hfired by by eapply np_fires.
  specialize (Hrep Hfired).
  destruct (calm_pipeline true (Some back) node found c1) as (c2 & Hc2 & _ & Hsev2 & Htold2);
    [done|by destruct Hw1| |done..|].
  { eapply (watched_later _ _ _ _ _ _ _ node lost c c1 back);
      [done|by apply boot_engine_ok|intros key; by apply boot_models_empty|exact Hw1| |done].
    intros rule Hr. rewrite <-Hfired. by apply np_raised_fired. }
  exists c1, c2. split_and!; [done|done|by rewrite (pipeline_app _ _ _ _ Hc1)|].
  rewrite <-(pipeline_rules _ _ _ Hc1). destruct Hrep as (i & Hi & Hcrit & _).
  destruct (turns_of node found) as [|t ts]; [done|]. cbn [fmap list_fmap calm_output] in Hsev2, Htold2.
  apply (clear_resolved
    (BitcoinNoPeersRule.build_draft (EntityRef.BitcoinNode node) SignalStatus.Active)
    (BitcoinNoPeersRule.build_draft (EntityRef.BitcoinNode node) SignalStatus.Cleared) found _ _ i);
    [by destruct Hw1|done| |done..].
  rewrite (w_kinds _ _ _ _ _ _ _ _ Hw1).
  etrans; [eapply boot_clears; [done|by right; left|done|done|done|done|done|by left]|done].
Qed.

(** C13: A stuck node that catches up is cleared, at its second healthy turn and
    not before. Let the node be stuck for two turns or more, all of whose calls
    began before some time; then let every turn over it whose calls began at
    that time or later say that it is out of its initial download and fewer
    than a thousand blocks behind. The first turns end with the incident
    reported as above; after one healthy turn it is still open; after two or
    more that incident is resolved: none is open for the node, and, unless a
    notification failed, every configured rule that matches the resolution of
    this critical incident has been sent it. *)
Theorem caught_up_node_resolves http store attempts tx draws node (stuck found : list Turn) back :
  boot_runtime http read_file repo_of loaded = Some (Ok deps) → stored_incidents_live →
  appends_succeed (S := S) →
  Forall reports_stuck (turns_of node stuck) → 2 ≤ length (turns_of node stuck) →
  on_pace BitcoinTipLagOrIbdStalledRule.STATE_RETENTION None (times_of node stuck) →
  Forall (called (λ at_, at_ < back)%Z) (turns_of node stuck) →
  Forall (called (λ at_, back ≤ at_)%Z) (turns_of node found) →
  Forall reports_caught_up (turns_of node found) →
  let c := consumer_task deps store attempts tx draws in
  ∃ c1 c2, pipeline stuck c = Some c1 ∧ reported (tip_lag_fingerprint node) c c1 ∧
    pipeline (stuck ++ found) c = Some c2 ∧
    (length (turns_of node found) ≤ 1 →
       open_severity (engine c2) (tip_lag_fingerprint node) = Some IncidentSeverity.Critical) ∧
    (2 ≤ length (turns_of node found) →
       resolved (notification_rules c) (tip_lag_fingerprint node) c1 c2).
Proof.
  intros Hboot%boot_runtime_booted Hlive Hst Hstuck Hlen Hpace Hbefore Hafter Hfound c.
  destruct (stuck_pipeline store attempts tx draws node stuck) as (c1 & Hc1 & Hsteps1 & Hw1 & Hrep);
    [done..|]. fold c in Hc1, Hsteps1, Hrep.
  assert (tl_fired 2 (foldl tl_move (0%Z, None) (mono <$> turns_of node stuck)) = true) as Hfired
    by (apply stuck_fires; by rewrite length_fmap).
  specialize (Hrep Hfired).
  destruct (pipeline_watch (T := BitcoinTipLagOrIbdStalledRule.t) caught_up_states (Some back) _ _ _ _
    _ (Some 0%Z) node found c1 (clearing_passes node 2 ltac:(done)))
    as (c2 & Hc2 & _ & _ & Hsev2 & Htold2); [done|done| | |done|by apply always_paced|].
  { eapply (watched_later _ _ _ _ _ _ _ node stuck c c1 back);
      [done|by apply boot_engine_ok|intros key; by apply boot_models_empty|exact Hw1| |done].
    intros rule Hr. by eapply tl_clearing. }
  { eapply Forall_impl; [exact Hfound|]. apply caught_up_reported. }
  rewrite clearing_outputs, length_fmap in Hsev2, Htold2 by done.
  change (compute_fingerprint _) with (tip_lag_fingerprint node) in Hsev2, Htold2.
  pose proof Hrep as (i & Hi & Hcrit & _).
  assert (open_severity (engine c1) (tip_lag_fingerprint node) = Some IncidentSeverity.Critical) as Hopen.
  { unfold open_severity. by rewrite Hi, <-Hcrit. }
  exists c1, c2. split_and!; [done|done|by rewrite (pipeline_app _ _ _ _ Hc1)| |]; intros Hn.
  - rewrite Hsev2, Hopen.
    by destruct (Z.leb_spec 2 (0 + Z.of_nat (length (turns_of node found)))); [lia|].
  - rewrite <-(pipeline_rules _ _ _ Hc1).
    destruct (Z.leb_spec 2 (0 + Z.of_nat (length (turns_of node found)))); [|lia].
    destruct (Nat.eqb_spec (length (turns_of node found)) 0); [lia|]. cbn [andb negb foldl] in Hsev2, Htold2.
    apply (clear_resolved
      (BitcoinTipLagOrIbdStalledRule.build_draft (EntityRef.BitcoinNode node) SignalStatus.Active)
      (BitcoinTipLagOrIbdStalledRule.build_draft (EntityRef.BitcoinNode node) SignalStatus.Cleared)
      found _ _ i); [by destruct Hw1|done| |done..].
    rewrite (w_kinds _ _ _ _ _ _ _ _ Hw1).
    etrans; [eapply boot_clears; [done|by right; right; left|done|done|done|done|done|by left]|done].
Qed.

(** What storage holds open is open at the start. *)
Lemma boot_open_severity (store : S) (attempts : A) tx draws l i :
  booted read_file repo_of loaded deps →
  load_open (repo_of (pool loaded)) = Ok l → i ∈ l →
  open_severity (engine (consumer_task deps store attempts tx draws)) (Incident.fingerprint i)
  = Some (Incident.severity i).
Proof.
  intros [_ (kinds & l' & _ & Hl' & He) _ _ _] Hload Hin. rewrite Hload in Hl'. injection Hl' as <-.
  unfold open_severity, consumer_task; cbn [engine].
  apply engine_new_Some in He as [Hnd ->]; cbn [IncidentEngine.open_incidents].
  by rewrite (proj2 (by_fingerprint_Some l _ i Hnd) (conj Hin eq_refl)).
Qed.

Lemma open_severity_open e fp s :
  open_severity e fp = Some s →
  ∃ i, IncidentEngine.open_incidents e !! fp = Some i ∧ Incident.severity i = s.
Proof. unfold open_severity. destruct (_ !! _) as [i|]; [|done]. intros [= <-]. by exists i. Qed.

(** C14: An incident that outlives a restart may stay open for ever. Start over
    storage that holds an open incident of missing peers. However many turns
    say that the node has outbound connections, whatever the other nodes do,
    the incident is still open at the end: the rule that would clear it starts
    without having raised it. *)
Theorem restart_strands_incident http store attempts tx draws node (turns : list Turn) l i :
  boot_runtime http read_file repo_of loaded = Some (Ok deps) → stored_incidents_live →
  appends_succeed (S := S) →
  load_open (repo_of (pool loaded)) = Ok l → i ∈ l →
  Incident.fingerprint i = no_peers_fingerprint node →
  Forall reports_peers (turns_of node turns) →
  ∃ c' j, pipeline turns (consumer_task deps store attempts tx draws) = Some c' ∧
    IncidentEngine.open_incidents (engine c') !! no_peers_fingerprint node = Some j ∧
    Incident.severity j = Incident.severity i.
Proof.
  intros Hboot%boot_runtime_booted Hlive Hst Hload Hin Hfp Hturns.
  set (c := consumer_task deps store attempts tx draws).
  destruct (calm_pipeline false None node turns c) as (c' & Hc' & _ & Hsev & _); [done| | |done|by apply called_always|].
  - by apply boot_engine_ok.
  - apply boot_watched; [done..|]. by apply boot_no_peers_rule.
  - exists c'. pose proof (boot_open_severity store attempts tx draws l i Hboot Hload Hin) as Hs.
    fold c in Hs. rewrite Hfp in Hs. rewrite Hs in Hsev.
    replace (match mono <$> _ with [] => _ | _ => _ end) with (@nil IncidentSignalDraft.t) in Hsev
      by by destruct (mono <$> _).
    destruct (open_severity_open _ _ _ Hsev) as (j & Hj & Hjs). by exists j.
Qed.

(** So does one of a stuck node, however long it has caught up. *)
Theorem restart_strands_stuck_incident http store attempts tx draws node (turns : list Turn) l i :
  boot_runtime http read_file repo_of loaded = Some (Ok deps) → stored_incidents_live →
  appends_succeed (S := S) →
  load_open (repo_of (pool loaded)) = Ok l → i ∈ l →
  Incident.fingerprint i = tip_lag_fingerprint node →
  Forall reports_caught_up (turns_of node turns) →
  ∃ c' j, pipeline turns (consumer_task deps store attempts tx draws) = Some c' ∧
    IncidentEngine.open_incidents (engine c') !! tip_lag_fingerprint node = Some j ∧
    Incident.severity j = Incident.severity i.
Proof.
  intros Hboot%boot_runtime_booted Hlive Hst Hload Hin Hfp Hturns.
  set (c := consumer_task deps store attempts tx draws).
  destruct (pipeline_watch (T := BitcoinTipLagOrIbdStalledRule.t) caught_up_states None _ _ _ _
    _ None node turns c (clearing_passes node 2 ltac:(done))) as (c' & Hc' & _ & _ & Hsev & _);
    [done|done| | |by apply called_always|by apply always_paced|].
  - apply boot_watched; [done..|]. by apply boot_tip_lag_rule.
  - eapply Forall_impl; [exact Hturns|]. apply caught_up_reported.
  - rewrite clearing_outputs in Hsev by done.
    change (compute_fingerprint _) with (tip_lag_fingerprint node) in Hsev.
    pose proof (boot_open_severity store attempts tx draws l i Hboot Hload Hin) as Hs.
    fold c in Hs. rewrite Hfp in Hs. rewrite Hs in Hsev.
    destruct (open_severity_open _ _ _ Hsev) as (j & Hj & Hjs). by exists c', j.
Qed.

(** C15: A node that does not answer is never reported. However many passes in a
    row get no answer to any call, the pipeline ends where it began: nothing
    is stored, no rule is evaluated, no incident is opened and nothing is
    sent, although every pass carries a critical health entry. *)
Theorem unreachable_node_unseen c (turns : list Turn) :
  Forall unreachable turns → pipeline turns c = Some c.
Proof.
  intros Hturns.
  assert (∃ batches, mapM turn_batch turns = Some batches ∧ run batches c = Some c) as (bs & Hbs & Hr).
  { assert (∃ batches, Forall2 (λ t p, turn_batch t = Some p) turns batches ∧ run batches c = Some c)
      as (bs & Hbs & Hr); [|exists bs; split; [by apply mapM_Some_2|done]].
    induction Hturns as [|t turns Ht _ (bs & Hbs & Hr)]; [by exists []|].
    destruct (turn_batch_some t) as (b & Hb & _ & _ & Hfail).
    exists ((b, wall t, mono t) :: bs). split; [by constructor|]. cbn.
    destruct Hfail as (health & error & Hres).
    { unfold unreachable, calls in Ht. rewrite !Forall_cons in Ht. destruct Ht as (Ha1 & Ha2 & Ha3 & Ha4 & _).
      unfold pass_payloads, fetch_all, payloads_of, timed_call; cbn.
      unfold get_blockchain_info, get_mempool_info, get_network_info, get_peer_info.
      repeat match goal with |- context [call ?d ?a ?s ?x] =>
        destruct (call_no_answer d a s x) as [? ->]; [done|] end. done. }
    unfold process_batch, observations_from_batch. rewrite Hres. cbn. done. }
  unfold pipeline. by rewrite Hbs.
Qed.
End turns.

(** ** Concrete inputs *)

(** The start-up from a loaded configuration, over stores of which only that
    of the incidents may hold something. *)
Definition started (repo : MemoryIncidentRepository.t) (config : Config.t)
    (secrets : ResolvedSecrets.t) :
    option (Result (RuntimeDeps (R := MemoryIncidentRepository.t)) BootError.t) :=
  boot_runtime (Ok ()) (λ _, Err "no file") (λ repo, repo)
    (mk_loaded config secrets sample_sidecar repo).

Definition started_consumer (deps : RuntimeDeps (R := MemoryIncidentRepository.t)) :=
  consumer_task deps MemoryObservationStore.new MemoryNotificationAttemptRepository.new
    (Channel.mk [] None) 100.

Lemma started_ok repo config secrets :
  match started repo config secrets with Some (Ok _) => true | _ => false end = true →
  ∃ deps, started repo config secrets = Some (Ok deps).
Proof. destruct (started repo config secrets) as [[deps|e]|]; [by exists deps|done..]. Qed.

Lemma started_live l repo config secrets :
  load_open repo = Ok l → Forall (λ i, live (Incident.fingerprint i) i) l →
  stored_incidents_live (λ repo, repo) (mk_loaded config secrets sample_sidecar repo).
Proof. intros Hl Hlive l' Hl'. change (load_open repo = Ok l') in Hl'. rewrite Hl in Hl'. by injection Hl' as <-. Qed.

Lemma memory_appends : appends_succeed (S := MemoryObservationStore.t).
Proof. intros s batch. eexists. reflexivity. Qed.

(** A turn whose mempool call times out, and one of another node without any
    answer. *)
Definition sample_turn (uuids : nat) (at_ : DateTime) : Turn :=
  mk_turn sample_bitcoin_collector sample_collection_context sample_answers uuids at_ at_.

Definition other_collector : BitcoinCoreRpcCollector.t := {|
  BitcoinCoreRpcCollector.descriptor := BitcoinCoreRpcCollector.descriptor sample_bitcoin_collector;
  BitcoinCoreRpcCollector.node_id := BitcoinNodeId.mk "btc-other";
  BitcoinCoreRpcCollector.client := BitcoinCoreRpcCollector.client sample_bitcoin_collector;
|}.

Definition silent_turn (uuids : nat) (at_ : DateTime) : Turn :=
  mk_turn other_collector sample_collection_context
    (mk_answers 0 (unanswered 0) (unanswered 0) (unanswered 0) (unanswered 0) (from_secs 5))
    uuids at_ at_.

Lemma sample_turn_peerless uuids at_ : reports_no_peers (sample_turn uuids at_).
Proof. split; eexists; repeat split; reflexivity. Qed.

Definition peerless_turns : list Turn :=
  [silent_turn 0 0; sample_turn 20 0; silent_turn 40 (from_secs 10);
   sample_turn 60 (from_secs 30); sample_turn 80 (from_secs 60)].

Lemma peerless_node_alarms_witness :
  ∃ deps c' i, started MemoryIncidentRepository.new sample_config sample_secrets = Some (Ok deps) ∧
    pipeline peerless_turns (started_consumer deps) = Some c' ∧
    IncidentEngine.open_incidents (engine c') !! no_peers_fingerprint sample_node = Some i ∧
    Incident.severity i = IncidentSeverity.Critical.
Proof.
  destruct (started_ok MemoryIncidentRepository.new sample_config sample_secrets) as [deps Hboot]; [vm_compute; reflexivity|].
  destruct (peerless_node_alarms _ _ _ deps _ MemoryObservationStore.new
    MemoryNotificationAttemptRepository.new (Channel.mk [] None) 100 sample_node peerless_turns Hboot)
    as (c' & Hc' & Hi).
  - apply (started_live []); [vm_compute; reflexivity|constructor].
  - exact memory_appends.
  - change (Forall reports_no_peers
      [sample_turn 20 0; sample_turn 60 (from_secs 30); sample_turn 80 (from_secs 60)]).
    repeat (apply Forall_cons_2; [apply sample_turn_peerless|]). apply Forall_nil_2.
  - vm_compute. repeat split; discriminate.
  - destruct (Hi 0%Z (from_secs 60)) as (i & Hi' & Hsev & _);
      [reflexivity|reflexivity|vm_compute; discriminate|].
    exists deps, c', i. exact (conj Hboot (conj Hc' (conj Hi' Hsev))).
Defined.

Lemma unreachable_node_unseen_witness :
  pipeline (silent_turn 0 <$> [0; from_secs 30; from_secs 60; from_secs 90]%Z) sample_consumer
  = Some sample_consumer.
Proof.
  apply (unreachable_node_unseen sample_consumer). apply Forall_fmap, Forall_forall. intros at_ _.
  unfold unreachable. cbn. repeat (apply Forall_cons_2; [exact I|]). apply Forall_nil_2.
Defined.

(** *** A node that finds peers again *)

(** What the node answers to a call is told by its body. *)
#[local] Instance body_rpc_json : RpcJson := {|
  decode_blockchain_info := decode_blockchain_info (RpcJson := sample_rpc_json);
  decode_mempool_info := decode_mempool_info (RpcJson := sample_rpc_json);
  decode_network_info body := Ok (sample_envelope 3 (GetNetworkInfoResponse.mk 1 "" 1 0 None
    (Some (if String.eqb body "connected" then 8 else 0)%Z) (Some true)));
  decode_peer_info := decode_peer_info (RpcJson := sample_rpc_json);
  value_to_string _ := "";
|}.

Definition connected : Timed.t HttpAnswer.t :=
  Timed.mk 5000 5007 (HttpAnswer.Response 200 (HttpAnswer.Bytes "connected")).

Definition connected_turn (uuids : nat) (at_ : DateTime) : Turn :=
  mk_turn sample_bitcoin_collector sample_collection_context
    (mk_answers 5000 connected connected connected connected 9000) uuids at_ at_.

Lemma lost_turn_peerless uuids at_ : reports_no_peers (sample_turn uuids at_).
Proof. split; eexists; repeat split; reflexivity. Qed.

Lemma connected_turn_peers uuids at_ : reports_peers (connected_turn uuids at_).
Proof. split; [do 2 eexists; repeat split; [reflexivity..|discriminate]|eexists; reflexivity]. Qed.

Lemma recovered_node_resolves_witness :
  ∃ deps c1 c2, started MemoryIncidentRepository.new sample_config sample_secrets = Some (Ok deps) ∧
    pipeline peerless_turns (started_consumer deps) = Some c1 ∧
    is_Some (IncidentEngine.open_incidents (engine c1) !! no_peers_fingerprint sample_node) ∧
    pipeline (peerless_turns ++ [silent_turn 100 (from_secs 70); connected_turn 120 (from_secs 90)])
      (started_consumer deps) = Some c2 ∧
    IncidentEngine.open_incidents (engine c2) !! no_peers_fingerprint sample_node = None.
Proof.
  destruct (started_ok MemoryIncidentRepository.new sample_config sample_secrets) as [deps Hboot];
    [vm_compute; reflexivity|].
  destruct (recovered_node_resolves _ _ _ deps _ MemoryObservationStore.new
    MemoryNotificationAttemptRepository.new (Channel.mk [] None) 100 sample_node peerless_turns
    [silent_turn 100 (from_secs 70); connected_turn 120 (from_secs 90)] 5000 0 (from_secs 60) Hboot)
    as (c1 & c2 & Hc1 & Hi & Hc2 & Hr).
  - apply (started_live []); [vm_compute; reflexivity|constructor].
  - exact memory_appends.
  - change (Forall reports_no_peers
      [sample_turn 20 0; sample_turn 60 (from_secs 30); sample_turn 80 (from_secs 60)]).
    repeat (apply Forall_cons_2; [apply lost_turn_peerless|]). apply Forall_nil_2.
  - vm_compute. repeat split; discriminate.
  - reflexivity.
  - reflexivity.
  - vm_compute. discriminate.
  - change (Forall (called (λ at_, at_ < 5000)%Z)
      [sample_turn 20 0; sample_turn 60 (from_secs 30); sample_turn 80 (from_secs 60)]).
    repeat (apply Forall_cons_2; [repeat (apply Forall_cons_2; [reflexivity|]); apply Forall_nil_2|]).
    apply Forall_nil_2.
  - change (Forall (called (λ at_, 5000 ≤ at_)%Z) [connected_turn 120 (from_secs 90)]).
    repeat (apply Forall_cons_2; [repeat (apply Forall_cons_2; [discriminate|]); apply Forall_nil_2|]).
    apply Forall_nil_2.
  - change (Forall reports_peers [connected_turn 120 (from_secs 90)]).
    apply Forall_cons_2; [apply connected_turn_peers|apply Forall_nil_2].
  - discriminate.
  - destruct Hi as (i & Hi & _), Hr as [Hr _]. exists deps, c1, c2.
    exact (conj Hboot (conj Hc1 (conj (mk_is_Some _ _ Hi) (conj Hc2 Hr)))).
Defined.

(** An incident the process before had opened. *)
Definition stranded : Incident.t :=
  let d := BitcoinNoPeersRule.build_draft (EntityRef.BitcoinNode sample_node) SignalStatus.Active in
  IncidentEngine.new_incident d (compute_fingerprint d) IncidentSeverity.Critical 0
    (ObservationId.new 3) 7.

Definition stranded_repo : MemoryIncidentRepository.t :=
  (save MemoryIncidentRepository.new stranded).2.

Lemma restart_strands_incident_witness :
  ∃ deps c' j, started stranded_repo sample_config sample_secrets = Some (Ok deps) ∧
    pipeline (connected_turn 20 <$> [0; from_secs 3600; from_secs 86400]%Z) (started_consumer deps)
      = Some c' ∧
    IncidentEngine.open_incidents (engine c') !! no_peers_fingerprint sample_node = Some j ∧
    Incident.severity j = IncidentSeverity.Critical.
Proof.
  destruct (started_ok stranded_repo sample_config sample_secrets) as [deps Hboot];
    [vm_compute; reflexivity|].
  destruct (restart_strands_incident _ _ _ deps _ MemoryObservationStore.new
    MemoryNotificationAttemptRepository.new (Channel.mk [] None) 100 sample_node
    (connected_turn 20 <$> [0; from_secs 3600; from_secs 86400]%Z) [stranded] stranded Hboot)
    as (c' & j & Hc' & Hj & Hs).
  - apply (started_live [stranded]); [vm_compute; reflexivity|].
    constructor; [apply live_new|constructor].
  - exact memory_appends.
  - reflexivity.
  - apply list_elem_of_here.
  - reflexivity.
  - change (Forall reports_peers [connected_turn 20 0; connected_turn 20 (from_secs 3600);
      connected_turn 20 (from_secs 86400)]).
    repeat (apply Forall_cons_2; [apply connected_turn_peers|]). apply Forall_nil_2.
  - exists deps, c', j. exact (conj Hboot (conj Hc' (conj Hj Hs))).
Defined.

(** *** The repository's end-to-end test: [tests/e2e_tip_lag.rs] *)

Definition e2e_config : Config.t := {|
  Config.sidecar := SidecarConfig.mk "sidecar_id" SidecarConfig.default_log_level;
  Config.storage := StorageConfig.mk "bithound.db" StorageRetentionConfig.default;
  Config.runtime := RuntimeConfig.mk 64 5;
  Config.api := ApiConfig.default;
  Config.incidents := IncidentsConfig.default;
  Config.bitcoin_nodes := [BitcoinNodeConfig.mk "btc-test" "http://127.0.0.1:18443" None
    (BitcoinAuthConfig.UserPass "test" "BITHOUND_E2E_BITCOIND_PASSWORD")];
  Config.lnd_nodes := [];
  Config.hosts := [];
  Config.collectors := [CollectorDescriptorConfig.mk "btc-test-rpc"
    (CollectorTargetConfig.BitcoinNode "btc-test") (IntegrationConfig.BitcoinCoreRpc 1) "test"
    (Some "e2e mock bitcoind")];
  Config.notifications := NotificationsConfig.default;
  Config.notification_rules := [NotificationRuleConfig.mk "all-to-webhook" "All events to webhook"
    true SeverityConfig.Info [] (NotificationTargetConfig.Webhook "BITHOUND_E2E_WEBHOOK_URL")];
|}.

Definition e2e_secrets : ResolvedSecrets.t := ResolvedSecrets.mk
  {["BITHOUND_E2E_BITCOIND_PASSWORD" := "test-password";
    "BITHOUND_E2E_WEBHOOK_URL" := "http://127.0.0.1:18444/incident"]}.

(** The answers of the mock node, which takes the request's number from the
    body it is handed here; 0.99996 as the double it is. *)
Definition a1_peer (i : string) : PeerInfoEntry.t :=
  PeerInfoEntry.mk false (Some ("10.0.0." +:+ i +:+ ":8333")) (Some "/Satoshi:25.0.0/")
    (Some "outbound-full-relay").

Definition echoing {T} (number : string) (v : T) : Result (RpcResponse.t T) string :=
  Ok (echoed_envelope number v).

#[local] Instance a1_rpc_json : RpcJson := {|
  decode_blockchain_info body := echoing body (GetBlockchainInfoResponse.mk "main" 899500 900000
    (Some "deadbeef") (S754_finite false 9006838966770802 (-53)) true false 500000000000);
  decode_mempool_info body := echoing body (GetMempoolInfoResponse.mk true 0 0 0 300000000);
  decode_network_info body := echoing body (GetNetworkInfoResponse.mk 250000 "/Satoshi:25.0.0/"
    70016 10 (Some 0%Z) (Some 10%Z) (Some true));
  decode_peer_info body :=
    echoing body (a1_peer <$> ["1"; "2"; "3"; "4"; "5"; "6"; "7"; "8"; "9"; "10"]);
  value_to_string _ := "";
|}.

(** The collector that is built, polled every second. *)
Definition e2e_collector : BitcoinCoreRpcCollector.t := {|
  BitcoinCoreRpcCollector.descriptor := {|
    CollectorDescriptor.id := CollectorId.mk "btc-test-rpc";
    CollectorDescriptor.integration := IntegrationKind.BitcoinCoreRpc (from_secs 1);
    CollectorDescriptor.target := CollectorTarget.BitcoinNode (BitcoinNodeId.mk "btc-test");
    CollectorDescriptor.instance_label := "test";
    CollectorDescriptor.description := Some "e2e mock bitcoind";
  |};
  BitcoinCoreRpcCollector.node_id := BitcoinNodeId.mk "btc-test";
  BitcoinCoreRpcCollector.client := BitcoinRpcClient.new "http://127.0.0.1:18443"
    (BitcoinRpcAuth.UserPass "test" "test-password") (from_secs 5);
|}.

(** A poll in which every request is answered at once. *)
Definition echoed_turn (built : BitcoinCoreRpcCollector.t) (k : nat) (at_ : DateTime) : Turn :=
  let collector := Nat.iter k polled_once built in
  let number := BitcoinRpcClient.rpc_seq (BitcoinCoreRpcCollector.client collector) in
  mk_turn collector (poll_context sample_sidecar built at_ k)
    (mk_answers at_ (echo at_ number) (echo at_ (number + 1)) (echo at_ (number + 2))
       (echo at_ (number + 3)) at_) (20 * k) at_ at_.

(** The first polls of the node, one a second. *)
Definition a1_turn_of (built : BitcoinCoreRpcCollector.t) (k : nat) : Turn :=
  echoed_turn built k (from_secs (Z.of_nat k)).
Definition a1_turn : nat → Turn := a1_turn_of e2e_collector.

Definition e2e_turn (deps : RuntimeDeps (R := MemoryIncidentRepository.t)) (k : nat) : option Turn :=
  collector ← head (polling_collectors deps); Some (a1_turn_of collector k).

Lemma a1_turn_stuck k : k < 2 → reports_stuck (a1_turn k).
Proof.
  intros Hk. destruct k as [|[|k]]; [| |lia]; (split;
    [eexists; split; [vm_compute; reflexivity|]; eexists; split; [vm_compute; reflexivity|];
     split_and!; vm_compute; reflexivity
    |eexists; split; [vm_compute; reflexivity|]; apply Nat.leb_le; vm_compute; reflexivity]).
Qed.

(** These are turns one task can take, one after the other. *)
Example a1_thread : thread sample_sidecar e2e_collector (a1_turn <$> seq 0 3).
Proof. intros [|[|[|k]]] t [= <-]; (split; [done|by eexists _, _]). Qed.

(** What the webhook receives, and for whom. *)
Example e2e_tip_lag_or_ibd_stalled_fires_via_webhook :
  match started MemoryIncidentRepository.new e2e_config e2e_secrets with
  | Some (Ok deps) =>
      turns ← mapM (e2e_turn deps) (seq 0 3);
      c' ← pipeline turns (started_consumer deps);
      Some ((λ d, (NotificationMessage.title (NotificationDispatch.message d),
                   (NotificationDispatch.targets d).*2)) <$> Channel.sent (notif_tx c'))
  | _ => None
  end = Some [("OPENED [Critical] bitcoin.tip_lag_or_ibd_stalled",
      [NotificationTarget.Webhook (WebhookTarget.mk "http://127.0.0.1:18444/incident"
         WebhookMethod.Post [])])].
Proof. vm_compute. reflexivity. Qed.

(** The same with a rule for critical stalls only. *)
Definition paging_config : Config.t := {|
  Config.sidecar := Config.sidecar e2e_config;
  Config.storage := Config.storage e2e_config;
  Config.runtime := Config.runtime e2e_config;
  Config.api := Config.api e2e_config;
  Config.incidents := Config.incidents e2e_config;
  Config.bitcoin_nodes := Config.bitcoin_nodes e2e_config;
  Config.lnd_nodes := [];
  Config.hosts := [];
  Config.collectors := Config.collectors e2e_config;
  Config.notifications := Config.notifications e2e_config;
  Config.notification_rules := [NotificationRuleConfig.mk "page" "Critical stalls" true
    SeverityConfig.Critical ["bitcoin.tip_lag_or_ibd_stalled"]
    (NotificationTargetConfig.Webhook "BITHOUND_E2E_WEBHOOK_URL")];
|}.

Definition paging_rule : NotificationRule.t :=
  NotificationRule.mk (NotificationRuleId.mk "page") (NotificationRuleName.mk "Critical stalls") true
    IncidentSeverity.Critical [tip_lag_kind]
    (NotificationTarget.Webhook (WebhookTarget.mk "http://127.0.0.1:18444/incident" WebhookMethod.Post [])).

(** What a start-up came to, as far as it can be compared. *)
Definition started_with {T} (f : RuntimeDeps (R := MemoryIncidentRepository.t) → T) config : option T :=
  match started MemoryIncidentRepository.new config e2e_secrets with
  | Some (Ok deps) => Some (f deps)
  | _ => None
  end.

Lemma started_is {T} (f : RuntimeDeps (R := MemoryIncidentRepository.t) → T) config deps x :
  started MemoryIncidentRepository.new config e2e_secrets = Some (Ok deps) →
  started_with f config = Some x → f deps = x.
Proof. unfold started_with. intros ->. by intros [= <-]. Qed.

Lemma tested {T} (f : T → bool) (o : option T) x :
  o ≫= (λ c, Some (f c)) = Some true → o = Some x → f x = true.
Proof. intros Ho ->. by injection Ho. Qed.

(** An execution in which the first poll has reached the stores. *)
Lemma execution_is_pipeline_witness :
  ∃ deps a turns, started MemoryIncidentRepository.new e2e_config e2e_secrets = Some (Ok deps) ∧
    assembled (deps_sidecar_id deps) (polling_collectors deps) (length (subscription_collectors deps))
      (RuntimeConfig.channel_capacity (runtime_config deps)) (started_consumer deps)
      (runtime_config deps) (api_config deps) a ∧
    processed (Assembly.rt a) ≠ [] ∧
    mapM turn_batch turns.*2 = Some (processed (Assembly.rt a)) ∧
    pipeline turns.*2 (started_consumer deps) = Some (Runtime.pipeline (Assembly.rt a)) ∧
    thread (deps_sidecar_id deps) e2e_collector (turns_by 0 turns).
Proof.
  destruct (started_ok MemoryIncidentRepository.new e2e_config e2e_secrets) as [deps Hboot];
    [vm_compute; reflexivity|].
  assert (polling_collectors deps = [e2e_collector]) as Hcol.
  { apply (started_is polling_collectors e2e_config deps _ Hboot). vm_compute. reflexivity. }
  assert (runtime_config deps = Config.runtime e2e_config) as Hcfg.
  { apply (started_is runtime_config e2e_config deps _ Hboot). vm_compute. reflexivity. }
  assert (0 < RuntimeConfig.channel_capacity (runtime_config deps))%Z as Hpos by (by rewrite Hcfg).
  destruct (poll_some e2e_collector (poll_context (deps_sidecar_id deps) e2e_collector 0%Z 0)
    (answers (a1_turn 0)) 0) as (b & Hb & _).
  assert (is_Some (assemble (polling_collectors deps) (length (subscription_collectors deps))
    (runtime_config deps) (api_config deps) (started_consumer deps))) as [a0 Ha0].
  { unfold assemble, start. rewrite Hcfg. by eexists. }
  destruct (first_batch_processed (deps_sidecar_id deps) (polling_collectors deps)
    (length (subscription_collectors deps)) (RuntimeConfig.channel_capacity (runtime_config deps))
    (started_consumer deps) (runtime_config deps) (api_config deps) eq_refl Hpos a0 e2e_collector
    (answers (a1_turn 0) : @Answer _ bitcoin_polling) 0%Z 0 0 (polled_once e2e_collector) b Ha0) as (a & Ha & Hin);
    [by rewrite Hcol|done|exact Hb|].
  destruct (execution_is_pipeline deps MemoryObservationStore.new
    MemoryNotificationAttemptRepository.new (Channel.mk [] None) 100 a) as (turns & Ht & Hp & _ & Hof).
  - by apply Z.lt_le_incl.
  - exact Ha.
  - exists deps, a, turns. split_and!; [exact Hboot|exact Ha| |exact Ht|exact Hp|].
    + intros Hnil. rewrite Hnil in Hin. by apply elem_of_nil in Hin.
    + apply Hof. by rewrite Hcol.
Defined.

Lemma stuck_node_alarms_witness :
  ∃ deps c' i o, started MemoryIncidentRepository.new paging_config e2e_secrets = Some (Ok deps) ∧
    mapM (e2e_turn deps) (seq 0 2) = Some [a1_turn 0; a1_turn 1] ∧
    pipeline [a1_turn 0; a1_turn 1] (started_consumer deps) = Some c' ∧
    IncidentEngine.open_incidents (engine c') !! tip_lag_fingerprint (BitcoinNodeId.mk "btc-test")
      = Some i ∧
    Incident.id o = Incident.id i ∧ sent_to paging_rule (IncidentLifecycleEvent.Opened o) c'.
Proof.
  destruct (started_ok MemoryIncidentRepository.new paging_config e2e_secrets) as [deps Hboot];
    [vm_compute; reflexivity|].
  assert (polling_collectors deps = [e2e_collector]) as Hcol.
  { apply (started_is polling_collectors paging_config deps _ Hboot). vm_compute. reflexivity. }
  assert (deps_notification_rules deps = [paging_rule]) as Hrules.
  { apply (started_is deps_notification_rules paging_config deps _ Hboot). vm_compute. reflexivity. }
  assert ((pipeline [a1_turn 0; a1_turn 1] (started_consumer deps)
    ≫= λ c, Some (match trace c with [] => true | _ => false end)) = Some true) as Htrace.
  { apply (started_is (λ deps, pipeline [a1_turn 0; a1_turn 1] (started_consumer deps)
      ≫= λ c, Some (match trace c with [] => true | _ => false end)) paging_config deps _ Hboot).
    vm_compute. reflexivity. }
  assert (open_severity (deps_engine deps) (tip_lag_fingerprint (BitcoinNodeId.mk "btc-test")) = None)
    as Hnone.
  { apply (started_is (λ deps, open_severity (deps_engine deps)
      (tip_lag_fingerprint (BitcoinNodeId.mk "btc-test"))) paging_config deps _ Hboot).
    vm_compute. reflexivity. }
  destruct (stuck_node_alarms _ _ _ deps _ MemoryObservationStore.new
    MemoryNotificationAttemptRepository.new (Channel.mk [] None) 100 (BitcoinNodeId.mk "btc-test")
    [a1_turn 0; a1_turn 1] Hboot) as (c' & Hc' & Hi);
    [apply (started_live []); [vm_compute; reflexivity|constructor]|exact memory_appends|..].
  - change (Forall reports_stuck [a1_turn 0; a1_turn 1]).
    repeat (apply Forall_cons_2; [apply a1_turn_stuck; lia|]). apply Forall_nil_2.
  - vm_compute. repeat split; discriminate.
  - destruct Hi as (i & Hi & _ & Hopened); [apply Nat.leb_le; vm_compute; reflexivity|].
    destruct (Hopened Hnone) as (o & (_ & Hk & _) & Hcrit & Hid & Htold).
    exists deps, c', i, o. split; [exact Hboot|]. split; [unfold e2e_turn; rewrite Hcol; reflexivity|].
    split; [exact Hc'|]. split; [exact Hi|]. split; [exact Hid|]. apply Htold.
    + pose proof (tested _ _ _ Htrace Hc') as Hempty. cbv beta in Hempty.
      unfold notify_ok. clear - Hempty. destruct (trace c'); [apply Forall_nil_2|discriminate].
    + change (paging_rule ∈ deps_notification_rules deps). rewrite Hrules. apply list_elem_of_here.
    + unfold NotificationRule.matches. cbn. rewrite Hk, Hcrit. reflexivity.
Defined.

(** *** The stuck node catches up *)

(** The mock node is out of its initial download after the second poll. *)
#[local] Instance a1_body_rpc_json : RpcJson := {|
  decode_blockchain_info body :=
    let stuck := bool_decide (body = "1" ∨ body = "5") in
    echoing body (GetBlockchainInfoResponse.mk "main" (if stuck then 899500 else 900000)
      900000 (Some "deadbeef") (S754_finite false 9006838966770802 (-53)) stuck false 500000000000);
  decode_mempool_info := decode_mempool_info (RpcJson := a1_rpc_json);
  decode_network_info := decode_network_info (RpcJson := a1_rpc_json);
  decode_peer_info := decode_peer_info (RpcJson := a1_rpc_json);
  value_to_string _ := "";
|}.

(** The third and the fourth poll, a minute later. *)
Definition caught_up_turn (k : nat) : Turn :=
  echoed_turn e2e_collector (2 + k) (from_secs (60 + Z.of_nat k)).

Lemma a1_turn_stuck_still k : k < 2 → reports_stuck (a1_turn k).
Proof.
  intros Hk. destruct k as [|[|k]]; [| |lia]; (split;
    [eexists; split; [vm_compute; reflexivity|]; eexists; split; [vm_compute; reflexivity|];
     split_and!; vm_compute; reflexivity
    |eexists; split; [vm_compute; reflexivity|]; apply Nat.leb_le; vm_compute; reflexivity]).
Qed.

Lemma caught_up_turn_reports k : k < 2 → reports_caught_up (caught_up_turn k).
Proof.
  intros Hk. destruct k as [|[|k]]; [| |lia]; (split;
    [eexists; split; [vm_compute; reflexivity|]; eexists; split; [vm_compute; reflexivity|];
     split; vm_compute; reflexivity
    |eexists; vm_compute; reflexivity]).
Qed.

Lemma caught_up_node_resolves_witness :
  ∃ deps c1 c2, started MemoryIncidentRepository.new e2e_config e2e_secrets = Some (Ok deps) ∧
    pipeline [a1_turn 0; a1_turn 1] (started_consumer deps) = Some c1 ∧
    is_Some (IncidentEngine.open_incidents (engine c1) !! tip_lag_fingerprint (BitcoinNodeId.mk "btc-test")) ∧
    pipeline ([a1_turn 0; a1_turn 1] ++ [caught_up_turn 0; caught_up_turn 1])
      (started_consumer deps) = Some c2 ∧
    IncidentEngine.open_incidents (engine c2) !! tip_lag_fingerprint (BitcoinNodeId.mk "btc-test") = None.
Proof.
  destruct (started_ok MemoryIncidentRepository.new e2e_config e2e_secrets) as [deps Hboot];
    [vm_compute; reflexivity|].
  destruct (caught_up_node_resolves _ _ _ deps _ MemoryObservationStore.new
    MemoryNotificationAttemptRepository.new (Channel.mk [] None) 100 (BitcoinNodeId.mk "btc-test")
    [a1_turn 0; a1_turn 1] [caught_up_turn 0; caught_up_turn 1] (from_secs 60) Hboot)
    as (c1 & c2 & Hc1 & Hi & Hc2 & _ & Hr).
  - apply (started_live []); [vm_compute; reflexivity|constructor].
  - exact memory_appends.
  - change (Forall reports_stuck [a1_turn 0; a1_turn 1]).
    repeat (apply Forall_cons_2; [apply a1_turn_stuck_still; lia|]). apply Forall_nil_2.
  - apply Nat.leb_le. vm_compute. reflexivity.
  - vm_compute. repeat split; discriminate.
  - change (Forall (called (λ at_, at_ < from_secs 60)%Z) [a1_turn 0; a1_turn 1]).
    repeat (apply Forall_cons_2; [repeat (apply Forall_cons_2; [reflexivity|]); apply Forall_nil_2|]).
    apply Forall_nil_2.
  - change (Forall (called (λ at_, from_secs 60 ≤ at_)%Z) [caught_up_turn 0; caught_up_turn 1]).
    repeat (apply Forall_cons_2; [repeat (apply Forall_cons_2; [discriminate|]); apply Forall_nil_2|]).
    apply Forall_nil_2.
  - change (Forall reports_caught_up [caught_up_turn 0; caught_up_turn 1]).
    repeat (apply Forall_cons_2; [apply caught_up_turn_reports; lia|]). apply Forall_nil_2.
  - destruct Hi as (i & Hi & _). destruct Hr as [Hr _]; [apply Nat.leb_le; vm_compute; reflexivity|].
    exists deps, c1, c2.
    exact (conj Hboot (conj Hc1 (conj (mk_is_Some _ _ Hi) (conj Hc2 Hr)))).
Defined.
